(** * Native group orchestration: a shallow embedding and its verification

    The development follows the layout of the integration:
    - [Py]: the fragment of Python's value model and builtins the code relies on
      (dynamic values, insertion-ordered dictionaries, [str.split],
      [int()], true division and truncation on binary64 floats);
    - [Const]: [const.py];
    - the data model of [mapping.py], one module per dataclass;
    - [Classifier]: [classifier.py], over a record of registry lookups;
    - [ProtocolHandler]: the interface of [handlers/base.py], with the
      [ZWaveJS] and [Zigbee2MQTT] adapters as its instances;
    - [Orchestrator]: [orchestrator.py], in a state-and-exception monad;
    - [Services]: the dispatch service of [__init__.py];
    - [Spec]: the vocabulary of the statements.

    All definitions come first; the lemmas and theorems follow. *)

From Stdlib Require Import ZArith Floats Uint63 Ascii String.
From stdpp Require Import gmap strings list fin_maps pretty.

Set Warnings "-register-all,-inexact-float".

(* ===================================================================== *)
(** ** Python values and builtins *)
(* ===================================================================== *)

Module Py.

(** A Python number: [int] (unbounded) or [float] (IEEE binary64). *)
Inductive number :=
| NumInt (z : Z)
| NumFloat (f : float).

(** The JSON-like values that travel through service data, state
    attributes and the persisted blob. A [dict] keeps insertion order. *)
Inductive pyval :=
| PNone
| PBool (b : bool)
| PNum (n : number)
| PStr (s : string)
| PList (l : list pyval)
| PDict (d : list (string * pyval)).

Definition PInt (z : Z) : pyval := PNum (NumInt z).
Definition PFloat (f : float) : pyval := PNum (NumFloat f).

(** The outcome of a call that may raise: the exception is carried by
    its message, which is all the code ever reads ([str(err)]). *)
Inductive result (A : Type) :=
| Ok (a : A)
| Raised (err : string).
Arguments Ok {A} a.
Arguments Raised {A} err.

Definition is_ok {A} (r : result A) : bool :=
  match r with Ok _ => true | Raised _ => false end.

(** *** Insertion-ordered dictionaries *)

Section Dict.
Context {K V : Type} `{EqDecision K}.

Definition dict_get (k : K) (d : list (K * V)) : option V :=
  snd <$> List.find (λ kv, bool_decide (kv.1 = k)) d.

Definition dict_contains (k : K) (d : list (K * V)) : bool :=
  bool_decide (is_Some (dict_get k d)).

(** [d[k] = v]: an existing key keeps its position, a new key goes last. *)
Fixpoint dict_set (k : K) (v : V) (d : list (K * V)) : list (K * V) :=
  match d with
  | [] => [(k, v)]
  | (k', v') :: d' =>
      if decide (k' = k) then (k, v) :: d' else (k', v') :: dict_set k v d'
  end.

(** [d.pop(k, None)], the value dropped. *)
Definition dict_pop (k : K) (d : list (K * V)) : list (K * V) :=
  List.filter (λ kv, negb (bool_decide (kv.1 = k))) d.
End Dict.

(** [defaultdict(list)]: [d[k].append(x)]. *)
Definition dict_append {V : Type} (k : string) (x : V)
    (d : list (string * list V)) : list (string * list V) :=
  dict_set k (default [] (dict_get k d) ++ [x]) d.

(** *** Truthiness and [str()] *)

Definition truthy (v : pyval) : bool :=
  match v with
  | PNone => false
  | PBool b => b
  | PNum (NumInt z) => negb (z =? 0)%Z
  | PNum (NumFloat f) => negb (PrimFloat.eqb f 0%float)
  | PStr s => negb (bool_decide (s = ""))
  | PList l => negb (bool_decide (l = []))
  | PDict d => negb (bool_decide (d = []))
  end.

(** [str(z)] for an [int]: decimal, with a minus sign. *)
Definition str_of_int (z : Z) : string := pretty z.

(** [str(v)], as an f-string formats a value. The text of a float, a
    list or a dict is left to [other]. *)
Definition str_of_value (other : pyval → string) (v : pyval) : string :=
  match v with
  | PStr s => s
  | PNum (NumInt z) => str_of_int z
  | PBool b => if b then "True" else "False"
  | PNone => "None"
  | _ => other v
  end.

(** *** String methods *)

Definition startswith (s pre : string) : bool := String.prefix pre s.

(** [s.split(sep)] for a one-character separator. *)
Fixpoint split (sep : ascii) (s : string) : list string :=
  match s with
  | EmptyString => [EmptyString]
  | String c s' =>
      if Ascii.eqb c sep then EmptyString :: split sep s'
      else match split sep s' with
           | [] => [String c EmptyString]
           | h :: t => String c h :: t
           end
  end.

(** [s.replace(a, b)] for one-character [a] and [b]. *)
Fixpoint replace (a b : ascii) (s : string) : string :=
  match s with
  | EmptyString => EmptyString
  | String c s' => String (if Ascii.eqb c a then b else c) (replace a b s')
  end.

(** [sub in s]. *)
Fixpoint contains (sub s : string) : bool :=
  String.prefix sub s ||
  match s with
  | EmptyString => false
  | String _ s' => contains sub s'
  end.

(** [s[n:]]. *)
Fixpoint drop_chars (n : nat) (s : string) : string :=
  match n, s with
  | O, _ => s
  | S n', String _ s' => drop_chars n' s'
  | S _, EmptyString => EmptyString
  end.

Definition is_digit (c : ascii) : bool :=
  (48 <=? nat_of_ascii c)%nat && (nat_of_ascii c <=? 57)%nat.

Definition is_hex_digit (c : ascii) : bool :=
  let n := nat_of_ascii c in
  ((48 <=? n) && (n <=? 57) || (65 <=? n) && (n <=? 70)
   || (97 <=? n) && (n <=? 102))%nat.

Fixpoint digits_value (acc : Z) (s : string) : option Z :=
  match s with
  | EmptyString => Some acc
  | String c s' =>
      if is_digit c
      then digits_value (10 * acc + Z.of_nat (nat_of_ascii c - 48))%Z s'
      else None
  end.

(** [int(s)] on a string of printable ASCII characters without blank
    and underscore: an optional sign and decimal digits; [None] stands
    for [ValueError]. Python also strips surrounding blanks and accepts
    underscores between digits and the digits of other scripts; such
    strings are outside this function, and the statements that use it
    are about strings without them. *)
Definition int_of_str (s : string) : option Z :=
  match s with
  | EmptyString => None
  | String "-" (String c r) => Z.opp <$> digits_value 0 (String c r)
  | String "+" (String c r) => digits_value 0 (String c r)
  | _ => digits_value 0 s
  end.

(** The longest run of hexadecimal digits at the head of [s]. *)
Fixpoint take_hex (s : string) : string :=
  match s with
  | String c s' => if is_hex_digit c then String c (take_hex s') else EmptyString
  | EmptyString => EmptyString
  end.

(** [re.search(r"(0x[0-9a-fA-F]+)", s)], the matched group. *)
Fixpoint search_hex_address (s : string) : option string :=
  match s with
  | EmptyString => None
  | String c s' =>
      match c, s' with
      | "0"%char, String "x"%char r =>
          match take_hex r with
          | EmptyString => search_hex_address s'
          | h => Some ("0x" +:+ h)
          end
      | _, _ => search_hex_address s'
      end
  end.

(** *** Floats *)

(** [float(z)] for [0 <= z < 2^53], where the conversion is exact. *)
Definition float_of_int (z : Z) : float := PrimFloat.of_uint63 (Uint63.of_Z z).

(** [int(f)]: truncation toward zero; [None] for infinities and NaN
    ([OverflowError], [ValueError]). *)
Definition int_of_float (f : float) : option Z :=
  match Prim2SF f with
  | S754_zero _ => Some 0%Z
  | S754_finite s m e =>
      let mag := match e with
                 | Zneg p => Z.shiftr (Zpos m) (Zpos p)
                 | _ => Z.shiftl (Zpos m) e
                 end in
      Some (if s then (- mag)%Z else mag)
  | _ => None
  end.

Definition float_of_number (n : number) : float :=
  match n with
  | NumInt z => float_of_int z
  | NumFloat f => f
  end.

End Py.

Export Py.

(* ===================================================================== *)
(** ** const.py *)
(* ===================================================================== *)

Module Const.
Definition PROTOCOL_ZWAVE_JS : string := "zwave_js".
Definition PROTOCOL_ZIGBEE2MQTT : string := "zigbee2mqtt".
Definition PROTOCOL_ZHA : string := "zha".
Definition PROTOCOL_UNKNOWN : string := "unknown".

Definition GROUPING_TYPE_GROUP : string := "group".
Definition GROUPING_TYPE_SCENE : string := "scene".
Definition GROUPING_TYPE_AREA : string := "area".
Definition GROUPING_TYPE_FLOOR : string := "floor".
Definition GROUPING_TYPE_LABEL : string := "label".

Definition DEFAULT_SCENE_STORE_DELAY : float := 0.5%float.
Definition Z2M_BASE_TOPIC : string := "zigbee2mqtt".

Definition SCENE_ID_START : Z := 100.
Definition SCENE_ID_MAX : Z := 255.

Definition CC_BINARY_SWITCH : Z := 37.
Definition CC_MULTILEVEL_SWITCH : Z := 38.
Definition CC_SCENE_ACTIVATION : Z := 43.
Definition CC_SCENE_ACTUATOR_CONFIGURATION : Z := 44.
Definition CC_COLOR_SWITCH : Z := 51.

Definition ZWAVE_CAP_BINARY : string := "binary".
Definition ZWAVE_CAP_DIMMER : string := "dimmer".
Definition ZWAVE_CAP_COLOR : string := "color".

Definition ZWAVE_GROUPABLE_DOMAINS : list string := ["light"; "switch"; "cover"].

(** Keys of service data, from [homeassistant.const]. *)
Definition ATTR_ENTITY_ID : string := "entity_id".
Definition ATTR_AREA_ID : string := "area_id".
Definition ATTR_FLOOR_ID : string := "floor_id".
Definition ATTR_LABEL_ID : string := "label_id".
End Const.

(* ===================================================================== *)
(** ** mapping.py: the data model *)
(* ===================================================================== *)

(** A protocol-side identifier of a device ([native_id: Any]): a Z-Wave
    node id or an IEEE address. *)
Inductive native_id :=
| NodeId (n : Z)
| Address (s : string).

(** A native group identifier ([str | int]). *)
Inductive group_id :=
| GidStr (s : string)
| GidInt (n : Z).

#[global] Instance native_id_eq_dec : EqDecision native_id.
Proof. solve_decision. Defined.
#[global] Instance group_id_eq_dec : EqDecision group_id.
Proof. solve_decision. Defined.

(** [str(group_id)], with [None] for the group id of a single member. *)
Definition str_of_group_id (g : option group_id) : string :=
  match g with
  | None => "None"
  | Some (GidStr s) => s
  | Some (GidInt n) => str_of_int n
  end.

(** Truthiness of an identifier: [None], [0] and [""] are false. *)
Definition native_id_truthy (n : option native_id) : bool :=
  match n with
  | None => false
  | Some (NodeId z) => negb (z =? 0)%Z
  | Some (Address s) => negb (bool_decide (s = ""))
  end.

Definition group_id_truthy (g : option group_id) : bool :=
  match g with
  | None => false
  | Some (GidInt z) => negb (z =? 0)%Z
  | Some (GidStr s) => negb (bool_decide (s = ""))
  end.

Module ProtocolInfo.
Record t := mk {
  protocol : string;
  native_id : option native_id;
  entity_id : string;
  node_id : option Z;
  ieee_address : option string;
  endpoint : Z;
  friendly_name : option string;
  capability : option string;
}.
End ProtocolInfo.

Module NativeGroupRef.
Record t := mk {
  protocol : string;
  group_id : option group_id;
  group_name : string;
  member_entity_ids : list string;
  member_native_ids : list (option native_id);
}.
End NativeGroupRef.

Module NativeSceneRef.
Record t := mk {
  protocol : string;
  group_name : string;
  scene_id : Z;
  member_entity_ids : list string;
}.
End NativeSceneRef.

Module CommandProfile.
Record t := mk {
  domain : string;
  service : string;
  service_data : list (string * pyval);
  _signature : string;
}.
End CommandProfile.

Module CommandBatch.
Record t := mk {
  command_profile : CommandProfile.t;
  native_groups : gmap string NativeGroupRef.t;
  ungrouped_entities : list string;
}.
End CommandBatch.

Module GroupMapping.
Record t := mk {
  ha_entity_id : string;
  ha_entity_type : string;
  native_groups : gmap string NativeGroupRef.t;
  native_scenes : gmap string NativeSceneRef.t;
  command_batches : list CommandBatch.t;
  ungrouped_entities : list string;
  last_synced : number;
  sync_error : option string;
}.

(** [GroupMapping(ha_entity_id=..., ha_entity_type=...)] with the
    dataclass defaults; [now] is the reading of [time.time()]. *)
Definition new (id type : string) (now : float) : t :=
  mk id type ∅ ∅ [] [] (NumFloat now) None.

Definition set_native_group (p : string) (r : NativeGroupRef.t) (m : t) : t :=
  mk (ha_entity_id m) (ha_entity_type m) (<[p := r]> (native_groups m))
     (native_scenes m) (command_batches m) (ungrouped_entities m)
     (last_synced m) (sync_error m).

Definition set_native_scene (p : string) (r : NativeSceneRef.t) (m : t) : t :=
  mk (ha_entity_id m) (ha_entity_type m) (native_groups m)
     (<[p := r]> (native_scenes m)) (command_batches m) (ungrouped_entities m)
     (last_synced m) (sync_error m).

(** [mapping.ungrouped_entities.extend(es)]. *)
Definition extend_ungrouped (es : list string) (m : t) : t :=
  mk (ha_entity_id m) (ha_entity_type m) (native_groups m)
     (native_scenes m) (command_batches m) (ungrouped_entities m ++ es)
     (last_synced m) (sync_error m).

Definition set_sync_error (e : option string) (m : t) : t :=
  mk (ha_entity_id m) (ha_entity_type m) (native_groups m)
     (native_scenes m) (command_batches m) (ungrouped_entities m)
     (last_synced m) e.

Definition set_last_synced (n : number) (m : t) : t :=
  mk (ha_entity_id m) (ha_entity_type m) (native_groups m)
     (native_scenes m) (command_batches m) (ungrouped_entities m)
     n (sync_error m).

(** *** Serialisation *)

Definition native_id_to_py (n : option native_id) : pyval :=
  match n with
  | None => PNone
  | Some (NodeId z) => PInt z
  | Some (Address s) => PStr s
  end.

Definition group_id_to_py (g : option group_id) : pyval :=
  match g with
  | None => PNone
  | Some (GidStr s) => PStr s
  | Some (GidInt z) => PInt z
  end.

Definition group_ref_to_dict (v : NativeGroupRef.t) : pyval :=
  PDict [ ("protocol", PStr (NativeGroupRef.protocol v));
          ("group_id", group_id_to_py (NativeGroupRef.group_id v));
          ("group_name", PStr (NativeGroupRef.group_name v));
          ("member_entity_ids", PList (PStr <$> NativeGroupRef.member_entity_ids v));
          ("member_native_ids",
           PList (native_id_to_py <$> NativeGroupRef.member_native_ids v)) ].

Definition scene_ref_to_dict (v : NativeSceneRef.t) : pyval :=
  PDict [ ("protocol", PStr (NativeSceneRef.protocol v));
          ("group_name", PStr (NativeSceneRef.group_name v));
          ("scene_id", PInt (NativeSceneRef.scene_id v));
          ("member_entity_ids", PList (PStr <$> NativeSceneRef.member_entity_ids v)) ].

Definition sync_error_to_py (e : option string) : pyval :=
  match e with None => PNone | Some s => PStr s end.

Definition to_dict (self : t) : pyval :=
  PDict [ ("ha_entity_id", PStr (ha_entity_id self));
          ("ha_entity_type", PStr (ha_entity_type self));
          ("native_groups",
           PDict (prod_map id group_ref_to_dict <$> map_to_list (native_groups self)));
          ("native_scenes",
           PDict (prod_map id scene_ref_to_dict <$> map_to_list (native_scenes self)));
          ("ungrouped_entities", PList (PStr <$> ungrouped_entities self));
          ("last_synced", PNum (last_synced self));
          ("sync_error", sync_error_to_py (sync_error self)) ].

(** Reading a dynamic value at the type a dataclass field declares.
    The records of this model are typed, the dataclasses of the source
    are not checked: a value of another type, which the source would
    store as it is, has no counterpart in the model and reads as
    [None]. Statements about [from_dict] are about entries whose fields
    have the declared types ([Spec.typed_entry]). *)
Definition as_str (v : pyval) : option string :=
  match v with PStr s => Some s | _ => None end.

Definition as_int (v : pyval) : option Z :=
  match v with PNum (NumInt z) => Some z | _ => None end.

Definition as_number (v : pyval) : option number :=
  match v with PNum n => Some n | _ => None end.

Definition as_str_list (v : pyval) : option (list string) :=
  match v with PList l => mapM as_str l | _ => None end.

Definition as_native_id (v : pyval) : option (option native_id) :=
  match v with
  | PNone => Some None
  | PNum (NumInt z) => Some (Some (NodeId z))
  | PStr s => Some (Some (Address s))
  | _ => None
  end.

Definition as_native_id_list (v : pyval) : option (list (option native_id)) :=
  match v with PList l => mapM as_native_id l | _ => None end.

Definition as_group_id (v : pyval) : option (option group_id) :=
  match v with
  | PNone => Some None
  | PNum (NumInt z) => Some (Some (GidInt z))
  | PStr s => Some (Some (GidStr s))
  | _ => None
  end.

Definition as_sync_error (v : pyval) : option (option string) :=
  match v with
  | PNone => Some None
  | PStr s => Some (Some s)
  | _ => None
  end.

(** The dataclass constructor called with a dict as keywords: every field without a default must be given, and no
    other keyword is accepted ([TypeError] otherwise). *)
Definition only_keys (fields : list string) (d : list (string * pyval)) : bool :=
  forallb (λ kv, bool_decide (kv.1 ∈ fields)) d.

Definition group_ref_of_dict (v : pyval) : option NativeGroupRef.t :=
  match v with
  | PDict d =>
      if only_keys ["protocol"; "group_id"; "group_name";
                    "member_entity_ids"; "member_native_ids"] d then
        p ← dict_get "protocol" d ≫= as_str;
        g ← dict_get "group_id" d ≫= as_group_id;
        n ← dict_get "group_name" d ≫= as_str;
        es ← dict_get "member_entity_ids" d ≫= as_str_list;
        ns ← dict_get "member_native_ids" d ≫= as_native_id_list;
        Some (NativeGroupRef.mk p g n es ns)
      else None
  | _ => None
  end.

Definition scene_ref_of_dict (v : pyval) : option NativeSceneRef.t :=
  match v with
  | PDict d =>
      if only_keys ["protocol"; "group_name"; "scene_id"; "member_entity_ids"] d then
        p ← dict_get "protocol" d ≫= as_str;
        n ← dict_get "group_name" d ≫= as_str;
        s ← dict_get "scene_id" d ≫= as_int;
        es ← dict_get "member_entity_ids" d ≫= as_str_list;
        Some (NativeSceneRef.mk p n s es)
      else None
  | _ => None
  end.

(** [data.get(key, {}).items()], each value rebuilt by [of_dict]. *)
Definition refs_of_dict {R} (of_dict : pyval → option R) (v : option pyval)
    : option (list (string * R)) :=
  match v with
  | None => Some []
  | Some (PDict d) => mapM (λ kv, r ← of_dict kv.2; Some (kv.1, r)) d
  | Some _ => None
  end.

(** [for k, v in ...: mapping.native_groups[k] = v]. *)
Definition insert_all {R} (l : list (string * R)) (m : gmap string R) : gmap string R :=
  foldl (λ acc kv, <[kv.1 := kv.2]> acc) m l.

(** [None] stands for the [KeyError] or [TypeError] of the source:
    [Spec.raises_on_entry] tells when it raises. On an entry with a
    field of another type than declared, [None] is the limit of the
    typed model instead. *)
Definition from_dict (data : pyval) : option t :=
  match data with
  | PDict d =>
      id ← dict_get "ha_entity_id" d ≫= as_str;
      ty ← dict_get "ha_entity_type" d ≫= as_str;
      ungrouped ← match dict_get "ungrouped_entities" d with
                  | None => Some []
                  | Some v => as_str_list v
                  end;
      last ← match dict_get "last_synced" d with
             | None => Some (NumInt 0)
             | Some v => as_number v
             end;
      err ← match dict_get "sync_error" d with
            | None => Some None
            | Some v => as_sync_error v
            end;
      groups ← refs_of_dict group_ref_of_dict (dict_get "native_groups" d);
      scenes ← refs_of_dict scene_ref_of_dict (dict_get "native_scenes" d);
      Some (mk id ty (insert_all groups ∅) (insert_all scenes ∅) []
               ungrouped last err)
  | _ => None
  end.
End GroupMapping.

(* ===================================================================== *)
(** ** The host platform, as the integration reads it *)
(* ===================================================================== *)

(** The registries and the state machine of Home Assistant are external:
    they are taken as a record of lookups, one per call the integration
    makes. *)

Module RegistryEntry.
Record t := mk {
  entity_id : string;
  platform : string;
  unique_id : option string;
  device_id : option string;
  area_id : option string;
  entity_category : option string;
  hidden_by : option string;
}.
End RegistryEntry.

Module DeviceEntry.
Record t := mk {
  id : string;
  name : option string;
  identifiers : list (string * string);
}.
End DeviceEntry.

Module AreaEntry.
Record t := mk { id : string }.
End AreaEntry.

Module State.
(** The [entity_id] attribute: the member list of a group, or, as
    [_get_scene_config] reads it, the entity-to-target-state dict of a
    scene. *)
Inductive entity_id_attr :=
| EntityList (l : list string)
| EntityDict (d : list (string * pyval)).

Record t := mk {
  entity_id : string;
  attr_entity_id : option entity_id_attr;
  attr_supported_color_modes : option (list string);
  attr_supported_features : option Z;
}.
End State.

Module HomeAssistant.
Record t := mk {
  (** [hass.states.get(entity_id)] *)
  states_get : string → option State.t;
  (** [er.async_get(hass).async_get(entity_id)] *)
  ent_reg_get : string → option RegistryEntry.t;
  (** [dr.async_get(hass).async_get(device_id)] *)
  dev_reg_get : string → option DeviceEntry.t;
  get_entries_for_area_id : string → list RegistryEntry.t;
  get_devices_for_area_id : string → list DeviceEntry.t;
  get_entries_for_device_id : string → list RegistryEntry.t;
  get_areas_for_floor : string → list AreaEntry.t;
  get_entries_for_label : string → list RegistryEntry.t;
  get_devices_for_label : string → list DeviceEntry.t;
  (** [hass.services.async_call(domain, service, data)]: the error it
      raises, if it does. *)
  services_async_call : string → string → list (string * pyval) → option string;
  (** Constants of [homeassistant.components.light.const]. *)
  COLOR_MODES_COLOR : list string;
  COLOR_MODES_BRIGHTNESS : list string;
}.
End HomeAssistant.

(** Truthiness of an optional string ([None] and [""] are false). *)
Definition opt_str_truthy (s : option string) : bool :=
  match s with
  | None => false
  | Some s => negb (bool_decide (s = ""))
  end.

(* ===================================================================== *)
(** ** classifier.py *)
(* ===================================================================== *)

Module Classifier.
Import Const.

Definition _extract_zwave_node_id (entry : RegistryEntry.t) : option Z :=
  if negb (opt_str_truthy (RegistryEntry.unique_id entry)) then None
  else
    let parts := split "-" (default "" (RegistryEntry.unique_id entry)) in
    if (2 <=? length parts)%nat then
      (* a [ValueError] of [int] is caught and logged *)
      parts !! 1%nat ≫= int_of_str
    else None.

Definition _extract_zha_ieee (entry : RegistryEntry.t) : option string :=
  if negb (opt_str_truthy (RegistryEntry.unique_id entry)) then None
  else
    let parts := split "-" (default "" (RegistryEntry.unique_id entry)) in
    match parts with
    | p :: _ => Some p
    | [] => None
    end.

Fixpoint z2m_identifier_of (identifiers : list (string * string)) : option string :=
  match identifiers with
  | [] => None
  | (domain, identifier) :: rest =>
      if bool_decide (domain = "mqtt") && contains "zigbee2mqtt" identifier then
        match search_hex_address identifier with
        | Some m => Some m
        | None =>
            if startswith identifier "zigbee2mqtt_"
            then Some (drop_chars 12 identifier)
            else z2m_identifier_of rest
        end
      else z2m_identifier_of rest
  end.

Definition _extract_z2m_identifier (device : DeviceEntry.t) : option string :=
  z2m_identifier_of (DeviceEntry.identifiers device).

(** [set(a) & b] is non-empty. *)
Definition intersects (a b : list string) : bool :=
  existsb (λ x, bool_decide (x ∈ b)) a.

Definition _detect_capability (hass : HomeAssistant.t) (entity_id : string)
    : option string :=
  let domain := default "" (head (split "." entity_id)) in
  if negb (bool_decide (domain ∈ ZWAVE_GROUPABLE_DOMAINS)) then None
  else if bool_decide (domain = "switch") then Some ZWAVE_CAP_BINARY
  else if bool_decide (domain = "light") then
    match HomeAssistant.states_get hass entity_id with
    | Some state =>
        let supported_modes := default [] (State.attr_supported_color_modes state) in
        if negb (bool_decide (supported_modes = [])) then
          if intersects supported_modes (HomeAssistant.COLOR_MODES_COLOR hass)
          then Some ZWAVE_CAP_COLOR
          else if intersects supported_modes (HomeAssistant.COLOR_MODES_BRIGHTNESS hass)
          then Some ZWAVE_CAP_DIMMER
          else Some ZWAVE_CAP_DIMMER
        else Some ZWAVE_CAP_DIMMER
    | None => Some ZWAVE_CAP_DIMMER
    end
  else if bool_decide (domain = "cover") then
    match HomeAssistant.states_get hass entity_id with
    | Some state =>
        let supported_features := default 0%Z (State.attr_supported_features state) in
        if negb (Z.land supported_features 4 =? 0)%Z
        then Some ZWAVE_CAP_DIMMER
        else Some ZWAVE_CAP_BINARY
    | None => Some ZWAVE_CAP_BINARY
    end
  else Some ZWAVE_CAP_BINARY.

Definition unknown (entity_id : string) (capability : option string) : ProtocolInfo.t :=
  ProtocolInfo.mk PROTOCOL_UNKNOWN None entity_id None None 0 None capability.

Definition classify_entity (hass : HomeAssistant.t) (entity_id : string)
    : ProtocolInfo.t :=
  match HomeAssistant.ent_reg_get hass entity_id with
  | None => unknown entity_id None
  | Some entry =>
      let capability := _detect_capability hass entity_id in
      if bool_decide (RegistryEntry.platform entry = "zwave_js") then
        let native_id := _extract_zwave_node_id entry in
        ProtocolInfo.mk PROTOCOL_ZWAVE_JS (NodeId <$> native_id) entity_id
          native_id None 0 None capability
      else if bool_decide (RegistryEntry.platform entry = "zha") then
        let ieee := _extract_zha_ieee entry in
        ProtocolInfo.mk PROTOCOL_ZHA (Address <$> ieee) entity_id
          None ieee 0 None capability
      else
        let z2m :=
          if bool_decide (RegistryEntry.platform entry = "mqtt")
             && opt_str_truthy (RegistryEntry.device_id entry) then
            match HomeAssistant.dev_reg_get hass
                    (default "" (RegistryEntry.device_id entry)) with
            | Some device =>
                let z2m_id := _extract_z2m_identifier device in
                if opt_str_truthy z2m_id then
                  Some (ProtocolInfo.mk PROTOCOL_ZIGBEE2MQTT (Address <$> z2m_id)
                          entity_id None z2m_id 0 (DeviceEntry.name device) capability)
                else None
            | None => None
            end
          else None in
        default (unknown entity_id capability) z2m
  end.

Definition classify_entities (hass : HomeAssistant.t) (entity_ids : list string)
    : list (string * list ProtocolInfo.t) :=
  foldl (λ by_protocol entity_id,
           let info := classify_entity hass entity_id in
           dict_append (ProtocolInfo.protocol info) info by_protocol)
        [] entity_ids.
End Classifier.

(* ===================================================================== *)
(** ** State and exceptions *)
(* ===================================================================== *)

(** Python code mutates its objects and may raise at any call; what was
    mutated before the raise stays mutated. A computation is a function
    from the state to an outcome and the state it leaves. *)

Module SE.
Definition t (S A : Type) : Type := S → result A * S.

Definition ret {S A} (a : A) : t S A := λ s, (Ok a, s).

Definition bind {S A B} (m : t S A) (k : A → t S B) : t S B :=
  λ s, match m s with
       | (Ok a, s') => k a s'
       | (Raised e, s') => (Raised e, s')
       end.

Definition raise {S A} (e : string) : t S A := λ s, (Raised e, s).

(** [try: m  except Exception as err: h err]. *)
Definition try_except {S A} (m : t S A) (h : string → t S A) : t S A :=
  λ s, match m s with
       | (Ok a, s') => (Ok a, s')
       | (Raised e, s') => h e s'
       end.

Definition gets {S A} (f : S → A) : t S A := λ s, (Ok (f s), s).
Definition modify {S} (f : S → S) : t S unit := λ s, (Ok tt, f s).

(** A pure call that may raise. *)
Definition lift_result {S A} (r : result A) : t S A := λ s, (r, s).

(** [for x in l: body x]. *)
Fixpoint for_each {S A} (l : list A) (body : A → t S unit) : t S unit :=
  match l with
  | [] => ret tt
  | x :: l' => bind (body x) (λ _, for_each l' body)
  end.

(** One task under [asyncio.gather(..., return_exceptions=True)]: its
    exception is captured, not propagated. *)
Definition captured {S A} (m : t S A) : t S unit :=
  λ s, (Ok tt, (m s).2).

(** Tasks awaited with a plain [asyncio.gather]: every task runs; the first
    exception, if any, is the one the caller sees. Tasks are taken in
    the order they were created. *)
Fixpoint gather {S} (tasks : list (t S unit)) : t S unit :=
  match tasks with
  | [] => ret tt
  | m :: rest =>
      λ s, match m s with
           | (Ok _, s') => gather rest s'
           | (Raised e, s') => (Raised e, (gather rest s').2)
           end
  end.

(** Running a computation on a component of a larger state. *)
Definition zoom {S W A} (get : S → W) (set : W → S → S) (m : t W A) : t S A :=
  λ s, let '(r, w) := m (get s) in (r, set w s).
End SE.

Declare Scope se_scope.
Delimit Scope se_scope with se.
Notation "x <- m ;; k" := (SE.bind m (λ x, k))
  (at level 100, m at next level, right associativity) : se_scope.
Notation "m ;; k" := (SE.bind m (λ _, k))
  (at level 100, right associativity) : se_scope.

(* ===================================================================== *)
(** ** handlers/base.py: the ProtocolHandler interface *)
(* ===================================================================== *)

(** A call of [hass.services.async_call(domain, service, data)]. *)
Module ServiceCall.
Record t := mk {
  domain : string;
  service : string;
  data : list (string * pyval);
}.
End ServiceCall.

Module ProtocolHandler.
(** The operations of a handler act on [W]: the handler's own tables
    together with the backend behind it. Each may raise. *)
Record t (W : Type) := mk {
  (** [isinstance(handler, ZWaveJSHandler)] *)
  is_zwave_js_handler : bool;
  async_get_groups : SE.t W (list (group_id * list (string * pyval)));
  async_create_group : string → list (option native_id) → SE.t W group_id;
  (** Only [ZWaveJSHandler] has it; the orchestrator calls it on no other. *)
  async_create_capability_groups :
    string → list (string * list (option native_id)) → SE.t W group_id;
  async_delete_group : group_id → SE.t W unit;
  (** Every adapter answers with a constant. *)
  async_supports_native_scenes : bool;
  async_store_scene :
    group_id → Z → list (option native_id * list (string * pyval)) → SE.t W unit;
  async_recall_scene : group_id → Z → SE.t W unit;
  async_remove_scene : group_id → Z → SE.t W unit;
  async_send_group_command :
    group_id → string → string → list (string * pyval) → SE.t W unit;
  async_send_multicast :
    list (option native_id) → string → string → list (string * pyval) → SE.t W unit;
  convert_service_data :
    string → string → list (string * pyval) → result (list (string * pyval));
}.
Arguments mk {W}.
Arguments is_zwave_js_handler {W}.
Arguments async_get_groups {W}.
Arguments async_create_group {W}.
Arguments async_create_capability_groups {W}.
Arguments async_delete_group {W}.
Arguments async_supports_native_scenes {W}.
Arguments async_store_scene {W}.
Arguments async_recall_scene {W}.
Arguments async_remove_scene {W}.
Arguments async_send_group_command {W}.
Arguments async_send_multicast {W}.
Arguments convert_service_data {W}.

(** A handler whose tables are a component of a larger world. *)
Definition zoom {S W} (get : S → W) (set : W → S → S) (h : t W) : t S :=
  mk (is_zwave_js_handler h)
     (SE.zoom get set (async_get_groups h))
     (λ n ids, SE.zoom get set (async_create_group h n ids))
     (λ n m, SE.zoom get set (async_create_capability_groups h n m))
     (λ g, SE.zoom get set (async_delete_group h g))
     (async_supports_native_scenes h)
     (λ g s d, SE.zoom get set (async_store_scene h g s d))
     (λ g s, SE.zoom get set (async_recall_scene h g s))
     (λ g s, SE.zoom get set (async_remove_scene h g s))
     (λ g d s x, SE.zoom get set (async_send_group_command h g d s x))
     (λ n d s x, SE.zoom get set (async_send_multicast h n d s x))
     (convert_service_data h).
End ProtocolHandler.

(** [int(brightness * 99 / 255)]: the product, the true division and
    the truncation of Python. On an [int], the product is exact and the
    division is the binary64 division of the two converted operands
    (exact model for [|brightness| * 99 < 2^53]). *)
Definition brightness_to_level (brightness : pyval) : result Z :=
  let of_float f :=
    match int_of_float f with
    | Some z => Ok z
    | None => Raised "cannot convert float to integer"
    end in
  match brightness with
  | PNum (NumInt b) =>
      of_float (if (b <? 0)%Z
                then PrimFloat.opp (float_of_int (- b * 99)) / float_of_int 255
                else float_of_int (b * 99) / float_of_int 255)%float
  | PNum (NumFloat f) => of_float (f * float_of_int 99 / float_of_int 255)%float
  | PBool b => of_float (float_of_int (if b then 99 else 0) / float_of_int 255)%float
  | _ => Raised "unsupported operand type(s)"
  end.

(* ===================================================================== *)
(** ** handlers/zwave_js.py *)
(* ===================================================================== *)

Module ZWaveJS.
Import Const.
Local Open Scope se_scope.

(** What the adapter reaches outside itself: the device lookup through
    the registries (memoised by the source in [_node_to_device]), the
    outcome of a service call ([Some err] when it raises), and the
    colour arithmetic of [_build_color_value]. *)
Record env := mk_env {
  _get_device_id_from_node_id : option native_id → option string;
  service_error : ServiceCall.t → option string;
  _build_color_value : list (string * pyval) → result pyval;
}.

Record state := mk_state {
  _groups : list (string * list (option native_id));
  _group_capabilities : list (string * list string);
  (** the service calls issued so far *)
  calls : list ServiceCall.t;
}.

Definition init : state := mk_state [] [] [].

Definition set_groups (g : list (string * list (option native_id))) (st : state) :=
  mk_state g (_group_capabilities st) (calls st).
Definition set_group_capabilities (c : list (string * list string)) (st : state) :=
  mk_state (_groups st) c (calls st).

Section WithEnv.
Variable e : env.

(** [await self.hass.services.async_call(...)] *)
Definition async_call (c : ServiceCall.t) : SE.t state unit :=
  λ st, (match service_error e c with
         | None => Ok tt
         | Some err => Raised err
         end,
         mk_state (_groups st) (_group_capabilities st) (calls st ++ [c])).

Definition device_ids_of (node_ids : list (option native_id)) : list string :=
  omap (_get_device_id_from_node_id e) node_ids.

Definition async_get_groups : SE.t state (list (group_id * list (string * pyval))) :=
  SE.gets (λ st,
    (λ '(name, nodes),
       (GidStr name,
        [("name", PStr name);
         ("members", PList (GroupMapping.native_id_to_py <$> nodes))]))
    <$> _groups st).

Definition async_create_group (name : string)
    (member_native_ids : list (option native_id)) : SE.t state group_id :=
  SE.modify (λ st, set_groups (dict_set name member_native_ids (_groups st)) st) ;;
  SE.ret (GidStr name).

Definition async_create_capability_groups (base_name : string)
    (members_by_capability : list (string * list (option native_id)))
    : SE.t state group_id :=
  SE.modify (λ st, set_group_capabilities
                      (dict_set base_name [] (_group_capabilities st)) st) ;;
  SE.for_each members_by_capability (λ '(capability, node_ids),
    if negb (bool_decide (node_ids = [])) then
      let group_key := base_name +:+ "." +:+ capability in
      SE.modify (λ st, set_groups (dict_set group_key node_ids (_groups st)) st) ;;
      SE.modify (λ st,
        let caps := default [] (dict_get base_name (_group_capabilities st)) in
        let caps' := if bool_decide (capability ∈ caps)
                     then caps else caps ++ [capability] in
        set_group_capabilities
          (dict_set base_name caps' (_group_capabilities st)) st)
    else SE.ret tt) ;;
  SE.ret (GidStr base_name).

Definition async_delete_group (group_id : group_id) : SE.t state unit :=
  let group_key := str_of_group_id (Some group_id) in
  SE.modify (λ st, set_groups (dict_pop group_key (_groups st)) st) ;;
  caps <- SE.gets (λ st, dict_get group_key (_group_capabilities st)) ;;
  match caps with
  | Some caps =>
      SE.for_each caps (λ cap,
        SE.modify (λ st,
          set_groups (dict_pop (group_key +:+ "." +:+ cap) (_groups st)) st)) ;;
      SE.modify (λ st, set_group_capabilities
                          (dict_pop group_key (_group_capabilities st)) st)
  | None => SE.ret tt
  end.

Definition has_capability_groups (base_name : string) (st : state) : bool :=
  dict_contains base_name (_group_capabilities st).

Definition get_capability_group_nodes (base_name capability : string) (st : state)
    : list (option native_id) :=
  default [] (dict_get (base_name +:+ "." +:+ capability) (_groups st)).

Definition async_supports_native_scenes : bool := true.

Definition cc_api_call (device_id : string) (command_class : Z)
    (parameters : list pyval) : ServiceCall.t :=
  ServiceCall.mk "zwave_js" "invoke_cc_api"
    [("device_id", PStr device_id);
     ("command_class", PInt command_class);
     ("method_name", PStr "set");
     ("parameters", PList parameters)].

Definition async_store_scene (group_id : group_id) (scene_id : Z)
    (device_states : list (option native_id * list (string * pyval)))
    : SE.t state unit :=
  SE.for_each device_states (λ '(node_id, state),
    let level := default (PInt 99) (dict_get "level" state) in
    let duration := default (PStr "default") (dict_get "duration" state) in
    match _get_device_id_from_node_id e node_id with
    | None => SE.ret tt
    | Some device_id =>
        SE.try_except
          (async_call (cc_api_call device_id CC_SCENE_ACTUATOR_CONFIGURATION
                         [PInt scene_id; level; duration]))
          (λ _, SE.ret tt)
    end).

Definition async_recall_scene (group_id : group_id) (scene_id : Z)
    : SE.t state unit :=
  node_ids <- SE.gets (λ st,
    default [] (dict_get (str_of_group_id (Some group_id)) (_groups st))) ;;
  SE.for_each (device_ids_of node_ids) (λ device_id,
    SE.captured
      (async_call (cc_api_call device_id CC_SCENE_ACTIVATION
                     [PInt scene_id; PStr "default"]))).

Definition async_remove_scene (group_id : group_id) (scene_id : Z)
    : SE.t state unit :=
  node_ids <- SE.gets (λ st,
    default [] (dict_get (str_of_group_id (Some group_id)) (_groups st))) ;;
  SE.for_each (device_ids_of node_ids) (λ device_id,
    SE.try_except
      (async_call (cc_api_call device_id CC_SCENE_ACTUATOR_CONFIGURATION
                     [PInt scene_id; PInt 0; PStr "default"]))
      (λ _, SE.ret tt)).

Definition multicast_set_value (device_ids : list string) (command_class : Z)
    (property : string) (value : pyval) : ServiceCall.t :=
  ServiceCall.mk "zwave_js" "multicast_set_value"
    [("device_id", PList (PStr <$> device_ids));
     ("command_class", PInt command_class);
     ("property", PStr property);
     ("value", value)].

Definition _send_binary_command (node_ids : list (option native_id))
    (turn_on : bool) : SE.t state unit :=
  if bool_decide (node_ids = []) then SE.ret tt
  else
    let device_ids := device_ids_of node_ids in
    if bool_decide (device_ids = []) then SE.ret tt
    else
      SE.try_except
        (async_call (multicast_set_value device_ids CC_BINARY_SWITCH
                       "targetValue" (PBool turn_on)))
        (λ _, SE.ret tt).

Definition _send_multilevel_command (node_ids : list (option native_id))
    (brightness : pyval) : SE.t state unit :=
  if bool_decide (node_ids = []) then SE.ret tt
  else
    let device_ids := device_ids_of node_ids in
    if bool_decide (device_ids = []) then SE.ret tt
    else
      level <- SE.lift_result (brightness_to_level brightness) ;;
      SE.try_except
        (async_call (multicast_set_value device_ids CC_MULTILEVEL_SWITCH
                       "targetValue" (PInt level)))
        (λ _, SE.ret tt).

Definition _send_color_switch_multicast (device_ids : list string)
    (color_value : pyval) : SE.t state unit :=
  SE.try_except
    (async_call (multicast_set_value device_ids CC_COLOR_SWITCH
                   "targetColor" color_value))
    (λ _, SE.ret tt).

Definition _send_color_command (node_ids : list (option native_id))
    (service_data : list (string * pyval)) : SE.t state unit :=
  if bool_decide (node_ids = []) then SE.ret tt
  else
    let device_ids := device_ids_of node_ids in
    if bool_decide (device_ids = []) then SE.ret tt
    else
      color_value <- SE.lift_result (_build_color_value e service_data) ;;
      (if truthy color_value
       then SE.captured (_send_color_switch_multicast device_ids color_value)
       else SE.ret tt) ;;
      match dict_get "brightness" service_data with
      | Some brightness => SE.captured (_send_multilevel_command node_ids brightness)
      | None =>
          if negb (truthy color_value)
          then SE.captured (_send_binary_command node_ids true)
          else SE.ret tt
      end.

Definition unsupported {A} (domain service : string) : result A :=
  Raised ("Unsupported service: " +:+ domain +:+ "." +:+ service).

Definition _map_service_to_zwave (domain service : string)
    (data : list (string * pyval)) : result (Z * string * pyval) :=
  if bool_decide (domain = "light") then
    if bool_decide (service = "turn_on") then
      match dict_get "brightness" data with
      | Some PNone | None => Ok (CC_BINARY_SWITCH, "targetValue", PBool true)
      | Some brightness =>
          match brightness_to_level brightness with
          | Ok level => Ok (CC_MULTILEVEL_SWITCH, "targetValue", PInt level)
          | Raised err => Raised err
          end
      end
    else if bool_decide (service = "turn_off") then
      Ok (CC_BINARY_SWITCH, "targetValue", PBool false)
    else unsupported domain service
  else if bool_decide (domain = "switch") then
    Ok (CC_BINARY_SWITCH, "targetValue", PBool (bool_decide (service = "turn_on")))
  else if bool_decide (domain = "cover") then
    if bool_decide (service = "open_cover") then
      Ok (CC_MULTILEVEL_SWITCH, "targetValue", PInt 99)
    else if bool_decide (service = "close_cover") then
      Ok (CC_MULTILEVEL_SWITCH, "targetValue", PInt 0)
    else if bool_decide (service = "set_cover_position") then
      Ok (CC_MULTILEVEL_SWITCH, "targetValue",
          default (PInt 0) (dict_get "position" data))
    else unsupported domain service
  else unsupported domain service.

Definition async_send_multicast (native_ids : list (option native_id))
    (domain service : string) (service_data : list (string * pyval))
    : SE.t state unit :=
  if bool_decide (native_ids = []) then SE.ret tt
  else
    let device_ids := device_ids_of native_ids in
    if bool_decide (device_ids = []) then SE.ret tt
    else
      mapped <- SE.lift_result
                  (_map_service_to_zwave domain service service_data) ;;
      let '(cc, prop, value) := mapped in
      (* the failure is logged and raised again *)
      async_call (multicast_set_value device_ids cc prop value).

Definition _send_capability_aware_command (base_name domain service : string)
    (service_data : list (string * pyval)) : SE.t state unit :=
  capabilities <- SE.gets (λ st,
    default [] (dict_get base_name (_group_capabilities st))) ;;
  let has_color :=
    existsb (λ k, dict_contains k service_data)
      ["rgb_color"; "rgbw_color"; "hs_color"; "xy_color"; "color_temp"] in
  let has_brightness := dict_contains "brightness" service_data in
  let brightness := default PNone (dict_get "brightness" service_data) in
  let turn_on := bool_decide (service = "turn_on") in
  (if bool_decide (ZWAVE_CAP_COLOR ∈ capabilities) then
     color_nodes <- SE.gets (get_capability_group_nodes base_name ZWAVE_CAP_COLOR) ;;
     if negb (bool_decide (color_nodes = [])) then
       if has_color && turn_on
       then SE.captured (_send_color_command color_nodes service_data)
       else if has_brightness && turn_on
       then SE.captured (_send_multilevel_command color_nodes brightness)
       else SE.captured (_send_binary_command color_nodes turn_on)
     else SE.ret tt
   else SE.ret tt) ;;
  (if bool_decide (ZWAVE_CAP_DIMMER ∈ capabilities) then
     dimmer_nodes <- SE.gets (get_capability_group_nodes base_name ZWAVE_CAP_DIMMER) ;;
     if negb (bool_decide (dimmer_nodes = [])) then
       if has_brightness && turn_on
       then SE.captured (_send_multilevel_command dimmer_nodes brightness)
       else SE.captured (_send_binary_command dimmer_nodes turn_on)
     else SE.ret tt
   else SE.ret tt) ;;
  (if bool_decide (ZWAVE_CAP_BINARY ∈ capabilities) then
     binary_nodes <- SE.gets (get_capability_group_nodes base_name ZWAVE_CAP_BINARY) ;;
     if negb (bool_decide (binary_nodes = [])) then
       SE.captured (_send_binary_command binary_nodes turn_on)
     else SE.ret tt
   else SE.ret tt).

Definition async_send_group_command (group_id : group_id)
    (domain service : string) (service_data : list (string * pyval))
    : SE.t state unit :=
  let base_name := str_of_group_id (Some group_id) in
  has <- SE.gets (has_capability_groups base_name) ;;
  if has : bool then
    _send_capability_aware_command base_name domain service service_data
  else
    node_ids <- SE.gets (λ st, default [] (dict_get base_name (_groups st))) ;;
    async_send_multicast node_ids domain service service_data.

Definition convert_service_data (domain service : string)
    (data : list (string * pyval)) : result (list (string * pyval)) :=
  let with_duration (result : list (string * pyval)) :=
    match dict_get "transition" data with
    | Some transition => dict_set "duration" transition result
    | None => result
    end in
  match dict_get "brightness" data with
  | Some brightness =>
      match brightness_to_level brightness with
      | Ok level => Ok (with_duration [("level", PInt level)])
      | Raised err => Raised err
      end
  | None =>
      if bool_decide (service = "turn_on")
      then Ok (with_duration [("level", PInt 99)])
      else if bool_decide (service = "turn_off")
      then Ok (with_duration [("level", PInt 0)])
      else Ok (with_duration [])
  end.

Definition handler : ProtocolHandler.t state :=
  ProtocolHandler.mk true
    async_get_groups async_create_group async_create_capability_groups
    async_delete_group async_supports_native_scenes async_store_scene
    async_recall_scene async_remove_scene async_send_group_command
    async_send_multicast convert_service_data.
(** *** Group membership and colour temperature *)

Definition async_update_group_members (group_id : group_id)
    (add_members remove_members : option (list (option native_id)))
    : SE.t state unit :=
  let group_key := str_of_group_id (Some group_id) in
  let add_members := default [] add_members in
  let remove_members := default [] remove_members in
  SE.modify (λ st,
    if dict_contains group_key (_groups st) then st
    else set_groups (dict_set group_key [] (_groups st)) st) ;;
  (if negb (bool_decide (add_members = [])) then
     SE.modify (λ st,
       set_groups
         (dict_set group_key
            (default [] (dict_get group_key (_groups st)) ++ add_members)
            (_groups st)) st)
   else SE.ret tt) ;;
  (if negb (bool_decide (remove_members = [])) then
     SE.modify (λ st,
       set_groups
         (dict_set group_key
            (List.filter (λ n, negb (bool_decide (n ∈ remove_members)))
               (default [] (dict_get group_key (_groups st))))
            (_groups st)) st)
   else SE.ret tt).

Definition async_group_exists (group_id : group_id) : SE.t state bool :=
  SE.gets (λ st, dict_contains (str_of_group_id (Some group_id)) (_groups st)).

(** A number of the service data; [True] and [False] are the integers
    1 and 0. *)
Definition number_of (v : pyval) : result number :=
  match v with
  | PNum n => Ok n
  | PBool b => Ok (NumInt (if b then 1 else 0))
  | _ => Raised "'<' not supported between instances"
  end.

(** [n < c] and [n > c] for an integer constant [c] that binary64 holds
    exactly. *)
Definition lt_const (n : number) (c : Z) : bool :=
  match n with
  | NumInt z => (z <? c)%Z
  | NumFloat f => PrimFloat.ltb f (float_of_int c)
  end.

Definition gt_const (n : number) (c : Z) : bool :=
  match n with
  | NumInt z => (c <? z)%Z
  | NumFloat f => PrimFloat.ltb (float_of_int c) f
  end.

(** [max(min_k, min(max_k, kelvin))]: of equal arguments the first is
    returned, as it is when a comparison with NaN fails. *)
Definition clamp_kelvin (kelvin : number) : number :=
  let m := if lt_const kelvin 6500 then kelvin else NumInt 6500 in
  if gt_const m 2700 then m else NumInt 2700.

Definition _color_temp_to_white_channels (service_data : list (string * pyval))
    : result (list (string * pyval)) :=
  let channels (kelvin : number) : result (list (string * pyval)) :=
    let ratio :=
      match clamp_kelvin kelvin with
      | NumInt k => (float_of_int (k - 2700) / float_of_int 3800)%float
      | NumFloat f => ((f - float_of_int 2700) / float_of_int 3800)%float
      end in
    match int_of_float ((float_of_int 1 - ratio) * float_of_int 255)%float,
          int_of_float (ratio * float_of_int 255)%float with
    | Some warm, Some cold => Ok [("warmWhite", PInt warm); ("coldWhite", PInt cold)]
    | _, _ => Raised "cannot convert float to integer"
    end in
  match dict_get "color_temp_kelvin" service_data with
  | Some kelvin =>
      match number_of kelvin with
      | Ok kelvin => channels kelvin
      | Raised err => Raised err
      end
  | None =>
      match dict_get "color_temp" service_data with
      | Some mireds =>
          match number_of mireds with
          | Ok mireds =>
              if gt_const mireds 0 then
                channels (NumFloat (float_of_int 1000000 / float_of_number mireds)%float)
              else channels (NumInt 4000)
          | Raised err => Raised err
          end
      | None => channels (NumInt 4000)
      end
  end.

End WithEnv.
End ZWaveJS.

(* ===================================================================== *)
(** ** handlers/zigbee2mqtt.py *)
(* ===================================================================== *)

Module Zigbee2MQTT.
Import Const.
Local Open Scope se_scope.

Inductive effect :=
| Publish (topic : string) (payload : pyval)
| Sleep (seconds : float).

(** The broker: [Some err] when publishing raises. The payload is the
    value handed to [json.dumps]. *)
Record env := mk_env {
  publish_error : string → pyval → option string;
}.

Record state := mk_state {
  _groups : list (string * list (option native_id));
  effects : list effect;
}.

Definition init : state := mk_state [] [].

Definition _base_topic : string := Z2M_BASE_TOPIC.

Definition str_of_native_id (n : option native_id) : string :=
  match n with
  | None => "None"
  | Some (NodeId z) => str_of_int z
  | Some (Address s) => s
  end.

Section WithEnv.
Variable e : env.

Definition _async_publish (topic : string) (payload : pyval) : SE.t state unit :=
  λ st, (match publish_error e topic payload with
         | None => Ok tt
         | Some err => Raised err
         end,
         mk_state (_groups st) (effects st ++ [Publish topic payload])).

Definition sleep (seconds : float) : SE.t state unit :=
  SE.modify (λ st, mk_state (_groups st) (effects st ++ [Sleep seconds])).

Definition set_groups (g : list (string * list (option native_id))) : SE.t state unit :=
  SE.modify (λ st, mk_state g (effects st)).

Definition async_get_groups : SE.t state (list (group_id * list (string * pyval))) :=
  SE.gets (λ st,
    (λ '(name, members),
       (GidStr name,
        [("name", PStr name);
         ("members", PList (GroupMapping.native_id_to_py <$> members))]))
    <$> _groups st).

Definition async_create_group (name : string)
    (member_native_ids : list (option native_id)) : SE.t state group_id :=
  _async_publish (_base_topic +:+ "/bridge/request/group/add")
    (PDict [("friendly_name", PStr name)]) ;;
  sleep 0.2%float ;;
  SE.for_each member_native_ids (λ ieee,
    _async_publish (_base_topic +:+ "/bridge/request/group/members/add")
      (PDict [("group", PStr name);
              ("device", GroupMapping.native_id_to_py ieee)])) ;;
  groups <- SE.gets _groups ;;
  set_groups (dict_set name member_native_ids groups) ;;
  SE.ret (GidStr name).

Definition async_delete_group (group_id : group_id) : SE.t state unit :=
  let group_name := str_of_group_id (Some group_id) in
  _async_publish (_base_topic +:+ "/bridge/request/group/remove")
    (PDict [("friendly_name", PStr group_name)]) ;;
  groups <- SE.gets _groups ;;
  set_groups (dict_pop group_name groups).

Definition async_supports_native_scenes : bool := true.

Definition async_store_scene (group_id : group_id) (scene_id : Z)
    (device_states : list (option native_id * list (string * pyval)))
    : SE.t state unit :=
  let group_name := str_of_group_id (Some group_id) in
  SE.gather ((λ '(device_ieee, state),
                _async_publish
                  (_base_topic +:+ "/" +:+ str_of_native_id device_ieee +:+ "/set")
                  (PDict state)) <$> device_states) ;;
  sleep DEFAULT_SCENE_STORE_DELAY ;;
  _async_publish (_base_topic +:+ "/" +:+ group_name +:+ "/set")
    (PDict [("scene_store", PInt scene_id)]).

Definition async_recall_scene (group_id : group_id) (scene_id : Z)
    : SE.t state unit :=
  _async_publish
    (_base_topic +:+ "/" +:+ str_of_group_id (Some group_id) +:+ "/set")
    (PDict [("scene_recall", PInt scene_id)]).

Definition async_remove_scene (group_id : group_id) (scene_id : Z)
    : SE.t state unit :=
  _async_publish
    (_base_topic +:+ "/" +:+ str_of_group_id (Some group_id) +:+ "/set")
    (PDict [("scene_remove", PInt scene_id)]).

(** [a, b = v] and [a, b, c = v]. *)
Definition unpack2 (v : pyval) : result (pyval * pyval) :=
  match v with
  | PList [a; b] => Ok (a, b)
  | _ => Raised "cannot unpack"
  end.

Definition unpack3 (v : pyval) : result (pyval * pyval * pyval) :=
  match v with
  | PList [a; b; c] => Ok (a, b, c)
  | _ => Raised "cannot unpack"
  end.

Definition copy_key (key : string) (data payload : list (string * pyval)) :=
  match dict_get key data with
  | Some v => dict_set key v payload
  | None => payload
  end.

Definition on_off (service : string) : list (string * pyval) :=
  [("state", PStr (if bool_decide (service = "turn_on") then "ON" else "OFF"))].

Definition convert_service_data (domain service : string)
    (data : list (string * pyval)) : result (list (string * pyval)) :=
  if bool_decide (domain = "light") then
    if bool_decide (service = "turn_on") then
      let payload := [("state", PStr "ON")] in
      let payload := copy_key "brightness" data payload in
      let payload := copy_key "color_temp" data payload in
      match
        match dict_get "rgb_color" data with
        | Some v =>
            match unpack3 v with
            | Ok (r, g, b) =>
                Ok (dict_set "color" (PDict [("r", r); ("g", g); ("b", b)]) payload)
            | Raised err => Raised err
            end
        | None => Ok payload
        end
      with
      | Raised err => Raised err
      | Ok payload =>
          match
            match dict_get "xy_color" data with
            | Some v =>
                match unpack2 v with
                | Ok (x, y) =>
                    Ok (dict_set "color" (PDict [("x", x); ("y", y)]) payload)
                | Raised err => Raised err
                end
            | None => Ok payload
            end
          with
          | Raised err => Raised err
          | Ok payload =>
              match
                match dict_get "hs_color" data with
                | Some v =>
                    match unpack2 v with
                    | Ok (h, s) =>
                        Ok (dict_set "color"
                              (PDict [("hue", h); ("saturation", s)]) payload)
                    | Raised err => Raised err
                    end
                | None => Ok payload
                end
              with
              | Raised err => Raised err
              | Ok payload => Ok (copy_key "transition" data payload)
              end
          end
      end
    else if bool_decide (service = "turn_off") then
      Ok (copy_key "transition" data [("state", PStr "OFF")])
    else Ok (on_off service)
  else if bool_decide (domain = "switch") then Ok (on_off service)
  else if bool_decide (domain = "cover") then
    if bool_decide (service = "open_cover") then Ok [("state", PStr "OPEN")]
    else if bool_decide (service = "close_cover") then Ok [("state", PStr "CLOSE")]
    else if bool_decide (service = "set_cover_position") then
      Ok [("position", default (PInt 0) (dict_get "position" data))]
    else Ok (on_off service)
  else Ok (on_off service).

Definition async_send_group_command (group_id : group_id)
    (domain service : string) (service_data : list (string * pyval))
    : SE.t state unit :=
  payload <- SE.lift_result (convert_service_data domain service service_data) ;;
  _async_publish
    (_base_topic +:+ "/" +:+ str_of_group_id (Some group_id) +:+ "/set")
    (PDict payload).

Definition async_send_multicast (native_ids : list (option native_id))
    (domain service : string) (service_data : list (string * pyval))
    : SE.t state unit :=
  payload <- SE.lift_result (convert_service_data domain service service_data) ;;
  SE.gather ((λ device_id,
                _async_publish
                  (_base_topic +:+ "/" +:+ str_of_native_id device_id +:+ "/set")
                  (PDict payload)) <$> native_ids).

(** The adapter has no capability sub-groups; the orchestrator falls
    back to [async_create_group] for a handler that is not the Z-Wave
    one, so this entry is never reached. *)
Definition handler : ProtocolHandler.t state :=
  ProtocolHandler.mk false
    async_get_groups async_create_group
    (λ name members, async_create_group name (concat members.*2))
    async_delete_group async_supports_native_scenes async_store_scene
    async_recall_scene async_remove_scene async_send_group_command
    async_send_multicast convert_service_data.
End WithEnv.
End Zigbee2MQTT.

(* ===================================================================== *)
(** ** orchestrator.py *)
(* ===================================================================== *)

Module Orchestrator.
Import Const.
Local Open Scope se_scope.

(** What the orchestrator asks of the outside, in the order it asks:
    the handler operations it awaits, the service calls of the
    fallback path and its own [asyncio.sleep]. *)
Inductive event :=
| GetGroups (protocol : string)
| CreateGroup (protocol name : string) (member_native_ids : list (option native_id))
| CreateCapabilityGroups (protocol name : string)
    (members_by_capability : list (string * list (option native_id)))
| DeleteGroup (protocol : string) (group : group_id)
| StoreScene (protocol : string) (group : group_id) (scene_id : Z)
    (device_states : list (option native_id * list (string * pyval)))
| RemoveScene (protocol : string) (group : group_id) (scene_id : Z)
| RecallScene (protocol : string) (group : group_id) (scene_id : Z)
| SendGroupCommand (protocol : string) (group : group_id)
    (domain service : string) (data : list (string * pyval))
| SendMulticast (protocol : string) (native_ids : list (option native_id))
    (domain service : string) (data : list (string * pyval))
| CallService (call : ServiceCall.t)
| Sleep (seconds : float).

Record t {W : Type} := mk {
  _handlers : list (string * ProtocolHandler.t W);
  _mappings : gmap string GroupMapping.t;
  _managed_resources : gmap string (gset string);
  _scene_id_counter : Z;
  (** the handlers' tables and backends *)
  world : W;
  trace : list event;
  (** how many times [time.time()] was read *)
  clock : nat;
  (** the blob last handed to [Store.async_save] *)
  store : option pyval;
}.
Arguments t : clear implicits.
Arguments mk {W}.

(** [__init__], once the handlers are set up. *)
Definition init {W} (handlers : list (string * ProtocolHandler.t W)) (w : W) : t W :=
  mk handlers ∅ ∅ SCENE_ID_START w [] 0 None.

Section WithWorld.
Context {W : Type}.
Local Abbreviation M := (SE.t (t W)).

Definition set_mappings (m : gmap string GroupMapping.t) (s : t W) : t W :=
  mk (_handlers s) m (_managed_resources s) (_scene_id_counter s)
     (world s) (trace s) (clock s) (store s).
Definition set_managed_resources (r : gmap string (gset string)) (s : t W) : t W :=
  mk (_handlers s) (_mappings s) r (_scene_id_counter s)
     (world s) (trace s) (clock s) (store s).
Definition set_scene_id_counter (c : Z) (s : t W) : t W :=
  mk (_handlers s) (_mappings s) (_managed_resources s) c
     (world s) (trace s) (clock s) (store s).
Definition set_world (w : W) (s : t W) : t W :=
  mk (_handlers s) (_mappings s) (_managed_resources s) (_scene_id_counter s)
     w (trace s) (clock s) (store s).
Definition emit (ev : event) : M unit :=
  SE.modify (λ s,
    mk (_handlers s) (_mappings s) (_managed_resources s) (_scene_id_counter s)
       (world s) (trace s ++ [ev]) (clock s) (store s)).

(** [await handler.op(...)]: the call is issued, then runs on the world. *)
Definition call {A} (ev : event) (op : SE.t W A) : M A :=
  emit ev ;; SE.zoom world set_world op.

(** [self._handlers.get(protocol)] *)
Definition get_handler (protocol : string) : M (option (ProtocolHandler.t W)) :=
  SE.gets (λ s, dict_get protocol (_handlers s)).

(** [self._managed_resources[key].add(ref)] on a [defaultdict(set)]. *)
Definition add_managed_resource (key ref : string) : M unit :=
  SE.modify (λ s,
    set_managed_resources
      (<[key := default ∅ (_managed_resources s !! key) ∪ {[ref]}]>
         (_managed_resources s)) s).

Fixpoint foldM {A B} (f : B → A → M B) (l : list A) (b : B) : M B :=
  match l with
  | [] => SE.ret b
  | x :: l' => b' <- f b x ;; foldM f l' b'
  end.

(** *** Helpers *)

Definition _generate_group_name (ha_entity_id protocol : string) : string :=
  "ha_" +:+ replace "." "_" ha_entity_id +:+ "_" +:+ protocol.

Definition _allocate_scene_id : M Z :=
  scene_id <- SE.gets _scene_id_counter ;;
  SE.modify (λ s,
    let c := (_scene_id_counter s + 1)%Z in
    set_scene_id_counter (if (c >? SCENE_ID_MAX)%Z then SCENE_ID_START else c) s) ;;
  SE.ret scene_id.

(** [n] allocations in a row, with the ids they returned. *)
Fixpoint allocate_scene_ids (n : nat) : M (list Z) :=
  match n with
  | O => SE.ret []
  | S n' =>
      scene_id <- _allocate_scene_id ;;
      rest <- allocate_scene_ids n' ;;
      SE.ret (scene_id :: rest)
  end.

Section WithPlatform.
Variable hass : HomeAssistant.t.
(** The successive readings of [time.time()]. *)
Variable time_time : nat → float.
(** [str(v)] of a float, a list or a dict. *)
Variable str_of_other : pyval → string.

Definition now : M float :=
  λ s, (Ok (time_time (clock s)),
        mk (_handlers s) (_mappings s) (_managed_resources s)
           (_scene_id_counter s) (world s) (trace s) (S (clock s)) (store s)).

(** *** Persistence *)

(** [for mapping in self._mappings.values(): mapping.last_synced = time.time()] *)
Fixpoint stamp (tick : nat) (ms : list (string * GroupMapping.t))
    : list (string * GroupMapping.t) :=
  match ms with
  | [] => []
  | (key, mapping) :: ms' =>
      (key, GroupMapping.set_last_synced (NumFloat (time_time tick)) mapping)
      :: stamp (S tick) ms'
  end.

Definition persisted (counter : Z) (ms : list GroupMapping.t)
    (managed : gmap string (gset string)) : pyval :=
  PDict [ ("scene_id_counter", PInt counter);
          ("mappings", PList (GroupMapping.to_dict <$> ms));
          ("managed_resources",
           PDict ((λ kv, (kv.1, PList (PStr <$> elements kv.2)))
                  <$> map_to_list managed)) ].

Definition _async_save_state : M unit :=
  SE.modify (λ s,
    let ms := stamp (clock s) (map_to_list (_mappings s)) in
    mk (_handlers s) (list_to_map ms) (_managed_resources s)
       (_scene_id_counter s) (world s) (trace s)
       (clock s + length ms)
       (Some (persisted (_scene_id_counter s) ms.*2 (_managed_resources s)))).

(** *** Cleanup *)

Definition index {A} (l : list A) (i : nat) : M A :=
  match l !! i with
  | Some x => SE.ret x
  | None => SE.raise "list index out of range"
  end.

(** The resources of a key are a Python set, iterated in an order
    the language does not fix; the set of the model is iterated
    in the order of [elements]. Statements about the calls of a
    cleanup are about the resources visited, not about their
    order. *)
Definition _cleanup_resources (ha_entity_id : string) : M unit :=
  resources <- SE.gets (λ s, default ∅ (_managed_resources s !! ha_entity_id)) ;;
  SE.modify (λ s, set_managed_resources
                    (delete ha_entity_id (_managed_resources s)) s) ;;
  SE.for_each (elements resources) (λ resource_ref,
    let parts := split ":" resource_ref in
    protocol <- index parts 0 ;;
    resource_type <- index parts 1 ;;
    handler <- get_handler protocol ;;
    match handler with
    | None => SE.ret tt
    | Some handler =>
        SE.try_except
          (if bool_decide (resource_type = "group") then
             group <- index parts 2 ;;
             call (DeleteGroup protocol (GidStr group))
               (ProtocolHandler.async_delete_group handler (GidStr group))
           else if bool_decide (resource_type = "scene") then
             group <- index parts 2 ;;
             scene <- index parts 3 ;;
             match int_of_str scene with
             | Some scene_id =>
                 call (RemoveScene protocol (GidStr group) scene_id)
                   (ProtocolHandler.async_remove_scene handler
                      (GidStr group) scene_id)
             | None => SE.raise "invalid literal for int()"
             end
           else SE.ret tt)
          (λ _, SE.ret tt)
    end).

(** *** Common provisioning *)

Definition entity_ids_of (entities : list ProtocolInfo.t) : list string :=
  ProtocolInfo.entity_id <$> entities.

Definition native_ids_of (entities : list ProtocolInfo.t)
    : list (option native_id) :=
  ProtocolInfo.native_id <$> entities.

(** The loop of [_create_zwave_capability_groups] over the entities:
    the members per capability and the entities without one. *)
Definition split_by_capability (entities : list ProtocolInfo.t)
    : list (string * list (option native_id)) * list string :=
  foldl (λ '(members_by_capability, ungrouped) entity,
           match ProtocolInfo.capability entity with
           | None => (members_by_capability,
                      ungrouped ++ [ProtocolInfo.entity_id entity])
           | Some capability =>
               if dict_contains capability members_by_capability
                  && native_id_truthy (ProtocolInfo.native_id entity)
               then (dict_append capability (ProtocolInfo.native_id entity)
                       members_by_capability, ungrouped)
               else (members_by_capability, ungrouped)
           end)
        ([(ZWAVE_CAP_BINARY, []); (ZWAVE_CAP_DIMMER, []); (ZWAVE_CAP_COLOR, [])],
         [])
        entities.

Definition _create_zwave_capability_groups (handler : ProtocolHandler.t W)
    (protocol group_name : string) (entities : list ProtocolInfo.t)
    : M (group_id * list string) :=
  if negb (ProtocolHandler.is_zwave_js_handler handler) then
    group <- call (CreateGroup protocol group_name (native_ids_of entities))
               (ProtocolHandler.async_create_group handler group_name
                  (native_ids_of entities)) ;;
    SE.ret (group, [])
  else
    let '(members_by_capability, ungrouped) := split_by_capability entities in
    group <- call (CreateCapabilityGroups protocol group_name members_by_capability)
               (ProtocolHandler.async_create_capability_groups handler
                  group_name members_by_capability) ;;
    SE.ret (group, ungrouped).

(** The body of the loop of [_provision_entity_list] over
    [by_protocol.items()]; the mapping under construction is threaded. *)
Definition provision_protocol_group (mapping_key : string)
    (mapping : GroupMapping.t) (item : string * list ProtocolInfo.t)
    : M GroupMapping.t :=
  let '(protocol, entities) := item in
  handler <- get_handler protocol ;;
  match handler with
  | None =>
      SE.ret (GroupMapping.extend_ungrouped (entity_ids_of entities) mapping)
  | Some handler =>
      if bool_decide (entities = []) then
        SE.ret (GroupMapping.extend_ungrouped (entity_ids_of entities) mapping)
      else
        let group_name := _generate_group_name mapping_key protocol in
        SE.try_except
          (created <-
             (if bool_decide (protocol = PROTOCOL_ZWAVE_JS)
                 && (1 <? length entities)%nat then
                r <- _create_zwave_capability_groups handler protocol
                       group_name entities ;;
                SE.ret (Some r.1, r.2)
              else if (1 <? length entities)%nat then
                group <- call (CreateGroup protocol group_name
                                 (native_ids_of entities))
                           (ProtocolHandler.async_create_group handler
                              group_name (native_ids_of entities)) ;;
                SE.ret (Some group, [])
              else SE.ret (None, [])) ;;
           let '(native_group_id, ungrouped_from_protocol) := created in
           let mapping :=
             if negb (bool_decide (ungrouped_from_protocol = []))
             then GroupMapping.extend_ungrouped ungrouped_from_protocol mapping
             else mapping in
           let grouped :=
             List.filter
               (λ e, negb (bool_decide
                             (ProtocolInfo.entity_id e ∈ ungrouped_from_protocol)))
               entities in
           let mapping :=
             GroupMapping.set_native_group protocol
               (NativeGroupRef.mk protocol native_group_id group_name
                  (entity_ids_of grouped) (native_ids_of grouped))
               mapping in
           (if group_id_truthy native_group_id then
              add_managed_resource mapping_key
                (protocol +:+ ":group:" +:+ str_of_group_id native_group_id)
            else SE.ret tt) ;;
           SE.ret mapping)
          (λ err, SE.ret (GroupMapping.set_sync_error (Some err) mapping))
  end.

Definition _provision_entity_list (mapping_key grouping_type : string)
    (entity_ids : list string) : M unit :=
  if bool_decide (entity_ids = []) then SE.ret tt
  else
    let by_protocol := Classifier.classify_entities hass entity_ids in
    created_at <- now ;;
    mapping <- foldM (provision_protocol_group mapping_key) by_protocol
                 (GroupMapping.new mapping_key grouping_type created_at) ;;
    SE.modify (λ s, set_mappings (<[mapping_key := mapping]> (_mappings s)) s) ;;
    _async_save_state.

(** *** Groups *)

Definition _provision_group (group_id : string) : M unit :=
  match HomeAssistant.states_get hass group_id with
  | None => SE.ret tt
  | Some state =>
      (* [list(members)]: of a dict, its keys *)
      let members :=
        match State.attr_entity_id state with
        | None => []
        | Some (State.EntityList l) => l
        | Some (State.EntityDict d) => d.*1
        end in
      if bool_decide (members = []) then SE.ret tt
      else _provision_entity_list group_id GROUPING_TYPE_GROUP members
  end.

Definition pop_mapping (key : string) : M unit :=
  SE.modify (λ s, set_mappings (delete key (_mappings s)) s).

Definition _on_group_created (group_id : string) : M unit :=
  _provision_group group_id.

Definition _on_group_updated (group_id : string) : M unit :=
  _cleanup_resources group_id ;;
  _provision_group group_id.

Definition _on_group_deleted (group_id : string) : M unit :=
  _cleanup_resources group_id ;;
  pop_mapping group_id.

(** *** Areas, floors, labels *)

Definition is_none {A} (o : option A) : bool :=
  match o with None => true | Some _ => false end.

Definition visible (entry : RegistryEntry.t) : bool :=
  is_none (RegistryEntry.entity_category entry)
  && is_none (RegistryEntry.hidden_by entry).

(** The two loops over one area: the entities assigned to it, then
    those of its devices that carry no area of their own. *)
Definition area_entity_ids (area_id : string) : list string :=
  (RegistryEntry.entity_id
     <$> List.filter visible (HomeAssistant.get_entries_for_area_id hass area_id))
  ++ (device ← HomeAssistant.get_devices_for_area_id hass area_id;
      RegistryEntry.entity_id
        <$> List.filter
              (λ entry, visible entry
                        && negb (opt_str_truthy (RegistryEntry.area_id entry)))
              (HomeAssistant.get_entries_for_device_id hass
                 (DeviceEntry.id device))).

Definition _provision_area (area_id : string) : M unit :=
  let entity_ids : gset string := list_to_set (area_entity_ids area_id) in
  if negb (bool_decide (entity_ids = ∅)) then
    _provision_entity_list ("area." +:+ area_id) GROUPING_TYPE_AREA
      (elements entity_ids)
  else SE.ret tt.

Definition _provision_floor (floor_id : string) : M unit :=
  let entity_ids : gset string :=
    list_to_set (area ← HomeAssistant.get_areas_for_floor hass floor_id;
                 area_entity_ids (AreaEntry.id area)) in
  if negb (bool_decide (entity_ids = ∅)) then
    _provision_entity_list ("floor." +:+ floor_id) GROUPING_TYPE_FLOOR
      (elements entity_ids)
  else SE.ret tt.

Definition label_entity_ids (label_id : string) : list string :=
  (RegistryEntry.entity_id
     <$> List.filter (λ entry, is_none (RegistryEntry.hidden_by entry))
           (HomeAssistant.get_entries_for_label hass label_id))
  ++ (device ← HomeAssistant.get_devices_for_label hass label_id;
      RegistryEntry.entity_id
        <$> List.filter (λ entry, is_none (RegistryEntry.hidden_by entry))
              (HomeAssistant.get_entries_for_device_id hass
                 (DeviceEntry.id device))).

Definition _provision_label (label_id : string) : M unit :=
  let entity_ids : gset string := list_to_set (label_entity_ids label_id) in
  if negb (bool_decide (entity_ids = ∅)) then
    _provision_entity_list ("label." +:+ label_id) GROUPING_TYPE_LABEL
      (elements entity_ids)
  else SE.ret tt.

Definition _reprovision_mapping (mapping_key : string) (provision_func : M unit)
    : M unit :=
  _cleanup_resources mapping_key ;;
  provision_func.

(** *** Scenes *)

Definition sleep (seconds : float) : M unit := emit (Sleep seconds).

(** [for attempt in range(max_retries)], from [attempt] on. *)
Fixpoint store_scene_attempts (handler : ProtocolHandler.t W)
    (protocol group_name : string) (native_scene_id : Z)
    (device_states : list (option native_id * list (string * pyval)))
    (max_retries : Z) (attempts : list Z) : M unit :=
  match attempts with
  | [] => SE.ret tt
  | attempt :: rest =>
      SE.try_except
        (* a success leaves the loop *)
        (call (StoreScene protocol (GidStr group_name) native_scene_id device_states)
           (ProtocolHandler.async_store_scene handler (GidStr group_name)
              native_scene_id device_states))
        (λ err,
           if (attempt =? max_retries - 1)%Z then SE.raise err
           else
             sleep (0.5 * float_of_int (attempt + 1))%float ;;
             store_scene_attempts handler protocol group_name native_scene_id
               device_states max_retries rest)
  end.

Definition range (n : nat) : list Z := Z.of_nat <$> seq 0 n.

(** The per-device state map of [_provision_native_scene]. *)
Definition build_device_states (handler : ProtocolHandler.t W)
    (entities : list (string * ProtocolInfo.t * pyval))
    : result (list (option native_id * list (string * pyval))) :=
  foldl (λ acc '(entity_id, info, target_state),
           match acc with
           | Raised err => Raised err
           | Ok device_states =>
               let state_dict :=
                 match target_state with PDict d => d | _ => [] end in
               let on :=
                 match dict_get "state" state_dict with
                 | None => true
                 | Some (PStr v) => bool_decide (v = "on")
                 | Some _ => false
                 end in
               match ProtocolHandler.convert_service_data handler
                       (default "" (head (split "." entity_id)))
                       (if on then "turn_on" else "turn_off") state_dict with
               | Ok converted =>
                   Ok (dict_set (ProtocolInfo.native_id info) converted
                         device_states)
               | Raised err => Raised err
               end
           end)
        (Ok []) entities.

Definition _provision_native_scene (handler : ProtocolHandler.t W)
    (protocol scene_id : string) (native_scene_id : Z)
    (entities : list (string * ProtocolInfo.t * pyval))
    (mapping : GroupMapping.t) : M GroupMapping.t :=
  let group_name := _generate_group_name scene_id protocol in
  let native_ids := (λ e, ProtocolInfo.native_id e.1.2) <$> entities in
  SE.try_except
    (call (CreateGroup protocol group_name native_ids)
       (ProtocolHandler.async_create_group handler group_name native_ids) ;;
     device_states <- SE.lift_result (build_device_states handler entities) ;;
     store_scene_attempts handler protocol group_name native_scene_id
       device_states 3 (range 3) ;;
     let mapping :=
       GroupMapping.set_native_scene protocol
         (NativeSceneRef.mk protocol group_name native_scene_id
            ((λ e, e.1.1) <$> entities))
         mapping in
     add_managed_resource scene_id (protocol +:+ ":group:" +:+ group_name) ;;
     add_managed_resource scene_id
       (protocol +:+ ":scene:" +:+ group_name +:+ ":"
        +:+ str_of_int native_scene_id) ;;
     SE.ret mapping)
    (λ err, SE.ret (GroupMapping.set_sync_error (Some err) mapping)).

(** The classification loop of [_provision_scene]. *)
Definition classify_scene_entities (entities_config : list (string * pyval))
    : list (string * list (string * ProtocolInfo.t * pyval)) :=
  foldl (λ by_protocol '(entity_id, target_state),
           let info := Classifier.classify_entity hass entity_id in
           dict_append (ProtocolInfo.protocol info)
             (entity_id, info, target_state) by_protocol)
        [] entities_config.

(** The body of the loop of [_provision_scene] over [by_protocol.items()]. *)
Definition provision_protocol_scene (scene_id : string) (native_scene_id : Z)
    (mapping : GroupMapping.t)
    (item : string * list (string * ProtocolInfo.t * pyval))
    : M GroupMapping.t :=
  let '(protocol, entities) := item in
  handler <- get_handler protocol ;;
  match handler with
  | None =>
      SE.ret (GroupMapping.extend_ungrouped ((λ e, e.1.1) <$> entities) mapping)
  | Some handler =>
      if bool_decide (entities = []) then
        SE.ret (GroupMapping.extend_ungrouped ((λ e, e.1.1) <$> entities) mapping)
      else if ProtocolHandler.async_supports_native_scenes handler
              && (1 <? length entities)%nat then
        _provision_native_scene handler protocol scene_id native_scene_id
          entities mapping
      else
        SE.ret (GroupMapping.extend_ungrouped ((λ e, e.1.1) <$> entities) mapping)
  end.

(** [_provision_scene] once the scene's entities are known. *)
Definition provision_scene_entities (scene_id : string)
    (entities_config : list (string * pyval)) : M unit :=
  let by_protocol := classify_scene_entities entities_config in
  created_at <- now ;;
  native_scene_id <- _allocate_scene_id ;;
  mapping <- foldM (provision_protocol_scene scene_id native_scene_id) by_protocol
               (GroupMapping.new scene_id GROUPING_TYPE_SCENE created_at) ;;
  SE.modify (λ s, set_mappings (<[scene_id := mapping]> (_mappings s)) s) ;;
  _async_save_state.

Definition _provision_scene (scene_id : string) : M unit :=
  match HomeAssistant.states_get hass scene_id with
  | None => SE.ret tt
  | Some state =>
      match State.attr_entity_id state with
      | None | Some (State.EntityList []) | Some (State.EntityDict []) => SE.ret tt
      | Some (State.EntityList (_ :: _)) =>
          SE.raise "'list' object has no attribute 'items'"
      | Some (State.EntityDict entities_config) =>
          provision_scene_entities scene_id entities_config
      end
  end.

Definition _on_scene_created (scene_id : string) : M unit :=
  _provision_scene scene_id.

Definition _on_scene_updated (scene_id : string) : M unit :=
  _cleanup_resources scene_id ;;
  _provision_scene scene_id.

Definition _on_scene_deleted (scene_id : string) : M unit :=
  _cleanup_resources scene_id ;;
  pop_mapping scene_id.

(** *** Reconciliation *)

(** The ids of the native groups the mappings record for [protocol]. *)
Definition managed_group_ids (protocol : string)
    (mappings : gmap string GroupMapping.t) : gset string :=
  list_to_set
    (omap (λ mapping : GroupMapping.t,
             (λ group_ref, str_of_group_id (NativeGroupRef.group_id group_ref))
             <$> GroupMapping.native_groups mapping !! protocol)
          (map_to_list mappings).*2).

(** [group_info.get("name", "")], on which [startswith] is called. *)
Definition group_name_of (group_info : list (string * pyval)) : result string :=
  match dict_get "name" group_info with
  | None => Ok ""
  | Some (PStr name) => Ok name
  | Some _ => Raised "object has no attribute 'startswith'"
  end.

Definition reconcile_protocol (protocol : string) (handler : ProtocolHandler.t W)
    : M unit :=
  SE.try_except
    (actual_groups <- call (GetGroups protocol)
                        (ProtocolHandler.async_get_groups handler) ;;
     managed <- SE.gets (λ s, managed_group_ids protocol (_mappings s)) ;;
     SE.for_each actual_groups (λ '(group, group_info),
       group_name <- SE.lift_result (group_name_of group_info) ;;
       if startswith group_name "ha_"
          && negb (bool_decide (str_of_group_id (Some group) ∈ managed))
       then call (DeleteGroup protocol group)
              (ProtocolHandler.async_delete_group handler group)
       else SE.ret tt))
    (λ _, SE.ret tt).

Definition _async_reconcile : M unit :=
  handlers <- SE.gets _handlers ;;
  SE.for_each handlers (λ '(protocol, handler), reconcile_protocol protocol handler).

(** *** Dispatch *)

Inductive dispatch_task :=
| DispatchScene (mapping : GroupMapping.t)
| DispatchGroup (mapping : GroupMapping.t).

(** [data.get(key, [])], a single string taken as a one-element
    list, then iterated: the elements of a list, the keys of a
    dict. *)
Definition target_values (key : string) (data : list (string * pyval))
    : result (list pyval) :=
  match dict_get key data with
  | None => Ok []
  | Some (PStr id) => Ok [PStr id]
  | Some (PList ids) => Ok ids
  | Some (PDict d) => Ok (PStr <$> d.*1)
  | Some _ => Raised "object is not iterable"
  end.

(** [key in self._mappings] and [self._mappings[key]]: the table
    is keyed by strings, so any other hashable value is no key of
    it; a list or a dict cannot be hashed. *)
Definition mapping_of (mappings : gmap string GroupMapping.t) (key : pyval)
    : result (option GroupMapping.t) :=
  match key with
  | PStr id => Ok (mappings !! id)
  | PList _ | PDict _ => Raised "unhashable type"
  | _ => Ok None
  end.

(** [f"{prefix}{id}"] *)
Definition prefixed (prefix : string) (id : pyval) : pyval :=
  PStr (prefix +:+ str_of_value str_of_other id).

(** One of the four loops of [async_dispatch]: for every id whose
    key has a mapping, a task is created and [handled] is set; the
    loop ends at an id that cannot be looked up. *)
Fixpoint route (scene_aware : bool) (key_of : pyval → pyval)
    (mappings : gmap string GroupMapping.t) (ids : list pyval)
    (acc : bool * list dispatch_task)
    : bool * list dispatch_task * option string :=
  match ids with
  | [] => (acc, None)
  | id :: ids' =>
      match mapping_of mappings (key_of id) with
      | Raised err => (acc, Some err)
      | Ok None => route scene_aware key_of mappings ids' acc
      | Ok (Some mapping) =>
          route scene_aware key_of mappings ids'
            (true,
             acc.2 ++
             [if scene_aware
                 && bool_decide (GroupMapping.ha_entity_type mapping
                                 = GROUPING_TYPE_SCENE)
              then DispatchScene mapping else DispatchGroup mapping])
      end
  end.

(** [await self.hass.services.async_call(domain, service, data)] *)
Definition call_service (domain service : string) (data : list (string * pyval))
    : M unit :=
  emit (CallService (ServiceCall.mk domain service data)) ;;
  match HomeAssistant.services_async_call hass domain service data with
  | None => SE.ret tt
  | Some err => SE.raise err
  end.

(** The tasks for the ungrouped entities, awaited with the
    others under [return_exceptions=True]. *)
Definition dispatch_ungrouped (mapping : GroupMapping.t) (domain service : string)
    (data : list (string * pyval)) : M unit :=
  SE.for_each (GroupMapping.ungrouped_entities mapping) (λ entity_id,
    SE.captured
      (call_service domain service
         (dict_set "entity_id" (PStr entity_id) data))).

(** [native_scenes] and [native_groups] are Python dicts, iterated
    in the order of insertion; the tables of the model keep no such
    order and are iterated in the order of [map_to_list]. Statements
    about the calls of a dispatch are up to the order of the
    protocols. *)
Definition _dispatch_scene (mapping : GroupMapping.t) (domain service : string)
    (data : list (string * pyval)) : M unit :=
  SE.for_each (map_to_list (GroupMapping.native_scenes mapping))
    (λ '(protocol, scene_ref),
       handler <- get_handler protocol ;;
       match handler with
       | Some handler =>
           SE.captured
             (call (RecallScene protocol
                      (GidStr (NativeSceneRef.group_name scene_ref))
                      (NativeSceneRef.scene_id scene_ref))
                (ProtocolHandler.async_recall_scene handler
                   (GidStr (NativeSceneRef.group_name scene_ref))
                   (NativeSceneRef.scene_id scene_ref)))
       | None => SE.ret tt
       end) ;;
  dispatch_ungrouped mapping domain service data.

Definition _dispatch_group (mapping : GroupMapping.t) (domain service : string)
    (data : list (string * pyval)) : M unit :=
  SE.for_each (map_to_list (GroupMapping.native_groups mapping))
    (λ '(protocol, group_ref),
       handler <- get_handler protocol ;;
       match handler with
       | None => SE.ret tt
       | Some handler =>
           let multicast :=
             call (SendMulticast protocol
                     (NativeGroupRef.member_native_ids group_ref)
                     domain service data)
               (ProtocolHandler.async_send_multicast handler
                  (NativeGroupRef.member_native_ids group_ref)
                  domain service data) in
           match NativeGroupRef.group_id group_ref with
           | Some group =>
               if group_id_truthy (Some group) then
                 SE.captured
                   (call (SendGroupCommand protocol group domain service data)
                      (ProtocolHandler.async_send_group_command handler
                         group domain service data))
               else SE.captured multicast
           | None => SE.captured multicast
           end
       end) ;;
  dispatch_ungrouped mapping domain service data.

Definition run_task (domain service : string) (data : list (string * pyval))
    (task : dispatch_task) : M unit :=
  match task with
  | DispatchScene mapping => SE.captured (_dispatch_scene mapping domain service data)
  | DispatchGroup mapping => SE.captured (_dispatch_group mapping domain service data)
  end.

(** The four loops of [async_dispatch], in their order: entity ids
    (scenes told apart), area ids, floor ids, label ids. *)
Definition dispatch_targets : list (bool * (pyval → pyval) * string) :=
  [ (true, λ id, id, ATTR_ENTITY_ID);
    (false, prefixed "area.", ATTR_AREA_ID);
    (false, prefixed "floor.", ATTR_FLOOR_ID);
    (false, prefixed "label.", ATTR_LABEL_ID) ].

(** The tasks [async_dispatch] creates and the flag it holds, up to
    the end or to the first exception: a target that cannot be
    iterated, an entity id that cannot be hashed. *)
Fixpoint dispatch_plan (mappings : gmap string GroupMapping.t)
    (data : list (string * pyval))
    (targets : list (bool * (pyval → pyval) * string))
    (acc : bool * list dispatch_task)
    : bool * list dispatch_task * option string :=
  match targets with
  | [] => (acc, None)
  | (scene_aware, key_of, attr) :: rest =>
      match target_values attr data with
      | Ok ids =>
          match route scene_aware key_of mappings ids acc with
          | (acc', None) => dispatch_plan mappings data rest acc'
          | (acc', Some err) => (acc', Some err)
          end
      | Raised err => (acc, Some err)
      end
  end.

(** The tasks are awaited together, exceptions captured; they are
    run here in the order of their creation. A task created before
    an exception of the routing loops runs all the same. *)
Definition async_dispatch (domain service : string)
    (data : list (string * pyval)) : M bool :=
  mappings <- SE.gets _mappings ;;
  let '(handled, tasks, raised) :=
    dispatch_plan mappings data dispatch_targets (false, []) in
  SE.for_each tasks (run_task domain service data) ;;
  match raised with
  | None => SE.ret handled
  | Some err => SE.raise err
  end.
(** *** Manual sync *)

Definition async_sync_entity (entity_id : string) : M unit :=
  _cleanup_resources entity_id ;;
  if startswith entity_id "group." then _provision_group entity_id
  else if startswith entity_id "scene." then _provision_scene entity_id
  else if startswith entity_id "area." then _provision_area (drop_chars 5 entity_id)
  else if startswith entity_id "floor." then _provision_floor (drop_chars 6 entity_id)
  else if startswith entity_id "label." then _provision_label (drop_chars 6 entity_id)
  else SE.ret tt.

(** *** Loading the persisted state *)

(** [set(v)] for a value of the persisted [managed_resources]. The
    table of the model holds sets of strings: a list with an element
    that is no string, which the source would store when its elements
    can be hashed, has no counterpart in the model and is refused here
    ([Spec.typed_resources] excludes it). *)
Definition resource_set (v : pyval) : result (gset string) :=
  match v with
  | PList l =>
      match mapM GroupMapping.as_str l with
      | Some refs => Ok (list_to_set refs)
      | None => Raised "resource references are not strings"
      end
  | PDict d => Ok (list_to_set d.*1)
  | PStr s => Ok (list_to_set ((λ c, String c EmptyString) <$> list_ascii_of_string s))
  | _ => Raised "object is not iterable"
  end.

(** [{k: set(v) for k, v in d.items()}] *)
Fixpoint resource_sets (d : list (string * pyval))
    : result (list (string * gset string)) :=
  match d with
  | [] => Ok []
  | (k, v) :: d' =>
      match resource_set v with
      | Raised err => Raised err
      | Ok refs =>
          match resource_sets d' with
          | Raised err => Raised err
          | Ok rest => Ok ((k, refs) :: rest)
          end
      end
  end.

(** The loop over [data.get("mappings", [])]: an entry that
    [GroupMapping.from_dict] refuses is logged and skipped. *)
Definition load_mappings (entries : list pyval) : M unit :=
  SE.for_each entries (λ mapping_data,
    match GroupMapping.from_dict mapping_data with
    | Some mapping =>
        SE.modify (λ s,
          set_mappings
            (<[GroupMapping.ha_entity_id mapping := mapping]> (_mappings s)) s)
    | None => SE.ret tt
    end).

(** [self._store.async_load()] gives back the blob last saved, or
    [None]. *)
Definition _async_load_state : M unit :=
  data <- SE.gets store ;;
  match data with
  | None => SE.ret tt
  | Some data =>
      if negb (truthy data) then SE.ret tt
      else
        match data with
        | PDict d =>
            counter <-
              match dict_get "scene_id_counter" d with
              | None => SE.ret SCENE_ID_START
              | Some (PNum (NumInt counter)) => SE.ret counter
              (* the counter of the model is an integer: any other
                 value, which the source would store, is outside it *)
              | Some _ => SE.raise "scene_id_counter is not an integer"
              end ;;
            SE.modify (set_scene_id_counter counter) ;;
            match default (PList []) (dict_get "mappings" d) with
            | PList entries => load_mappings entries
            (* the keys of a dict and the characters of a string are
               iterated, and [from_dict] refuses each *)
            | PDict _ | PStr _ => SE.ret tt
            | _ => SE.raise "object is not iterable"
            end ;;
            match default (PDict []) (dict_get "managed_resources" d) with
            | PDict r =>
                sets <- SE.lift_result (resource_sets r) ;;
                SE.modify (set_managed_resources (list_to_map sets))
            | _ => SE.raise "object has no attribute 'items'"
            end
        | _ => SE.raise "object has no attribute 'get'"
        end
  end.

(** The orchestrator as [__init__] leaves it over a store that holds
    [blob], once the handlers are set up. *)
Definition restarted (handlers : list (string * ProtocolHandler.t W)) (w : W)
    (blob : option pyval) : t W :=
  mk handlers ∅ ∅ SCENE_ID_START w [] 0 blob.

End WithPlatform.
End WithWorld.
End Orchestrator.

(* ===================================================================== *)
(** ** __init__.py: the dispatch service *)
(* ===================================================================== *)

Module Services.
Import Const.
Local Open Scope se_scope.

(** [_get_orchestrator]: the runtime data of the first config entry of
    the integration; [ServiceValidationError] when it has none. *)
Definition _get_orchestrator {W} (entries : list (Orchestrator.t W))
    : result (Orchestrator.t W) :=
  match entries with
  | [] => Raised "not_loaded"
  | orchestrator :: _ => Ok orchestrator
  end.

(** [{**data}] with the targets of the call written over it. *)
Definition service_data (target data : list (string * pyval))
    : list (string * pyval) :=
  foldl (λ service_data key,
           match dict_get key target with
           | Some v => dict_set key v service_data
           | None => service_data
           end)
        data ["entity_id"; "area_id"; "floor_id"; "label_id"].

(** [handle_dispatch], on call data the service schema has validated:
    [domain] and [service] are strings, [target] and [data] dicts. The
    state is the runtime data of the config entries; the orchestrator
    of the first one is the one that is run. *)
Definition handle_dispatch {W} (hass : HomeAssistant.t)
    (str_of_other : pyval → string) (domain service : string)
    (target data : list (string * pyval))
    : SE.t (list (Orchestrator.t W)) unit :=
  λ entries,
    match _get_orchestrator entries with
    | Raised err => (Raised err, entries)
    | Ok orchestrator =>
        let service_data := service_data target data in
        let '(r, orchestrator') :=
          (handled <- Orchestrator.async_dispatch hass str_of_other
                        domain service service_data ;;
           if handled : bool then SE.ret tt
           else Orchestrator.call_service hass domain service service_data)
            orchestrator in
        (r, orchestrator' :: tail entries)
    end.
End Services.

(* ===================================================================== *)
(** ** Vocabulary of the statements *)
(* ===================================================================== *)

Module Spec.
Import Const.

(** *** Grouping by a key, as [defaultdict(list)] does *)

Definition group_by {A} (f : A → string) (l : list A) : list (string * list A) :=
  foldl (λ d x, dict_append (f x) x d) [] l.

Definition bucket {A} (f : A → string) (k : string) (l : list A) : list A :=
  List.filter (λ x, bool_decide (f x = k)) l.

(** The members of a logical group that classify on [protocol]. *)
Definition members_on (hass : HomeAssistant.t) (protocol : string)
    (entity_ids : list string) : list ProtocolInfo.t :=
  bucket ProtocolInfo.protocol protocol (Classifier.classify_entity hass <$> entity_ids).

(** The entities of a scene that classify on [protocol]. *)
Definition scene_members_on (hass : HomeAssistant.t) (protocol : string)
    (entities_config : list (string * pyval)) : list string :=
  List.filter
    (λ e, bool_decide (ProtocolInfo.protocol (Classifier.classify_entity hass e)
                       = protocol))
    entities_config.*1.

(** *** Events *)

Definition is_create_for (protocol : string) (ev : Orchestrator.event) : Prop :=
  match ev with
  | Orchestrator.CreateGroup p _ _
  | Orchestrator.CreateCapabilityGroups p _ _ => p = protocol
  | _ => False
  end.

Definition is_store_for (protocol : string) (ev : Orchestrator.event) : Prop :=
  match ev with
  | Orchestrator.StoreScene p _ _ _ => p = protocol
  | _ => False
  end.

(** The deletion of a native group or the removal of a native scene. *)
Definition is_removal (ev : Orchestrator.event) : Prop :=
  match ev with
  | Orchestrator.DeleteGroup _ _ | Orchestrator.RemoveScene _ _ _ => True
  | _ => False
  end.

Definition is_handler_command (ev : Orchestrator.event) : Prop :=
  match ev with
  | Orchestrator.Sleep _ => False
  | _ => True
  end.

(** *** Members of a mapping *)

(** [e] is a member of the native group of [protocol]. *)
Definition in_native_group (m : GroupMapping.t) (protocol e : string) : Prop :=
  ∃ r, GroupMapping.native_groups m !! protocol = Some r
       ∧ e ∈ NativeGroupRef.member_entity_ids r.

(** [e] is a member of the native scene of [protocol]. *)
Definition in_native_scene (m : GroupMapping.t) (protocol e : string) : Prop :=
  ∃ r, GroupMapping.native_scenes m !! protocol = Some r
       ∧ e ∈ NativeSceneRef.member_entity_ids r.

Definition in_protocol_list (m : GroupMapping.t) (protocol e : string) : Prop :=
  in_native_group m protocol e ∨ in_native_scene m protocol e.

(** No entity is in a protocol's member list and in
    [ungrouped_entities], and none is in the lists of two protocols. *)
Definition partitioned (m : GroupMapping.t) : Prop :=
  (∀ p e, in_protocol_list m p e → e ∉ GroupMapping.ungrouped_entities m)
  ∧ (∀ p1 p2 e, in_protocol_list m p1 e → in_protocol_list m p2 e → p1 = p2).

(** *** Dispatch targets *)

(** The ids a service call names under [key]: one id, or a list of
    ids. *)
Definition named_ids (key : string) (data : list (string * pyval)) : list string :=
  match dict_get key data with
  | Some (PStr id) => [id]
  | Some (PList ids) => omap GroupMapping.as_str ids
  | _ => []
  end.

(** The keys of the mapping table a service call names: its entity
    ids as they are, its area, floor and label ids under their
    prefix. *)
Definition named_targets (data : list (string * pyval)) : list string :=
  named_ids ATTR_ENTITY_ID data
  ++ (String.append "area." <$> named_ids ATTR_AREA_ID data)
  ++ (String.append "floor." <$> named_ids ATTR_FLOOR_ID data)
  ++ (String.append "label." <$> named_ids ATTR_LABEL_ID data).

(** The target under [key] is absent, one id, or a list of ids. *)
Definition target_shaped (key : string) (data : list (string * pyval)) : Prop :=
  match dict_get key data with
  | None | Some (PStr _) => True
  | Some (PList ids) => Forall (λ id, is_Some (GroupMapping.as_str id)) ids
  | Some _ => False
  end.

Definition targets_shaped (data : list (string * pyval)) : Prop :=
  Forall (λ key, target_shaped key data)
    [ATTR_ENTITY_ID; ATTR_AREA_ID; ATTR_FLOOR_ID; ATTR_LABEL_ID].

(** Some target the call names has a mapping. *)
Definition some_target_mapped (mappings : gmap string GroupMapping.t)
    (data : list (string * pyval)) : Prop :=
  ∃ key, key ∈ named_targets data ∧ is_Some (mappings !! key).

(** *** Scene ids *)

Definition scene_id_in_range (i : Z) : Prop :=
  (SCENE_ID_START ≤ i ≤ SCENE_ID_MAX)%Z.

(** *** What one turn of the provisioning loop did for a protocol *)

Inductive group_outcome :=
| AllUngrouped
| Single
| Created (group : group_id) (ungrouped : list string)
| CreateFailed (err : string).

Definition grouped (ungrouped : list string) (entities : list ProtocolInfo.t)
    : list ProtocolInfo.t :=
  List.filter (λ e, negb (bool_decide (ProtocolInfo.entity_id e ∈ ungrouped)))
    entities.

Definition group_ref (mapping_key protocol : string) (group : option group_id)
    (members : list ProtocolInfo.t) : NativeGroupRef.t :=
  NativeGroupRef.mk protocol group
    (Orchestrator._generate_group_name mapping_key protocol)
    (Orchestrator.entity_ids_of members) (Orchestrator.native_ids_of members).

Definition group_outcome_mapping (mapping_key protocol : string)
    (entities : list ProtocolInfo.t) (o : group_outcome) (m : GroupMapping.t)
    : GroupMapping.t :=
  match o with
  | AllUngrouped =>
      GroupMapping.extend_ungrouped (Orchestrator.entity_ids_of entities) m
  | Single =>
      GroupMapping.set_native_group protocol
        (group_ref mapping_key protocol None entities) m
  | Created group ungrouped =>
      GroupMapping.set_native_group protocol
        (group_ref mapping_key protocol (Some group) (grouped ungrouped entities))
        (GroupMapping.extend_ungrouped ungrouped m)
  | CreateFailed err => GroupMapping.set_sync_error (Some err) m
  end.

(** *** The group creations of a provisioning pass *)

(** The call that creates the native group of [protocol] for
    [entities]: capability sub-groups when the protocol is Z-Wave and
    its handler the Z-Wave adapter, one plain group otherwise. *)
Definition group_creation {W} (handler : ProtocolHandler.t W)
    (mapping_key protocol : string) (entities : list ProtocolInfo.t)
    : SE.t W group_id :=
  let group_name := Orchestrator._generate_group_name mapping_key protocol in
  if bool_decide (protocol = PROTOCOL_ZWAVE_JS)
     && ProtocolHandler.is_zwave_js_handler handler
  then ProtocolHandler.async_create_capability_groups handler group_name
         (Orchestrator.split_by_capability entities).1
  else ProtocolHandler.async_create_group handler group_name
         (Orchestrator.native_ids_of entities).

(** The creations a pass asks for, protocol by protocol in the order
    of [by_protocol], each on the backend as the one before left it:
    one for every protocol with a handler and more than one member.
    Every creation is listed with what it returned or raised. *)
Fixpoint creations {W} (handlers : list (string * ProtocolHandler.t W))
    (mapping_key : string) (by_protocol : list (string * list ProtocolInfo.t))
    (w : W) : list (string * result group_id) * W :=
  match by_protocol with
  | [] => ([], w)
  | (protocol, entities) :: rest =>
      match dict_get protocol handlers with
      | Some handler =>
          if (1 <? length entities)%nat then
            let '(r, w') := group_creation handler mapping_key protocol entities w in
            let '(results, w'') := creations handlers mapping_key rest w' in
            ((protocol, r) :: results, w'')
          else creations handlers mapping_key rest w
      | None => creations handlers mapping_key rest w
      end
  end.

(** The message left by calls made one after the other, each failure
    writing over the message before it. *)
Definition recorded_error {A} (before : option string)
    (results : list (string * result A)) : option string :=
  foldl (λ recorded pr, match pr.2 with
                        | Raised err => Some err
                        | Ok _ => recorded
                        end) before results.

Inductive scene_outcome :=
| Fallback
| Stored
| ProvisionFailed (err : string).

Definition scene_ref (scene_id protocol : string) (native_scene_id : Z)
    (entities : list (string * ProtocolInfo.t * pyval)) : NativeSceneRef.t :=
  NativeSceneRef.mk protocol (Orchestrator._generate_group_name scene_id protocol)
    native_scene_id ((λ e, e.1.1) <$> entities).

Definition scene_outcome_mapping (scene_id protocol : string) (native_scene_id : Z)
    (entities : list (string * ProtocolInfo.t * pyval)) (o : scene_outcome)
    (m : GroupMapping.t) : GroupMapping.t :=
  match o with
  | Fallback => GroupMapping.extend_ungrouped ((λ e, e.1.1) <$> entities) m
  | Stored =>
      GroupMapping.set_native_scene protocol
        (scene_ref scene_id protocol native_scene_id entities) m
  | ProvisionFailed err => GroupMapping.set_sync_error (Some err) m
  end.

(** The fields of the orchestrator a provisioning loop never writes,
    and the events it appended. *)
Definition extends {W} (s s' : Orchestrator.t W) (evs : list Orchestrator.event)
    : Prop :=
  Orchestrator._handlers s' = Orchestrator._handlers s
  ∧ Orchestrator._mappings s' = Orchestrator._mappings s
  ∧ Orchestrator._scene_id_counter s' = Orchestrator._scene_id_counter s
  ∧ Orchestrator.clock s' = Orchestrator.clock s
  ∧ Orchestrator.store s' = Orchestrator.store s
  ∧ Orchestrator.trace s' = Orchestrator.trace s ++ evs.

(** What entitles a turn of the group loop to its outcome, and the
    events the turn appends. *)
Definition group_outcome_ok {W} (handlers : list (string * ProtocolHandler.t W))
    (protocol : string) (entities : list ProtocolInfo.t) (o : group_outcome)
    (evs : list Orchestrator.event) : Prop :=
  match o with
  | AllUngrouped =>
      (dict_get protocol handlers = None ∨ entities = []) ∧ evs = []
  | Single =>
      is_Some (dict_get protocol handlers) ∧ length entities = 1 ∧ evs = []
  | Created group ungrouped =>
      is_Some (dict_get protocol handlers)
      ∧ 1 < length entities
      ∧ (∃ ev, evs = [ev] ∧ is_create_for protocol ev)
      ∧ (∀ x, x ∈ ungrouped → x ∈ Orchestrator.entity_ids_of entities)
  | CreateFailed err =>
      is_Some (dict_get protocol handlers)
      ∧ 1 < length entities
      ∧ (∃ ev, evs = [ev] ∧ is_create_for protocol ev)
  end.

(** The loop of [_provision_entity_list], turn by turn. *)
Inductive group_run {W} (handlers : list (string * ProtocolHandler.t W))
    (mapping_key : string)
    : list (string * list ProtocolInfo.t) → GroupMapping.t → GroupMapping.t
      → list Orchestrator.event → Prop :=
| group_run_nil m : group_run handlers mapping_key [] m m []
| group_run_cons protocol entities rest o m m' evs evs' :
    group_outcome_ok handlers protocol entities o evs →
    group_run handlers mapping_key rest
      (group_outcome_mapping mapping_key protocol entities o m) m' evs' →
    group_run handlers mapping_key ((protocol, entities) :: rest) m m' (evs ++ evs').

(** The events of the store loop: stores of [protocol] and sleeps. *)
Definition is_store_or_sleep (protocol : string) (ev : Orchestrator.event) : Prop :=
  is_store_for protocol ev ∨ ∃ seconds, ev = Orchestrator.Sleep seconds.

Definition scene_outcome_ok {W} (handlers : list (string * ProtocolHandler.t W))
    (scene_id protocol : string)
    (entities : list (string * ProtocolInfo.t * pyval)) (o : scene_outcome)
    (evs : list Orchestrator.event) : Prop :=
  match o with
  | Fallback =>
      (dict_get protocol handlers = None
       ∨ (∃ h, dict_get protocol handlers = Some h
               ∧ ProtocolHandler.async_supports_native_scenes h = false)
       ∨ length entities ≤ 1)
      ∧ evs = []
  | Stored | ProvisionFailed _ =>
      (∃ h, dict_get protocol handlers = Some h
            ∧ ProtocolHandler.async_supports_native_scenes h = true)
      ∧ 1 < length entities
      ∧ ∃ evs',
          evs = Orchestrator.CreateGroup protocol
                  (Orchestrator._generate_group_name scene_id protocol)
                  ((λ e, ProtocolInfo.native_id e.1.2) <$> entities)
                :: evs'
          ∧ Forall (is_store_or_sleep protocol) evs'
  end.

(** The loop of [_provision_scene], turn by turn. *)
Inductive scene_run {W} (handlers : list (string * ProtocolHandler.t W))
    (scene_id : string) (native_scene_id : Z)
    : list (string * list (string * ProtocolInfo.t * pyval))
      → GroupMapping.t → GroupMapping.t → list Orchestrator.event → Prop :=
| scene_run_nil m : scene_run handlers scene_id native_scene_id [] m m []
| scene_run_cons protocol entities rest o m m' evs evs' :
    scene_outcome_ok handlers scene_id protocol entities o evs →
    scene_run handlers scene_id native_scene_id rest
      (scene_outcome_mapping scene_id protocol native_scene_id entities o m)
      m' evs' →
    scene_run handlers scene_id native_scene_id ((protocol, entities) :: rest)
      m m' (evs ++ evs').

(** *** The store loop, call by call *)

(** The three calls of [async_store_scene] the retry loop may make, each
    on the world the previous one left: the outcome of the loop, the
    world it leaves and the events it appends. *)
Definition store_attempts_spec {W} (store : SE.t W unit) (ev : Orchestrator.event)
    (w : W) : result unit * W * list Orchestrator.event :=
  let '(r1, w1) := store w in
  match r1 with
  | Ok _ => (Ok tt, w1, [ev])
  | Raised _ =>
      let '(r2, w2) := store w1 in
      match r2 with
      | Ok _ => (Ok tt, w2, [ev; Orchestrator.Sleep 0.5; ev])
      | Raised _ =>
          let '(r3, w3) := store w2 in
          (r3, w3, [ev; Orchestrator.Sleep 0.5; ev; Orchestrator.Sleep 1; ev])
      end
  end.

(** The orchestrator with another world and more events. *)
Definition with_world_trace {W} (s : Orchestrator.t W) (w : W)
    (evs : list Orchestrator.event) : Orchestrator.t W :=
  Orchestrator.mk (Orchestrator._handlers s) (Orchestrator._mappings s)
    (Orchestrator._managed_resources s) (Orchestrator._scene_id_counter s)
    w (Orchestrator.trace s ++ evs) (Orchestrator.clock s) (Orchestrator.store s).

(** *** Invariants of the provisioning loops *)

Definition scene_entity_ids (entities : list (string * ProtocolInfo.t * pyval))
    : list string :=
  (λ e, e.1.1) <$> entities.

(** The entities of a scene with their classification, in the order
    of the scene's configuration. *)
Definition scene_triples (hass : HomeAssistant.t)
    (entities_config : list (string * pyval))
    : list (string * ProtocolInfo.t * pyval) :=
  (λ et, (et.1, Classifier.classify_entity hass et.1, et.2)) <$> entities_config.

(** Every member recorded so far belongs to a bucket already met, and
    is not ungrouped; every ungrouped entity belongs to such a bucket. *)
Definition sorted_so_far (met : list (string * list ProtocolInfo.t))
    (m : GroupMapping.t) : Prop :=
  (∀ p x, in_native_group m p x →
     (∃ es, (p, es) ∈ met ∧ x ∈ Orchestrator.entity_ids_of es)
     ∧ x ∉ GroupMapping.ungrouped_entities m)
  ∧ (∀ x, x ∈ GroupMapping.ungrouped_entities m →
       ∃ p es, (p, es) ∈ met ∧ x ∈ Orchestrator.entity_ids_of es).

Definition scene_sorted_so_far
    (met : list (string * list (string * ProtocolInfo.t * pyval)))
    (m : GroupMapping.t) : Prop :=
  (∀ p x, in_native_scene m p x →
     (∃ es, (p, es) ∈ met ∧ x ∈ scene_entity_ids es)
     ∧ x ∉ GroupMapping.ungrouped_entities m)
  ∧ (∀ x, x ∈ GroupMapping.ungrouped_entities m →
       ∃ p es, (p, es) ∈ met ∧ x ∈ scene_entity_ids es).

(** *** Resolved members *)

(** The members [_provision_group] resolves; none when the group has no state. *)
Definition group_members (hass : HomeAssistant.t) (group_id : string) : list string :=
  match HomeAssistant.states_get hass group_id with
  | None => []
  | Some state =>
      match State.attr_entity_id state with
      | None => []
      | Some (State.EntityList l) => l
      | Some (State.EntityDict d) => d.*1
      end
  end.

(** The entities [_provision_scene] resolves; none when the scene has no state. *)
Definition scene_entities (hass : HomeAssistant.t) (scene_id : string) : list string :=
  group_members hass scene_id.

Definition floor_entity_ids (hass : HomeAssistant.t) (floor_id : string)
    : list string :=
  area ← HomeAssistant.get_areas_for_floor hass floor_id;
  Orchestrator.area_entity_ids hass (AreaEntry.id area).

(** The routine asked nothing of any handler, recorded no managed
    resource, and left the mapping table as it was: it created no mapping
    under [key], and dropped none. *)
Definition nothing_provisioned {W} (key : string) (s s' : Orchestrator.t W) : Prop :=
  Orchestrator.world s' = Orchestrator.world s
  ∧ Orchestrator.trace s' = Orchestrator.trace s
  ∧ Orchestrator._managed_resources s' = Orchestrator._managed_resources s
  ∧ Orchestrator._mappings s' !! key = Orchestrator._mappings s !! key.

(** *** Reconciliation *)

(** The deletions a reconciliation of [protocol] asks for when no call
    raises: the reported groups with the reserved prefix whose id is not
    the group id of a native group reference of a mapping. *)
Definition orphan_deletions (protocol : string) (managed : gset string)
    (actual_groups : list (group_id * list (string * pyval)))
    : list Orchestrator.event :=
  omap (λ '(group, group_info),
          match Orchestrator.group_name_of group_info with
          | Ok name =>
              if startswith name "ha_"
                 && negb (bool_decide (str_of_group_id (Some group) ∈ managed))
              then Some (Orchestrator.DeleteGroup protocol group)
              else None
          | Raised _ => None
          end)
       actual_groups.
(** *** The allocator, in closed form *)

(** The id the [i]-th allocation returns when the counter stood at [c]. *)
Definition scene_id_after (c : Z) (i : nat) : Z :=
  (SCENE_ID_START
   + (c - SCENE_ID_START + Z.of_nat i) mod (SCENE_ID_MAX - SCENE_ID_START + 1))%Z.

(** *** The persisted blob, field by field *)

(** The scene id counter [_async_load_state] reads from the blob;
    [None] when the blob holds something that is not an integer. *)
Definition persisted_counter (d : list (string * pyval)) : option Z :=
  match dict_get "scene_id_counter" d with
  | None => Some SCENE_ID_START
  | Some (PNum (NumInt counter)) => Some counter
  | Some _ => None
  end.

(** The managed resources it reads, or the exception it meets. *)
Definition persisted_resources (d : list (string * pyval))
    : result (list (string * gset string)) :=
  match default (PDict []) (dict_get "managed_resources" d) with
  | PDict r => Orchestrator.resource_sets r
  | _ => Raised "object has no attribute 'items'"
  end.

(** *** Persisted entries and the data model *)

(** The value an entry gives under [key], if it gives one, reads at the
    type [as_] of the data model. *)
Definition typed_field {A} (as_ : pyval → option A) (key : string)
    (d : list (string * pyval)) : bool :=
  match dict_get key d with
  | None => true
  | Some v => bool_decide (is_Some (as_ v))
  end.

Definition typed_group_ref (v : pyval) : bool :=
  match v with
  | PDict d =>
      typed_field GroupMapping.as_str "protocol" d
      && typed_field GroupMapping.as_group_id "group_id" d
      && typed_field GroupMapping.as_str "group_name" d
      && typed_field GroupMapping.as_str_list "member_entity_ids" d
      && typed_field GroupMapping.as_native_id_list "member_native_ids" d
  | _ => true
  end.

Definition typed_scene_ref (v : pyval) : bool :=
  match v with
  | PDict d =>
      typed_field GroupMapping.as_str "protocol" d
      && typed_field GroupMapping.as_str "group_name" d
      && typed_field GroupMapping.as_int "scene_id" d
      && typed_field GroupMapping.as_str_list "member_entity_ids" d
  | _ => true
  end.

Definition typed_refs (typed_ref : pyval → bool) (v : option pyval) : bool :=
  match v with
  | Some (PDict refs) => forallb (λ kv, typed_ref kv.2) refs
  | _ => true
  end.

(** A persisted entry as the integration writes them, possibly with
    fields missing or in excess: every field it gives, and every field
    its native group and scene references give, holds a value of the type
    the data model declares for it. An entry that is no dict, or whose
    references are none, gives no field. *)
Definition typed_entry (v : pyval) : bool :=
  match v with
  | PDict d =>
      typed_field GroupMapping.as_str "ha_entity_id" d
      && typed_field GroupMapping.as_str "ha_entity_type" d
      && typed_field GroupMapping.as_str_list "ungrouped_entities" d
      && typed_field GroupMapping.as_number "last_synced" d
      && typed_field GroupMapping.as_sync_error "sync_error" d
      && typed_refs typed_group_ref (dict_get "native_groups" d)
      && typed_refs typed_scene_ref (dict_get "native_scenes" d)
  | _ => true
  end.

Definition group_ref_fields : list string :=
  ["protocol"; "group_id"; "group_name"; "member_entity_ids"; "member_native_ids"].

Definition scene_ref_fields : list string :=
  ["protocol"; "group_name"; "scene_id"; "member_entity_ids"].

(** The constructor of a reference, called with [v] as its keywords,
    returns: [v] is a dict that gives every field of the reference and
    nothing else. *)
Definition is_ref (fields : list string) (v : pyval) : bool :=
  match v with
  | PDict d => GroupMapping.only_keys fields d
               && forallb (λ field, dict_contains field d) fields
  | _ => false
  end.

(** The loop over [data.get(key, {}).items()] raises: the value is no
    dict, or one of its values is no reference. *)
Definition bad_refs (fields : list string) (v : option pyval) : bool :=
  match v with
  | None => false
  | Some (PDict refs) => negb (forallb (λ kv, is_ref fields kv.2) refs)
  | Some _ => true
  end.

(** [GroupMapping.from_dict] raises on the entry: it is no dict, it has
    no [ha_entity_id] or no [ha_entity_type], or its native groups or
    scenes cannot be rebuilt. *)
Definition raises_on_entry (v : pyval) : bool :=
  match v with
  | PDict d =>
      negb (dict_contains "ha_entity_id" d && dict_contains "ha_entity_type" d)
      || bad_refs group_ref_fields (dict_get "native_groups" d)
      || bad_refs scene_ref_fields (dict_get "native_scenes" d)
  | _ => true
  end.

(** The lists among the persisted managed resources are lists of
    resource references, which are strings. *)
Definition typed_resources (d : list (string * pyval)) : bool :=
  match dict_get "managed_resources" d with
  | Some (PDict r) =>
      forallb (λ kv, match kv.2 with
                     | PList l => bool_decide (is_Some (mapM GroupMapping.as_str l))
                     | _ => true
                     end) r
  | _ => true
  end.

(** [set(v)] returns. *)
Definition iterable (v : pyval) : bool :=
  match v with
  | PList _ | PDict _ | PStr _ => true
  | _ => false
  end.

(** Reading the persisted managed resources raises: they are no dict,
    or one of their values cannot be iterated. *)
Definition malformed_resources (d : list (string * pyval)) : bool :=
  match dict_get "managed_resources" d with
  | None => false
  | Some (PDict r) => negb (forallb (λ kv, iterable kv.2) r)
  | Some _ => true
  end.

(** *** Resource references *)

(** A character [int] reads as [int_of_str] does: printable, no blank,
    no underscore. *)
Definition plain_char (c : ascii) : bool :=
  let n := nat_of_ascii c in
  (33 <=? n)%nat && (n <=? 126)%nat && negb (n =? 95)%nat.

(** The scene id of a scene reference, its fourth part, is written in
    such characters. *)
Definition plain_scene_id (resource_ref : string) : Prop :=
  ∀ scene, split ":" resource_ref !! 3%nat = Some scene →
           forallb plain_char (list_ascii_of_string scene) = true.

(** *** Cleanup *)

(** The call [_cleanup_resources] makes for a resource reference, if
    any: none for a protocol without a handler, for a reference that is
    neither a group nor a scene, and for one with a part missing. *)
Definition cleanup_event {W} (handlers : list (string * ProtocolHandler.t W))
    (resource_ref : string) : option Orchestrator.event :=
  let parts := split ":" resource_ref in
  protocol ← parts !! 0;
  resource_type ← parts !! 1;
  _ ← dict_get protocol handlers;
  if bool_decide (resource_type = "group") then
    group ← parts !! 2;
    Some (Orchestrator.DeleteGroup protocol (GidStr group))
  else if bool_decide (resource_type = "scene") then
    group ← parts !! 2;
    scene ← parts !! 3;
    scene_id ← int_of_str scene;
    Some (Orchestrator.RemoveScene protocol (GidStr group) scene_id)
  else None.

(** A reference with a protocol and a resource type. *)
Definition well_formed_ref (resource_ref : string) : Prop :=
  2 ≤ length (split ":" resource_ref).

(** *** What a reconciliation pass may ask *)

(** The events of a pass over the mapping table [mappings]: a query for
    the groups of a protocol, or the deletion of a group whose id no
    native group reference of that protocol records. *)
Definition reconcile_event (mappings : gmap string GroupMapping.t)
    (ev : Orchestrator.event) : Prop :=
  match ev with
  | Orchestrator.GetGroups _ => True
  | Orchestrator.DeleteGroup protocol group =>
      str_of_group_id (Some group)
      ∉ Orchestrator.managed_group_ids protocol mappings
  | _ => False
  end.

(** The protocols whose groups were queried, in the order of the queries. *)
Definition queried_protocols (evs : list Orchestrator.event) : list string :=
  omap (λ ev, match ev with
              | Orchestrator.GetGroups protocol => Some protocol
              | _ => None
              end) evs.

(** *** What a dispatch sends *)

(** The command [_dispatch_group] sends for the native group
    reference of a protocol: the group command when the reference has a
    group id, the multicast to its members when it has none, and nothing
    when the protocol has no handler. *)
Definition group_command {W} (handlers : list (string * ProtocolHandler.t W))
    (domain service : string) (data : list (string * pyval))
    (item : string * NativeGroupRef.t) : option Orchestrator.event :=
  _ ← dict_get item.1 handlers;
  Some (if group_id_truthy (NativeGroupRef.group_id item.2) then
          match NativeGroupRef.group_id item.2 with
          | Some group =>
              Orchestrator.SendGroupCommand item.1 group domain service data
          | None =>
              Orchestrator.SendMulticast item.1
                (NativeGroupRef.member_native_ids item.2) domain service data
          end
        else
          Orchestrator.SendMulticast item.1
            (NativeGroupRef.member_native_ids item.2) domain service data).

(** The recall [_dispatch_scene] asks for the native scene reference
    of a protocol, if the protocol has a handler. *)
Definition scene_recall {W} (handlers : list (string * ProtocolHandler.t W))
    (item : string * NativeSceneRef.t) : option Orchestrator.event :=
  _ ← dict_get item.1 handlers;
  Some (Orchestrator.RecallScene item.1
          (GidStr (NativeSceneRef.group_name item.2))
          (NativeSceneRef.scene_id item.2)).

(** The service calls for the ungrouped entities of a mapping, each
    with [entity_id] written over the data. *)
Definition fallback_calls (mapping : GroupMapping.t) (domain service : string)
    (data : list (string * pyval)) : list Orchestrator.event :=
  (λ entity_id,
     Orchestrator.CallService
       (ServiceCall.mk domain service (dict_set "entity_id" (PStr entity_id) data)))
  <$> GroupMapping.ungrouped_entities mapping.

(** The events a dispatch may append: commands, recalls and service
    calls, and nothing that creates, deletes or stores. *)
Definition is_dispatch_event (ev : Orchestrator.event) : Prop :=
  match ev with
  | Orchestrator.SendGroupCommand _ _ _ _ _
  | Orchestrator.SendMulticast _ _ _ _ _
  | Orchestrator.RecallScene _ _ _
  | Orchestrator.CallService _ => True
  | _ => False
  end.

(** *** Capability groups *)

(** The node ids [_create_zwave_capability_groups] files under
    [capability]: those of the entities with that capability and a truthy
    native id, in their order. *)
Definition capability_members (capability : string)
    (entities : list ProtocolInfo.t) : list (option native_id) :=
  ProtocolInfo.native_id
  <$> List.filter
        (λ e, bool_decide (ProtocolInfo.capability e = Some capability)
              && native_id_truthy (ProtocolInfo.native_id e))
        entities.

(** The entities without a capability. *)
Definition without_capability (entities : list ProtocolInfo.t) : list string :=
  ProtocolInfo.entity_id
  <$> List.filter (λ e, bool_decide (ProtocolInfo.capability e = None)) entities.

(** *** The Z-Wave adapter *)

(** From [st] to [st'] the handler's tables are as they were and [new]
    are the service calls issued in between. *)
Definition zwave_sent (st st' : ZWaveJS.state) (new : list ServiceCall.t) : Prop :=
  ZWaveJS._groups st' = ZWaveJS._groups st
  ∧ ZWaveJS._group_capabilities st' = ZWaveJS._group_capabilities st
  ∧ ZWaveJS.calls st' = ZWaveJS.calls st ++ new.

(** A [zwave_js.multicast_set_value] call on one of [command_classes]. *)
Definition multicast_on (command_classes : list Z) (c : ServiceCall.t) : Prop :=
  ServiceCall.domain c = "zwave_js"
  ∧ ServiceCall.service c = "multicast_set_value"
  ∧ ∃ command_class, command_class ∈ command_classes
      ∧ dict_get "command_class" (ServiceCall.data c) = Some (PInt command_class).

(** The keys [_send_capability_aware_command] takes for a colour. *)
Definition color_keys : list string :=
  ["rgb_color"; "rgbw_color"; "hs_color"; "xy_color"; "color_temp"].

(** One Binary Switch multicast for each capability sub-group of
    [base_name] that has a device, colour first, then dimmer, then
    binary. *)
Definition binary_multicasts (e : ZWaveJS.env) (st : ZWaveJS.state)
    (base_name : string) (turn_on : bool) : list ServiceCall.t :=
  omap (λ capability,
          if bool_decide
               (capability
                ∈ default [] (dict_get base_name (ZWaveJS._group_capabilities st)))
          then
            let device_ids :=
              ZWaveJS.device_ids_of e
                (ZWaveJS.get_capability_group_nodes base_name capability st) in
            if bool_decide (device_ids = []) then None
            else Some (ZWaveJS.multicast_set_value device_ids CC_BINARY_SWITCH
                         "targetValue" (PBool turn_on))
          else None)
       [ZWAVE_CAP_COLOR; ZWAVE_CAP_DIMMER; ZWAVE_CAP_BINARY].

(** The Scene Actuator Configuration calls of [async_store_scene]: one
    for each device state whose node has a device. *)
Definition scene_store_calls (e : ZWaveJS.env) (scene_id : Z)
    (device_states : list (option native_id * list (string * pyval)))
    : list ServiceCall.t :=
  omap (λ '(node_id, state),
          device_id ← ZWaveJS._get_device_id_from_node_id e node_id;
          Some (ZWaveJS.cc_api_call device_id CC_SCENE_ACTUATOR_CONFIGURATION
                  [PInt scene_id;
                   default (PInt 99) (dict_get "level" state);
                   default (PStr "default") (dict_get "duration" state)]))
       device_states.

(** *** The Zigbee2MQTT adapter *)

(** Whether the broker takes an effect: a sleep always, a message when
    publishing it does not raise. *)
Definition accepted (e : Zigbee2MQTT.env) (eff : Zigbee2MQTT.effect) : bool :=
  match eff with
  | Zigbee2MQTT.Publish topic payload =>
      bool_decide (Zigbee2MQTT.publish_error e topic payload = None)
  | Zigbee2MQTT.Sleep _ => true
  end.

(** The error of the first message the broker refuses. *)
Fixpoint first_rejection (e : Zigbee2MQTT.env) (effs : list Zigbee2MQTT.effect)
    : option string :=
  match effs with
  | [] => None
  | Zigbee2MQTT.Publish topic payload :: rest =>
      match Zigbee2MQTT.publish_error e topic payload with
      | Some err => Some err
      | None => first_rejection e rest
      end
  | Zigbee2MQTT.Sleep _ :: rest => first_rejection e rest
  end.

(** The effects up to and including the first refused message. *)
Fixpoint until_rejected (e : Zigbee2MQTT.env) (effs : list Zigbee2MQTT.effect)
    : list Zigbee2MQTT.effect :=
  match effs with
  | [] => []
  | eff :: rest => eff :: (if accepted e eff then until_rejected e rest else [])
  end.

(** What [async_create_group] asks of the bridge when nothing fails. *)
Definition group_add_requests (name : string)
    (member_native_ids : list (option native_id)) : list Zigbee2MQTT.effect :=
  Zigbee2MQTT.Publish (Z2M_BASE_TOPIC +:+ "/bridge/request/group/add")
    (PDict [("friendly_name", PStr name)])
  :: Zigbee2MQTT.Sleep 0.2%float
  :: ((λ ieee,
         Zigbee2MQTT.Publish (Z2M_BASE_TOPIC +:+ "/bridge/request/group/members/add")
           (PDict [("group", PStr name);
                   ("device", GroupMapping.native_id_to_py ieee)]))
      <$> member_native_ids).

(** The target state of each device, as [async_store_scene] publishes it. *)
Definition device_state_publishes
    (device_states : list (option native_id * list (string * pyval)))
    : list Zigbee2MQTT.effect :=
  (λ '(device_ieee, state),
     Zigbee2MQTT.Publish
       (Z2M_BASE_TOPIC +:+ "/" +:+ Zigbee2MQTT.str_of_native_id device_ieee +:+ "/set")
       (PDict state))
  <$> device_states.

(** *** Colour temperature *)

(** The warm and cold white levels of the value
    [_color_temp_to_white_channels] returns. *)
Definition white_levels (service_data : list (string * pyval)) : option (Z * Z) :=
  match ZWaveJS._color_temp_to_white_channels service_data with
  | Ok channels =>
      match dict_get "warmWhite" channels, dict_get "coldWhite" channels with
      | Some (PNum (NumInt warm)), Some (PNum (NumInt cold)) => Some (warm, cold)
      | _, _ => None
      end
  | Raised _ => None
  end.

End Spec.

(* ===================================================================== *)
(** ** A household *)
(* ===================================================================== *)

(** Two Z-Wave lights and two Zigbee2MQTT lamps, a group of each, and a
    scene over the two Z-Wave lights. *)
Module Scenario.
Import Const.

Definition time_time (n : nat) : float :=
  float_of_int (1700000000 + Z.of_nat n).

Definition entry (entity_id platform unique_id device_id : string)
    : RegistryEntry.t :=
  RegistryEntry.mk entity_id platform (Some unique_id) (Some device_id)
    None None None.

Definition ent_reg_get (entity_id : string) : option RegistryEntry.t :=
  if bool_decide (entity_id = "light.kitchen") then
    Some (entry "light.kitchen" "zwave_js" "3245146787-5-0-38" "d5")
  else if bool_decide (entity_id = "light.hall") then
    Some (entry "light.hall" "zwave_js" "3245146787-6-0-38" "d6")
  else if bool_decide (entity_id = "light.desk") then
    Some (entry "light.desk" "mqtt" "0x00158d0001a2b3c4_light" "z1")
  else if bool_decide (entity_id = "light.sofa") then
    Some (entry "light.sofa" "mqtt" "0x00158d0001a2b3c5_light" "z2")
  else None.

Definition dev_reg_get (device_id : string) : option DeviceEntry.t :=
  if bool_decide (device_id = "z1") then
    Some (DeviceEntry.mk "z1" (Some "Desk lamp")
            [("mqtt", "zigbee2mqtt_0x00158d0001a2b3c4")])
  else if bool_decide (device_id = "z2") then
    Some (DeviceEntry.mk "z2" (Some "Sofa lamp")
            [("mqtt", "zigbee2mqtt_0x00158d0001a2b3c5")])
  else None.

Definition group_state (entity_id : string) (members : list string) : State.t :=
  State.mk entity_id (Some (State.EntityList members)) None None.

Definition movie : list (string * pyval) :=
  [ ("light.kitchen", PDict [("state", PStr "on"); ("brightness", PInt 128)]);
    ("light.hall", PDict [("state", PStr "off")]) ].

Definition states_get (lights : list string) (entity_id : string) : option State.t :=
  if bool_decide (entity_id = "group.lights") then
    Some (group_state "group.lights" lights)
  else if bool_decide (entity_id = "group.lamps") then
    Some (group_state "group.lamps" ["light.desk"; "light.sofa"])
  else if bool_decide (entity_id = "scene.movie") then
    Some (State.mk "scene.movie" (Some (State.EntityDict movie)) None None)
  else None.

(** The platform, with the members of [group.lights] left open. *)
Definition platform (lights : list string) : HomeAssistant.t :=
  HomeAssistant.mk (states_get lights) ent_reg_get dev_reg_get
    (λ _, []) (λ _, []) (λ _, []) (λ _, []) (λ _, []) (λ _, [])
    (λ _ _ _, None)
    ["hs"; "rgb"; "rgbw"; "rgbww"; "xy"]
    ["brightness"; "color_temp"; "hs"; "xy"; "rgb"; "rgbw"; "rgbww"; "white"].

Definition hass : HomeAssistant.t := platform ["light.kitchen"; "light.hall"].

(** The same, after [group.lights] has lost its members. *)
Definition hass_emptied : HomeAssistant.t := platform [].

Definition world : Type := ZWaveJS.state * Zigbee2MQTT.state.

Definition zwave_env : ZWaveJS.env :=
  ZWaveJS.mk_env
    (λ node, match node with
             | Some (NodeId n) => Some ("device_" +:+ str_of_int n)
             | _ => None
             end)
    (λ _, None)
    (λ _, Ok PNone).

Definition broker_up : Zigbee2MQTT.env := Zigbee2MQTT.mk_env (λ _ _, None).

Definition broker_down : Zigbee2MQTT.env :=
  Zigbee2MQTT.mk_env (λ _ _, Some "MQTT is not connected").

Definition zwave_handler : ProtocolHandler.t world :=
  ProtocolHandler.zoom fst (λ z w, (z, w.2)) (ZWaveJS.handler zwave_env).

Definition z2m_handler (broker : Zigbee2MQTT.env) : ProtocolHandler.t world :=
  ProtocolHandler.zoom snd (λ z w, (w.1, z)) (Zigbee2MQTT.handler broker).

Definition start (broker : Zigbee2MQTT.env) : Orchestrator.t world :=
  Orchestrator.init
    [ (PROTOCOL_ZWAVE_JS, zwave_handler);
      (PROTOCOL_ZIGBEE2MQTT, z2m_handler broker) ]
    (ZWaveJS.init, Zigbee2MQTT.init).

(** After [group.lights] was created. *)
Definition with_lights : Orchestrator.t world :=
  (Orchestrator._on_group_created hass time_time "group.lights" (start broker_up)).2.

(** After [scene.movie] was created. *)
Definition with_movie : Orchestrator.t world :=
  (Orchestrator._on_scene_created hass time_time "scene.movie" (start broker_up)).2.
End Scenario.

(* ===================================================================== *)
(** * Verification *)
(* ===================================================================== *)

Import Const Spec.

Ltac se_unfold :=
  unfold SE.bind, SE.ret, SE.raise, SE.try_except, SE.gets, SE.modify,
         SE.lift_result, SE.captured, SE.zoom in *.

(** ** Insertion-ordered dictionaries *)

Section DictFacts.
Context {K V : Type} `{EqDecision K}.
Implicit Types (d : list (K * V)) (k : K) (v : V).

Lemma dict_get_nil k : dict_get k ([] : list (K * V)) = None.
Proof. reflexivity. Qed.

Lemma dict_get_cons k k' v d :
  dict_get k ((k', v) :: d) = if decide (k' = k) then Some v else dict_get k d.
Proof.
  unfold dict_get. cbn. case_bool_decide; by case_decide.
Qed.

Lemma dict_get_Some_elem k v d : dict_get k d = Some v → (k, v) ∈ d.
Proof.
  induction d as [|[k' v'] d IH]; [done|].
  rewrite dict_get_cons. case_decide as Hk.
  - intros [= <-]. subst. left.
  - intros H. right. by apply IH.
Qed.

Lemma dict_get_None_keys k d : dict_get k d = None ↔ k ∉ d.*1.
Proof.
  induction d as [|[k' v'] d IH].
  - split; [intros _; apply not_elem_of_nil | done].
  - rewrite dict_get_cons, fmap_cons, not_elem_of_cons. cbn [fst].
    case_decide as Hk.
    + subst. split; [done | by intros [? _]].
    + rewrite IH. split; [by intros ?; split | by intros [_ ?]].
Qed.

Lemma dict_get_elem_NoDup k v d : NoDup d.*1 → (k, v) ∈ d → dict_get k d = Some v.
Proof.
  induction d as [|[k' v'] d IH]; intros Hnd Hin.
  - by apply elem_of_nil in Hin.
  - cbn in Hnd. apply NoDup_cons in Hnd as [Hk Hnd].
    rewrite dict_get_cons.
    apply elem_of_cons in Hin as [[= -> ->]|Hin].
    + by rewrite decide_True.
    + case_decide as Hkk; [|by apply IH].
      subst. exfalso. apply Hk. apply list_elem_of_fmap. by exists (k, v).
Qed.

Lemma dict_set_keys k v d :
  (dict_set k v d).*1 = if decide (k ∈ d.*1) then d.*1 else d.*1 ++ [k].
Proof.
  induction d as [|[k' v'] d IH]; cbn.
  - rewrite decide_False; [reflexivity | apply not_elem_of_nil].
  - destruct (decide (k' = k)) as [->|Hk]; cbn.
    + rewrite decide_True; [done | left].
    + rewrite IH. destruct (decide (k ∈ d.*1)) as [Hin|Hin].
      * rewrite decide_True; [done | by right].
      * rewrite decide_False; [done|]. rewrite not_elem_of_cons. by split.
Qed.

Lemma dict_set_NoDup k v d : NoDup d.*1 → NoDup (dict_set k v d).*1.
Proof.
  intros Hnd. rewrite dict_set_keys. case_decide as Hin; [done|].
  apply NoDup_app. split_and!; [done | | apply NoDup_singleton].
  intros x Hx Hx'. apply list_elem_of_singleton in Hx'. by subst.
Qed.

Lemma dict_get_set k k' v d :
  dict_get k (dict_set k' v d) = if decide (k' = k) then Some v else dict_get k d.
Proof.
  induction d as [|[k0 v0] d IH]; cbn [dict_set].
  - by rewrite dict_get_cons, dict_get_nil.
  - destruct (decide (k0 = k')) as [->|Hk0].
    + rewrite !dict_get_cons. by case_decide.
    + rewrite !dict_get_cons, IH.
      destruct (decide (k0 = k)), (decide (k' = k)); congruence.
Qed.

Lemma dict_contains_Some k d : dict_contains k d = true ↔ is_Some (dict_get k d).
Proof. unfold dict_contains. apply bool_decide_eq_true. Qed.
End DictFacts.

(** ** Grouping by a key, as [defaultdict(list)] does *)

Section GroupBy.
Context {A : Type} (f : A → string).

Local Abbreviation group_by := (Spec.group_by f).
Local Abbreviation bucket := (Spec.bucket f).

Lemma dict_append_NoDup k x (d : list (string * list A)) :
  NoDup d.*1 → NoDup (dict_append k x d).*1.
Proof. apply dict_set_NoDup. Qed.

Lemma foldl_dict_append_spec (l : list A) : ∀ d : list (string * list A),
  NoDup d.*1 →
  NoDup (foldl (λ d x, dict_append (f x) x d) d l).*1
  ∧ ∀ k, dict_get k (foldl (λ d x, dict_append (f x) x d) d l)
         = match dict_get k d with
           | Some v => Some (v ++ bucket k l)
           | None => if bool_decide (bucket k l = []) then None
                     else Some (bucket k l)
           end.
Proof.
  induction l as [|x l IH]; intros d Hnd; cbn [foldl].
  - split; [done|]. intros k. cbn.
    destruct (dict_get k d); [by rewrite app_nil_r | done].
  - destruct (IH (dict_append (f x) x d)) as [Hnd' Hget];
      [by apply dict_append_NoDup|].
    split; [done|]. intros k. rewrite Hget.
    unfold dict_append at 1. rewrite dict_get_set.
    unfold Spec.bucket. cbn [List.filter].
    destruct (decide (f x = k)) as [Hk|Hk].
    + subst k. destruct (dict_get (f x) d) as [v|]; cbn.
      * case_bool_decide; [|done]. by rewrite <- app_assoc.
      * repeat case_bool_decide; done.
    + destruct (dict_get k d) as [v|]; repeat case_bool_decide; done.
Qed.

Lemma group_by_NoDup l : NoDup (group_by l).*1.
Proof. apply foldl_dict_append_spec. constructor. Qed.

Lemma group_by_get l k :
  dict_get k (group_by l)
  = if bool_decide (bucket k l = []) then None else Some (bucket k l).
Proof.
  unfold Spec.group_by.
  destruct (foldl_dict_append_spec l []) as [_ H]; [constructor|].
  by rewrite H.
Qed.

Lemma group_by_elem l k es :
  (k, es) ∈ group_by l ↔ es = bucket k l ∧ es ≠ [].
Proof.
  split.
  - intros Hin. apply dict_get_elem_NoDup in Hin; [|apply group_by_NoDup].
    rewrite group_by_get in Hin. case_bool_decide; by simplify_eq.
  - intros [-> Hne]. apply dict_get_Some_elem.
    rewrite group_by_get. by rewrite bool_decide_eq_false_2.
Qed.

Lemma bucket_elem k l x : x ∈ bucket k l ↔ x ∈ l ∧ f x = k.
Proof.
  unfold Spec.bucket. by rewrite !list_elem_of_In, filter_In, bool_decide_eq_true.
Qed.
End GroupBy.

(** ** Persistence leaves the mappings as they are, but for the stamp *)

Section Save.
Context {W : Type} (time_time : nat → float).
Implicit Types s : Orchestrator.t W.

Lemma stamp_keys ms : ∀ tick, (Orchestrator.stamp time_time tick ms).*1 = ms.*1.
Proof.
  induction ms as [|[k m] ms IH]; intros tick; cbn; [done|]. by rewrite IH.
Qed.

Lemma stamp_elem ms k m : ∀ tick,
  (k, m) ∈ ms →
  ∃ t, (k, GroupMapping.set_last_synced (NumFloat t) m)
       ∈ Orchestrator.stamp time_time tick ms.
Proof.
  induction ms as [|[k' m'] ms IH]; intros tick Hin.
  - by apply elem_of_nil in Hin.
  - apply elem_of_cons in Hin as [[= -> ->]|Hin].
    + exists (time_time tick). cbn. left.
    + destruct (IH (S tick) Hin) as [t Ht]. exists t. cbn. by right.
Qed.

Lemma save_state_spec s :
  ∃ s', Orchestrator._async_save_state time_time s = (Ok tt, s')
    ∧ Orchestrator._handlers s' = Orchestrator._handlers s
    ∧ Orchestrator._managed_resources s' = Orchestrator._managed_resources s
    ∧ Orchestrator._scene_id_counter s' = Orchestrator._scene_id_counter s
    ∧ Orchestrator.world s' = Orchestrator.world s
    ∧ Orchestrator.trace s' = Orchestrator.trace s
    ∧ (∀ k, Orchestrator._mappings s !! k = None →
            Orchestrator._mappings s' !! k = None)
    ∧ (∀ k m, Orchestrator._mappings s !! k = Some m →
              ∃ t, Orchestrator._mappings s' !! k
                   = Some (GroupMapping.set_last_synced (NumFloat t) m)).
Proof.
  eexists. split; [reflexivity|]. cbn. split_and!; try done.
  - intros k Hk. apply not_elem_of_list_to_map_1.
    rewrite stamp_keys. intros Hin.
    apply list_elem_of_fmap in Hin as ([k' m] & -> & Hin).
    apply elem_of_map_to_list in Hin. cbn in Hk. congruence.
  - intros k m Hk. apply elem_of_map_to_list in Hk.
    destruct (stamp_elem _ _ _ (Orchestrator.clock s) Hk) as [t Ht].
    exists t. apply elem_of_list_to_map_1; [|done].
    rewrite stamp_keys. apply NoDup_fst_map_to_list.
Qed.
End Save.

Section Provisioning.
Context {W : Type}.
Implicit Types (s : Orchestrator.t W) (m : GroupMapping.t).

Lemma call_eq {A} (ev : Orchestrator.event) (op : SE.t W A) s :
  Orchestrator.call ev op s
  = ((op (Orchestrator.world s)).1,
     Orchestrator.mk (Orchestrator._handlers s) (Orchestrator._mappings s)
       (Orchestrator._managed_resources s) (Orchestrator._scene_id_counter s)
       (op (Orchestrator.world s)).2 (Orchestrator.trace s ++ [ev])
       (Orchestrator.clock s) (Orchestrator.store s)).
Proof.
  unfold Orchestrator.call, Orchestrator.emit. se_unfold. cbn.
  by destruct (op (Orchestrator.world s)).
Qed.

Lemma extends_refl s : extends s s [].
Proof. unfold extends. by rewrite app_nil_r. Qed.

Lemma extends_trans s1 s2 s3 evs1 evs2 :
  extends s1 s2 evs1 → extends s2 s3 evs2 → extends s1 s3 (evs1 ++ evs2).
Proof.
  unfold extends. intros (?&?&?&?&?&?) (?&?&?&?&?&?).
  split_and!; try congruence.
  rewrite app_assoc. congruence.
Qed.

Lemma extend_ungrouped_nil m : GroupMapping.extend_ungrouped [] m = m.
Proof. destruct m. unfold GroupMapping.extend_ungrouped. cbn. by rewrite app_nil_r. Qed.

Lemma grouped_nil es : grouped [] es = es.
Proof.
  unfold grouped. induction es as [|e es IH]; [done|]. cbn.
  rewrite bool_decide_eq_false_2 by apply not_elem_of_nil. cbn. by rewrite IH.
Qed.

(** The entities [split_by_capability] leaves out are entities of the list. *)
Lemma split_by_capability_ungrouped es x :
  x ∈ (Orchestrator.split_by_capability es).2 → x ∈ Orchestrator.entity_ids_of es.
Proof.
  unfold Orchestrator.split_by_capability.
  set (step := λ '(members_by_capability, ungrouped) entity, _).
  assert (H : ∀ es acc, x ∈ (foldl step acc es).2 →
                        x ∈ acc.2 ∨ x ∈ Orchestrator.entity_ids_of es).
  { clear es. induction es as [|e es IH]; intros [mbc ung]; cbn [foldl]; [by left|].
    intros Hx. apply IH in Hx as [Hx|Hx].
    - subst step. cbn in Hx.
      destruct (ProtocolInfo.capability e).
      + destruct (_ && _); cbn in Hx; by left.
      + cbn in Hx. apply elem_of_app in Hx as [Hx|Hx]; [by left|].
        apply list_elem_of_singleton in Hx. right. subst. left.
    - right. by right. }
  intros Hx. apply H in Hx as [Hx|Hx]; [|done]. by apply elem_of_nil in Hx.
Qed.

(** One turn of the loop of [_provision_entity_list]. *)
Lemma provision_protocol_group_spec mapping_key m protocol entities s :
  ∃ o s' evs,
    Orchestrator.provision_protocol_group mapping_key m (protocol, entities) s
    = (Ok (group_outcome_mapping mapping_key protocol entities o m), s')
    ∧ extends s s' evs
    ∧ match o with
      | AllUngrouped =>
          (dict_get protocol (Orchestrator._handlers s) = None ∨ entities = [])
          ∧ s' = s ∧ evs = []
      | Single =>
          is_Some (dict_get protocol (Orchestrator._handlers s))
          ∧ length entities = 1 ∧ s' = s ∧ evs = []
      | Created group ungrouped =>
          is_Some (dict_get protocol (Orchestrator._handlers s))
          ∧ 1 < length entities
          ∧ (∃ ev, evs = [ev] ∧ is_create_for protocol ev)
          ∧ (∀ x, x ∈ ungrouped → x ∈ Orchestrator.entity_ids_of entities)
      | CreateFailed err =>
          is_Some (dict_get protocol (Orchestrator._handlers s))
          ∧ 1 < length entities
          ∧ (∃ ev, evs = [ev] ∧ is_create_for protocol ev)
          ∧ Orchestrator._managed_resources s' = Orchestrator._managed_resources s
      end.
Proof.
  unfold Orchestrator.provision_protocol_group, Orchestrator.get_handler.
  unfold SE.bind at 1. unfold SE.gets at 1.
  destruct (dict_get protocol (Orchestrator._handlers s)) as [h|] eqn:Hh.
  2:{ exists AllUngrouped, s, []. split_and!; auto using extends_refl. }
  case_bool_decide as Hes.
  { exists AllUngrouped, s, []. split_and!; auto using extends_refl. }
  assert (Hlen : length entities = 1 ∨ 1 < length entities).
  { destruct entities as [|? [|? ?]]; cbn; [done|by left|right; lia]. }
  destruct Hlen as [Hlen|Hlen].
  - (* a single member *)
    assert ((1 <? length entities) = false) as -> by (apply Nat.ltb_ge; lia).
    rewrite andb_false_r.
    exists Single, s, []. split; [|split_and!; auto using extends_refl].
    se_unfold. cbn. fold (grouped [] entities). rewrite grouped_nil. reflexivity.
  - assert ((1 <? length entities) = true) as -> by (by apply Nat.ltb_lt).
    rewrite andb_true_r.
    (* the three ways of creating the group *)
    set (name := Orchestrator._generate_group_name mapping_key protocol).
    assert (Hcases :
      ∃ (ev : Orchestrator.event) (op : SE.t W group_id) (ung : list string),
        is_create_for protocol ev
        ∧ (∀ x, x ∈ ung → x ∈ Orchestrator.entity_ids_of entities)
        ∧ ∀ s0,
            (if bool_decide (protocol = PROTOCOL_ZWAVE_JS)
             then r <- Orchestrator._create_zwave_capability_groups h protocol
                         name entities ;;
                  SE.ret (Some r.1, r.2)
             else group <- Orchestrator.call
                             (Orchestrator.CreateGroup protocol name
                                (Orchestrator.native_ids_of entities))
                             (ProtocolHandler.async_create_group h name
                                (Orchestrator.native_ids_of entities)) ;;
                  SE.ret (Some group, []))%se s0
            = (group <- Orchestrator.call ev op ;; SE.ret (Some group, ung))%se s0).
    { case_bool_decide.
      - unfold Orchestrator._create_zwave_capability_groups.
        destruct (ProtocolHandler.is_zwave_js_handler h); cbn [negb].
        + destruct (Orchestrator.split_by_capability entities) as [mbc ung] eqn:Hsp.
          exists (Orchestrator.CreateCapabilityGroups protocol name mbc),
            (ProtocolHandler.async_create_capability_groups h name mbc), ung.
          split; [|split]; [done| |].
          * intros x Hx. apply split_by_capability_ungrouped. by rewrite Hsp.
          * intros s0. unfold SE.bind. rewrite call_eq.
            by destruct (ProtocolHandler.async_create_capability_groups _ _ _ _)
              as [[?|?] ?].
        + exists (Orchestrator.CreateGroup protocol name
                    (Orchestrator.native_ids_of entities)),
            (ProtocolHandler.async_create_group h name
               (Orchestrator.native_ids_of entities)), [].
          split; [|split]; [done| |].
          * intros x Hx. by apply elem_of_nil in Hx.
          * intros s0. unfold SE.bind. rewrite call_eq.
            by destruct (ProtocolHandler.async_create_group _ _ _ _) as [[?|?] ?].
      - exists (Orchestrator.CreateGroup protocol name
                  (Orchestrator.native_ids_of entities)),
          (ProtocolHandler.async_create_group h name
             (Orchestrator.native_ids_of entities)), [].
        split; [|split]; [done| |reflexivity].
        intros x Hx. by apply elem_of_nil in Hx. }
    destruct Hcases as (ev & op & ung & Hev & Hung & Heq).
    unfold SE.try_except, SE.bind at 1. rewrite Heq. unfold SE.bind at 1.
    rewrite call_eq.
    destruct (op (Orchestrator.world s)) as [[group|err] w'] eqn:Hop; cbn [fst snd].
    + (* created *)
      exists (Created group ung).
      unfold Orchestrator.add_managed_resource. se_unfold.
      cbn -[group_id_truthy str_of_group_id].
      assert (Hm : GroupMapping.set_native_group protocol
                     (NativeGroupRef.mk protocol (Some group) name
                        (Orchestrator.entity_ids_of (grouped ung entities))
                        (Orchestrator.native_ids_of (grouped ung entities)))
                     (if negb (bool_decide (ung = []))
                      then GroupMapping.extend_ungrouped ung m else m)
                   = group_outcome_mapping mapping_key protocol entities
                       (Created group ung) m).
      { unfold group_outcome_mapping, group_ref.
        destruct (decide (ung = [])) as [->|Hne].
        - rewrite bool_decide_eq_true_2 by done. cbn [negb].
          by rewrite extend_ungrouped_nil.
        - by rewrite bool_decide_eq_false_2 by done. }
      fold (grouped ung entities). rewrite Hm.
      destruct (group_id_truthy (Some group)) eqn:Htruthy.
      * eexists _, [ev]. split; [reflexivity|]. split; [by unfold extends|].
        split_and!; eauto.
      * eexists _, [ev]. split; [reflexivity|]. split; [by unfold extends|].
        split_and!; eauto.
    + (* the handler raised *)
      exists (CreateFailed err). eexists _, [ev]. split; [|split].
      * se_unfold. reflexivity.
      * by unfold extends.
      * split_and!; eauto.
Qed.

(** The turn of a protocol with a handler and more than one member:
    what it stores follows what the creation returned or raised. *)
Lemma provision_protocol_group_creation mapping_key m protocol entities handler s :
  dict_get protocol (Orchestrator._handlers s) = Some handler →
  1 < length entities →
  ∃ ungrouped s',
    Orchestrator.provision_protocol_group mapping_key m (protocol, entities) s
    = (Ok (group_outcome_mapping mapping_key protocol entities
             match (group_creation handler mapping_key protocol entities
                      (Orchestrator.world s)).1 with
             | Ok group => Created group ungrouped
             | Raised err => CreateFailed err
             end m), s')
    ∧ Orchestrator._handlers s' = Orchestrator._handlers s
    ∧ Orchestrator.world s'
      = (group_creation handler mapping_key protocol entities
           (Orchestrator.world s)).2.
Proof.
  intros Hh Hlen.
  unfold Orchestrator.provision_protocol_group, Orchestrator.get_handler.
  unfold SE.bind at 1. unfold SE.gets at 1. rewrite Hh.
  rewrite bool_decide_eq_false_2 by (intros ->; cbn in Hlen; lia).
  assert ((1 <? length entities) = true) as -> by (by apply Nat.ltb_lt).
  rewrite andb_true_r.
  set (name := Orchestrator._generate_group_name mapping_key protocol).
  assert (Hcases :
    ∃ (ev : Orchestrator.event) (ung : list string),
      ∀ s0,
        (if bool_decide (protocol = PROTOCOL_ZWAVE_JS)
         then r <- Orchestrator._create_zwave_capability_groups handler protocol
                     name entities ;;
              SE.ret (Some r.1, r.2)
         else group <- Orchestrator.call
                         (Orchestrator.CreateGroup protocol name
                            (Orchestrator.native_ids_of entities))
                         (ProtocolHandler.async_create_group handler name
                            (Orchestrator.native_ids_of entities)) ;;
              SE.ret (Some group, []))%se s0
        = (group <- Orchestrator.call ev
                      (group_creation handler mapping_key protocol entities) ;;
           SE.ret (Some group, ung))%se s0).
  { unfold group_creation. fold name. case_bool_decide; cbn [andb].
    - unfold Orchestrator._create_zwave_capability_groups.
      destruct (ProtocolHandler.is_zwave_js_handler handler); cbn [negb].
      + destruct (Orchestrator.split_by_capability entities) as [mbc ung] eqn:Hsp.
        exists (Orchestrator.CreateCapabilityGroups protocol name mbc), ung.
        intros s0. unfold SE.bind. rewrite !call_eq. cbn [fst].
        by destruct (ProtocolHandler.async_create_capability_groups _ _ _ _)
          as [[?|?] ?].
      + exists (Orchestrator.CreateGroup protocol name
                  (Orchestrator.native_ids_of entities)), [].
        intros s0. unfold SE.bind. rewrite !call_eq.
        by destruct (ProtocolHandler.async_create_group _ _ _ _) as [[?|?] ?].
    - by exists (Orchestrator.CreateGroup protocol name
                   (Orchestrator.native_ids_of entities)), []. }
  destruct Hcases as (ev & ung & Heq). exists ung.
  unfold SE.try_except, SE.bind at 1. rewrite Heq. unfold SE.bind at 1.
  rewrite call_eq.
  destruct (group_creation handler mapping_key protocol entities
              (Orchestrator.world s)) as [[group|err] w'] eqn:Hop; cbn [fst snd].
  - unfold Orchestrator.add_managed_resource. se_unfold.
    cbn -[group_id_truthy str_of_group_id].
    assert (Hm : GroupMapping.set_native_group protocol
                   (NativeGroupRef.mk protocol (Some group) name
                      (Orchestrator.entity_ids_of (grouped ung entities))
                      (Orchestrator.native_ids_of (grouped ung entities)))
                   (if negb (bool_decide (ung = []))
                    then GroupMapping.extend_ungrouped ung m else m)
                 = group_outcome_mapping mapping_key protocol entities
                     (Created group ung) m).
    { unfold group_outcome_mapping, group_ref.
      destruct (decide (ung = [])) as [->|Hne].
      - rewrite bool_decide_eq_true_2 by done. cbn [negb].
        by rewrite extend_ungrouped_nil.
      - by rewrite bool_decide_eq_false_2 by done. }
    fold (grouped ung entities). rewrite Hm.
    destruct (group_id_truthy (Some group)); eexists; (split; [reflexivity|done]).
  - eexists. split; [reflexivity|done].
Qed.
End Provisioning.

Section Loops.
Context {W : Type}.
Implicit Types (s : Orchestrator.t W) (m : GroupMapping.t).

(** The loop of [_provision_entity_list] never raises, and runs turn
    by turn as [group_run] tells. *)
Lemma provision_groups_run mapping_key by_protocol : ∀ m s,
  ∃ m' s' evs,
    Orchestrator.foldM (Orchestrator.provision_protocol_group mapping_key)
      by_protocol m s = (Ok m', s')
    ∧ extends s s' evs
    ∧ group_run (Orchestrator._handlers s) mapping_key by_protocol m m' evs.
Proof.
  induction by_protocol as [|[protocol entities] rest IH]; intros m s.
  - exists m, s, []. split_and!; [done | apply extends_refl | constructor].
  - destruct (provision_protocol_group_spec mapping_key m protocol entities s)
      as (o & s1 & evs1 & Hstep & Hext1 & Ho).
    destruct (IH (group_outcome_mapping mapping_key protocol entities o m) s1)
      as (m' & s' & evs2 & Hrest & Hext2 & Hrun).
    exists m', s', (evs1 ++ evs2). split_and!.
    + cbn [Orchestrator.foldM]. unfold SE.bind. by rewrite Hstep.
    + by eapply extends_trans.
    + destruct Hext1 as (Hh & _). rewrite Hh in Hrun.
      econstructor; [|exact Hrun].
      destruct o; cbn; intuition.
Qed.
End Loops.

(** ** The classifier *)

Section ClassifierFacts.
Variable hass : HomeAssistant.t.

Lemma classify_entity_id e :
  ProtocolInfo.entity_id (Classifier.classify_entity hass e) = e.
Proof.
  unfold Classifier.classify_entity, Classifier.unknown.
  destruct (HomeAssistant.ent_reg_get hass e) as [entry|]; [|done].
  repeat case_bool_decide; try done.
  destruct (opt_str_truthy _); cbn [andb]; [|done].
  destruct (HomeAssistant.dev_reg_get hass _); [|done].
  by destruct (opt_str_truthy _).
Qed.

Lemma classify_entities_group_by entity_ids :
  Classifier.classify_entities hass entity_ids
  = group_by ProtocolInfo.protocol (Classifier.classify_entity hass <$> entity_ids).
Proof.
  unfold Classifier.classify_entities, group_by.
  generalize (@nil (string * list ProtocolInfo.t)).
  induction entity_ids as [|e l IH]; intros d; [done|]. cbn. by rewrite IH.
Qed.

(** An entity id sits in the bucket of its own protocol only. *)
Lemma classified_bucket_protocol entity_ids protocol entities x :
  (protocol, entities) ∈ Classifier.classify_entities hass entity_ids →
  x ∈ Orchestrator.entity_ids_of entities →
  protocol = ProtocolInfo.protocol (Classifier.classify_entity hass x).
Proof.
  rewrite classify_entities_group_by, group_by_elem.
  intros [-> _] Hx.
  apply list_elem_of_fmap in Hx as (i & -> & Hi).
  apply bucket_elem in Hi as [Hi <-].
  apply list_elem_of_fmap in Hi as (e & -> & _).
  by rewrite classify_entity_id.
Qed.

Lemma classify_entities_lookup entity_ids protocol :
  members_on hass protocol entity_ids ≠ [] →
  (protocol, members_on hass protocol entity_ids)
  ∈ Classifier.classify_entities hass entity_ids.
Proof.
  intros Hne. rewrite classify_entities_group_by. by apply group_by_elem.
Qed.

Lemma classify_entities_NoDup entity_ids :
  NoDup (Classifier.classify_entities hass entity_ids).*1.
Proof. rewrite classify_entities_group_by. apply group_by_NoDup. Qed.
End ClassifierFacts.

(** ** What a run of the group loop leaves in the mapping *)

Section GroupRun.
Context {W : Type}.
Implicit Types (m : GroupMapping.t) (handlers : list (string * ProtocolHandler.t W)).

Lemma outcome_native_groups_ne mapping_key protocol entities o m p :
  p ≠ protocol →
  GroupMapping.native_groups
    (group_outcome_mapping mapping_key protocol entities o m) !! p
  = GroupMapping.native_groups m !! p.
Proof. intros Hne. destruct o; cbn; by rewrite ?lookup_insert_ne. Qed.

Lemma outcome_native_scenes mapping_key protocol entities o m :
  GroupMapping.native_scenes
    (group_outcome_mapping mapping_key protocol entities o m)
  = GroupMapping.native_scenes m.
Proof. by destruct o. Qed.

Lemma outcome_sync_error mapping_key protocol entities o m :
  is_Some (GroupMapping.sync_error m) →
  is_Some (GroupMapping.sync_error
             (group_outcome_mapping mapping_key protocol entities o m)).
Proof. destruct o; cbn; eauto. Qed.

Lemma outcome_events handlers protocol entities o evs p ev :
  group_outcome_ok handlers protocol entities o evs →
  ev ∈ evs → is_create_for p ev → p = protocol.
Proof.
  destruct o; cbn.
  - intros [_ ->] Hin. by apply elem_of_nil in Hin.
  - intros (_ & _ & ->) Hin. by apply elem_of_nil in Hin.
  - intros (_ & _ & (ev' & -> & Hc) & _) Hin Hp.
    apply list_elem_of_singleton in Hin as ->.
    destruct ev'; cbn in *; try done; congruence.
  - intros (_ & _ & (ev' & -> & Hc)) Hin Hp.
    apply list_elem_of_singleton in Hin as ->.
    destruct ev'; cbn in *; try done; congruence.
Qed.

(** A protocol the loop does not meet keeps what it had. *)
Lemma group_run_frame handlers mapping_key by_protocol m m' evs p :
  group_run handlers mapping_key by_protocol m m' evs →
  p ∉ by_protocol.*1 →
  GroupMapping.native_groups m' !! p = GroupMapping.native_groups m !! p
  ∧ ∀ ev, ev ∈ evs → ¬ is_create_for p ev.
Proof.
  induction 1 as [|protocol entities rest o m m' evs evs' Ho Hrun IH]; intros Hp.
  - split; [done|]. intros ev Hin. by apply elem_of_nil in Hin.
  - cbn in Hp. apply not_elem_of_cons in Hp as [Hne Hp].
    destruct (IH Hp) as [Hg Hev]. split.
    + by rewrite Hg, outcome_native_groups_ne.
    + intros ev Hin Hc. apply elem_of_app in Hin as [Hin|Hin].
      * by apply Hne, (outcome_events _ _ _ _ _ _ _ Ho Hin).
      * by apply (Hev ev).
Qed.

Lemma group_run_sync_error handlers mapping_key by_protocol m m' evs :
  group_run handlers mapping_key by_protocol m m' evs →
  is_Some (GroupMapping.sync_error m) → is_Some (GroupMapping.sync_error m').
Proof.
  induction 1 as [|protocol entities rest o m m' evs evs' Ho Hrun IH]; [done|].
  intros Hs. by apply IH, outcome_sync_error.
Qed.

Lemma group_run_native_scenes handlers mapping_key by_protocol m m' evs :
  group_run handlers mapping_key by_protocol m m' evs →
  GroupMapping.native_scenes m' = GroupMapping.native_scenes m.
Proof.
  induction 1 as [|protocol entities rest o m m' evs evs' Ho Hrun IH]; [done|].
  by rewrite IH, outcome_native_scenes.
Qed.

(** The protocol the loop meets, by the number of its members. *)
Lemma group_run_cardinality handlers mapping_key by_protocol m m' evs
    protocol entities :
  group_run handlers mapping_key by_protocol m m' evs →
  NoDup by_protocol.*1 →
  (protocol, entities) ∈ by_protocol →
  is_Some (dict_get protocol handlers) →
  (length entities = 1 →
     GroupMapping.native_groups m' !! protocol
     = Some (group_ref mapping_key protocol None entities)
     ∧ ∀ ev, ev ∈ evs → ¬ is_create_for protocol ev)
  ∧ (1 < length entities →
     (∃ group ungrouped,
        GroupMapping.native_groups m' !! protocol
        = Some (group_ref mapping_key protocol (Some group)
                  (grouped ungrouped entities)))
     ∨ (GroupMapping.native_groups m' !! protocol
        = GroupMapping.native_groups m !! protocol
        ∧ is_Some (GroupMapping.sync_error m')
        ∧ ∃ ev, ev ∈ evs ∧ is_create_for protocol ev)).
Proof.
  induction 1 as [|p es rest o m m' evs evs' Ho Hrun IH]; intros Hnd Hin Hh.
  - by apply elem_of_nil in Hin.
  - cbn in Hnd. apply NoDup_cons in Hnd as [Hp Hnd].
    apply elem_of_cons in Hin as [[= <- <-]|Hin].
    + (* this turn is the protocol's *)
      destruct (group_run_frame _ _ _ _ _ _ _ Hrun Hp) as [Hg Hev].
      rewrite Hg. clear IH. destruct o; cbn in Ho.
      * destruct Ho as [[Hnone| ->] ->].
        -- rewrite Hnone in Hh. by destruct Hh.
        -- split; cbn; lia.
      * destruct Ho as (_ & Hlen & ->). split; [|lia]. intros _. split.
        -- cbn. by rewrite lookup_insert_eq.
        -- intros ev Hin. rewrite app_nil_l in Hin. by apply Hev.
      * destruct Ho as (_ & Hlen & _ & _). split; [lia|]. intros _. left.
        exists group, ungrouped. cbn. by rewrite lookup_insert_eq.
      * destruct Ho as (_ & Hlen & (ev & -> & Hc)). split; [lia|]. intros _. right.
        split_and!; [done | | exists ev; split; [left | done]].
        eapply group_run_sync_error; [exact Hrun|]. cbn. eauto.
    + (* an earlier turn was another protocol's *)
      assert (Hne : protocol ≠ p).
      { intros ->. apply Hp. apply list_elem_of_fmap. by exists (p, entities). }
      destruct (IH Hnd Hin Hh) as [IH1 IH2]. split.
      * intros Hlen. destruct (IH1 Hlen) as [Hg Hev]. split; [done|].
        intros ev Hin' Hc. apply elem_of_app in Hin' as [Hin'|Hin'].
        -- by apply Hne, (outcome_events _ _ _ _ _ _ _ Ho Hin').
        -- by apply (Hev ev).
      * intros Hlen. destruct (IH2 Hlen) as [Hc|(Hg & Hs & ev & Hin' & Hc)].
        -- by left.
        -- right. rewrite Hg, outcome_native_groups_ne by done.
           split_and!; [done..|]. exists ev. split; [|done].
           apply elem_of_app. by right.
Qed.

(** *** No entity twice *)

Lemma grouped_elem ungrouped entities x :
  x ∈ Orchestrator.entity_ids_of (grouped ungrouped entities) →
  x ∈ Orchestrator.entity_ids_of entities ∧ x ∉ ungrouped.
Proof.
  unfold Orchestrator.entity_ids_of, grouped. intros Hx.
  apply list_elem_of_fmap in Hx as (e & -> & He).
  apply list_elem_of_In, filter_In in He as [He Hf].
  apply negb_true_iff, bool_decide_eq_false in Hf.
  split; [|done]. apply list_elem_of_fmap. exists e. by rewrite list_elem_of_In.
Qed.

Lemma group_run_sorted handlers mapping_key all by_protocol m m' evs : ∀ met,
  group_run handlers mapping_key by_protocol m m' evs →
  all = met ++ by_protocol →
  NoDup all.*1 →
  (∀ p1 es1 p2 es2 x,
     (p1, es1) ∈ all → (p2, es2) ∈ all →
     x ∈ Orchestrator.entity_ids_of es1 → x ∈ Orchestrator.entity_ids_of es2 →
     p1 = p2) →
  sorted_so_far met m → sorted_so_far all m'.
Proof.
  intros met Hrun. revert met.
  induction Hrun as [|p es rest o m m' evs evs' Ho Hrun IH];
    intros met Hall Hnd Hdisj Hinv.
  - by rewrite Hall, app_nil_r.
  - apply (IH (met ++ [(p, es)])); [by rewrite <- app_assoc | done | done |].
    assert (Hfresh : ∀ es', (p, es') ∉ met).
    { intros es' Hin. rewrite Hall, fmap_app in Hnd. cbn in Hnd.
      apply NoDup_app in Hnd as (_ & Hnd & _). apply (Hnd p).
      - apply list_elem_of_fmap. by exists (p, es').
      - left. }
    assert (Hother : ∀ p' es' x,
              (p', es') ∈ met → x ∈ Orchestrator.entity_ids_of es' →
              x ∉ Orchestrator.entity_ids_of es).
    { intros p' es' x Hin Hx Hx'.
      assert (p' = p) as ->; [|by apply (Hfresh es')].
      apply (Hdisj p' es' p es x); [| |done..]; rewrite Hall.
      - apply elem_of_app. by left.
      - apply elem_of_app. right. left. }
    destruct Hinv as [Hmem Hung].
    assert (Hmet : ∀ p' x,
              (∃ es', (p', es') ∈ met ∧ x ∈ Orchestrator.entity_ids_of es') →
              ∃ es', (p', es') ∈ met ++ [(p, es)]
                     ∧ x ∈ Orchestrator.entity_ids_of es').
    { intros p' x (es' & ? & ?). exists es'. split; [|done].
      apply elem_of_app. by left. }
    assert (Hhere : ∀ x, x ∈ Orchestrator.entity_ids_of es →
              ∃ p' es', (p', es') ∈ met ++ [(p, es)]
                        ∧ x ∈ Orchestrator.entity_ids_of es').
    { intros x Hx. exists p, es. split; [|done]. apply elem_of_app. right. left. }
    assert (Hung_es : ∀ x, x ∈ Orchestrator.entity_ids_of es →
              x ∉ GroupMapping.ungrouped_entities m).
    { intros x Hx Hu. destruct (Hung x Hu) as (p' & es' & Hin & Hx').
      by apply (Hother p' es' x). }
    destruct o; cbn in Ho |- *.
    + (* all ungrouped *)
      split.
      * intros p' x (r & Hr & Hx). cbn in Hr.
        destruct (Hmem p' x) as [(es' & Hin & Hx') Hnu]; [by exists r|].
        split; [apply Hmet; eauto|]. cbn.
        rewrite not_elem_of_app. split; [done|]. by apply (Hother p' es').
      * intros x Hx. cbn in Hx. apply elem_of_app in Hx as [Hx|Hx]; [|by apply Hhere].
        destruct (Hung x Hx) as (p' & es' & ? & ?). exists p', es'.
        split; [|done]. apply elem_of_app. by left.
    + (* a single member *)
      split.
      * intros p' x (r & Hr & Hx). cbn in Hr.
        destruct (decide (p' = p)) as [->|Hne].
        -- rewrite lookup_insert_eq in Hr. injection Hr as <-. cbn in Hx.
           split; [|by apply Hung_es].
           exists es. split; [|done]. apply elem_of_app. right. left.
        -- rewrite lookup_insert_ne in Hr by done.
           destruct (Hmem p' x) as [? ?]; [by exists r|]. split; [by apply Hmet|done].
      * intros x Hx. cbn in Hx.
        destruct (Hung x Hx) as (p' & es' & ? & ?). exists p', es'.
        split; [|done]. apply elem_of_app. by left.
    + (* a native group was created *)
      destruct Ho as (_ & _ & _ & Hsub). split.
      * intros p' x (r & Hr & Hx). cbn in Hr.
        destruct (decide (p' = p)) as [->|Hne].
        -- rewrite lookup_insert_eq in Hr. injection Hr as <-. cbn in Hx.
           apply grouped_elem in Hx as [Hx Hnu]. split.
           ++ exists es. split; [|done]. apply elem_of_app. right. left.
           ++ cbn. rewrite not_elem_of_app. split; [by apply Hung_es | done].
        -- rewrite lookup_insert_ne in Hr by done.
           destruct (Hmem p' x) as [(es' & Hin & Hx') Hnu]; [by exists r|].
           split; [apply Hmet; eauto|]. cbn.
           rewrite not_elem_of_app. split; [done|].
           intros Hu. by apply (Hother p' es' x), Hsub.
      * intros x Hx. cbn in Hx. apply elem_of_app in Hx as [Hx|Hx].
        -- destruct (Hung x Hx) as (p' & es' & ? & ?). exists p', es'.
           split; [|done]. apply elem_of_app. by left.
        -- by apply Hhere, Hsub.
    + (* the creation failed *)
      split.
      * intros p' x (r & Hr & Hx). cbn in Hr.
        destruct (Hmem p' x) as [? ?]; [by exists r|]. split; [by apply Hmet|done].
      * intros x Hx. cbn in Hx.
        destruct (Hung x Hx) as (p' & es' & ? & ?). exists p', es'.
        split; [|done]. apply elem_of_app. by left.
Qed.
End GroupRun.

Section EntityList.
Context {W : Type}.
Variable hass : HomeAssistant.t.
Variable time_time : nat → float.
Implicit Types (s : Orchestrator.t W) (m : GroupMapping.t).

(** [_provision_entity_list] on a non-empty list: it returns, having
    stored under the key the mapping its loop built, stamped. *)
Lemma provision_entity_list_run mapping_key grouping_type entity_ids s :
  entity_ids ≠ [] →
  ∃ m s' evs t,
    Orchestrator._provision_entity_list hass time_time mapping_key grouping_type
      entity_ids s = (Ok tt, s')
    ∧ Orchestrator._handlers s' = Orchestrator._handlers s
    ∧ Orchestrator.trace s' = Orchestrator.trace s ++ evs
    ∧ Orchestrator._mappings s' !! mapping_key
      = Some (GroupMapping.set_last_synced (NumFloat t) m)
    ∧ group_run (Orchestrator._handlers s) mapping_key
        (Classifier.classify_entities hass entity_ids)
        (GroupMapping.new mapping_key grouping_type
           (time_time (Orchestrator.clock s)))
        m evs.
Proof.
  intros Hne. unfold Orchestrator._provision_entity_list.
  rewrite bool_decide_eq_false_2 by done.
  unfold SE.bind at 1. unfold Orchestrator.now at 1.
  set (s1 := Orchestrator.mk _ _ _ _ _ _ _ _).
  destruct (provision_groups_run mapping_key
              (Classifier.classify_entities hass entity_ids)
              (GroupMapping.new mapping_key grouping_type
                 (time_time (Orchestrator.clock s))) s1)
    as (m & s2 & evs & Hfold & Hext & Hrun).
  unfold SE.bind at 1. rewrite Hfold.
  unfold SE.bind at 1, SE.modify at 1.
  set (s3 := Orchestrator.set_mappings _ s2).
  destruct (save_state_spec time_time s3)
    as (s' & Hsave & Hh & _ & _ & _ & Htr & _ & Hm).
  destruct (Hm mapping_key m) as [t Ht].
  { subst s3. cbn. by rewrite lookup_insert_eq. }
  exists m, s', evs, t. rewrite Hsave.
  destruct Hext as (Hh2 & _ & _ & _ & _ & Htr2).
  split_and!; [done | | | done | done].
  - rewrite Hh. subst s3. cbn. by rewrite Hh2.
  - rewrite Htr. subst s3. cbn. by rewrite Htr2.
Qed.
End EntityList.

Section Creations.
Context {W : Type}.
Implicit Types (s : Orchestrator.t W) (m : GroupMapping.t).

Lemma creations_app (handlers : list (string * ProtocolHandler.t W)) mapping_key
    l1 l2 : ∀ w,
  creations handlers mapping_key (l1 ++ l2) w
  = ((creations handlers mapping_key l1 w).1
     ++ (creations handlers mapping_key l2
           (creations handlers mapping_key l1 w).2).1,
     (creations handlers mapping_key l2
        (creations handlers mapping_key l1 w).2).2).
Proof.
  induction l1 as [|[p es] l1 IH]; intros w; cbn [app creations].
  - cbn. by destruct (creations handlers mapping_key l2 w).
  - destruct (dict_get p handlers) as [h|]; [|apply IH].
    destruct (1 <? length es); [|apply IH].
    destruct (group_creation h mapping_key p es w) as [r w1].
    rewrite IH.
    by destruct (creations handlers mapping_key l1 w1).
Qed.

Lemma recorded_error_app {A} before (l1 l2 : list (string * result A)) :
  recorded_error before (l1 ++ l2) = recorded_error (recorded_error before l1) l2.
Proof. apply foldl_app. Qed.

Lemma outcome_keeps_sync_error mapping_key protocol entities o m :
  (∀ err, o ≠ CreateFailed err) →
  GroupMapping.sync_error (group_outcome_mapping mapping_key protocol entities o m)
  = GroupMapping.sync_error m.
Proof. intros Ho. destruct o; try done. by destruct (Ho err). Qed.

(** The loop of [_provision_entity_list] against the creations it
    asks for: the backend ends as they leave it, every creation that
    returned has its group id in the reference of its protocol, every
    creation that raised leaves its protocol without one, and the last
    message raised is the one recorded. *)
Lemma creations_run mapping_key by_protocol : ∀ m s,
  NoDup by_protocol.*1 →
  ∃ m' s',
    Orchestrator.foldM (Orchestrator.provision_protocol_group mapping_key)
      by_protocol m s = (Ok m', s')
    ∧ Orchestrator._handlers s' = Orchestrator._handlers s
    ∧ Orchestrator.world s'
      = (creations (Orchestrator._handlers s) mapping_key by_protocol
           (Orchestrator.world s)).2
    ∧ GroupMapping.sync_error m'
      = recorded_error (GroupMapping.sync_error m)
          (creations (Orchestrator._handlers s) mapping_key by_protocol
             (Orchestrator.world s)).1
    ∧ (∀ p, p ∉ by_protocol.*1 →
         GroupMapping.native_groups m' !! p = GroupMapping.native_groups m !! p)
    ∧ (∀ p r,
         (p, r) ∈ (creations (Orchestrator._handlers s) mapping_key by_protocol
                     (Orchestrator.world s)).1 →
         p ∈ by_protocol.*1
         ∧ match r with
           | Ok group =>
               ∃ ref, GroupMapping.native_groups m' !! p = Some ref
                      ∧ NativeGroupRef.group_id ref = Some group
           | Raised _ =>
               GroupMapping.native_groups m' !! p
               = GroupMapping.native_groups m !! p
           end).
Proof.
  induction by_protocol as [|[protocol entities] rest IH]; intros m s Hnd.
  - exists m, s. cbn. split_and!; try done.
    intros p r Hin. by apply elem_of_nil in Hin.
  - cbn in Hnd. apply NoDup_cons in Hnd as [Hp Hnd].
    cbn [Orchestrator.foldM creations]. unfold SE.bind at 1.
    destruct (dict_get protocol (Orchestrator._handlers s)) as [h|] eqn:Hh;
      [destruct (1 <? length entities) eqn:Hlen|].
    + (* a creation is asked for *)
      apply Nat.ltb_lt in Hlen.
      destruct (provision_protocol_group_creation mapping_key m protocol entities
                  h s Hh Hlen) as (ung & s1 & -> & Hh1 & Hw1).
      destruct (group_creation h mapping_key protocol entities
                  (Orchestrator.world s)) as [r w1] eqn:Hcreate.
      cbn [fst snd] in *.
      set (o := match r with Ok group => Created group ung
                        | Raised err => CreateFailed err end).
      destruct (IH (group_outcome_mapping mapping_key protocol entities o m)
                  s1 Hnd) as (m' & s' & Hrun & Hh' & Hw' & Hse & Hframe & Hres).
      rewrite Hh1, Hw1 in *.
      destruct (creations (Orchestrator._handlers s) mapping_key rest w1)
        as [results w2] eqn:Hrest. cbn [fst snd] in *.
      exists m', s'. split_and!; [done | congruence | done | | |].
      * rewrite Hse. unfold recorded_error at 2. cbn [foldl snd].
        fold (recorded_error (A:=group_id)). f_equal. by destruct r.
      * intros p Hnin. cbn in Hnin. apply not_elem_of_cons in Hnin as [Hne Hnin].
        by rewrite Hframe, outcome_native_groups_ne.
      * intros p r' Hin. apply elem_of_cons in Hin as [[= -> ->]|Hin].
        -- split; [left|]. rewrite (Hframe _ Hp). subst o. destruct r; cbn.
           ++ rewrite lookup_insert_eq. eauto.
           ++ done.
        -- destruct (Hres p r' Hin) as [Hpin Hr]. split; [by right|].
           destruct r'; [done|]. rewrite Hr.
           apply outcome_native_groups_ne. by intros ->.
    + (* one member or none *)
      apply Nat.ltb_ge in Hlen.
      destruct (provision_protocol_group_spec mapping_key m protocol entities s)
        as (o & s1 & evs1 & -> & _ & Ho).
      assert (Hs1 : s1 = s ∧ ∀ err, o ≠ CreateFailed err).
      { destruct o; [by destruct Ho as (_ & -> & _)
                    | by destruct Ho as (_ & _ & -> & _)
                    | destruct Ho as (_ & ? & _); lia
                    | destruct Ho as (_ & ? & _); lia]. }
      destruct Hs1 as [-> Hok].
      destruct (IH (group_outcome_mapping mapping_key protocol entities o m)
                  s Hnd) as (m' & s' & Hrun & Hh' & Hw' & Hse & Hframe & Hres).
      exists m', s'. split_and!; [done..| | |].
      * by rewrite Hse, outcome_keeps_sync_error.
      * intros p Hnin. cbn in Hnin. apply not_elem_of_cons in Hnin as [Hne Hnin].
        by rewrite Hframe, outcome_native_groups_ne.
      * intros p r' Hin. destruct (Hres p r' Hin) as [Hpin Hr]. split; [by right|].
        destruct r'; [done|]. rewrite Hr.
        apply outcome_native_groups_ne. by intros ->.
    + (* no handler *)
      destruct (provision_protocol_group_spec mapping_key m protocol entities s)
        as (o & s1 & evs1 & -> & _ & Ho).
      assert (Hs1 : s1 = s ∧ ∀ err, o ≠ CreateFailed err).
      { destruct o; [by destruct Ho as (_ & -> & _)
                    | destruct Ho as ([? ?] & _); congruence
                    | destruct Ho as ([? ?] & _); congruence
                    | destruct Ho as ([? ?] & _); congruence]. }
      destruct Hs1 as [-> Hok].
      destruct (IH (group_outcome_mapping mapping_key protocol entities o m)
                  s Hnd) as (m' & s' & Hrun & Hh' & Hw' & Hse & Hframe & Hres).
      exists m', s'. split_and!; [done..| | |].
      * by rewrite Hse, outcome_keeps_sync_error.
      * intros p Hnin. cbn in Hnin. apply not_elem_of_cons in Hnin as [Hne Hnin].
        by rewrite Hframe, outcome_native_groups_ne.
      * intros p r' Hin. destruct (Hres p r' Hin) as [Hpin Hr]. split; [by right|].
        destruct r'; [done|]. rewrite Hr.
        apply outcome_native_groups_ne. by intros ->.
Qed.
End Creations.

Section EntityListCreations.
Context {W : Type}.
Variable hass : HomeAssistant.t.
Variable time_time : nat → float.
Implicit Types (s : Orchestrator.t W) (m : GroupMapping.t).

(** [_provision_entity_list] against the creations it asks for. *)
Lemma provision_entity_list_creations mapping_key grouping_type entity_ids s :
  entity_ids ≠ [] →
  ∃ m s',
    Orchestrator._provision_entity_list hass time_time mapping_key grouping_type
      entity_ids s = (Ok tt, s')
    ∧ Orchestrator._mappings s' !! mapping_key = Some m
    ∧ GroupMapping.sync_error m
      = recorded_error None
          (creations (Orchestrator._handlers s) mapping_key
             (Classifier.classify_entities hass entity_ids)
             (Orchestrator.world s)).1
    ∧ (∀ p r,
         (p, r) ∈ (creations (Orchestrator._handlers s) mapping_key
                     (Classifier.classify_entities hass entity_ids)
                     (Orchestrator.world s)).1 →
         match r with
         | Ok group =>
             ∃ ref, GroupMapping.native_groups m !! p = Some ref
                    ∧ NativeGroupRef.group_id ref = Some group
         | Raised _ => GroupMapping.native_groups m !! p = None
         end).
Proof.
  intros Hne. unfold Orchestrator._provision_entity_list.
  rewrite bool_decide_eq_false_2 by done.
  unfold SE.bind at 1. unfold Orchestrator.now at 1.
  set (s1 := Orchestrator.mk _ _ _ _ _ _ _ _).
  destruct (creations_run mapping_key
              (Classifier.classify_entities hass entity_ids)
              (GroupMapping.new mapping_key grouping_type
                 (time_time (Orchestrator.clock s))) s1
              (classify_entities_NoDup hass entity_ids))
    as (m & s2 & Hfold & _ & _ & Hse & _ & Hres).
  unfold SE.bind at 1. rewrite Hfold.
  unfold SE.bind at 1, SE.modify at 1.
  set (s3 := Orchestrator.set_mappings _ s2).
  destruct (save_state_spec time_time s3) as (s' & Hsave & _ & _ & _ & _ & _ & _ & Hm).
  destruct (Hm mapping_key m) as [t Ht].
  { subst s3. cbn. by rewrite lookup_insert_eq. }
  exists (GroupMapping.set_last_synced (NumFloat t) m), s'.
  split_and!; [done | done | exact Hse |].
  intros p r Hin. destruct (Hres p r Hin) as [_ Hr].
  destruct r; [done|]. cbn. rewrite Hr. cbn. apply lookup_empty.
Qed.
End EntityListCreations.

(** C3 (as amended): provisioning a logical group with an active handler
    for protocol [p] returns and stores a mapping. If exactly one member
    classifies on [p], the mapping's reference for [p] has no group id and
    that member as its only one, and no group creation was asked of any
    handler for [p]. If more than one does, the handler's creation is
    called for these members, on the backend as the creations for the
    protocols classified before [p] left it. If it returns a group id, the
    reference for [p] carries that id. If it raises, the mapping has no
    reference for [p], a creation event for [p] is in the trace, and the
    mapping's [sync_error] is the message raised, unless the creation for a
    protocol classified after [p] raises too: the last message raised is
    the one that stays. *)
Theorem group_cardinality {W : Type} (hass : HomeAssistant.t)
    (time_time : nat → float) (s : Orchestrator.t W)
    (mapping_key grouping_type protocol : string) (entity_ids : list string)
    (Hhandler : is_Some (dict_get protocol (Orchestrator._handlers s)))
    (Hmembers : members_on hass protocol entity_ids ≠ []) :
  let members := members_on hass protocol entity_ids in
  let handlers := Orchestrator._handlers s in
  ∃ s' m evs,
    Orchestrator._provision_entity_list hass time_time mapping_key grouping_type
      entity_ids s = (Ok tt, s')
    ∧ Orchestrator._mappings s' !! mapping_key = Some m
    ∧ Orchestrator.trace s' = Orchestrator.trace s ++ evs
    ∧ (length members = 1 →
         (∃ r, GroupMapping.native_groups m !! protocol = Some r
               ∧ NativeGroupRef.group_id r = None
               ∧ NativeGroupRef.member_entity_ids r
                 = Orchestrator.entity_ids_of members)
         ∧ ∀ ev, ev ∈ evs → ¬ is_create_for protocol ev)
    ∧ (1 < length members →
         ∃ handler before after result w',
           dict_get protocol handlers = Some handler
           ∧ Classifier.classify_entities hass entity_ids
             = before ++ (protocol, members) :: after
           ∧ group_creation handler mapping_key protocol members
               (creations handlers mapping_key before (Orchestrator.world s)).2
             = (result, w')
           ∧ match result with
             | Ok group =>
                 ∃ r, GroupMapping.native_groups m !! protocol = Some r
                      ∧ NativeGroupRef.group_id r = Some group
             | Raised err =>
                 GroupMapping.native_groups m !! protocol = None
                 ∧ GroupMapping.sync_error m
                   = recorded_error (Some err)
                       (creations handlers mapping_key after w').1
                 ∧ ∃ ev, ev ∈ evs ∧ is_create_for protocol ev
             end).
Proof.
  intros members handlers.
  assert (Hne : entity_ids ≠ []).
  { intros ->. by apply Hmembers. }
  destruct (provision_entity_list_run hass time_time mapping_key grouping_type
              entity_ids s Hne) as (m & s' & evs & t & Hrun & _ & Htr & Hm & Hloop).
  destruct (provision_entity_list_creations hass time_time mapping_key
              grouping_type entity_ids s Hne)
    as (m2 & s2 & Hrun2 & Hm2 & Hse & Hres).
  rewrite Hrun in Hrun2. injection Hrun2 as <-.
  rewrite Hm in Hm2. injection Hm2 as <-.
  exists s', (GroupMapping.set_last_synced (NumFloat t) m), evs.
  split_and!; [done..| |].
  all: destruct (group_run_cardinality _ _ _ _ _ _ protocol members Hloop
                   (classify_entities_NoDup hass entity_ids)
                   (classify_entities_lookup hass entity_ids protocol Hmembers)
                   Hhandler) as [H1 Hn].
  - intros Hlen. destruct (H1 Hlen) as [Hg Hev]. split; [|done].
    eexists. cbn. split; [exact Hg|]. by split.
  - intros Hlen. destruct Hhandler as [handler Hh]. subst handlers members.
    set (handlers := Orchestrator._handlers s) in *.
    set (members := members_on hass protocol entity_ids) in *.
    destruct (list_elem_of_split _ _
                (classify_entities_lookup hass entity_ids protocol Hmembers))
      as (before & after & Hsplit).
    destruct (group_creation handler mapping_key protocol members
                (creations handlers mapping_key before (Orchestrator.world s)).2)
      as [result w'] eqn:Hcreate.
    exists handler, before, after, result, w'.
    split_and!; [done..|].
    assert (Hresults :
      (creations handlers mapping_key
         (Classifier.classify_entities hass entity_ids) (Orchestrator.world s)).1
      = (creations handlers mapping_key before (Orchestrator.world s)).1
        ++ (protocol, result) :: (creations handlers mapping_key after w').1).
    { rewrite Hsplit, creations_app. cbn [fst creations].
      rewrite Hh. fold members.
      assert ((1 <? length members) = true) as -> by (by apply Nat.ltb_lt).
      rewrite Hcreate.
      by destruct (creations handlers mapping_key after w'). }
    rewrite Hresults in Hse, Hres.
    specialize (Hres protocol result).
    destruct result as [group|err].
    + apply Hres. apply elem_of_app. right. left.
    + assert (Hnone : GroupMapping.native_groups
                        (GroupMapping.set_last_synced (NumFloat t) m) !! protocol
                      = None).
      { apply Hres. apply elem_of_app. right. left. }
      split_and!; [done | |].
      * by rewrite Hse, recorded_error_app.
      * destruct (Hn Hlen) as [(group & ung & Hg)|(_ & _ & Hev)]; [|done].
        cbn in Hnone. rewrite Hg in Hnone. done.
Qed.

(** The mapping stored for a group, area, floor or label sorts every member
    under the one protocol it classifies to. *)
Lemma group_mapping_partitioned {W : Type} (hass : HomeAssistant.t)
    (time_time : nat → float) (s : Orchestrator.t W)
    (mapping_key grouping_type : string) (entity_ids : list string) :
  entity_ids ≠ [] →
  ∃ s' m,
    Orchestrator._provision_entity_list hass time_time mapping_key grouping_type
      entity_ids s = (Ok tt, s')
    ∧ Orchestrator._mappings s' !! mapping_key = Some m
    ∧ partitioned m.
Proof.
  intros Hne.
  destruct (provision_entity_list_run hass time_time mapping_key grouping_type
              entity_ids s Hne) as (m & s' & evs & t & Hrun & _ & Htr & Hm & Hloop).
  exists s', (GroupMapping.set_last_synced (NumFloat t) m).
  split_and!; [done..|].
  pose proof (group_run_native_scenes _ _ _ _ _ _ Hloop) as Hsc. cbn in Hsc.
  destruct (group_run_sorted _ _ (Classifier.classify_entities hass entity_ids)
              _ _ _ _ [] Hloop eq_refl (classify_entities_NoDup hass entity_ids))
    as [Hmem Hung].
  { intros p1 es1 p2 es2 x H1 H2 Hx1 Hx2.
    rewrite (classified_bucket_protocol hass _ _ _ _ H1 Hx1).
    by rewrite (classified_bucket_protocol hass _ _ _ _ H2 Hx2). }
  { split.
    - intros p x (r & Hr & _). cbn in Hr. by rewrite lookup_empty in Hr.
    - intros x Hx. cbn in Hx. by apply elem_of_nil in Hx. }
  assert (Hgroup : ∀ p e,
            in_protocol_list (GroupMapping.set_last_synced (NumFloat t) m) p e →
            in_native_group m p e).
  { intros p e [Hg|(r & Hr & _)]; [done|]. cbn in Hr.
    rewrite Hsc, lookup_empty in Hr. done. }
  split.
  - intros p e Hin. apply Hgroup in Hin. cbn. by apply (Hmem p e).
  - intros p1 p2 e H1 H2. apply Hgroup in H1, H2.
    destruct (Hmem p1 e H1) as [(es1 & Hin1 & Hx1) _].
    destruct (Hmem p2 e H2) as [(es2 & Hin2 & Hx2) _].
    rewrite (classified_bucket_protocol hass _ _ _ _ Hin1 Hx1).
    by rewrite (classified_bucket_protocol hass _ _ _ _ Hin2 Hx2).
Qed.

Section Scenes.
Context {W : Type}.
Implicit Types (s : Orchestrator.t W) (m : GroupMapping.t).

Lemma with_world_trace_twice s w1 evs1 w2 evs2 :
  with_world_trace (with_world_trace s w1 evs1) w2 evs2
  = with_world_trace s w2 (evs1 ++ evs2).
Proof. unfold with_world_trace. cbn. by rewrite app_assoc. Qed.

Lemma call_with_world_trace {A} ev (op : SE.t W A) s :
  Orchestrator.call ev op s
  = ((op (Orchestrator.world s)).1,
     with_world_trace s (op (Orchestrator.world s)).2 [ev]).
Proof. apply call_eq. Qed.

Lemma sleep_with_world_trace seconds s :
  Orchestrator.sleep seconds s
  = (Ok tt, with_world_trace s (Orchestrator.world s) [Orchestrator.Sleep seconds]).
Proof. reflexivity. Qed.

(** The retry loop makes the calls [store_attempts_spec] tells. *)
Lemma store_scene_attempts_eq (handler : ProtocolHandler.t W)
    protocol group_name native_scene_id device_states s :
  let store := ProtocolHandler.async_store_scene handler (GidStr group_name)
                 native_scene_id device_states in
  let ev := Orchestrator.StoreScene protocol (GidStr group_name)
              native_scene_id device_states in
  Orchestrator.store_scene_attempts handler protocol group_name native_scene_id
    device_states 3 (Orchestrator.range 3) s
  = let '(r, w, evs) := store_attempts_spec store ev (Orchestrator.world s) in
    (r, with_world_trace s w evs).
Proof.
  intros store ev. unfold store_attempts_spec.
  change (Orchestrator.range 3) with [0; 1; 2]%Z.
  cbn [Orchestrator.store_scene_attempts].
  unfold SE.try_except at 1. rewrite call_with_world_trace. fold store ev.
  destruct (store (Orchestrator.world s)) as [[[]|e1] w1] eqn:H1; cbn [fst snd];
    [done|].
  change (0 =? 3 - 1)%Z with false. cbv iota.
  unfold SE.bind at 1. rewrite sleep_with_world_trace.
  unfold SE.try_except at 1. rewrite call_with_world_trace. fold store ev.
  cbn [Orchestrator.world with_world_trace].
  destruct (store w1) as [[[]|e2] w2] eqn:H2; cbn [fst snd].
  { rewrite !with_world_trace_twice. reflexivity. }
  change (1 =? 3 - 1)%Z with false. cbv iota.
  unfold SE.bind at 1. rewrite sleep_with_world_trace.
  unfold SE.try_except at 1. rewrite call_with_world_trace. fold store ev.
  cbn [Orchestrator.world with_world_trace].
  destruct (store w2) as [[[]|e3] w3] eqn:H3; cbn [fst snd].
  { rewrite !with_world_trace_twice. reflexivity. }
  change (2 =? 3 - 1)%Z with true. cbv iota.
  unfold SE.raise. rewrite !with_world_trace_twice. reflexivity.
Qed.

Lemma store_attempts_events (store : SE.t W unit) ev w protocol :
  is_store_for protocol ev →
  Forall (is_store_or_sleep protocol) (store_attempts_spec store ev w).2.
Proof.
  intros Hev. unfold store_attempts_spec.
  assert (Hs : ∀ f, is_store_or_sleep protocol (Orchestrator.Sleep f))
    by (intros f; right; by exists f).
  assert (He : is_store_or_sleep protocol ev) by by left.
  destruct (store w) as [[[]|e1] w1]; cbn; [by auto using Forall_cons_2|].
  destruct (store w1) as [[[]|e2] w2]; cbn; [by auto 6 using Forall_cons_2|].
  destruct (store w2) as [r3 w3]; cbn. by auto 8 using Forall_cons_2.
Qed.

(** [_provision_native_scene], once the group exists and the device
    states are built: the store loop decides. *)
Lemma provision_native_scene_eq (handler : ProtocolHandler.t W)
    protocol scene_id native_scene_id entities m s group w1 device_states :
  let group_name := Orchestrator._generate_group_name scene_id protocol in
  let native_ids := (λ e, ProtocolInfo.native_id e.1.2) <$> entities in
  let created := Orchestrator.CreateGroup protocol group_name native_ids in
  let store := ProtocolHandler.async_store_scene handler (GidStr group_name)
                 native_scene_id device_states in
  let ev := Orchestrator.StoreScene protocol (GidStr group_name)
              native_scene_id device_states in
  ProtocolHandler.async_create_group handler group_name native_ids
    (Orchestrator.world s) = (Ok group, w1) →
  Orchestrator.build_device_states handler entities = Ok device_states →
  Orchestrator._provision_native_scene handler protocol scene_id native_scene_id
    entities m s
  = let '(r, w, evs) := store_attempts_spec store ev w1 in
    match r with
    | Ok _ =>
        (Ok (GroupMapping.set_native_scene protocol
               (scene_ref scene_id protocol native_scene_id entities) m),
         Orchestrator.set_managed_resources
           (<[scene_id :=
                default ∅ (Orchestrator._managed_resources s !! scene_id)
                ∪ {[protocol +:+ ":group:" +:+ group_name]}
                ∪ {[protocol +:+ ":scene:" +:+ group_name +:+ ":"
                    +:+ str_of_int native_scene_id]}]>
              (Orchestrator._managed_resources s))
           (with_world_trace s w (created :: evs)))
    | Raised err =>
        (Ok (GroupMapping.set_sync_error (Some err) m),
         with_world_trace s w (created :: evs))
    end.
Proof.
  intros group_name native_ids created store ev Hcreate Hstates.
  unfold Orchestrator._provision_native_scene.
  fold group_name native_ids created.
  unfold SE.try_except at 1. unfold SE.bind at 1.
  rewrite call_with_world_trace, Hcreate. cbn [fst snd].
  unfold SE.bind at 1. rewrite Hstates. unfold SE.lift_result at 1.
  unfold SE.bind at 1. rewrite store_scene_attempts_eq.
  fold store ev. cbn [Orchestrator.world with_world_trace].
  destruct (store_attempts_spec store ev w1) as [[[[]|err] w] evs].
  - unfold Orchestrator.add_managed_resource, SE.bind, SE.modify, SE.ret.
    cbn. unfold with_world_trace, Orchestrator.set_managed_resources. cbn.
    rewrite lookup_insert_eq. cbn. rewrite insert_insert_eq.
    rewrite <- !app_assoc. reflexivity.
  - rewrite with_world_trace_twice. reflexivity.
Qed.

(** [_provision_native_scene] never raises; it stores the scene or
    records the error, and asks the handler for the group first. *)
Lemma provision_native_scene_spec (handler : ProtocolHandler.t W)
    protocol scene_id native_scene_id entities m s :
  ∃ o s' evs',
    Orchestrator._provision_native_scene handler protocol scene_id native_scene_id
      entities m s
    = (Ok (scene_outcome_mapping scene_id protocol native_scene_id entities o m), s')
    ∧ o ≠ Fallback
    ∧ extends s s'
        (Orchestrator.CreateGroup protocol
           (Orchestrator._generate_group_name scene_id protocol)
           ((λ e, ProtocolInfo.native_id e.1.2) <$> entities) :: evs')
    ∧ Forall (is_store_or_sleep protocol) evs'.
Proof.
  set (group_name := Orchestrator._generate_group_name scene_id protocol).
  set (native_ids := (λ e, ProtocolInfo.native_id e.1.2) <$> entities).
  destruct (ProtocolHandler.async_create_group handler group_name native_ids
              (Orchestrator.world s)) as [[group|err] w1] eqn:Hcreate.
  - destruct (Orchestrator.build_device_states handler entities)
      as [device_states|err] eqn:Hstates.
    + rewrite (provision_native_scene_eq _ _ _ _ _ _ _ _ _ _ Hcreate Hstates).
      fold group_name.
      pose proof (store_attempts_events
        (ProtocolHandler.async_store_scene handler (GidStr group_name)
           native_scene_id device_states)
        (Orchestrator.StoreScene protocol (GidStr group_name)
           native_scene_id device_states) w1 protocol eq_refl) as Hevs.
      destruct (store_attempts_spec _ _ w1) as [[[[]|err] w] evs]; cbn in Hevs.
      * exists Stored. eexists _, evs. split_and!; [reflexivity|done| |done].
        by unfold extends.
      * exists (ProvisionFailed err). eexists _, evs.
        split_and!; [reflexivity|done| |done]. by unfold extends.
    + exists (ProvisionFailed err). eexists _, [].
      split_and!; [|done| |constructor].
      * unfold Orchestrator._provision_native_scene.
        fold group_name native_ids.
        unfold SE.try_except at 1. unfold SE.bind at 1.
        rewrite call_with_world_trace, Hcreate. cbn [fst snd].
        unfold SE.bind at 1. rewrite Hstates. reflexivity.
      * by unfold extends.
  - exists (ProvisionFailed err). eexists _, [].
    split_and!; [|done| |constructor].
    + unfold Orchestrator._provision_native_scene.
      fold group_name native_ids.
      unfold SE.try_except at 1. unfold SE.bind at 1.
      rewrite call_with_world_trace, Hcreate. reflexivity.
    + by unfold extends.
Qed.

(** One turn of the loop of [_provision_scene]. *)
Lemma provision_protocol_scene_spec scene_id native_scene_id m protocol entities s :
  ∃ o s' evs,
    Orchestrator.provision_protocol_scene scene_id native_scene_id m
      (protocol, entities) s
    = (Ok (scene_outcome_mapping scene_id protocol native_scene_id entities o m), s')
    ∧ extends s s' evs
    ∧ scene_outcome_ok (Orchestrator._handlers s) scene_id protocol entities o evs.
Proof.
  unfold Orchestrator.provision_protocol_scene, Orchestrator.get_handler.
  unfold SE.bind at 1. unfold SE.gets at 1.
  destruct (dict_get protocol (Orchestrator._handlers s)) as [h|] eqn:Hh.
  2:{ exists Fallback, s, []. split_and!; [done | apply extends_refl |].
      split; [by left | done]. }
  case_bool_decide as Hes.
  { exists Fallback, s, []. split_and!; [done | apply extends_refl |].
    split; [|done]. right. right. subst. cbn. lia. }
  destruct (ProtocolHandler.async_supports_native_scenes h) eqn:Hsup; cbn [andb].
  2:{ exists Fallback, s, []. split_and!; [done | apply extends_refl |].
      split; [|done]. right. left. by exists h. }
  destruct (1 <? length entities) eqn:Hlen.
  2:{ exists Fallback, s, []. split_and!; [done | apply extends_refl |].
      split; [|done]. right. right. apply Nat.ltb_ge in Hlen. lia. }
  apply Nat.ltb_lt in Hlen.
  destruct (provision_native_scene_spec h protocol scene_id native_scene_id
              entities m s) as (o & s' & evs' & Hrun & Ho & Hext & Hevs).
  exists o, s'. eexists. split_and!; [exact Hrun | exact Hext |].
  destruct o; [done| |]; cbn; (split_and!; [by exists h | done |]);
    by exists evs'.
Qed.

Lemma provision_scenes_run scene_id native_scene_id by_protocol : ∀ m s,
  ∃ m' s' evs,
    Orchestrator.foldM (Orchestrator.provision_protocol_scene scene_id native_scene_id)
      by_protocol m s = (Ok m', s')
    ∧ extends s s' evs
    ∧ scene_run (Orchestrator._handlers s) scene_id native_scene_id
        by_protocol m m' evs.
Proof.
  induction by_protocol as [|[protocol entities] rest IH]; intros m s.
  - exists m, s, []. split_and!; [done | apply extends_refl | constructor].
  - destruct (provision_protocol_scene_spec scene_id native_scene_id m
                protocol entities s) as (o & s1 & evs1 & Hstep & Hext1 & Ho).
    destruct (IH (scene_outcome_mapping scene_id protocol native_scene_id
                    entities o m) s1)
      as (m' & s' & evs2 & Hrest & Hext2 & Hrun).
    exists m', s', (evs1 ++ evs2). split_and!.
    + cbn [Orchestrator.foldM]. unfold SE.bind. by rewrite Hstep.
    + by eapply extends_trans.
    + destruct Hext1 as (Hh & _). rewrite Hh in Hrun.
      by econstructor.
Qed.
End Scenes.

(** ** What a run of the scene loop leaves in the mapping *)

Section SceneRun.
Context {W : Type}.
Implicit Types (m : GroupMapping.t) (handlers : list (string * ProtocolHandler.t W)).
Implicit Types entities : list (string * ProtocolInfo.t * pyval).

Lemma scene_outcome_native_scenes_ne scene_id protocol sid entities o m p :
  p ≠ protocol →
  GroupMapping.native_scenes
    (scene_outcome_mapping scene_id protocol sid entities o m) !! p
  = GroupMapping.native_scenes m !! p.
Proof. intros Hne. destruct o; cbn; by rewrite ?lookup_insert_ne. Qed.

Lemma scene_outcome_native_groups scene_id protocol sid entities o m :
  GroupMapping.native_groups
    (scene_outcome_mapping scene_id protocol sid entities o m)
  = GroupMapping.native_groups m.
Proof. by destruct o. Qed.

Lemma scene_outcome_ungrouped scene_id protocol sid entities o m x :
  x ∈ GroupMapping.ungrouped_entities m →
  x ∈ GroupMapping.ungrouped_entities
        (scene_outcome_mapping scene_id protocol sid entities o m).
Proof. destruct o; cbn; [|done..]. intros. apply elem_of_app. by left. Qed.

Lemma scene_run_ungrouped handlers scene_id sid by_protocol m m' evs x :
  scene_run handlers scene_id sid by_protocol m m' evs →
  x ∈ GroupMapping.ungrouped_entities m → x ∈ GroupMapping.ungrouped_entities m'.
Proof.
  induction 1 as [|protocol entities rest o m m' evs evs' Ho Hrun IH]; [done|].
  intros Hx. by apply IH, scene_outcome_ungrouped.
Qed.

Lemma scene_run_native_groups handlers scene_id sid by_protocol m m' evs :
  scene_run handlers scene_id sid by_protocol m m' evs →
  GroupMapping.native_groups m' = GroupMapping.native_groups m.
Proof.
  induction 1 as [|protocol entities rest o m m' evs evs' Ho Hrun IH]; [done|].
  by rewrite IH, scene_outcome_native_groups.
Qed.

Lemma scene_run_frame handlers scene_id sid by_protocol m m' evs p :
  scene_run handlers scene_id sid by_protocol m m' evs →
  p ∉ by_protocol.*1 →
  GroupMapping.native_scenes m' !! p = GroupMapping.native_scenes m !! p.
Proof.
  induction 1 as [|protocol entities rest o m m' evs evs' Ho Hrun IH]; intros Hp.
  - done.
  - cbn in Hp. apply not_elem_of_cons in Hp as [Hne Hp].
    by rewrite (IH Hp), scene_outcome_native_scenes_ne.
Qed.

(** The protocol the loop meets: a native scene only with a handler
    that supports scenes and more than one member; otherwise the
    members are ungrouped. With such a handler and more than one
    member, the handler is asked for the group whatever happened to
    the protocols before. *)
Lemma scene_run_cardinality handlers scene_id sid by_protocol m m' evs
    protocol entities :
  scene_run handlers scene_id sid by_protocol m m' evs →
  NoDup by_protocol.*1 →
  (protocol, entities) ∈ by_protocol →
  let supported :=
    ∃ h, dict_get protocol handlers = Some h
         ∧ ProtocolHandler.async_supports_native_scenes h = true in
  (¬ supported ∨ length entities ≤ 1 →
     GroupMapping.native_scenes m' !! protocol
     = GroupMapping.native_scenes m !! protocol
     ∧ ∀ x, x ∈ scene_entity_ids entities →
            x ∈ GroupMapping.ungrouped_entities m')
  ∧ (GroupMapping.native_scenes m' !! protocol
     ≠ GroupMapping.native_scenes m !! protocol →
     supported ∧ 1 < length entities)
  ∧ (supported → 1 < length entities →
     Orchestrator.CreateGroup protocol
       (Orchestrator._generate_group_name scene_id protocol)
       ((λ e, ProtocolInfo.native_id e.1.2) <$> entities) ∈ evs).
Proof.
  intros Hrun. revert protocol entities.
  induction Hrun as [|p es rest o m m' evs evs' Ho Hrun IH];
    intros protocol entities Hnd Hin supported.
  - by apply elem_of_nil in Hin.
  - cbn in Hnd. apply NoDup_cons in Hnd as [Hp Hnd].
    apply elem_of_cons in Hin as [[= <- <-]|Hin].
    + (* this turn is the protocol's *)
      pose proof (scene_run_frame _ _ _ _ _ _ _ _ Hrun Hp) as Hs.
      rewrite Hs. clear IH. destruct o; cbn in Ho |- *.
      * destruct Ho as [Hwhy ->]. split_and!.
        -- intros _. split; [done|]. intros x Hx.
           eapply scene_run_ungrouped; [exact Hrun|]. cbn.
           apply elem_of_app. by right.
        -- done.
        -- intros (h & Hh & Hsup) Hlen. exfalso.
           destruct Hwhy as [Hnone|[(h' & Hh' & Hns)|Hle]]; [congruence| |lia].
           rewrite Hh in Hh'. injection Hh' as <-. congruence.
      * destruct Ho as (Hsup & Hlen & evs0 & -> & _). split_and!.
        -- intros [Hns|Hle]; [done|lia].
        -- done.
        -- intros _ _. left.
      * destruct Ho as (Hsup & Hlen & evs0 & -> & _). split_and!.
        -- intros [Hns|Hle]; [done|lia].
        -- done.
        -- intros _ _. left.
    + (* an earlier turn was another protocol's *)
      assert (Hne : protocol ≠ p).
      { intros ->. apply Hp. apply list_elem_of_fmap. by exists (p, entities). }
      destruct (IH protocol entities Hnd Hin) as (IH1 & IH2 & IH3).
      rewrite scene_outcome_native_scenes_ne in IH1, IH2 by done.
      split_and!; [done..|].
      intros Hsup Hlen. apply elem_of_app. right. by apply IH3.
Qed.

(** *** No entity twice *)

Lemma scene_run_sorted handlers scene_id sid all by_protocol m m' evs : ∀ met,
  scene_run handlers scene_id sid by_protocol m m' evs →
  all = met ++ by_protocol →
  NoDup all.*1 →
  (∀ p1 es1 p2 es2 x,
     (p1, es1) ∈ all → (p2, es2) ∈ all →
     x ∈ scene_entity_ids es1 → x ∈ scene_entity_ids es2 → p1 = p2) →
  scene_sorted_so_far met m → scene_sorted_so_far all m'.
Proof.
  intros met Hrun. revert met.
  induction Hrun as [|p es rest o m m' evs evs' Ho Hrun IH];
    intros met Hall Hnd Hdisj Hinv.
  - by rewrite Hall, app_nil_r.
  - apply (IH (met ++ [(p, es)])); [by rewrite <- app_assoc | done | done |].
    assert (Hfresh : ∀ es', (p, es') ∉ met).
    { intros es' Hin. rewrite Hall, fmap_app in Hnd. cbn in Hnd.
      apply NoDup_app in Hnd as (_ & Hnd & _). apply (Hnd p).
      - apply list_elem_of_fmap. by exists (p, es').
      - left. }
    assert (Hother : ∀ p' es' x,
              (p', es') ∈ met → x ∈ scene_entity_ids es' →
              x ∉ scene_entity_ids es).
    { intros p' es' x Hin Hx Hx'.
      assert (p' = p) as ->; [|by apply (Hfresh es')].
      apply (Hdisj p' es' p es x); [| |done..]; rewrite Hall.
      - apply elem_of_app. by left.
      - apply elem_of_app. right. left. }
    destruct Hinv as [Hmem Hung].
    assert (Hmet : ∀ p' x,
              (∃ es', (p', es') ∈ met ∧ x ∈ scene_entity_ids es') →
              ∃ es', (p', es') ∈ met ++ [(p, es)] ∧ x ∈ scene_entity_ids es').
    { intros p' x (es' & ? & ?). exists es'. split; [|done].
      apply elem_of_app. by left. }
    assert (Hung_es : ∀ x, x ∈ scene_entity_ids es →
              x ∉ GroupMapping.ungrouped_entities m).
    { intros x Hx Hu. destruct (Hung x Hu) as (p' & es' & Hin & Hx').
      by apply (Hother p' es' x). }
    destruct o; cbn in Ho |- *.
    + (* fallback: all ungrouped *)
      split.
      * intros p' x (r & Hr & Hx). cbn in Hr.
        destruct (Hmem p' x) as [(es' & Hin & Hx') Hnu]; [by exists r|].
        split; [apply Hmet; eauto|]. cbn.
        rewrite not_elem_of_app. split; [done|]. by apply (Hother p' es').
      * intros x Hx. cbn in Hx. apply elem_of_app in Hx as [Hx|Hx].
        -- destruct (Hung x Hx) as (p' & es' & ? & ?). exists p', es'.
           split; [|done]. apply elem_of_app. by left.
        -- exists p, es. split; [|done]. apply elem_of_app. right. left.
    + (* the scene was stored *)
      split.
      * intros p' x (r & Hr & Hx). cbn in Hr.
        destruct (decide (p' = p)) as [->|Hne].
        -- rewrite lookup_insert_eq in Hr. injection Hr as <-. cbn in Hx.
           split; [|by apply Hung_es].
           exists es. split; [|done]. apply elem_of_app. right. left.
        -- rewrite lookup_insert_ne in Hr by done.
           destruct (Hmem p' x) as [? ?]; [by exists r|]. split; [by apply Hmet|done].
      * intros x Hx. cbn in Hx.
        destruct (Hung x Hx) as (p' & es' & ? & ?). exists p', es'.
        split; [|done]. apply elem_of_app. by left.
    + (* the provisioning failed *)
      split.
      * intros p' x (r & Hr & Hx). cbn in Hr.
        destruct (Hmem p' x) as [? ?]; [by exists r|]. split; [by apply Hmet|done].
      * intros x Hx. cbn in Hx.
        destruct (Hung x Hx) as (p' & es' & ? & ?). exists p', es'.
        split; [|done]. apply elem_of_app. by left.
Qed.
End SceneRun.

(** ** The classification of a scene's entities *)

Section SceneClassification.
Variable hass : HomeAssistant.t.

Local Abbreviation scene_triples := (Spec.scene_triples hass).

Lemma classify_scene_entities_group_by entities_config :
  Orchestrator.classify_scene_entities hass entities_config
  = group_by (λ e, ProtocolInfo.protocol e.1.2) (scene_triples entities_config).
Proof.
  unfold Orchestrator.classify_scene_entities, group_by, Spec.scene_triples.
  generalize (@nil (string * list (string * ProtocolInfo.t * pyval))).
  induction entities_config as [|[e t] l IH]; intros d; [done|]. cbn. by rewrite IH.
Qed.

Lemma scene_bucket_ids entities_config protocol :
  scene_entity_ids
    (bucket (λ e, ProtocolInfo.protocol e.1.2) protocol
       (scene_triples entities_config))
  = scene_members_on hass protocol entities_config.
Proof.
  unfold scene_entity_ids, bucket, Spec.scene_triples, scene_members_on.
  induction entities_config as [|[e t] l IH]; [done|]. cbn.
  case_bool_decide; cbn; by rewrite IH.
Qed.

Lemma classify_scene_entities_NoDup entities_config :
  NoDup (Orchestrator.classify_scene_entities hass entities_config).*1.
Proof. rewrite classify_scene_entities_group_by. apply group_by_NoDup. Qed.

Lemma classify_scene_entities_elem entities_config protocol entities :
  (protocol, entities) ∈ Orchestrator.classify_scene_entities hass entities_config →
  scene_entity_ids entities = scene_members_on hass protocol entities_config
  ∧ entities ≠ [].
Proof.
  rewrite classify_scene_entities_group_by, group_by_elem.
  intros [-> Hne]. split; [apply scene_bucket_ids | done].
Qed.

Lemma classify_scene_entities_lookup entities_config protocol :
  scene_members_on hass protocol entities_config ≠ [] →
  ∃ entities,
    (protocol, entities) ∈ Orchestrator.classify_scene_entities hass entities_config
    ∧ scene_entity_ids entities = scene_members_on hass protocol entities_config.
Proof.
  intros Hne. eexists. rewrite classify_scene_entities_group_by, group_by_elem.
  split; [split; [reflexivity|] | apply scene_bucket_ids].
  intros Hnil. apply Hne. by rewrite <- scene_bucket_ids, Hnil.
Qed.

Lemma classify_scene_entities_absent entities_config protocol :
  scene_members_on hass protocol entities_config = [] →
  protocol ∉ (Orchestrator.classify_scene_entities hass entities_config).*1.
Proof.
  intros Hnil Hin. apply list_elem_of_fmap in Hin as ([p es] & -> & Hin).
  apply classify_scene_entities_elem in Hin as [Hids Hne]. cbn in Hnil.
  rewrite Hnil in Hids. apply Hne. by destruct es.
Qed.

Lemma scene_bucket_protocol entities_config protocol entities x :
  (protocol, entities) ∈ Orchestrator.classify_scene_entities hass entities_config →
  x ∈ scene_entity_ids entities →
  protocol = ProtocolInfo.protocol (Classifier.classify_entity hass x).
Proof.
  intros Hin Hx. apply classify_scene_entities_elem in Hin as [Hids _].
  rewrite Hids in Hx. unfold scene_members_on in Hx.
  apply list_elem_of_In, filter_In in Hx as [_ Hx].
  by apply bool_decide_eq_true in Hx.
Qed.
End SceneClassification.

Section SceneProvisioning.
Context {W : Type}.
Variable hass : HomeAssistant.t.
Variable time_time : nat → float.
Implicit Types (s : Orchestrator.t W) (m : GroupMapping.t).

Lemma provision_scene_entities_run scene_id entities_config s :
  ∃ m s' evs t,
    Orchestrator.provision_scene_entities hass time_time scene_id entities_config s
    = (Ok tt, s')
    ∧ Orchestrator._handlers s' = Orchestrator._handlers s
    ∧ Orchestrator.trace s' = Orchestrator.trace s ++ evs
    ∧ Orchestrator._mappings s' !! scene_id
      = Some (GroupMapping.set_last_synced (NumFloat t) m)
    ∧ scene_run (Orchestrator._handlers s) scene_id
        (Orchestrator._scene_id_counter s)
        (Orchestrator.classify_scene_entities hass entities_config)
        (GroupMapping.new scene_id GROUPING_TYPE_SCENE
           (time_time (Orchestrator.clock s)))
        m evs.
Proof.
  unfold Orchestrator.provision_scene_entities.
  unfold SE.bind at 1. unfold Orchestrator.now at 1.
  set (s1 := Orchestrator.mk _ _ _ _ _ _ _ _).
  unfold SE.bind at 1.
  change (Orchestrator._allocate_scene_id s1)
    with (Ok (Orchestrator._scene_id_counter s),
          Orchestrator.set_scene_id_counter
            (if (Orchestrator._scene_id_counter s + 1 >? SCENE_ID_MAX)%Z
             then SCENE_ID_START else (Orchestrator._scene_id_counter s + 1)%Z) s1).
  cbv iota beta.
  set (s1' := Orchestrator.set_scene_id_counter _ s1).
  destruct (provision_scenes_run scene_id (Orchestrator._scene_id_counter s)
              (Orchestrator.classify_scene_entities hass entities_config)
              (GroupMapping.new scene_id GROUPING_TYPE_SCENE
                 (time_time (Orchestrator.clock s))) s1')
    as (m & s2 & evs & Hfold & Hext & Hrun).
  unfold SE.bind at 1. rewrite Hfold.
  unfold SE.bind at 1, SE.modify at 1.
  set (s3 := Orchestrator.set_mappings _ s2).
  destruct (save_state_spec time_time s3)
    as (s' & Hsave & Hh & _ & _ & _ & Htr & _ & Hm).
  destruct (Hm scene_id m) as [t Ht].
  { subst s3. cbn. by rewrite lookup_insert_eq. }
  exists m, s', evs, t. rewrite Hsave.
  destruct Hext as (Hh2 & _ & _ & _ & _ & Htr2).
  split_and!; [done | | | done | done].
  - rewrite Hh. subst s3. cbn. by rewrite Hh2.
  - rewrite Htr. subst s3. cbn. by rewrite Htr2.
Qed.

Lemma provision_scene_unfold scene_id state entities_config :
  HomeAssistant.states_get hass scene_id = Some state →
  State.attr_entity_id state = Some (State.EntityDict entities_config) →
  entities_config ≠ [] →
  Orchestrator._provision_scene (W := W) hass time_time scene_id
  = Orchestrator.provision_scene_entities hass time_time scene_id entities_config.
Proof.
  intros Hst Hattr Hne. unfold Orchestrator._provision_scene.
  rewrite Hst, Hattr. by destruct entities_config.
Qed.

Lemma scene_mapping_partitioned scene_id entities_config s :
  ∃ s' m,
    Orchestrator.provision_scene_entities hass time_time scene_id entities_config s
    = (Ok tt, s')
    ∧ Orchestrator._mappings s' !! scene_id = Some m
    ∧ partitioned m.
Proof.
  destruct (provision_scene_entities_run scene_id entities_config s)
    as (m & s' & evs & t & Hrun & _ & Htr & Hm & Hloop).
  exists s', (GroupMapping.set_last_synced (NumFloat t) m).
  split_and!; [done..|].
  pose proof (scene_run_native_groups _ _ _ _ _ _ _ Hloop) as Hg. cbn in Hg.
  destruct (scene_run_sorted _ _ _
              (Orchestrator.classify_scene_entities hass entities_config)
              _ _ _ _ [] Hloop eq_refl
              (classify_scene_entities_NoDup hass entities_config))
    as [Hmem Hung].
  { intros p1 es1 p2 es2 x H1 H2 Hx1 Hx2.
    rewrite (scene_bucket_protocol hass _ _ _ _ H1 Hx1).
    by rewrite (scene_bucket_protocol hass _ _ _ _ H2 Hx2). }
  { split.
    - intros p x (r & Hr & _). cbn in Hr. by rewrite lookup_empty in Hr.
    - intros x Hx. cbn in Hx. by apply elem_of_nil in Hx. }
  assert (Hscene : ∀ p e,
            in_protocol_list (GroupMapping.set_last_synced (NumFloat t) m) p e →
            in_native_scene m p e).
  { intros p e [(r & Hr & _)|Hs]; [|done]. cbn in Hr.
    rewrite Hg, lookup_empty in Hr. done. }
  split.
  - intros p e Hin. apply Hscene in Hin. cbn. by apply (Hmem p e).
  - intros p1 p2 e H1 H2. apply Hscene in H1, H2.
    destruct (Hmem p1 e H1) as [(es1 & Hin1 & Hx1) _].
    destruct (Hmem p2 e H2) as [(es2 & Hin2 & Hx2) _].
    rewrite (scene_bucket_protocol hass _ _ _ _ Hin1 Hx1).
    by rewrite (scene_bucket_protocol hass _ _ _ _ Hin2 Hx2).
Qed.
End SceneProvisioning.

(** C4: provisioning a scene returns and stores a mapping in which, for
    every protocol, if exactly one entity of the scene classifies on it, or
    its handler is missing or does not support native scenes, there is no
    native scene reference for it and all its entities are in
    [ungrouped_entities]; and a reference exists only for a protocol whose
    handler supports native scenes and which has more than one entity. *)
Theorem scene_native_only_if_supported_and_many {W : Type}
    (hass : HomeAssistant.t) (time_time : nat → float) (s : Orchestrator.t W)
    (scene_id protocol : string) (state : State.t)
    (entities_config : list (string * pyval))
    (Hstate : HomeAssistant.states_get hass scene_id = Some state)
    (Hconfig : State.attr_entity_id state = Some (State.EntityDict entities_config))
    (Hentities : entities_config ≠ []) :
  let members := scene_members_on hass protocol entities_config in
  let supported :=
    ∃ h, dict_get protocol (Orchestrator._handlers s) = Some h
         ∧ ProtocolHandler.async_supports_native_scenes h = true in
  ∃ s' m,
    Orchestrator._provision_scene hass time_time scene_id s = (Ok tt, s')
    ∧ Orchestrator._mappings s' !! scene_id = Some m
    ∧ (length members = 1 ∨ ¬ supported →
         GroupMapping.native_scenes m !! protocol = None
         ∧ ∀ e, e ∈ members → e ∈ GroupMapping.ungrouped_entities m)
    ∧ (is_Some (GroupMapping.native_scenes m !! protocol) →
         supported ∧ 1 < length members).
Proof.
  intros members supported.
  rewrite (provision_scene_unfold hass time_time scene_id state entities_config)
    by done.
  destruct (provision_scene_entities_run hass time_time scene_id entities_config s)
    as (m & s' & evs & t & Hrun & _ & _ & Hm & Hloop).
  exists s', (GroupMapping.set_last_synced (NumFloat t) m).
  split_and!; [done..| |]; cbn.
  - destruct (decide (members = [])) as [Hnil|Hne].
    + intros _. pose proof (classify_scene_entities_absent hass _ _ Hnil) as Hab.
      rewrite (scene_run_frame _ _ _ _ _ _ _ _ Hloop Hab). cbn.
      split; [apply lookup_empty|]. intros e He. fold members in Hnil.
      rewrite Hnil in He. by apply elem_of_nil in He.
    + destruct (classify_scene_entities_lookup hass _ _ Hne) as (es & Hin & Hids).
      destruct (scene_run_cardinality _ _ _ _ _ _ _ _ _ Hloop
                  (classify_scene_entities_NoDup hass entities_config) Hin)
        as (H1 & _ & _).
      intros Hwhy. destruct H1 as [Hs Hu].
      { destruct Hwhy as [Hlen|Hns]; [right|by left].
        unfold members in Hlen. rewrite <- Hids in Hlen.
        unfold scene_entity_ids in Hlen. rewrite length_fmap in Hlen. lia. }
      rewrite Hs. cbn. split; [apply lookup_empty|].
      intros e He. apply Hu. by rewrite Hids.
  - intros Hsome.
    destruct (decide (members = [])) as [Hnil|Hne].
    + pose proof (classify_scene_entities_absent hass _ _ Hnil) as Hab.
      rewrite (scene_run_frame _ _ _ _ _ _ _ _ Hloop Hab) in Hsome. cbn in Hsome.
      rewrite lookup_empty in Hsome. by destruct Hsome.
    + destruct (classify_scene_entities_lookup hass _ _ Hne) as (es & Hin & Hids).
      destruct (scene_run_cardinality _ _ _ _ _ _ _ _ _ Hloop
                  (classify_scene_entities_NoDup hass entities_config) Hin)
        as (_ & H2 & _).
      destruct H2 as [Hsup Hlen].
      { cbn. rewrite lookup_empty. intros Heq. rewrite Heq in Hsome.
        by destruct Hsome. }
      split; [done|]. unfold members. rewrite <- Hids.
      unfold scene_entity_ids. by rewrite length_fmap.
Qed.

(** C7: in the mapping a provisioning pass builds and stores, no entity
    is both in a protocol's member list and in [ungrouped_entities], and
    none is in the member lists of two protocols: for a group, area, floor
    or label, whatever the platform, whenever the entity list is not
    empty; and for a scene, whenever its state lists entities with their
    states. *)
Theorem mapping_members_partitioned {W : Type}
    (hass : HomeAssistant.t) (time_time : nat → float) (s : Orchestrator.t W) :
  (∀ (mapping_key grouping_type : string) (entity_ids : list string),
     entity_ids ≠ [] →
     ∃ s' m,
       Orchestrator._provision_entity_list hass time_time mapping_key grouping_type
         entity_ids s = (Ok tt, s')
       ∧ Orchestrator._mappings s' !! mapping_key = Some m
       ∧ partitioned m)
  ∧ (∀ (scene_id : string) (state : State.t)
       (entities_config : list (string * pyval)),
       HomeAssistant.states_get hass scene_id = Some state →
       State.attr_entity_id state = Some (State.EntityDict entities_config) →
       entities_config ≠ [] →
       ∃ s' m,
         Orchestrator._provision_scene hass time_time scene_id s = (Ok tt, s')
         ∧ Orchestrator._mappings s' !! scene_id = Some m
         ∧ partitioned m).
Proof.
  split.
  - intros mapping_key grouping_type entity_ids Hmembers.
    by apply group_mapping_partitioned.
  - intros scene_id state entities_config Hstate Hconfig Hentities.
    rewrite (provision_scene_unfold hass time_time scene_id state entities_config)
      by done.
    apply scene_mapping_partitioned.
Qed.


(** ** Cleanup *)

Lemma split_cons sep s : ∃ h t, split sep s = h :: t.
Proof.
  induction s as [|c s (h & t & IH)]; cbn; [by eexists _, _|].
  destruct (Ascii.eqb c sep); [by eexists _, _|]. rewrite IH. by eexists _, _.
Qed.

Section Cleanup.
Context {W : Type}.
Implicit Types s : Orchestrator.t W.

(** One turn of the loop of [_cleanup_resources]. *)
Lemma cleanup_turn resource_ref s :
∃ r s',
  (let parts := split ":" resource_ref in
   protocol <- Orchestrator.index parts 0 ;;
   resource_type <- Orchestrator.index parts 1 ;;
   handler <- Orchestrator.get_handler protocol ;;
   match handler with
   | None => SE.ret tt
   | Some handler =>
       SE.try_except
         (if bool_decide (resource_type = "group") then
            group <- Orchestrator.index parts 2 ;;
            Orchestrator.call (Orchestrator.DeleteGroup protocol (GidStr group))
              (ProtocolHandler.async_delete_group handler (GidStr group))
          else if bool_decide (resource_type = "scene") then
            group <- Orchestrator.index parts 2 ;;
            scene <- Orchestrator.index parts 3 ;;
            match int_of_str scene with
            | Some scene_id =>
                Orchestrator.call
                  (Orchestrator.RemoveScene protocol (GidStr group) scene_id)
                  (ProtocolHandler.async_remove_scene handler
                     (GidStr group) scene_id)
            | None => SE.raise "invalid literal for int()"
            end
          else SE.ret tt)
         (λ _, SE.ret tt)
   end)%se s = (r, s')
  ∧ Orchestrator._managed_resources s' = Orchestrator._managed_resources s
  ∧ ((well_formed_ref resource_ref ∧ r = Ok tt
      ∧ extends s s'
          (option_list (cleanup_event (Orchestrator._handlers s) resource_ref)))
     ∨ (¬ well_formed_ref resource_ref ∧ (∃ err, r = Raised err) ∧ s' = s)).
Proof.
unfold well_formed_ref, cleanup_event. cbn zeta.
destruct (split_cons ":" resource_ref) as (protocol & rest & ->).
unfold Orchestrator.index at 1. cbn [lookup list_lookup]. unfold SE.bind at 1.
unfold SE.ret at 1.
destruct rest as [|resource_type rest].
{ unfold Orchestrator.index at 1. cbn [lookup list_lookup].
  eexists _, _. split; [reflexivity|]. split; [done|]. right.
  split; [cbn; lia|]. split; [by eexists|done]. }
unfold Orchestrator.index at 1. cbn [lookup list_lookup]. unfold SE.bind at 1.
unfold SE.ret at 1. unfold SE.bind at 1. unfold Orchestrator.get_handler, SE.gets.
cbn [mbind option_bind].
assert (Hwf : 2 ≤ length (protocol :: resource_type :: rest)) by (cbn; lia).
destruct (dict_get protocol (Orchestrator._handlers s)) as [handler|].
2:{ eexists _, _. split; [reflexivity|]. split; [done|]. left.
    split_and!; [done..|apply extends_refl]. }
cbn [mbind option_bind]. unfold SE.try_except.
case_bool_decide.
{ unfold Orchestrator.index at 1. destruct rest as [|group rest].
  - cbn [lookup list_lookup]. unfold SE.bind, SE.raise, SE.ret.
    eexists _, _. split; [reflexivity|]. split; [done|]. left.
    split_and!; [done..|apply extends_refl].
  - cbn [lookup list_lookup mbind option_bind]. unfold SE.bind at 1.
    unfold SE.ret at 1. rewrite call_eq.
    destruct (ProtocolHandler.async_delete_group handler (GidStr group)
                (Orchestrator.world s)) as [[[]|err] w1];
      cbn [fst snd]; unfold SE.ret; eexists _, _;
      (split; [reflexivity|]); (split; [done|]); left;
      by split_and!. }
case_bool_decide.
{ unfold Orchestrator.index at 1. destruct rest as [|group rest].
  - cbn [lookup list_lookup]. unfold SE.bind, SE.raise, SE.ret.
    eexists _, _. split; [reflexivity|]. split; [done|]. left.
    split_and!; [done..|apply extends_refl].
  - cbn [lookup list_lookup mbind option_bind]. unfold SE.bind at 1.
    unfold SE.ret at 1. unfold Orchestrator.index at 1.
    destruct rest as [|scene rest].
    + cbn [lookup list_lookup]. unfold SE.bind, SE.raise, SE.ret.
      eexists _, _. split; [reflexivity|]. split; [done|]. left.
      split_and!; [done..|apply extends_refl].
    + cbn [lookup list_lookup mbind option_bind]. unfold SE.bind at 1.
      unfold SE.ret at 1.
      destruct (int_of_str scene) as [scene_id|]; cbn [mbind option_bind].
      * rewrite call_eq.
        destruct (ProtocolHandler.async_remove_scene handler (GidStr group)
                    scene_id (Orchestrator.world s)) as [[[]|err] w1];
          cbn [fst snd]; unfold SE.ret; eexists _, _;
          (split; [reflexivity|]); (split; [done|]); left;
          by split_and!.
      * unfold SE.raise, SE.ret. eexists _, _. split; [reflexivity|].
        split; [done|]. left. split_and!; [done..|apply extends_refl]. }
unfold SE.ret. eexists _, _. split; [reflexivity|]. split; [done|]. left.
split_and!; [done..|apply extends_refl].
Qed.

(** The loop of [_cleanup_resources]: it visits the references one
  after the other, asking for the call of each, and stops at the first
  one without a resource type, where it raises. *)
Lemma cleanup_loop refs : ∀ s,
∃ r s' visited rest,
  SE.for_each refs (λ resource_ref,
    let parts := split ":" resource_ref in
    protocol <- Orchestrator.index parts 0 ;;
    resource_type <- Orchestrator.index parts 1 ;;
    handler <- Orchestrator.get_handler protocol ;;
    match handler with
    | None => SE.ret tt
    | Some handler =>
        SE.try_except
          (if bool_decide (resource_type = "group") then
             group <- Orchestrator.index parts 2 ;;
             Orchestrator.call (Orchestrator.DeleteGroup protocol (GidStr group))
               (ProtocolHandler.async_delete_group handler (GidStr group))
           else if bool_decide (resource_type = "scene") then
             group <- Orchestrator.index parts 2 ;;
             scene <- Orchestrator.index parts 3 ;;
             match int_of_str scene with
             | Some scene_id =>
                 Orchestrator.call
                   (Orchestrator.RemoveScene protocol (GidStr group) scene_id)
                   (ProtocolHandler.async_remove_scene handler
                      (GidStr group) scene_id)
             | None => SE.raise "invalid literal for int()"
             end
           else SE.ret tt)
          (λ _, SE.ret tt)
    end)%se s = (r, s')
  ∧ Orchestrator._managed_resources s' = Orchestrator._managed_resources s
  ∧ refs = visited ++ rest
  ∧ Forall well_formed_ref visited
  ∧ extends s s' (omap (cleanup_event (Orchestrator._handlers s)) visited)
  ∧ ((r = Ok tt ∧ rest = [])
     ∨ ∃ err ref rest',
         r = Raised err ∧ rest = ref :: rest' ∧ ¬ well_formed_ref ref).
Proof.
induction refs as [|ref refs IH]; intros s.
- exists (Ok tt), s, [], []. split_and!; [done..|apply extends_refl|by left].
- cbn [SE.for_each]. unfold SE.bind at 1.
  destruct (cleanup_turn ref s) as (r1 & s1 & Hturn & Hres1 & Hcase).
  cbn zeta in Hturn. rewrite Hturn.
  destruct Hcase as [(Hwf & -> & Hext1)|(Hwf & [err ->] & ->)].
  + destruct (IH s1) as (r & s' & visited & rest & Hrun & Hres & Hrefs & Hwfs
                         & Hext & Hend).
    match goal with |- context [SE.for_each refs ?b s1] =>
      replace (SE.for_each refs b s1) with (r, s') by (symmetry; exact Hrun) end.
    assert (Hh : Orchestrator._handlers s1 = Orchestrator._handlers s)
      by apply Hext1.
    rewrite Hh in Hext.
    exists r, s', (ref :: visited), rest.
    split_and!; [done | congruence | by rewrite Hrefs | by constructor | | done].
    cbn [omap list_omap].
    destruct (cleanup_event (Orchestrator._handlers s) ref) as [ev|];
      cbn [option_list] in Hext1.
    * exact (extends_trans _ _ _ [ev] _ Hext1 Hext).
    * exact (extends_trans _ _ _ [] _ Hext1 Hext).
  + exists (Raised err), s, [], (ref :: refs).
    split_and!; [done..|apply extends_refl|].
    right. by exists err, ref, refs.
Qed.

(** When every reference has a resource type, the loop visits them all
  and returns. *)
Lemma cleanup_loop_ok refs s :
Forall well_formed_ref refs →
∃ s',
  SE.for_each refs (λ resource_ref,
    let parts := split ":" resource_ref in
    protocol <- Orchestrator.index parts 0 ;;
    resource_type <- Orchestrator.index parts 1 ;;
    handler <- Orchestrator.get_handler protocol ;;
    match handler with
    | None => SE.ret tt
    | Some handler =>
        SE.try_except
          (if bool_decide (resource_type = "group") then
             group <- Orchestrator.index parts 2 ;;
             Orchestrator.call (Orchestrator.DeleteGroup protocol (GidStr group))
               (ProtocolHandler.async_delete_group handler (GidStr group))
           else if bool_decide (resource_type = "scene") then
             group <- Orchestrator.index parts 2 ;;
             scene <- Orchestrator.index parts 3 ;;
             match int_of_str scene with
             | Some scene_id =>
                 Orchestrator.call
                   (Orchestrator.RemoveScene protocol (GidStr group) scene_id)
                   (ProtocolHandler.async_remove_scene handler
                      (GidStr group) scene_id)
             | None => SE.raise "invalid literal for int()"
             end
           else SE.ret tt)
          (λ _, SE.ret tt)
    end)%se s = (Ok tt, s')
  ∧ Orchestrator._managed_resources s' = Orchestrator._managed_resources s
  ∧ extends s s' (omap (cleanup_event (Orchestrator._handlers s)) refs).
Proof.
intros Hall.
destruct (cleanup_loop refs s) as (r & s' & visited & rest & Hrun & Hres & Hrefs
                                   & _ & Hext & Hend).
destruct Hend as [[-> ->]|(err & ref & rest' & _ & -> & Hwf)].
- rewrite app_nil_r in Hrefs. subst visited. by exists s'.
- exfalso. apply Hwf. rewrite Hrefs in Hall.
  apply Forall_app in Hall as [_ Hall]. by apply Forall_cons in Hall as [? _].
Qed.

(** [_cleanup_resources]: the resources of the key are forgotten first,
  then visited. *)
Lemma cleanup_resources_run key s :
∃ r s' visited rest,
  Orchestrator._cleanup_resources key s = (r, s')
  ∧ Orchestrator._managed_resources s'
    = delete key (Orchestrator._managed_resources s)
  ∧ elements (default ∅ (Orchestrator._managed_resources s !! key))
    = visited ++ rest
  ∧ Forall well_formed_ref visited
  ∧ extends s s' (omap (cleanup_event (Orchestrator._handlers s)) visited)
  ∧ ((r = Ok tt ∧ rest = [])
     ∨ ∃ err ref rest',
         r = Raised err ∧ rest = ref :: rest' ∧ ¬ well_formed_ref ref).
Proof.
unfold Orchestrator._cleanup_resources.
unfold SE.bind at 1. unfold SE.gets at 1.
unfold SE.bind at 1. unfold SE.modify at 1.
match goal with |- context [SE.for_each ?refs _ ?s1] =>
  destruct (cleanup_loop refs s1)
    as (r & s' & visited & rest & Hrun & Hres & Hrefs & Hwf & Hext & Hend) end.
exists r, s', visited, rest. split; [exact Hrun|].
split; [by rewrite Hres|]. by split_and!.
Qed.

(** Every call the cleanup asks for is a deletion or a scene removal. *)
Lemma cleanup_event_removal (handlers : list (string * ProtocolHandler.t W)) ref ev :
cleanup_event handlers ref = Some ev → is_removal ev.
Proof.
unfold cleanup_event. cbn zeta. intros H.
repeat (simplify_option_eq || case_match || case_bool_decide); done.
Qed.
End Cleanup.

(** ** Empty member sets *)

Section Empty.
Context {W : Type}.
Variable hass : HomeAssistant.t.
Variable time_time : nat → float.
Implicit Types s : Orchestrator.t W.

Lemma nothing_provisioned_refl key s : nothing_provisioned key s s.
Proof. by unfold nothing_provisioned. Qed.

Lemma provision_group_empty group_id s :
  group_members hass group_id = [] →
  Orchestrator._provision_group hass time_time group_id s = (Ok tt, s).
Proof.
  unfold group_members, Orchestrator._provision_group.
  destruct (HomeAssistant.states_get hass group_id) as [state|]; [|done].
  destruct (State.attr_entity_id state) as [[l|d]|]; [| |done].
  - intros Hl. by rewrite bool_decide_eq_true_2.
  - intros Hd. by rewrite bool_decide_eq_true_2.
Qed.

Lemma provision_scene_empty scene_id s :
  scene_entities hass scene_id = [] →
  Orchestrator._provision_scene hass time_time scene_id s = (Ok tt, s).
Proof.
  unfold scene_entities, group_members, Orchestrator._provision_scene.
  destruct (HomeAssistant.states_get hass scene_id) as [state|]; [|done].
  destruct (State.attr_entity_id state) as [[l|d]|]; [| |done].
  - by intros ->.
  - intros Hd. by destruct d.
Qed.

Lemma list_to_set_nil_empty (l : list string) :
  l = [] → (list_to_set l : gset string) = ∅.
Proof. by intros ->. Qed.

Lemma provision_area_empty area_id s :
  Orchestrator.area_entity_ids hass area_id = [] →
  Orchestrator._provision_area hass time_time area_id s = (Ok tt, s).
Proof.
  intros H. unfold Orchestrator._provision_area.
  rewrite (list_to_set_nil_empty _ H). by rewrite bool_decide_eq_true_2.
Qed.

Lemma provision_floor_empty floor_id s :
  floor_entity_ids hass floor_id = [] →
  Orchestrator._provision_floor hass time_time floor_id s = (Ok tt, s).
Proof.
  intros H. unfold Orchestrator._provision_floor.
  fold (floor_entity_ids hass floor_id).
  rewrite (list_to_set_nil_empty _ H). by rewrite bool_decide_eq_true_2.
Qed.

Lemma provision_label_empty label_id s :
  Orchestrator.label_entity_ids hass label_id = [] →
  Orchestrator._provision_label hass time_time label_id s = (Ok tt, s).
Proof.
  intros H. unfold Orchestrator._provision_label.
  rewrite (list_to_set_nil_empty _ H). by rewrite bool_decide_eq_true_2.
Qed.
End Empty.

Section EmptiedGroup.
Context {W : Type}.
Variable hass : HomeAssistant.t.
Variable time_time : nat → float.
Implicit Types s : Orchestrator.t W.

(** The update of a group that resolves no member: its resources are
    cleaned up, and nothing else is touched. *)
Lemma group_updated_empty group_id s :
  group_members hass group_id = [] →
  ∃ r s' evs,
    Orchestrator._on_group_updated hass time_time group_id s = (r, s')
    ∧ Orchestrator._managed_resources s'
      = delete group_id (Orchestrator._managed_resources s)
    ∧ extends s s' evs
    ∧ Forall is_removal evs
    ∧ (set_Forall well_formed_ref
         (default ∅ (Orchestrator._managed_resources s !! group_id)) →
       r = Ok tt).
Proof.
  intros Hempty. unfold Orchestrator._on_group_updated.
  unfold SE.bind at 1.
  destruct (cleanup_resources_run group_id s)
    as (r & s' & visited & rest & Hrun & Hres & Hrefs & _ & Hext & Hend).
  rewrite Hrun.
  assert (Hrem : Forall is_removal
                   (omap (cleanup_event (Orchestrator._handlers s)) visited)).
  { apply Forall_forall. intros ev Hev.
    apply list_elem_of_omap in Hev as (ref & _ & Hev).
    by eapply cleanup_event_removal. }
  destruct Hend as [[-> ->]|(err & ref & rest' & -> & -> & Hwf)].
  - rewrite (provision_group_empty hass time_time group_id s' Hempty).
    eexists _, _, _. split; [reflexivity|]. by split_and!.
  - eexists _, _, _. split; [reflexivity|]. split_and!; [done..|].
    intros Hall. exfalso. apply Hwf, Hall, elem_of_elements.
    rewrite Hrefs. apply elem_of_app. right. left.
Qed.
End EmptiedGroup.

(** C6: what the code does when a provisioning routine resolves no
    member. Each routine (group, scene, area, floor, label, and the
    entity-list routine they share) returns having asked nothing of any
    handler and recorded no managed resource, and leaves the mapping table
    as it was: it creates no mapping, and it drops none. So the update of a
    group that has lost its members, which cleans the group's resources up
    and then provisions this empty group, deletes what the cleanup deletes
    and forgets the managed resources of the group, while the mapping
    table stays as it was: a mapping the group had is retained, where the
    claim wants none. *)
Theorem empty_members_leave_mappings_untouched {W : Type} (hass : HomeAssistant.t)
    (time_time : nat → float) (s : Orchestrator.t W) :
  (∀ group_id, group_members hass group_id = [] →
     ∃ s', Orchestrator._provision_group hass time_time group_id s = (Ok tt, s')
           ∧ nothing_provisioned group_id s s')
  ∧ (∀ scene_id, scene_entities hass scene_id = [] →
       ∃ s', Orchestrator._provision_scene hass time_time scene_id s = (Ok tt, s')
             ∧ nothing_provisioned scene_id s s')
  ∧ (∀ area_id, Orchestrator.area_entity_ids hass area_id = [] →
       ∃ s', Orchestrator._provision_area hass time_time area_id s = (Ok tt, s')
             ∧ nothing_provisioned ("area." +:+ area_id) s s')
  ∧ (∀ floor_id, floor_entity_ids hass floor_id = [] →
       ∃ s', Orchestrator._provision_floor hass time_time floor_id s = (Ok tt, s')
             ∧ nothing_provisioned ("floor." +:+ floor_id) s s')
  ∧ (∀ label_id, Orchestrator.label_entity_ids hass label_id = [] →
       ∃ s', Orchestrator._provision_label hass time_time label_id s = (Ok tt, s')
             ∧ nothing_provisioned ("label." +:+ label_id) s s')
  ∧ (∀ mapping_key grouping_type,
       ∃ s', Orchestrator._provision_entity_list hass time_time mapping_key
               grouping_type [] s = (Ok tt, s')
             ∧ nothing_provisioned mapping_key s s')
  ∧ (∀ group_id, group_members hass group_id = [] →
       ∃ r s' evs,
         Orchestrator._on_group_updated hass time_time group_id s = (r, s')
         ∧ Orchestrator._mappings s' = Orchestrator._mappings s
         ∧ Orchestrator._managed_resources s'
           = delete group_id (Orchestrator._managed_resources s)
         ∧ Orchestrator.trace s' = Orchestrator.trace s ++ evs
         ∧ Forall is_removal evs
         ∧ (set_Forall well_formed_ref
              (default ∅ (Orchestrator._managed_resources s !! group_id)) →
            r = Ok tt)).
Proof.
  split_and!.
  - intros group_id H. exists s. split; [|apply nothing_provisioned_refl].
    by apply provision_group_empty.
  - intros scene_id H. exists s. split; [|apply nothing_provisioned_refl].
    by apply provision_scene_empty.
  - intros area_id H. exists s. split; [|apply nothing_provisioned_refl].
    by apply provision_area_empty.
  - intros floor_id H. exists s. split; [|apply nothing_provisioned_refl].
    by apply provision_floor_empty.
  - intros label_id H. exists s. split; [|apply nothing_provisioned_refl].
    by apply provision_label_empty.
  - intros mapping_key grouping_type. exists s.
    split; [reflexivity|apply nothing_provisioned_refl].
  - intros group_id H.
    destruct (group_updated_empty hass time_time group_id s H)
      as (r & s' & evs & Hrun & Hres & Hext & Hrem & Hok).
    exists r, s', evs. split; [exact Hrun|].
    destruct Hext as (_ & Hm & _ & _ & _ & Htr). by split_and!.
Qed.

(** ** Reconciliation *)

Section Reconcile.
Context {W : Type}.
Implicit Types s : Orchestrator.t W.

(** The deletion loop asks for the orphans in their order, up to the
    first call that raises. *)
Lemma delete_orphans_loop protocol (handler : ProtocolHandler.t W)
    (managed : gset string) actual_groups : ∀ s,
  ∃ r s' evs,
    SE.for_each actual_groups (λ '(group, group_info),
      group_name <- SE.lift_result (Orchestrator.group_name_of group_info) ;;
      if startswith group_name "ha_"
         && negb (bool_decide (str_of_group_id (Some group) ∈ managed))
      then Orchestrator.call (Orchestrator.DeleteGroup protocol group)
             (ProtocolHandler.async_delete_group handler group)
      else SE.ret tt)%se s = (r, s')
    ∧ extends s s' evs
    ∧ evs `prefix_of` orphan_deletions protocol managed actual_groups
    ∧ (r = Ok tt →
       (∀ group info, (group, info) ∈ actual_groups →
                      is_ok (Orchestrator.group_name_of info) = true) →
       evs = orphan_deletions protocol managed actual_groups).
Proof.
  induction actual_groups as [|[group info] rest IH]; intros s.
  - exists (Ok tt), s, []. split_and!; [done | apply extends_refl | done | done].
  - cbn [SE.for_each]. unfold SE.bind at 1. unfold SE.bind at 1.
    unfold SE.lift_result at 1. unfold orphan_deletions. cbn [omap list_omap].
    fold (orphan_deletions protocol managed rest).
    destruct (Orchestrator.group_name_of info) as [name|err] eqn:Hname.
    2:{ exists (Raised err), s, []. split_and!; [done | apply extends_refl | | done].
        apply prefix_nil. }
    destruct (startswith name "ha_"
              && negb (bool_decide (str_of_group_id (Some group) ∈ managed))).
    + rewrite call_eq.
      destruct (ProtocolHandler.async_delete_group handler group
                  (Orchestrator.world s)) as [[[]|err] w1] eqn:Hdel; cbn [fst snd].
      * match goal with |- context [SE.for_each rest ?body ?s1] =>
          destruct (IH s1) as (r & s' & evs & Hrun & Hext & Hpre & Hfull) end.
        exists r, s', (Orchestrator.DeleteGroup protocol group :: evs).
        split_and!; [done | | by apply prefix_cons |].
        -- destruct Hext as (?&?&?&?&?&Htr). unfold extends. cbn in *.
           split_and!; try done. rewrite Htr. by rewrite <- app_assoc.
        -- intros Hr Hok. f_equal. apply Hfull; [done|].
           intros g i Hin. apply (Hok g i). by right.
      * exists (Raised err). eexists _, [Orchestrator.DeleteGroup protocol group].
        split_and!; [done | by unfold extends | | done].
        apply prefix_cons, prefix_nil.
    + unfold SE.ret at 1.
      destruct (IH s) as (r & s' & evs & Hrun & Hext & Hpre & Hfull).
      exists r, s', evs. split_and!; [done..|].
      intros Hr Hok. apply Hfull; [done|].
      intros g i Hin. apply (Hok g i). by right.
Qed.

(** What one reconciliation of a protocol deletes: never a group
    without the reserved prefix, never a group whose id is the group id
    of a native group reference, and each reported group at most once. *)
Lemma reconcile_protocol_spec protocol (handler : ProtocolHandler.t W) s :
  ∃ s' evs,
    Orchestrator.reconcile_protocol protocol handler s = (Ok tt, s')
    ∧ extends s s' (Orchestrator.GetGroups protocol :: evs)
    ∧ ∀ actual_groups w1,
        ProtocolHandler.async_get_groups handler (Orchestrator.world s)
        = (Ok actual_groups, w1) →
        evs `prefix_of`
          orphan_deletions protocol
            (Orchestrator.managed_group_ids protocol (Orchestrator._mappings s))
            actual_groups.
Proof.
  unfold Orchestrator.reconcile_protocol.
  unfold SE.try_except, SE.bind at 1. rewrite call_eq.
  destruct (ProtocolHandler.async_get_groups handler (Orchestrator.world s))
    as [[actual_groups|err] w1] eqn:Hget; cbn [fst snd].
  - unfold SE.bind at 1. unfold SE.gets at 1.
    match goal with |- context [SE.for_each actual_groups ?body ?s1] =>
      destruct (delete_orphans_loop protocol handler
                  (Orchestrator.managed_group_ids protocol
                     (Orchestrator._mappings s1)) actual_groups s1)
        as (r & s' & evs & Hrun & Hext & Hpre & _) end.
    rewrite Hrun. exists s', evs.
    split_and!.
    + by destruct r as [[]|].
    + destruct Hext as (?&?&?&?&?&Htr). unfold extends. cbn in *.
      split_and!; try done. rewrite Htr. by rewrite <- app_assoc.
    + intros groups w Heq. by simplify_eq.
  - eexists _, []. split_and!; [done | by unfold extends | done].
Qed.
End Reconcile.

(** ** The scene id allocator *)

Section Allocator.
Context {W : Type}.
Implicit Types s : Orchestrator.t W.

Lemma allocate_scene_id_eq s :
  Orchestrator._allocate_scene_id s =
    (Ok (Orchestrator._scene_id_counter s),
     Orchestrator.set_scene_id_counter
       (if (Orchestrator._scene_id_counter s + 1 >? SCENE_ID_MAX)%Z
        then SCENE_ID_START else (Orchestrator._scene_id_counter s + 1)%Z) s).
Proof. reflexivity. Qed.

Lemma allocate_scene_ids_in_range n : ∀ s,
  scene_id_in_range (Orchestrator._scene_id_counter s) →
  ∃ ids s', Orchestrator.allocate_scene_ids n s = (Ok ids, s')
            ∧ length ids = n
            ∧ Forall scene_id_in_range ids
            ∧ scene_id_in_range (Orchestrator._scene_id_counter s').
Proof.
  induction n as [|n IH]; intros s Hs.
  - exists [], s. split_and!; [done | done | constructor | done].
  - set (s1 := (Orchestrator._allocate_scene_id s).2).
    destruct (IH s1) as (ids & s' & Hrun & Hlen & Hall & Hs').
    { subst s1. rewrite allocate_scene_id_eq. cbn.
      unfold scene_id_in_range, SCENE_ID_START, SCENE_ID_MAX in *.
      destruct (Z.gtb_spec (Orchestrator._scene_id_counter s + 1) 255); lia. }
    exists (Orchestrator._scene_id_counter s :: ids), s'.
    cbn [Orchestrator.allocate_scene_ids]. unfold SE.bind at 1.
    rewrite allocate_scene_id_eq. unfold SE.bind at 1.
    subst s1. rewrite allocate_scene_id_eq in Hrun. cbn [snd] in Hrun.
    rewrite Hrun. split_and!; [done | cbn; by f_equal | by constructor | done].
Qed.
End Allocator.

(** C9: the allocator returns the counter and then advances it, going
    back to [SCENE_ID_START] once it has passed [SCENE_ID_MAX]; from a fresh
    counter, [SCENE_ID_MAX - SCENE_ID_START + 2] allocations give
    [START, START+1, ..., MAX] and then [START] again, the only place where the
    sequence steps down; and every id allocated from a counter in
    [[START, MAX]] lies in [[START, MAX]]. *)
Theorem scene_id_allocator_wraps_once {W : Type}
    (handlers : list (string * ProtocolHandler.t W)) (w : W) :
  (∀ s : Orchestrator.t W,
     Orchestrator._allocate_scene_id s =
       (Ok (Orchestrator._scene_id_counter s),
        Orchestrator.set_scene_id_counter
          (if (Orchestrator._scene_id_counter s + 1 >? SCENE_ID_MAX)%Z
           then SCENE_ID_START else (Orchestrator._scene_id_counter s + 1)%Z) s))
  ∧ SCENE_ID_START = 100%Z ∧ SCENE_ID_MAX = 255%Z
  ∧ (∃ ids s',
       Orchestrator.allocate_scene_ids
         (Z.to_nat (SCENE_ID_MAX - SCENE_ID_START + 2))
         (Orchestrator.init handlers w) = (Ok ids, s')
       ∧ ids = (Z.of_nat <$> seq (Z.to_nat SCENE_ID_START)
                               (Z.to_nat (SCENE_ID_MAX - SCENE_ID_START + 1)))
               ++ [SCENE_ID_START]
       ∧ List.filter (λ p, (p.2 <? p.1)%Z) (zip ids (tail ids))
         = [(SCENE_ID_MAX, SCENE_ID_START)]
       ∧ Forall scene_id_in_range ids)
  ∧ (∀ (s : Orchestrator.t W) (n : nat),
       scene_id_in_range (Orchestrator._scene_id_counter s) →
       ∃ ids s', Orchestrator.allocate_scene_ids n s = (Ok ids, s')
                 ∧ length ids = n
                 ∧ Forall scene_id_in_range ids
                 ∧ scene_id_in_range (Orchestrator._scene_id_counter s')).
Proof.
  split; [apply allocate_scene_id_eq|].
  split; [reflexivity|]. split; [reflexivity|]. split.
  - destruct (allocate_scene_ids_in_range
                (Z.to_nat (SCENE_ID_MAX - SCENE_ID_START + 2))
                (Orchestrator.init handlers w)) as (ids & s' & Hrun & _ & Hall & _).
    { split; by vm_compute. }
    exists ids, s'. split; [exact Hrun|].
    assert (Hids : ids = (Z.of_nat <$> seq (Z.to_nat SCENE_ID_START)
                            (Z.to_nat (SCENE_ID_MAX - SCENE_ID_START + 1)))
                         ++ [SCENE_ID_START]).
    { apply (f_equal fst) in Hrun. cbn [fst] in Hrun.
      assert (Hc : (Orchestrator.allocate_scene_ids
                      (Z.to_nat (SCENE_ID_MAX - SCENE_ID_START + 2))
                      (Orchestrator.init handlers w)).1
                   = Ok ((Z.of_nat <$> seq (Z.to_nat SCENE_ID_START)
                            (Z.to_nat (SCENE_ID_MAX - SCENE_ID_START + 1)))
                         ++ [SCENE_ID_START])) by (vm_compute; reflexivity).
      rewrite Hc in Hrun. by injection Hrun. }
    split; [exact Hids|]. split; [|exact Hall].
    rewrite Hids. vm_compute. reflexivity.
  - intros s n. apply allocate_scene_ids_in_range.
Qed.

(** ** The Z-Wave level of a brightness *)

Lemma brightness_level_table :
  forallb (λ n, match brightness_to_level (PInt (Z.of_nat n)) with
                | Ok l => (l =? Z.of_nat n * 99 / 255)%Z
                | Raised _ => false
                end) (seq 0 256) = true.
Proof. vm_compute. reflexivity. Qed.

(** On [[0, 255]] the float computation agrees with integer division. *)
Lemma brightness_to_level_div (b : Z) :
  (0 ≤ b ≤ 255)%Z → brightness_to_level (PInt b) = Ok (b * 99 / 255)%Z.
Proof.
  intros Hb.
  pose proof brightness_level_table as Ht.
  rewrite forallb_forall in Ht.
  specialize (Ht (Z.to_nat b)).
  rewrite Z2Nat.id in Ht by lia.
  assert (Hin : In (Z.to_nat b) (seq 0 256)) by (apply in_seq; lia).
  specialize (Ht Hin).
  destruct (brightness_to_level (PInt b)) as [l|]; [|discriminate].
  apply Z.eqb_eq in Ht. by subst.
Qed.

(** C10: on every integer brightness of [[0, 255]] the conversion
    [int(brightness * 99 / 255)] returns a level of [[0, 99]], is monotone,
    sends 0 to 0 and 255 to 99; and it is the value both of the multilevel
    multicast command and of the [level] entry of the converted service data. *)
Theorem zwave_brightness_level (b : Z) (Hb : (0 ≤ b ≤ 255)%Z) :
  ∃ level : Z,
    brightness_to_level (PInt b) = Ok level
    ∧ (0 ≤ level ≤ 99)%Z
    ∧ (∀ b' level', (b ≤ b' ≤ 255)%Z →
         brightness_to_level (PInt b') = Ok level' → (level ≤ level')%Z)
    ∧ brightness_to_level (PInt 0) = Ok 0%Z
    ∧ brightness_to_level (PInt 255) = Ok 99%Z
    ∧ (∀ e node_ids st,
         ZWaveJS.device_ids_of e node_ids ≠ [] →
         ZWaveJS.calls (ZWaveJS._send_multilevel_command e node_ids (PInt b) st).2
         = ZWaveJS.calls st
           ++ [ZWaveJS.multicast_set_value (ZWaveJS.device_ids_of e node_ids)
                 CC_MULTILEVEL_SWITCH "targetValue" (PInt level)])
    ∧ (∀ domain service data,
         dict_get "brightness" data = Some (PInt b) →
         ∃ converted,
           ZWaveJS.convert_service_data domain service data = Ok converted
           ∧ dict_get "level" converted = Some (PInt level)).
Proof.
  exists (b * 99 / 255)%Z.
  split; [by apply brightness_to_level_div|].
  split; [split; [apply Z.div_pos; lia | apply Z.div_le_upper_bound; lia]|].
  split.
  { intros b' l' Hb' Hl'. rewrite brightness_to_level_div in Hl' by lia.
    injection Hl' as <-. apply Z.div_le_mono; lia. }
  split; [by vm_compute|]. split; [by vm_compute|]. split.
  - intros e node_ids st Hdev.
    unfold ZWaveJS._send_multilevel_command.
    destruct node_ids as [|n ns]; [done|].
    rewrite bool_decide_eq_false_2 by done.
    rewrite bool_decide_eq_false_2 by done.
    rewrite brightness_to_level_div by done.
    unfold SE.bind, SE.lift_result, SE.try_except, ZWaveJS.async_call.
    cbn. by destruct (ZWaveJS.service_error _ _).
  - intros domain service data Hget.
    unfold ZWaveJS.convert_service_data. rewrite Hget.
    rewrite brightness_to_level_div by done.
    destruct (dict_get "transition" data) as [t|]; eexists; (split; [reflexivity|]);
      by vm_compute.
Qed.

Lemma zwave_brightness_level_witness :
  ∃ level : Z, brightness_to_level (PInt 128) = Ok level ∧ (0 ≤ level ≤ 99)%Z.
Proof.
  destruct (zwave_brightness_level 128 ltac:(lia)) as (level & H1 & H2 & _).
  exists level. by split.
Defined.

(** ** Serialisation of a mapping *)

Section RoundTrip.
Import GroupMapping.

Lemma as_str_list_encode (l : list string) :
  as_str_list (PList (PStr <$> l)) = Some l.
Proof.
  cbn. induction l as [|x l IH]; [done|].
  cbn in *. by rewrite IH.
Qed.

Lemma as_native_id_encode (n : option native_id) :
  as_native_id (native_id_to_py n) = Some n.
Proof. by destruct n as [[]|]. Qed.

Lemma as_native_id_list_encode (l : list (option native_id)) :
  as_native_id_list (PList (native_id_to_py <$> l)) = Some l.
Proof.
  cbn. induction l as [|x l IH]; [done|].
  cbn in *. rewrite as_native_id_encode. cbn. by rewrite IH.
Qed.

Lemma as_group_id_encode (g : option group_id) :
  as_group_id (group_id_to_py g) = Some g.
Proof. by destruct g as [[]|]. Qed.

Lemma as_sync_error_encode (e : option string) :
  as_sync_error (sync_error_to_py e) = Some e.
Proof. by destruct e. Qed.

Lemma group_ref_round_trip (v : NativeGroupRef.t) :
  group_ref_of_dict (group_ref_to_dict v) = Some v.
Proof.
  destruct v as [p g n es ns].
  unfold group_ref_of_dict, group_ref_to_dict. cbn [NativeGroupRef.protocol
    NativeGroupRef.group_id NativeGroupRef.group_name
    NativeGroupRef.member_entity_ids NativeGroupRef.member_native_ids].
  change (only_keys _ _) with true. cbv iota.
  change (dict_get "protocol" _) with (Some (PStr p)).
  change (dict_get "group_id" _) with (Some (group_id_to_py g)).
  change (dict_get "group_name" _) with (Some (PStr n)).
  change (dict_get "member_entity_ids" _) with (Some (PList (PStr <$> es))).
  change (dict_get "member_native_ids" _)
    with (Some (PList (native_id_to_py <$> ns))).
  cbn [mbind option_bind as_str].
  rewrite as_group_id_encode. cbn [mbind option_bind].
  rewrite as_str_list_encode. cbn [mbind option_bind].
  by rewrite as_native_id_list_encode.
Qed.

Lemma scene_ref_round_trip (v : NativeSceneRef.t) :
  scene_ref_of_dict (scene_ref_to_dict v) = Some v.
Proof.
  destruct v as [p n s es].
  unfold scene_ref_of_dict, scene_ref_to_dict. cbn [NativeSceneRef.protocol
    NativeSceneRef.group_name NativeSceneRef.scene_id
    NativeSceneRef.member_entity_ids].
  change (only_keys _ _) with true. cbv iota.
  change (dict_get "protocol" _) with (Some (PStr p)).
  change (dict_get "group_name" _) with (Some (PStr n)).
  change (dict_get "scene_id" _) with (Some (PInt s)).
  change (dict_get "member_entity_ids" _) with (Some (PList (PStr <$> es))).
  cbn [mbind option_bind as_str as_int PInt].
  by rewrite as_str_list_encode.
Qed.

Lemma refs_of_dict_encode {R} (enc : R → pyval) (dec : pyval → option R)
    (l : list (string * R)) :
  (∀ r, dec (enc r) = Some r) →
  refs_of_dict dec (Some (PDict (prod_map id enc <$> l))) = Some l.
Proof.
  intros Hrt. cbn. induction l as [|[k r] l IH]; [done|].
  cbn in *. rewrite Hrt. cbn. by rewrite IH.
Qed.

Lemma insert_all_list_to_map {R} (l : list (string * R)) (m : gmap string R) :
  NoDup l.*1 → insert_all l m = list_to_map l ∪ m.
Proof.
  revert m. induction l as [|[k r] l IH]; intros m Hnd; cbn.
  - by rewrite (left_id_L ∅ (∪)).
  - apply NoDup_cons in Hnd as [Hk Hnd].
    unfold insert_all in *. cbn. rewrite IH by done.
    apply map_eq. intros i.
    assert (Hl : (list_to_map l : gmap string R) !! k = None)
      by by apply not_elem_of_list_to_map_1.
    destruct (decide (i = k)) as [->|Hne].
    + rewrite lookup_union_r by done.
      rewrite lookup_insert_eq.
      by rewrite lookup_union_l', lookup_insert_eq by (by rewrite lookup_insert_eq).
    + rewrite !lookup_union, !lookup_insert_ne by done. done.
Qed.

Lemma insert_all_map_to_list {R} (m : gmap string R) :
  insert_all (map_to_list m) ∅ = m.
Proof.
  rewrite insert_all_list_to_map by apply NoDup_fst_map_to_list.
  by rewrite (right_id_L ∅ (∪)), list_to_map_to_list.
Qed.

Lemma from_dict_to_dict_eq (m : t) :
  from_dict (to_dict m)
  = Some (mk (ha_entity_id m) (ha_entity_type m) (native_groups m)
             (native_scenes m) [] (ungrouped_entities m)
             (last_synced m) (sync_error m)).
Proof.
  unfold from_dict, to_dict.
  change (dict_get "ha_entity_id" _) with (Some (PStr (ha_entity_id m))).
  change (dict_get "ha_entity_type" _) with (Some (PStr (ha_entity_type m))).
  change (dict_get "ungrouped_entities" _)
    with (Some (PList (PStr <$> ungrouped_entities m))).
  change (dict_get "last_synced" _) with (Some (PNum (last_synced m))).
  change (dict_get "sync_error" _) with (Some (sync_error_to_py (sync_error m))).
  change (dict_get "native_groups" _)
    with (Some (PDict (prod_map id group_ref_to_dict
                         <$> map_to_list (native_groups m)))).
  change (dict_get "native_scenes" _)
    with (Some (PDict (prod_map id scene_ref_to_dict
                         <$> map_to_list (native_scenes m)))).
  cbn [mbind option_bind as_str as_number].
  rewrite as_str_list_encode. cbn [mbind option_bind].
  rewrite as_sync_error_encode. cbn [mbind option_bind].
  rewrite (refs_of_dict_encode _ _ _ group_ref_round_trip). cbn [mbind option_bind].
  rewrite (refs_of_dict_encode _ _ _ scene_ref_round_trip). cbn [mbind option_bind].
  by rewrite !insert_all_map_to_list.
Qed.

(** What [from_dict] does with a key that is absent. *)
Lemma from_dict_defaults (d : list (string * pyval)) (m : t) :
  from_dict (PDict d) = Some m →
  (dict_get "ungrouped_entities" d = None → ungrouped_entities m = [])
  ∧ (dict_get "native_groups" d = None → native_groups m = ∅)
  ∧ (dict_get "native_scenes" d = None → native_scenes m = ∅)
  ∧ (dict_get "sync_error" d = None → sync_error m = None)
  ∧ (dict_get "last_synced" d = None → last_synced m = NumInt 0).
Proof.
  unfold from_dict. intros H.
  destruct (dict_get "ha_entity_id" d ≫= as_str) as [id|]; [|done].
  destruct (dict_get "ha_entity_type" d ≫= as_str) as [ty|]; [|done].
  cbn [mbind option_bind] in H.
  destruct (dict_get "ungrouped_entities" d) as [u|] eqn:Hu.
  all: destruct (dict_get "last_synced" d) as [l|] eqn:Hl.
  all: destruct (dict_get "sync_error" d) as [e|] eqn:He.
  all: destruct (dict_get "native_groups" d) as [g|] eqn:Hg.
  all: destruct (dict_get "native_scenes" d) as [s|] eqn:Hs.
  all: repeat match type of H with
       | context [match ?x with _ => _ end] => destruct x eqn:?; try done
       | context [?x ≫= _] => destruct x eqn:?; try done; cbn [mbind option_bind] in H
       end.
  all: cbn in H; simplify_eq; cbn; split_and!; intros; try done.
  all: repeat match goal with
       | Hr : refs_of_dict _ None = Some _ |- _ => cbn in Hr; simplify_eq
       end; done.
Qed.
End RoundTrip.

(** C5: [from_dict (to_dict m)] succeeds and gives back every field of the
    data model ([ha_entity_id], [ha_entity_type], [native_groups],
    [native_scenes], [ungrouped_entities], [last_synced], [sync_error]); it
    is [m] itself when [m] has no command batch, as is the case of every
    mapping the provisioning builds. A key absent from the input makes
    [from_dict] take the default of its field. *)
Theorem group_mapping_round_trip (m : GroupMapping.t) :
  (∃ m', GroupMapping.from_dict (GroupMapping.to_dict m) = Some m'
         ∧ GroupMapping.ha_entity_id m' = GroupMapping.ha_entity_id m
         ∧ GroupMapping.ha_entity_type m' = GroupMapping.ha_entity_type m
         ∧ GroupMapping.native_groups m' = GroupMapping.native_groups m
         ∧ GroupMapping.native_scenes m' = GroupMapping.native_scenes m
         ∧ GroupMapping.ungrouped_entities m' = GroupMapping.ungrouped_entities m
         ∧ GroupMapping.last_synced m' = GroupMapping.last_synced m
         ∧ GroupMapping.sync_error m' = GroupMapping.sync_error m
         ∧ (GroupMapping.command_batches m = [] → m' = m))
  ∧ (∀ d m', GroupMapping.from_dict (PDict d) = Some m' →
       (dict_get "ungrouped_entities" d = None →
        GroupMapping.ungrouped_entities m' = [])
       ∧ (dict_get "native_groups" d = None → GroupMapping.native_groups m' = ∅)
       ∧ (dict_get "native_scenes" d = None → GroupMapping.native_scenes m' = ∅)
       ∧ (dict_get "sync_error" d = None → GroupMapping.sync_error m' = None))
  ∧ (∀ id type,
       GroupMapping.from_dict
         (PDict [("ha_entity_id", PStr id); ("ha_entity_type", PStr type)])
       = Some (GroupMapping.mk id type ∅ ∅ [] [] (NumInt 0) None)).
Proof.
  split; [|split].
  - eexists. split; [apply from_dict_to_dict_eq|].
    cbn. split_and!; try done.
    intros Hb. destruct m; cbn in *. by subst.
  - intros d m' H. destruct (from_dict_defaults d m' H) as (?&?&?&?&?).
    by split_and!.
  - intros id type. reflexivity.
Qed.

(** ** Dispatch *)

Section Dispatch.
Context {W : Type}.
Variable hass : HomeAssistant.t.
Variable str_of_other : pyval → string.
Implicit Types (s : Orchestrator.t W) (mappings : gmap string GroupMapping.t).

(** A list of strings is read back by [as_str]. *)
Lemma strings_of_values (ids : list pyval) :
  Forall (λ id, is_Some (GroupMapping.as_str id)) ids →
  ids = PStr <$> omap GroupMapping.as_str ids.
Proof.
  induction 1 as [|id ids [x Hx] _ IH]; [done|].
  destruct id; try done. cbn in *. by rewrite <- IH.
Qed.

(** A target that is absent, one id or a list of ids is iterated as
    the ids it names. *)
Lemma target_values_shaped key data :
  target_shaped key data →
  Orchestrator.target_values key data = Ok (PStr <$> named_ids key data).
Proof.
  unfold target_shaped, Orchestrator.target_values, named_ids.
  destruct (dict_get key data) as [[| | | |ids|]|]; try done.
  intros Hids. by rewrite <- strings_of_values.
Qed.

(** One loop of [async_dispatch] over ids that are strings: it runs to
    its end; the flag is set exactly when it was or some id has a
    mapping under its key; while nothing is handled no task exists. *)
Lemma route_strings scene_aware key_of (k : string → string) mappings
    (Hkey : ∀ id, key_of (PStr id) = PStr (k id)) (ids : list string) : ∀ acc,
  ∃ acc',
    Orchestrator.route scene_aware key_of mappings (PStr <$> ids) acc = (acc', None)
    ∧ (acc'.1 = true
       ↔ acc.1 = true ∨ ∃ id, id ∈ ids ∧ is_Some (mappings !! k id))
    ∧ ((acc.1 = false → acc.2 = []) → acc'.1 = false → acc'.2 = []).
Proof.
  induction ids as [|id ids IH]; intros [handled tasks]; cbn [fmap list_fmap
    Orchestrator.route].
  - exists (handled, tasks). split; [done|]. split; [|done]. split; [by left|].
    intros [?|(id & Hin & _)]; [done|]. by apply elem_of_nil in Hin.
  - rewrite Hkey. cbn [Orchestrator.mapping_of].
    destruct (mappings !! k id) as [mapping|] eqn:Hm.
    + edestruct IH as (acc' & -> & Hiff & Hnone). exists acc'.
      split; [done|]. cbn [fst snd] in *.
      assert (Hacc : acc'.1 = true) by (apply Hiff; by left).
      split; [|intros _ Hf; congruence].
      split; [|done]. intros _. right. exists id. split; [left|by rewrite Hm].
    + edestruct IH as (acc' & -> & Hiff & Hnone). exists acc'.
      split; [done|]. cbn [fst snd] in *. split; [|done].
      rewrite Hiff. split.
      * intros [?|(id' & Hin & Hs)]; [by left|]. right.
        exists id'. split; [by right|done].
      * intros [?|(id' & Hin & Hs)]; [by left|]. right.
        apply elem_of_cons in Hin as [->|Hin].
        -- rewrite Hm in Hs. by destruct Hs.
        -- by exists id'.
Qed.

(** Captured tasks never raise. *)
Lemma run_tasks_return domain service data tasks : ∀ s,
  ∃ s', SE.for_each tasks (Orchestrator.run_task hass domain service data) s
        = (Ok tt, s').
Proof.
  induction tasks as [|task tasks IH]; intros s; [by exists s|].
  cbn [SE.for_each]. unfold SE.bind at 1.
  destruct (Orchestrator.run_task hass domain service data task s)
    as [r s1] eqn:Ht.
  assert (r = Ok tt) as ->.
  { destruct task; cbn in Ht; unfold SE.captured in Ht; congruence. }
  apply IH.
Qed.

(** The four loops on a call whose targets are ids or lists of ids. *)
Lemma dispatch_plan_shaped mappings data :
  targets_shaped data →
  ∃ acc,
    Orchestrator.dispatch_plan mappings data
      (Orchestrator.dispatch_targets str_of_other) (false, []) = (acc, None)
    ∧ (acc.1 = true ↔ some_target_mapped mappings data)
    ∧ (acc.1 = false → acc.2 = []).
Proof.
  intros Hshaped.
  apply Forall_cons in Hshaped as [He Hshaped].
  apply Forall_cons in Hshaped as [Ha Hshaped].
  apply Forall_cons in Hshaped as [Hf Hshaped].
  apply Forall_cons in Hshaped as [Hl _].
  unfold Orchestrator.dispatch_targets. cbn [Orchestrator.dispatch_plan].
  rewrite (target_values_shaped _ _ He), (target_values_shaped _ _ Ha),
    (target_values_shaped _ _ Hf), (target_values_shaped _ _ Hl).
  destruct (route_strings true (λ id, id) (λ id, id) mappings
              (λ _, eq_refl) (named_ids ATTR_ENTITY_ID data) (false, []))
    as (p1 & -> & Hiff1 & Hnone1).
  destruct (route_strings false (Orchestrator.prefixed str_of_other "area.")
              (String.append "area.") mappings (λ _, eq_refl)
              (named_ids ATTR_AREA_ID data) p1)
    as (p2 & -> & Hiff2 & Hnone2).
  destruct (route_strings false (Orchestrator.prefixed str_of_other "floor.")
              (String.append "floor.") mappings (λ _, eq_refl)
              (named_ids ATTR_FLOOR_ID data) p2)
    as (p3 & -> & Hiff3 & Hnone3).
  destruct (route_strings false (Orchestrator.prefixed str_of_other "label.")
              (String.append "label.") mappings (λ _, eq_refl)
              (named_ids ATTR_LABEL_ID data) p3)
    as (p4 & -> & Hiff4 & Hnone4).
  exists p4. split; [done|]. split; [|by auto].
  rewrite Hiff4, Hiff3, Hiff2, Hiff1. cbn [fst].
  unfold some_target_mapped, named_targets. split.
  - intros [[[[?|(id & Hin & Hs)]|(id & Hin & Hs)]|(id & Hin & Hs)]|(id & Hin & Hs)];
      [done|eexists; split; [|exact Hs]..].
    + apply elem_of_app. by left.
    + apply elem_of_app. right. apply elem_of_app. left.
      by apply list_elem_of_fmap_2.
    + apply elem_of_app. right. apply elem_of_app. right. apply elem_of_app. left.
      by apply list_elem_of_fmap_2.
    + apply elem_of_app. right. apply elem_of_app. right. apply elem_of_app. right.
      by apply list_elem_of_fmap_2.
  - intros (key & Hin & Hs).
    apply elem_of_app in Hin as [Hin|Hin]; [left; left; left; right; eauto|].
    apply elem_of_app in Hin as [Hin|Hin].
    { apply list_elem_of_fmap in Hin as (id & -> & Hin).
      left. left. right. eauto. }
    apply elem_of_app in Hin as [Hin|Hin].
    { apply list_elem_of_fmap in Hin as (id & -> & Hin).
      left. right. eauto. }
    apply list_elem_of_fmap in Hin as (id & -> & Hin). right. eauto.
Qed.

(** [async_dispatch] on such a call. *)
Lemma dispatch_shaped_run domain service data s :
  targets_shaped data →
  ∃ handled s',
    Orchestrator.async_dispatch hass str_of_other domain service data s
    = (Ok handled, s')
    ∧ (handled = true ↔ some_target_mapped (Orchestrator._mappings s) data)
    ∧ (handled = false → s' = s).
Proof.
  intros Hshaped. unfold Orchestrator.async_dispatch.
  unfold SE.bind at 1. unfold SE.gets at 1.
  destruct (dispatch_plan_shaped (Orchestrator._mappings s) data Hshaped)
    as ([handled tasks] & -> & Hiff & Hnone).
  cbn [fst snd] in *. unfold SE.bind at 1.
  destruct handled.
  - destruct (run_tasks_return domain service data tasks s) as [s' ->].
    by exists true, s'.
  - rewrite Hnone by done. by exists false, s.
Qed.
End Dispatch.

(** C2: on a call whose entity, area, floor and label targets are each
    absent, one id or a list of ids, [async_dispatch] returns, and returns
    [true] exactly when some target the call names (an entity id, or an
    area, floor or label id under its prefix) has a mapping in the table;
    when none has, it returns [false] and leaves everything as it was: no
    handler command, no service call. *)
Theorem dispatch_handled_iff_mapped {W : Type} (hass : HomeAssistant.t)
    (str_of_other : pyval → string) (s : Orchestrator.t W)
    (domain service : string) (data : list (string * pyval))
    (Hshaped : targets_shaped data) :
  ∃ handled s',
    Orchestrator.async_dispatch hass str_of_other domain service data s
    = (Ok handled, s')
    ∧ (handled = true ↔ some_target_mapped (Orchestrator._mappings s) data)
    ∧ (¬ some_target_mapped (Orchestrator._mappings s) data
       → handled = false ∧ s' = s).
Proof.
  destruct (dispatch_shaped_run hass str_of_other domain service data s Hshaped)
    as (handled & s' & Hrun & Hiff & Hsame).
  exists handled, s'. split; [done|]. split; [done|].
  intros Hn. destruct handled; [by destruct (Hn (proj1 Hiff eq_refl))|].
  by rewrite Hsame.
Qed.

(** ** The household, run *)

(** C1: reconciliation deletes the group that backs a native scene.
    After [scene.movie] is provisioned on Z-Wave, its mapping references the
    group [ha_scene_movie_zwave_js] through its native scene, the managed
    resources list the group, and the handler holds it; one reconciliation
    pass then asks the handler to delete it, and the handler no longer has
    it, while the mapping still references it. *)
Theorem reconcile_deletes_scene_group :
  let before := Scenario.with_movie in
  let after := (Orchestrator._async_reconcile before).2 in
  NativeSceneRef.group_name
    <$> (Orchestrator._mappings before !! "scene.movie"
         ≫= λ m, GroupMapping.native_scenes m !! PROTOCOL_ZWAVE_JS)
  = Some "ha_scene_movie_zwave_js"
  ∧ "zwave_js:group:ha_scene_movie_zwave_js"
    ∈ default ∅ (Orchestrator._managed_resources before !! "scene.movie")
  ∧ dict_get "ha_scene_movie_zwave_js" (ZWaveJS._groups (Orchestrator.world before).1)
    = Some [Some (NodeId 5); Some (NodeId 6)]
  ∧ Orchestrator.trace after
    = Orchestrator.trace before
      ++ [ Orchestrator.GetGroups PROTOCOL_ZWAVE_JS;
           Orchestrator.DeleteGroup PROTOCOL_ZWAVE_JS (GidStr "ha_scene_movie_zwave_js");
           Orchestrator.GetGroups PROTOCOL_ZIGBEE2MQTT ]
  ∧ dict_get "ha_scene_movie_zwave_js" (ZWaveJS._groups (Orchestrator.world after).1)
    = None
  ∧ Orchestrator._mappings after = Orchestrator._mappings before.
Proof.
  cbv zeta. split_and!.
  - by vm_compute.
  - apply (bool_decide_unpack _). by vm_compute.
  - by vm_compute.
  - by vm_compute.
  - by vm_compute.
  - by vm_compute.
Qed.

(** Against C3 as stated: with the broker down, the two lamps of
    [group.lamps] classify on Zigbee2MQTT, whose handler is active, and the
    mapping has no reference for that protocol. *)
Lemma failed_creation_leaves_no_reference :
  let s' :=
    (Orchestrator._provision_entity_list Scenario.hass Scenario.time_time
       "group.lamps" GROUPING_TYPE_GROUP ["light.desk"; "light.sofa"]
       (Scenario.start Scenario.broker_down)).2 in
  length (members_on Scenario.hass PROTOCOL_ZIGBEE2MQTT ["light.desk"; "light.sofa"]) = 2
  ∧ is_Some (dict_get PROTOCOL_ZIGBEE2MQTT
               (Orchestrator._handlers (Scenario.start Scenario.broker_down)))
  ∧ ∃ m, Orchestrator._mappings s' !! "group.lamps" = Some m
         ∧ GroupMapping.native_groups m !! PROTOCOL_ZIGBEE2MQTT = None
         ∧ GroupMapping.sync_error m = Some "MQTT is not connected".
Proof.
  cbv zeta. split_and!.
  - by vm_compute.
  - exists (Scenario.z2m_handler Scenario.broker_down). reflexivity.
  - eexists. split_and!; [by vm_compute | by vm_compute | by vm_compute].
Qed.

(** C6 on a run: [group.lights] loses its members; the update tears its
    native group down and resolves no member, and the mapping of the
    group, which names the group just deleted, is still in the table. *)
Lemma emptied_group_keeps_its_mapping :
  let s' :=
    (Orchestrator._on_group_updated Scenario.hass_emptied Scenario.time_time
       "group.lights" Scenario.with_lights).2 in
  group_members Scenario.hass_emptied "group.lights" = []
  ∧ Orchestrator._managed_resources s' !! "group.lights" = None
  ∧ Orchestrator._mappings s' !! "group.lights" ≠ None
  ∧ Orchestrator._mappings s' !! "group.lights"
    = Orchestrator._mappings Scenario.with_lights !! "group.lights".
Proof.
  cbv zeta. split_and!.
  - by vm_compute.
  - by vm_compute.
  - by vm_compute.
  - by vm_compute.
Qed.

Lemma dispatch_handled_iff_mapped_witness :
  targets_shaped [("entity_id", PStr "group.lights"); ("brightness", PInt 128)]
  ∧ ∃ handled s',
      Orchestrator.async_dispatch Scenario.hass (λ _, "") "light" "turn_on"
        [("entity_id", PStr "group.lights"); ("brightness", PInt 128)]
        Scenario.with_lights = (Ok handled, s')
      ∧ handled = true.
Proof.
  assert (Hshaped : targets_shaped
                      [("entity_id", PStr "group.lights"); ("brightness", PInt 128)]).
  { unfold targets_shaped. repeat (apply List.Forall_cons; [exact I|]).
    apply List.Forall_nil. }
  split; [exact Hshaped|].
  destruct (dispatch_handled_iff_mapped Scenario.hass (λ _, "") Scenario.with_lights
              "light" "turn_on"
              [("entity_id", PStr "group.lights"); ("brightness", PInt 128)]
              Hshaped)
    as (handled & s' & Hrun & Hiff & _).
  exists handled, s'. split; [exact Hrun|].
  apply Hiff. exists "group.lights". split; [left|].
  vm_compute. eauto.
Defined.

Lemma group_cardinality_witness :
  is_Some (dict_get PROTOCOL_ZWAVE_JS
             (Orchestrator._handlers (Scenario.start Scenario.broker_up)))
  ∧ members_on Scenario.hass PROTOCOL_ZWAVE_JS ["light.kitchen"; "light.hall"] ≠ []
  ∧ ∃ s' m,
      Orchestrator._provision_entity_list Scenario.hass Scenario.time_time
        "group.lights" GROUPING_TYPE_GROUP ["light.kitchen"; "light.hall"]
        (Scenario.start Scenario.broker_up) = (Ok tt, s')
      ∧ Orchestrator._mappings s' !! "group.lights" = Some m.
Proof.
  assert (H1 : is_Some (dict_get PROTOCOL_ZWAVE_JS
                          (Orchestrator._handlers (Scenario.start Scenario.broker_up))))
    by (exists Scenario.zwave_handler; reflexivity).
  assert (H2 : members_on Scenario.hass PROTOCOL_ZWAVE_JS
                 ["light.kitchen"; "light.hall"] ≠ []) by by vm_compute.
  split; [exact H1|]. split; [exact H2|].
  destruct (group_cardinality Scenario.hass Scenario.time_time
              (Scenario.start Scenario.broker_up) "group.lights" GROUPING_TYPE_GROUP
              PROTOCOL_ZWAVE_JS ["light.kitchen"; "light.hall"] H1 H2)
    as (s' & m & evs & Hrun & Hm & _).
  by exists s', m.
Defined.

Lemma scene_native_only_if_supported_and_many_witness :
  Scenario.movie ≠ []
  ∧ ∃ s' m,
      Orchestrator._provision_scene Scenario.hass Scenario.time_time "scene.movie"
        (Scenario.start Scenario.broker_up) = (Ok tt, s')
      ∧ Orchestrator._mappings s' !! "scene.movie" = Some m.
Proof.
  assert (H : Scenario.movie ≠ []) by done.
  split; [exact H|].
  destruct (scene_native_only_if_supported_and_many Scenario.hass Scenario.time_time
              (Scenario.start Scenario.broker_up) "scene.movie" PROTOCOL_ZWAVE_JS
              (State.mk "scene.movie" (Some (State.EntityDict Scenario.movie)) None None)
              Scenario.movie eq_refl eq_refl H)
    as (s' & m & Hrun & Hm & _).
  by exists s', m.
Defined.

Lemma empty_members_leave_mappings_untouched_witness :
  group_members Scenario.hass_emptied "group.lights" = []
  ∧ ∃ r s' evs,
      Orchestrator._on_group_updated Scenario.hass_emptied Scenario.time_time
        "group.lights" Scenario.with_lights = (r, s')
      ∧ Orchestrator._mappings s' = Orchestrator._mappings Scenario.with_lights
      ∧ Orchestrator._managed_resources s'
        = delete "group.lights" (Orchestrator._managed_resources Scenario.with_lights)
      ∧ Orchestrator.trace s' = Orchestrator.trace Scenario.with_lights ++ evs
      ∧ Forall is_removal evs.
Proof.
  split; [reflexivity|].
  destruct (proj2 (proj2 (proj2 (proj2 (proj2 (proj2
              (empty_members_leave_mappings_untouched Scenario.hass_emptied
                 Scenario.time_time Scenario.with_lights))))))
              "group.lights" eq_refl)
    as (r & s' & evs & H1 & H2 & H3 & H4 & H5 & _).
  exists r, s', evs. exact (conj H1 (conj H2 (conj H3 (conj H4 H5)))).
Defined.

Lemma mapping_members_partitioned_witness :
  (∃ s' m,
     Orchestrator._provision_entity_list Scenario.hass Scenario.time_time
       "group.lights" GROUPING_TYPE_GROUP ["light.kitchen"; "light.hall"]
       (Scenario.start Scenario.broker_up) = (Ok tt, s')
     ∧ Orchestrator._mappings s' !! "group.lights" = Some m
     ∧ partitioned m)
  ∧ (∃ s' m,
       Orchestrator._provision_scene Scenario.hass Scenario.time_time "scene.movie"
         (Scenario.start Scenario.broker_up) = (Ok tt, s')
       ∧ Orchestrator._mappings s' !! "scene.movie" = Some m
       ∧ partitioned m).
Proof.
  split.
  - apply (proj1 (mapping_members_partitioned Scenario.hass Scenario.time_time
                    (Scenario.start Scenario.broker_up))
             "group.lights" GROUPING_TYPE_GROUP ["light.kitchen"; "light.hall"]).
    done.
  - apply (proj2 (mapping_members_partitioned Scenario.hass Scenario.time_time
                    (Scenario.start Scenario.broker_up))
             "scene.movie"
             (State.mk "scene.movie" (Some (State.EntityDict Scenario.movie)) None None)
             Scenario.movie); done.
Defined.


(** ** The allocator over any window *)

Section AllocatorWindow.
Context {W : Type}.
Implicit Types s : Orchestrator.t W.

Lemma scene_id_after_0 c : scene_id_in_range c → scene_id_after c 0 = c.
Proof.
unfold scene_id_in_range, scene_id_after, SCENE_ID_START, SCENE_ID_MAX.
intros Hc. rewrite Z.add_0_r, Z.mod_small by lia. lia.
Qed.

Lemma scene_id_after_next c i :
scene_id_in_range c →
scene_id_after (if (c + 1 >? SCENE_ID_MAX)%Z then SCENE_ID_START else (c + 1)%Z) i
= scene_id_after c (S i).
Proof.
unfold scene_id_in_range, scene_id_after, SCENE_ID_START, SCENE_ID_MAX.
intros Hc. f_equal.
destruct (Z.gtb_spec (c + 1) 255).
- assert (c = 255%Z) as -> by lia.
  replace (255 - 100 + Z.of_nat (S i))%Z with (Z.of_nat i + 1 * 156)%Z by lia.
  rewrite Z.mod_add by lia. f_equal; lia.
- f_equal; lia.
Qed.

Lemma allocate_scene_ids_closed n : ∀ s,
scene_id_in_range (Orchestrator._scene_id_counter s) →
∃ s', Orchestrator.allocate_scene_ids n s
      = (Ok (scene_id_after (Orchestrator._scene_id_counter s) <$> seq 0 n), s').
Proof.
induction n as [|n IH]; intros s Hs; [by eexists|].
cbn [Orchestrator.allocate_scene_ids]. unfold SE.bind at 1.
rewrite allocate_scene_id_eq. unfold SE.bind at 1.
match goal with |- context [Orchestrator.allocate_scene_ids n ?s1] =>
  destruct (IH s1) as [s' Hrun] end.
{ cbn. unfold scene_id_in_range, SCENE_ID_START, SCENE_ID_MAX in *.
  destruct (Z.gtb_spec (Orchestrator._scene_id_counter s + 1) 255); lia. }
rewrite Hrun. exists s'. unfold SE.ret. f_equal. f_equal. cbn [seq fmap list_fmap].
rewrite scene_id_after_0 by done. f_equal. cbn [Orchestrator._scene_id_counter
  Orchestrator.set_scene_id_counter].
rewrite <- seq_shift, <- list_fmap_compose.
apply list_fmap_ext. intros _ i _. cbn. by apply scene_id_after_next.
Qed.

Lemma scene_id_after_apart c i j :
i < j → j - i < 156 → scene_id_after c i ≠ scene_id_after c j.
Proof.
unfold scene_id_after, SCENE_ID_START, SCENE_ID_MAX. intros Hij Hd Heq.
apply Z.add_reg_l in Heq.
pose proof (Z.div_mod (c - 100 + Z.of_nat i) (255 - 100 + 1) ltac:(lia)) as Hi.
pose proof (Z.div_mod (c - 100 + Z.of_nat j) (255 - 100 + 1) ltac:(lia)) as Hj.
rewrite Heq in Hi.
generalize dependent ((c - 100 + Z.of_nat i) `div` (255 - 100 + 1))%Z.
generalize dependent ((c - 100 + Z.of_nat j) `div` (255 - 100 + 1))%Z.
generalize dependent ((c - 100 + Z.of_nat j) `mod` (255 - 100 + 1))%Z.
intros. lia.
Qed.

Lemma scene_id_after_period c i : scene_id_after c (i + 156) = scene_id_after c i.
Proof.
unfold scene_id_after, SCENE_ID_START, SCENE_ID_MAX. f_equal.
replace (c - 100 + Z.of_nat (i + 156))%Z
  with (c - 100 + Z.of_nat i + 1 * (255 - 100 + 1))%Z by lia.
by rewrite Z.mod_add by lia.
Qed.
End AllocatorWindow.

(** X1: from a counter within [[SCENE_ID_START, SCENE_ID_MAX]], two
    allocations fewer than 156 calls apart never return the same scene
    id, and two allocations exactly 156 calls apart always do. *)
Theorem scene_ids_distinct_within_window {W : Type} (s : Orchestrator.t W) (n : nat)
    (Hcounter : scene_id_in_range (Orchestrator._scene_id_counter s)) :
  ∃ ids s',
    Orchestrator.allocate_scene_ids n s = (Ok ids, s')
    ∧ length ids = n
    ∧ (∀ i j a b, i < j → j - i < 156 →
                  ids !! i = Some a → ids !! j = Some b → a ≠ b)
    ∧ (∀ i a, ids !! (i + 156) = Some a → ids !! i = Some a).
Proof.
  destruct (allocate_scene_ids_closed n s Hcounter) as [s' Hrun].
  eexists _, s'. split; [exact Hrun|]. split; [by rewrite length_fmap, length_seq|].
  split.
  - intros i j a b Hij Hd Ha Hb.
    apply list_lookup_fmap_Some in Ha as (i' & -> & Hi).
    apply list_lookup_fmap_Some in Hb as (j' & -> & Hj).
    apply lookup_seq in Hi as [-> _]. apply lookup_seq in Hj as [-> _].
    by apply scene_id_after_apart.
  - intros i a Ha.
    apply list_lookup_fmap_Some in Ha as (i' & -> & Hi).
    apply lookup_seq in Hi as [-> Hlt].
    rewrite list_lookup_fmap. rewrite (lookup_seq_lt 0 n i) by lia.
    cbn [fmap option_fmap option_map]. f_equal.
    replace (0 + (i + 156)) with (i + 156) by lia.
    by rewrite scene_id_after_period.
Qed.

Lemma scene_ids_distinct_within_window_witness :
  ∃ ids s',
    Orchestrator.allocate_scene_ids 200 (Orchestrator.init (W := unit) [] tt)
    = (Ok ids, s')
    ∧ ids !! 0 = Some 100%Z ∧ ids !! 155 = Some 255%Z ∧ ids !! 156 = Some 100%Z.
Proof.
  destruct (scene_ids_distinct_within_window
              (Orchestrator.init (W := unit) [] tt) 200) as (ids & s' & Hrun & _).
  { by vm_compute. }
  exists ids, s'. split; [exact Hrun|].
  vm_compute in Hrun. injection Hrun as <- _. by vm_compute.
Defined.

(** ** Persistence *)

Section Persistence.
Context {W : Type}.
Implicit Types s : Orchestrator.t W.

Lemma set_mappings_twice m1 m2 s :
Orchestrator.set_mappings m2 (Orchestrator.set_mappings m1 s)
= Orchestrator.set_mappings m2 s.
Proof. reflexivity. Qed.

(** The loop over the persisted entries, in closed form: the entries
  [from_dict] accepts are stored under their own id, in order. *)
Lemma load_mappings_eq entries : ∀ s,
Orchestrator.load_mappings entries s
= (Ok tt,
   Orchestrator.set_mappings
     (foldl (λ acc m, <[GroupMapping.ha_entity_id m := m]> acc)
        (Orchestrator._mappings s) (omap GroupMapping.from_dict entries)) s).
Proof.
induction entries as [|e entries IH]; intros s.
- by destruct s.
- unfold Orchestrator.load_mappings in *. cbn [SE.for_each omap list_omap].
  unfold SE.bind at 1.
  destruct (GroupMapping.from_dict e) as [m|]; cbn [foldl].
  + unfold SE.modify at 1. rewrite IH. by rewrite set_mappings_twice.
  + unfold SE.ret at 1. by rewrite IH.
Qed.

Lemma omap_from_dict_to_dict (ms : list GroupMapping.t) :
Forall (λ m, GroupMapping.command_batches m = []) ms →
omap GroupMapping.from_dict (GroupMapping.to_dict <$> ms) = ms.
Proof.
induction 1 as [|m ms Hm _ IH]; [done|].
cbn [fmap list_fmap omap list_omap]. rewrite from_dict_to_dict_eq.
fold (@fmap list _ _ _ GroupMapping.to_dict ms).
fold (omap GroupMapping.from_dict (GroupMapping.to_dict <$> ms)).
rewrite IH. f_equal. destruct m; cbn in *. by subst.
Qed.

Lemma foldl_insert_by_id (l : list (string * GroupMapping.t)) :
Forall (λ km, GroupMapping.ha_entity_id km.2 = km.1) l →
∀ acc, foldl (λ acc m, <[GroupMapping.ha_entity_id m := m]> acc) acc l.*2
       = GroupMapping.insert_all l acc.
Proof.
unfold GroupMapping.insert_all.
induction 1 as [|[k m] l Hk _ IH]; intros acc; [done|].
cbn in *. rewrite Hk. apply IH.
Qed.

Lemma resource_sets_encode (l : list (string * gset string)) :
Orchestrator.resource_sets
  ((λ kv, (kv.1, PList (PStr <$> elements kv.2))) <$> l) = Ok l.
Proof.
induction l as [|[k v] l IH]; [done|].
cbn [fmap list_fmap Orchestrator.resource_sets fst snd].
unfold Orchestrator.resource_set.
pose proof (as_str_list_encode (elements v)) as Henc. cbn in Henc. rewrite Henc.
fold (@fmap list _ _ _ (λ kv : string * gset string,
                          (kv.1, PList (PStr <$> elements kv.2))) l).
rewrite IH. by rewrite list_to_set_elements_L.
Qed.

Lemma stamp_Forall (time_time : nat → float) (P : string → GroupMapping.t → Prop) ms :
(∀ k m n, P k m → P k (GroupMapping.set_last_synced n m)) →
Forall (λ km, P km.1 km.2) ms →
∀ tick, Forall (λ km, P km.1 km.2) (Orchestrator.stamp time_time tick ms).
Proof.
intros Hset. induction 1 as [|[k m] ms Hkm _ IH]; intros tick; cbn.
- constructor.
- constructor; [by apply Hset|apply IH].
Qed.
End Persistence.

(** X2: what [_async_save_state] writes, [_async_load_state] reads
    back. When every mapping is stored under its own [ha_entity_id] and
    carries no command batch, an orchestrator restarted over the saved
    store loads the mapping table, the managed resources and the scene id
    counter the saving orchestrator held after the save. *)
Theorem saved_state_loads_back {W : Type} (time_time : nat → float)
    (s : Orchestrator.t W) (handlers : list (string * ProtocolHandler.t W)) (w : W)
    (Hkeys : ∀ k m, Orchestrator._mappings s !! k = Some m →
                    GroupMapping.ha_entity_id m = k
                    ∧ GroupMapping.command_batches m = []) :
  let saved := (Orchestrator._async_save_state time_time s).2 in
  ∃ s',
    Orchestrator._async_load_state
      (Orchestrator.restarted handlers w (Orchestrator.store saved)) = (Ok tt, s')
    ∧ Orchestrator._mappings s' = Orchestrator._mappings saved
    ∧ Orchestrator._managed_resources s' = Orchestrator._managed_resources saved
    ∧ Orchestrator._scene_id_counter s' = Orchestrator._scene_id_counter saved.
Proof.
  cbn zeta. unfold Orchestrator._async_save_state, SE.modify. cbn [snd].
  set (ms := Orchestrator.stamp time_time (Orchestrator.clock s)
               (map_to_list (Orchestrator._mappings s))).
  cbn [Orchestrator.store Orchestrator._mappings Orchestrator._managed_resources
       Orchestrator._scene_id_counter].
  assert (Hms : Forall (λ km, GroupMapping.ha_entity_id km.2 = km.1
                              ∧ GroupMapping.command_batches km.2 = []) ms).
  { apply (stamp_Forall time_time
             (λ k m, GroupMapping.ha_entity_id m = k
                     ∧ GroupMapping.command_batches m = [])); [done|].
    apply Forall_forall. intros [k m] Hin. apply elem_of_map_to_list in Hin.
    by apply Hkeys. }
  unfold Orchestrator._async_load_state, Orchestrator.restarted, Orchestrator.persisted.
  unfold SE.bind at 1. unfold SE.gets at 1. cbn [Orchestrator.store].
  change (truthy (PDict _)) with true. cbn [negb].
  change (dict_get "scene_id_counter" _)
    with (Some (PInt (Orchestrator._scene_id_counter s))).
  change (dict_get "mappings" _)
    with (Some (PList (GroupMapping.to_dict <$> ms.*2))).
  change (dict_get "managed_resources" _)
    with (Some (PDict ((λ kv : string * gset string,
                          (kv.1, PList (PStr <$> elements kv.2)))
                       <$> map_to_list (Orchestrator._managed_resources s)))).
  cbn [from_option id PInt]. unfold SE.bind at 1. unfold SE.ret at 1.
  unfold SE.bind at 1. unfold SE.modify at 1.
  unfold SE.bind at 1. rewrite load_mappings_eq.
  unfold SE.bind at 1. unfold SE.lift_result. rewrite resource_sets_encode.
  unfold SE.modify. eexists. split; [reflexivity|].
  cbn [Orchestrator._mappings Orchestrator._managed_resources
       Orchestrator._scene_id_counter Orchestrator.set_mappings
       Orchestrator.set_managed_resources Orchestrator.set_scene_id_counter].
  split_and!; [|by rewrite list_to_map_to_list|done].
  rewrite omap_from_dict_to_dict.
  2:{ apply Forall_fmap. eapply Forall_impl; [exact Hms|]. by intros [k m] [_ ?]. }
  rewrite foldl_insert_by_id.
  2:{ eapply Forall_impl; [exact Hms|]. by intros [k m] [? _]. }
  rewrite insert_all_list_to_map.
  2:{ subst ms. rewrite stamp_keys. apply NoDup_fst_map_to_list. }
  by rewrite (right_id_L ∅ (∪)).
Qed.

Lemma saved_state_loads_back_witness :
  ∃ s',
    Orchestrator._async_load_state
      (Orchestrator.restarted
         (Orchestrator._handlers Scenario.with_lights)
         (ZWaveJS.init, Zigbee2MQTT.init)
         (Orchestrator.store
            (Orchestrator._async_save_state Scenario.time_time
               Scenario.with_lights).2))
    = (Ok tt, s')
    ∧ is_Some (Orchestrator._mappings s' !! "group.lights")
    ∧ Orchestrator._managed_resources s' !! "group.lights"
      = Some {["zwave_js:group:ha_group_lights_zwave_js"]}.
Proof.
  destruct (saved_state_loads_back Scenario.time_time Scenario.with_lights
              (Orchestrator._handlers Scenario.with_lights)
              (ZWaveJS.init, Zigbee2MQTT.init))
    as (s' & Hrun & Hm & Hr & _).
  { intros k m Hk.
    assert (Hall : map_Forall
                     (λ k m, GroupMapping.ha_entity_id m = k
                             ∧ GroupMapping.command_batches m = [])
                     (Orchestrator._mappings Scenario.with_lights)).
    { apply map_Forall_to_list. vm_compute. repeat constructor. }
    exact (Hall k m Hk). }
  exists s'. split; [exact Hrun|]. rewrite Hm, Hr. split.
  - vm_compute. eauto.
  - apply (bool_decide_unpack _). by vm_compute.
Defined.

(** *** Entries of the declared types *)

Lemma typed_field_contains {A} (as_ : pyval → option A) key d :
  typed_field as_ key d = true →
  dict_contains key d
  = match dict_get key d ≫= as_ with Some _ => true | None => false end.
Proof.
  unfold typed_field, dict_contains. destruct (dict_get key d) as [v|]; cbn.
  - intros [x Hx]%bool_decide_eq_true. by rewrite Hx.
  - done.
Qed.

Lemma typed_field_default {A} (as_ : pyval → option A) key d (dflt : A) :
  typed_field as_ key d = true →
  is_Some (match dict_get key d with None => Some dflt | Some v => as_ v end).
Proof.
  unfold typed_field. destruct (dict_get key d) as [v|]; [|by eauto].
  by intros ?%bool_decide_eq_true.
Qed.

Lemma group_ref_typed v :
  typed_group_ref v = true →
  is_Some (GroupMapping.group_ref_of_dict v) ↔ is_ref group_ref_fields v = true.
Proof.
  destruct v as [| | | | |d]; try (intros _; split; [by intros [? ?]|done]).
  cbn [typed_group_ref]. rewrite !andb_true_iff. intros ((((H1 & H2) & H3) & H4) & H5).
  unfold is_ref, group_ref_fields, GroupMapping.group_ref_of_dict. cbn [forallb].
  rewrite (typed_field_contains _ _ _ H1), (typed_field_contains _ _ _ H2),
    (typed_field_contains _ _ _ H3), (typed_field_contains _ _ _ H4),
    (typed_field_contains _ _ _ H5).
  destruct (GroupMapping.only_keys _ d); [|split; [by intros [? ?]|done]].
  destruct (dict_get "protocol" d ≫= _); cbn; [|split; [by intros [? ?]|done]].
  destruct (dict_get "group_id" d ≫= _); cbn; [|split; [by intros [? ?]|done]].
  destruct (dict_get "group_name" d ≫= _); cbn; [|split; [by intros [? ?]|done]].
  destruct (dict_get "member_entity_ids" d ≫= _); cbn;
    [|split; [by intros [? ?]|done]].
  destruct (dict_get "member_native_ids" d ≫= _); cbn;
    [|split; [by intros [? ?]|done]].
  split; eauto.
Qed.

Lemma scene_ref_typed v :
  typed_scene_ref v = true →
  is_Some (GroupMapping.scene_ref_of_dict v) ↔ is_ref scene_ref_fields v = true.
Proof.
  destruct v as [| | | | |d]; try (intros _; split; [by intros [? ?]|done]).
  cbn [typed_scene_ref]. rewrite !andb_true_iff. intros (((H1 & H2) & H3) & H4).
  unfold is_ref, scene_ref_fields, GroupMapping.scene_ref_of_dict. cbn [forallb].
  rewrite (typed_field_contains _ _ _ H1), (typed_field_contains _ _ _ H2),
    (typed_field_contains _ _ _ H3), (typed_field_contains _ _ _ H4).
  destruct (GroupMapping.only_keys _ d); [|split; [by intros [? ?]|done]].
  destruct (dict_get "protocol" d ≫= _); cbn; [|split; [by intros [? ?]|done]].
  destruct (dict_get "group_name" d ≫= _); cbn; [|split; [by intros [? ?]|done]].
  destruct (dict_get "scene_id" d ≫= _); cbn; [|split; [by intros [? ?]|done]].
  destruct (dict_get "member_entity_ids" d ≫= _); cbn;
    [|split; [by intros [? ?]|done]].
  split; eauto.
Qed.

Lemma refs_typed {R} (of_dict : pyval → option R) fields typed_ref v :
  (∀ x, typed_ref x = true → is_Some (of_dict x) ↔ is_ref fields x = true) →
  typed_refs typed_ref v = true →
  GroupMapping.refs_of_dict of_dict v = None ↔ bad_refs fields v = true.
Proof.
  intros Href. destruct v as [[| | | | |refs]|]; try (intros _; by split).
  cbn [typed_refs GroupMapping.refs_of_dict bad_refs].
  induction refs as [|[k x] refs IH]; [intros _; by split|].
  cbn [forallb snd]. rewrite andb_true_iff. intros [Hx Hrefs].
  specialize (IH Hrefs). specialize (Href x Hx).
  cbn [mapM fst snd]. destruct (of_dict x) as [r|]; cbn.
  - rewrite (proj1 Href) by eauto. cbn [andb].
    destruct (mapM _ refs); cbn; [|done].
    split; [done|]. intros H. by apply IH in H.
  - destruct (is_ref fields x); [|done].
    by destruct (proj2 Href eq_refl) as [? ?].
Qed.

(** On an entry whose fields have the declared types, the typed
    [from_dict] refuses the entry exactly when the source raises. *)
Lemma typed_entry_raises e :
  typed_entry e = true →
  GroupMapping.from_dict e = None ↔ raises_on_entry e = true.
Proof.
  destruct e as [| | | | |d]; try (intros _; by split).
  cbn [typed_entry]. rewrite !andb_true_iff.
  intros ((((((H1 & H2) & H3) & H4) & H5) & H6) & H7).
  unfold GroupMapping.from_dict, raises_on_entry.
  rewrite (typed_field_contains _ _ _ H1), (typed_field_contains _ _ _ H2).
  destruct (typed_field_default _ _ _ [] H3) as [ungrouped ->].
  destruct (typed_field_default _ _ _ (NumInt 0) H4) as [last ->].
  destruct (typed_field_default _ _ _ None H5) as [err ->].
  pose proof (refs_typed _ group_ref_fields _ _ group_ref_typed H6) as Hg.
  pose proof (refs_typed _ scene_ref_fields _ _ scene_ref_typed H7) as Hs.
  destruct (dict_get "ha_entity_id" d ≫= _); cbn; [|done].
  destruct (dict_get "ha_entity_type" d ≫= _); cbn; [|done].
  destruct (GroupMapping.refs_of_dict _ (dict_get "native_groups" d)); cbn.
  - destruct (bad_refs group_ref_fields _); [discriminate (proj2 Hg eq_refl)|].
    cbn. destruct (GroupMapping.refs_of_dict _ (dict_get "native_scenes" d)); cbn.
    + destruct (bad_refs scene_ref_fields _); [discriminate (proj2 Hs eq_refl)|done].
    + by rewrite (proj1 Hs eq_refl).
  - by rewrite (proj1 Hg eq_refl).
Qed.

(** When the lists among the persisted resources are lists of strings,
    reading them raises exactly when the source raises. *)
Lemma typed_resources_raise d :
  typed_resources d = true →
  is_ok (persisted_resources d) = false ↔ malformed_resources d = true.
Proof.
  unfold typed_resources, persisted_resources, malformed_resources.
  destruct (dict_get "managed_resources" d) as [[| | | | |r]|];
    cbn [from_option id]; try (intros _; by split).
  induction r as [|[k v] r IH]; [intros _; by split|].
  cbn [forallb snd Orchestrator.resource_sets]. rewrite andb_true_iff.
  intros [Hv Hr]. specialize (IH Hr).
  destruct v as [| | | |l|]; cbn [Orchestrator.resource_set iterable andb negb];
    try done.
  - destruct (Orchestrator.resource_sets r); cbn in *; done.
  - apply bool_decide_eq_true in Hv as [refs Hrefs].
    unfold GroupMapping.as_str in Hrefs |- *. rewrite Hrefs.
    destruct (Orchestrator.resource_sets r); cbn in *; done.
  - destruct (Orchestrator.resource_sets r); cbn in *; done.
Qed.

(** X3: on a blob whose persisted entries have fields of the types the
    data model declares, [_async_load_state] skips the entries on which
    [GroupMapping.from_dict] raises (no dict, no [ha_entity_id] or
    [ha_entity_type], a native group or scene that cannot be rebuilt) and
    loads the others, each under its own [ha_entity_id], a later entry over
    an earlier one; the counter is the persisted one, [SCENE_ID_START] when
    the blob has none. The managed resources are read last: if they are no
    dict or one of them cannot be iterated the load raises with the counter
    and the mappings already replaced. *)
Theorem load_skips_undecodable_entries {W : Type} (s : Orchestrator.t W)
    (d : list (string * pyval)) (entries : list pyval) (counter : Z)
    (Hstore : Orchestrator.store s = Some (PDict d))
    (Hentries : dict_get "mappings" d = Some (PList entries))
    (Hcounter : persisted_counter d = Some counter)
    (Htyped : Forall (λ e, typed_entry e = true) entries)
    (Hresources : typed_resources d = true) :
  ∃ r s',
    Orchestrator._async_load_state s = (r, s')
    ∧ Orchestrator._scene_id_counter s' = counter
    ∧ Orchestrator._mappings s'
      = foldl (λ acc m, <[GroupMapping.ha_entity_id m := m]> acc)
          (Orchestrator._mappings s) (omap GroupMapping.from_dict entries)
    ∧ (∀ e, e ∈ entries →
            GroupMapping.from_dict e = None ↔ raises_on_entry e = true)
    ∧ (is_ok (persisted_resources d) = false ↔ malformed_resources d = true)
    ∧ match persisted_resources d with
      | Ok sets =>
          r = Ok tt ∧ Orchestrator._managed_resources s' = list_to_map sets
      | Raised err =>
          r = Raised err
          ∧ Orchestrator._managed_resources s' = Orchestrator._managed_resources s
      end.
Proof.
  assert (Hraises : ∀ e, e ∈ entries →
            GroupMapping.from_dict e = None ↔ raises_on_entry e = true).
  { intros e He. apply typed_entry_raises.
    by apply (proj1 (Forall_forall _ _) Htyped). }
  pose proof (typed_resources_raise d Hresources) as Hmalformed.
  unfold Orchestrator._async_load_state.
  unfold SE.bind at 1. unfold SE.gets at 1. rewrite Hstore.
  assert (Hd : truthy (PDict d) = true).
  { by destruct d. }
  rewrite Hd. cbn [negb]. rewrite Hentries. cbn [from_option id].
  unfold persisted_counter in Hcounter. unfold persisted_resources in *.
  unfold SE.bind at 1.
  assert (Hc : match dict_get "scene_id_counter" d with
               | Some (PNum (NumInt counter)) => SE.ret counter
               | Some _ => SE.raise "scene_id_counter is not an integer"
               | None => SE.ret SCENE_ID_START
               end s = (Ok counter, s)).
  { destruct (dict_get "scene_id_counter" d) as [[| |[]| | |]|]; by simplify_eq. }
  rewrite Hc. unfold SE.bind at 1. unfold SE.modify at 1.
  unfold SE.bind at 1. rewrite load_mappings_eq.
  cbn [Orchestrator._mappings Orchestrator.set_scene_id_counter].
  destruct (default (PDict []) (dict_get "managed_resources" d))
    as [| | | | |r] eqn:Hr;
    try (eexists _, _; split; [reflexivity|]; by split_and!).
  unfold SE.bind at 1. unfold SE.lift_result.
  destruct (Orchestrator.resource_sets r) as [sets|err];
    eexists _, _; (split; [reflexivity|]); by split_and!.
Qed.

Lemma load_skips_undecodable_entries_witness :
  ∃ s',
    Orchestrator._async_load_state
      (Orchestrator.restarted (W := unit) [] tt
         (Some (PDict [("mappings",
                        PList [PStr "junk";
                               PDict [("ha_entity_id", PStr "group.lights");
                                      ("ha_entity_type", PStr "group")];
                               PDict [("ha_entity_type", PStr "group")]])])))
    = (Ok tt, s')
    ∧ Orchestrator._scene_id_counter s' = 100%Z
    ∧ Orchestrator._mappings s'
      = {["group.lights"
          := GroupMapping.mk "group.lights" "group" ∅ ∅ [] [] (NumInt 0) None]}.
Proof.
  destruct (load_skips_undecodable_entries
              (Orchestrator.restarted (W := unit) [] tt
                 (Some (PDict [("mappings",
                        PList [PStr "junk";
                               PDict [("ha_entity_id", PStr "group.lights");
                                      ("ha_entity_type", PStr "group")];
                               PDict [("ha_entity_type", PStr "group")]])])))
              _ _ 100 eq_refl eq_refl eq_refl
              ltac:(repeat (apply List.Forall_cons; [reflexivity|]);
                    apply List.Forall_nil)
              eq_refl)
    as (r & s' & Hrun & Hc & Hm & _ & _ & Hr).
  cbn in Hr. destruct Hr as [-> _].
  exists s'. split; [exact Hrun|]. split; [exact Hc|]. rewrite Hm. reflexivity.
Defined.

(** ** Cleanup and deletion *)

(** X4: [_cleanup_resources], on resources whose scene ids are written
    in plain characters, forgets the managed resources of its key before it
    calls any handler and writes no other table. It visits resources of the
    key, each at most once and in no stated order, and asks for the
    deletion or the scene removal of each one whose protocol has a handler,
    a failing call being logged and passed over. When every reference has
    a resource type it visits them all and returns; it raises only at a
    reference without one. *)
Theorem cleanup_releases_resources {W : Type} (key : string) (s : Orchestrator.t W)
    (Hplain : set_Forall plain_scene_id
                (default ∅ (Orchestrator._managed_resources s !! key))) :
  let resources := default ∅ (Orchestrator._managed_resources s !! key) in
  ∃ r s' visited,
    Orchestrator._cleanup_resources key s = (r, s')
    ∧ Orchestrator._managed_resources s'
      = delete key (Orchestrator._managed_resources s)
    ∧ extends s s' (omap (cleanup_event (Orchestrator._handlers s)) visited)
    ∧ NoDup visited
    ∧ (∀ ref, ref ∈ visited → ref ∈ resources ∧ well_formed_ref ref)
    ∧ (set_Forall well_formed_ref resources →
       r = Ok tt ∧ visited ≡ₚ elements resources)
    ∧ (r ≠ Ok tt → ∃ ref, ref ∈ resources ∧ ¬ well_formed_ref ref).
Proof.
  intros resources.
  destruct (cleanup_resources_run key s)
    as (r & s' & visited & rest & Hrun & Hres & Hrefs & Hwf & Hext & Hend).
  fold resources in Hrefs.
  assert (Hnd : NoDup (visited ++ rest)).
  { rewrite <- Hrefs. apply NoDup_elements. }
  exists r, s', visited. split_and!; [done..| | | |].
  - by apply NoDup_app in Hnd as [? _].
  - intros ref Href. split.
    + apply elem_of_elements. rewrite Hrefs. apply elem_of_app. by left.
    + by apply (proj1 (Forall_forall _ _) Hwf).
  - intros Hall. destruct Hend as [[-> ->]|(err & ref & rest' & _ & -> & Hbad)].
    + split; [done|]. by rewrite Hrefs, app_nil_r.
    + exfalso. apply Hbad, Hall, elem_of_elements.
      rewrite Hrefs. apply elem_of_app. right. left.
  - intros Hr. destruct Hend as [[-> _]|(err & ref & rest' & _ & -> & Hbad)]; [done|].
    exists ref. split; [|done]. apply elem_of_elements.
    rewrite Hrefs. apply elem_of_app. right. left.
Qed.

Lemma cleanup_releases_resources_witness :
  set_Forall plain_scene_id
    (default ∅ (Orchestrator._managed_resources Scenario.with_movie !! "scene.movie"))
  ∧ ∃ s' visited,
      Orchestrator._cleanup_resources "scene.movie" Scenario.with_movie = (Ok tt, s')
      ∧ Orchestrator._managed_resources s' !! "scene.movie" = None
      ∧ visited
        ≡ₚ elements
             (default ∅ (Orchestrator._managed_resources Scenario.with_movie
                         !! "scene.movie")).
Proof.
  assert (Hset : default ∅ (Orchestrator._managed_resources Scenario.with_movie
                            !! "scene.movie")
                 = {["zwave_js:group:ha_scene_movie_zwave_js";
                     "zwave_js:scene:ha_scene_movie_zwave_js:100"]}).
  { apply (bool_decide_unpack _). by vm_compute. }
  assert (Hplain : set_Forall plain_scene_id
            (default ∅ (Orchestrator._managed_resources Scenario.with_movie
                        !! "scene.movie"))).
  { refine (eq_ind_r (set_Forall plain_scene_id) _ Hset). intros ref Href.
    apply elem_of_union in Href as [Href|Href];
      apply elem_of_singleton in Href as ->; intros scene Hscene;
      vm_compute in Hscene; [discriminate|].
    injection Hscene as <-. reflexivity. }
  assert (Hrefs : set_Forall well_formed_ref
            (default ∅ (Orchestrator._managed_resources Scenario.with_movie
                        !! "scene.movie"))).
  { refine (eq_ind_r (set_Forall well_formed_ref) _ Hset). intros ref Href.
    apply elem_of_union in Href as [Href|Href];
      apply elem_of_singleton in Href as ->; unfold well_formed_ref;
      vm_compute; lia. }
  split; [exact Hplain|].
  destruct (cleanup_releases_resources "scene.movie" Scenario.with_movie Hplain)
    as (r & s' & visited & Hrun & Hres & _ & _ & _ & Hall & _).
  destruct (Hall Hrefs) as [Hr Hperm].
  exists s', visited. split; [exact (eq_ind r (λ r, _ = (r, s')) Hrun _ Hr)|].
  split; [|exact Hperm].
  exact (eq_ind_r (λ m, m !! "scene.movie" = None) (lookup_delete_eq _ _) Hres).
Defined.

(** X5: when the resource references of its key are well formed, the
    deletion of a group or of a scene returns and leaves nothing under
    the key, neither mapping nor managed resource, whatever the handlers
    answer; the other keys keep theirs. *)
Theorem deletion_leaves_nothing {W : Type} (key : string) (s : Orchestrator.t W)
    (Hrefs : set_Forall well_formed_ref
               (default ∅ (Orchestrator._managed_resources s !! key))) :
  (∃ s', Orchestrator._on_group_deleted key s = (Ok tt, s')
         ∧ Orchestrator._mappings s' = delete key (Orchestrator._mappings s)
         ∧ Orchestrator._managed_resources s'
           = delete key (Orchestrator._managed_resources s))
  ∧ (∃ s', Orchestrator._on_scene_deleted key s = (Ok tt, s')
           ∧ Orchestrator._mappings s' = delete key (Orchestrator._mappings s)
           ∧ Orchestrator._managed_resources s'
             = delete key (Orchestrator._managed_resources s)).
Proof.
  destruct (cleanup_loop_ok
              (elements (default ∅ (Orchestrator._managed_resources s !! key)))
              (Orchestrator.set_managed_resources
                 (delete key (Orchestrator._managed_resources s)) s))
    as (s' & Hrun & Hres & Hext).
  { apply Forall_forall. intros ref Href. apply Hrefs. by apply elem_of_elements. }
  assert (Hclean : Orchestrator._cleanup_resources key s = (Ok tt, s')) by exact Hrun.
  assert (Hm : Orchestrator._mappings s' = Orchestrator._mappings s) by apply Hext.
  split.
  - unfold Orchestrator._on_group_deleted, SE.bind. rewrite Hclean.
    unfold Orchestrator.pop_mapping, SE.modify. eexists. split; [reflexivity|].
    cbn. by rewrite Hm, Hres.
  - unfold Orchestrator._on_scene_deleted, SE.bind. rewrite Hclean.
    unfold Orchestrator.pop_mapping, SE.modify. eexists. split; [reflexivity|].
    cbn. by rewrite Hm, Hres.
Qed.

Lemma deletion_leaves_nothing_witness :
  set_Forall well_formed_ref
    (default ∅ (Orchestrator._managed_resources Scenario.with_movie !! "scene.movie"))
  ∧ ∃ s', Orchestrator._on_scene_deleted "scene.movie" Scenario.with_movie
          = (Ok tt, s')
          ∧ Orchestrator._mappings s' !! "scene.movie" = None
          ∧ Orchestrator._managed_resources s' !! "scene.movie" = None.
Proof.
  assert (Hrefs : set_Forall well_formed_ref
            (default ∅ (Orchestrator._managed_resources Scenario.with_movie
                        !! "scene.movie"))).
  { assert (Hset : default ∅ (Orchestrator._managed_resources Scenario.with_movie
                              !! "scene.movie")
                   = {["zwave_js:group:ha_scene_movie_zwave_js";
                       "zwave_js:scene:ha_scene_movie_zwave_js:100"]}).
    { apply (bool_decide_unpack _). by vm_compute. }
    refine (eq_ind_r (set_Forall well_formed_ref) _ Hset). intros ref Href.
    apply elem_of_union in Href as [Href|Href];
      apply elem_of_singleton in Href as ->; unfold well_formed_ref;
      vm_compute; lia. }
  split; [exact Hrefs|].
  destruct (deletion_leaves_nothing "scene.movie" Scenario.with_movie Hrefs)
    as [_ (s' & Hrun & Hm & Hr)].
  exists s'. split; [exact Hrun|].
  split.
  - exact (eq_ind_r (λ m, m !! "scene.movie" = None) (lookup_delete_eq _ _) Hm).
  - exact (eq_ind_r (λ m, m !! "scene.movie" = None) (lookup_delete_eq _ _) Hr).
Defined.

(** ** Reconciliation, pass by pass *)

(** A relation every turn of a loop keeps is kept by the loop. *)
Lemma for_each_preserves {S A} (R : S → S → Prop)
    (Hrefl : ∀ s, R s s) (Htrans : ∀ s1 s2 s3, R s1 s2 → R s2 s3 → R s1 s3)
    (l : list A) (body : A → SE.t S unit) :
  (∀ x s, R s (body x s).2) → ∀ s, R s (SE.for_each l body s).2.
Proof.
  intros Hbody. induction l as [|x l IH]; intros s; cbn; [apply Hrefl|].
  unfold SE.bind. specialize (Hbody x s).
  destruct (body x s) as [[[]|err] s1]; cbn in *; [|done].
  eapply Htrans; [exact Hbody|apply IH].
Qed.

Section ReconcilePass.
Context {W : Type}.
Implicit Types s : Orchestrator.t W.

Lemma orphan_deletions_elem protocol (managed : gset string) actual_groups ev :
ev ∈ orphan_deletions protocol managed actual_groups →
∃ group info name,
  ev = Orchestrator.DeleteGroup protocol group
  ∧ (group, info) ∈ actual_groups
  ∧ Orchestrator.group_name_of info = Ok name
  ∧ startswith name "ha_" = true
  ∧ str_of_group_id (Some group) ∉ managed.
Proof.
unfold orphan_deletions. intros Hin.
apply list_elem_of_omap in Hin as ([group info] & Hin & Hev).
destruct (Orchestrator.group_name_of info) as [name|] eqn:Hname; [|done].
destruct (startswith name "ha_") eqn:Hpre; cbn in Hev; [|done].
case_bool_decide; cbn in Hev; [done|]. simplify_eq.
by exists group, info, name.
Qed.

Lemma orphan_deletions_sublist protocol (managed : gset string) actual_groups :
orphan_deletions protocol managed actual_groups
`sublist_of` (λ gi, Orchestrator.DeleteGroup protocol gi.1) <$> actual_groups.
Proof.
unfold orphan_deletions.
induction actual_groups as [|[group info] rest IH]; [done|].
cbn [omap list_omap fmap list_fmap fst].
destruct (Orchestrator.group_name_of info) as [name|]; [|by apply sublist_cons].
destruct (startswith name "ha_"
          && negb (bool_decide (str_of_group_id (Some group) ∈ managed)));
  [by apply sublist_skip|by apply sublist_cons].
Qed.

(** One protocol of the pass, with the case of a failing query. *)
Lemma reconcile_protocol_run protocol (handler : ProtocolHandler.t W) s :
∃ s' evs,
  Orchestrator.reconcile_protocol protocol handler s = (Ok tt, s')
  ∧ extends s s' (Orchestrator.GetGroups protocol :: evs)
  ∧ Orchestrator._managed_resources s' = Orchestrator._managed_resources s
  ∧ match ProtocolHandler.async_get_groups handler (Orchestrator.world s) with
    | (Ok actual_groups, _) =>
        evs `prefix_of`
          orphan_deletions protocol
            (Orchestrator.managed_group_ids protocol (Orchestrator._mappings s))
            actual_groups
    | (Raised _, _) => evs = []
    end.
Proof.
unfold Orchestrator.reconcile_protocol.
unfold SE.try_except, SE.bind at 1. rewrite call_eq.
destruct (ProtocolHandler.async_get_groups handler (Orchestrator.world s))
  as [[actual_groups|err] w1] eqn:Hget; cbn [fst snd].
- unfold SE.bind at 1. unfold SE.gets at 1.
  match goal with |- context [SE.for_each actual_groups ?body ?s1] =>
    destruct (delete_orphans_loop protocol handler
                (Orchestrator.managed_group_ids protocol
                   (Orchestrator._mappings s1)) actual_groups s1)
      as (r & s' & evs & Hrun & Hext & Hpre & _);
    assert (Hres : Orchestrator._managed_resources
                     (SE.for_each actual_groups body s1).2
                   = Orchestrator._managed_resources s1)
  end.
  { apply (for_each_preserves
             (λ a b : Orchestrator.t W,
                Orchestrator._managed_resources b
                = Orchestrator._managed_resources a));
      [done|intros; congruence|].
    intros [group info] st. unfold SE.bind, SE.lift_result.
    destruct (Orchestrator.group_name_of info) as [name|]; [|done].
    destruct (startswith name "ha_" && _); [|done].
    by rewrite call_eq. }
  rewrite Hrun in Hres. cbn [snd] in Hres. rewrite Hrun. exists s', evs.
  split_and!.
  + by destruct r as [[]|].
  + destruct Hext as (?&?&?&?&?&Htr). unfold extends. cbn in *.
    split_and!; try done. rewrite Htr. by rewrite <- app_assoc.
  + exact Hres.
  + exact Hpre.
- eexists _, []. split_and!; [done | by unfold extends | done | done].
Qed.

Lemma reconcile_loop (handlers : list (string * ProtocolHandler.t W)) : ∀ s,
∃ s' evs,
  SE.for_each handlers
    (λ '(protocol, handler), Orchestrator.reconcile_protocol protocol handler) s
  = (Ok tt, s')
  ∧ extends s s' evs
  ∧ Orchestrator._managed_resources s' = Orchestrator._managed_resources s
  ∧ Forall (reconcile_event (Orchestrator._mappings s)) evs
  ∧ queried_protocols evs = handlers.*1.
Proof.
induction handlers as [|[protocol handler] handlers IH]; intros s.
- exists s, []. split_and!; [done|apply extends_refl|done|constructor|done].
- cbn [SE.for_each]. unfold SE.bind at 1.
  destruct (reconcile_protocol_run protocol handler s)
    as (s1 & evs1 & Hrun1 & Hext1 & Hres1 & Hevs1).
  rewrite Hrun1.
  destruct (IH s1) as (s' & evs & Hrun & Hext & Hres & Hall & Hq).
  rewrite Hrun. exists s', ((Orchestrator.GetGroups protocol :: evs1) ++ evs).
  assert (Hm : Orchestrator._mappings s1 = Orchestrator._mappings s)
    by apply Hext1.
  assert (Hdel : Forall (λ ev, ∃ group, ev = Orchestrator.DeleteGroup protocol group
                               ∧ str_of_group_id (Some group)
                                 ∉ Orchestrator.managed_group_ids protocol
                                     (Orchestrator._mappings s)) evs1).
  { destruct (ProtocolHandler.async_get_groups handler (Orchestrator.world s))
      as [[actual_groups|err] w1]; [|subst evs1; constructor].
    apply Forall_forall. intros ev Hev.
    destruct (orphan_deletions_elem protocol
                (Orchestrator.managed_group_ids protocol
                   (Orchestrator._mappings s)) actual_groups ev)
      as (group & info & name & -> & _ & _ & _ & Hnot).
    { destruct Hevs1 as [k ->]. apply elem_of_app. by left. }
    by exists group. }
  split_and!; [done|by eapply extends_trans|congruence| |].
  + apply Forall_app. split; [|by rewrite <- Hm].
    constructor; [done|].
    eapply Forall_impl; [exact Hdel|]. by intros ev (group & -> & Hnot).
  + unfold queried_protocols in *. rewrite omap_app. cbn [omap list_omap].
    rewrite Hq. cbn. f_equal.
    rewrite <- (app_nil_r (omap _ evs1)). rewrite app_nil_r.
    clear -Hdel. induction Hdel as [|ev evs1 (group & -> & _) _ IH]; [done|].
    by cbn.
Qed.
End ReconcilePass.

(** X6: the reconciliation of one protocol never raises. When the
    handler reports its groups, every deletion asked of it is of a
    reported group whose name starts with [ha_] and whose id no native
    group reference of that protocol records, and a group reported once is
    deleted at most once; when the query raises, nothing is deleted. *)
Theorem reconcile_deletes_only_orphans {W : Type} (protocol : string)
    (handler : ProtocolHandler.t W) (s : Orchestrator.t W) :
  ∃ s' evs,
    Orchestrator.reconcile_protocol protocol handler s = (Ok tt, s')
    ∧ extends s s' (Orchestrator.GetGroups protocol :: evs)
    ∧ Orchestrator._managed_resources s' = Orchestrator._managed_resources s
    ∧ match ProtocolHandler.async_get_groups handler (Orchestrator.world s) with
      | (Ok actual_groups, _) =>
          evs `sublist_of`
            (λ gi, Orchestrator.DeleteGroup protocol gi.1) <$> actual_groups
          ∧ ∀ ev, ev ∈ evs →
              ∃ group info name,
                ev = Orchestrator.DeleteGroup protocol group
                ∧ (group, info) ∈ actual_groups
                ∧ Orchestrator.group_name_of info = Ok name
                ∧ startswith name "ha_" = true
                ∧ str_of_group_id (Some group)
                  ∉ Orchestrator.managed_group_ids protocol
                      (Orchestrator._mappings s)
      | (Raised _, _) => evs = []
      end.
Proof.
  destruct (reconcile_protocol_run protocol handler s)
    as (s' & evs & Hrun & Hext & Hres & Hevs).
  exists s', evs. split_and!; [done..|].
  destruct (ProtocolHandler.async_get_groups handler (Orchestrator.world s))
    as [[actual_groups|err] w1]; [|done].
  split.
  - etrans; [|apply orphan_deletions_sublist].
    destruct Hevs as [k ->]. by apply sublist_inserts_r.
  - intros ev Hev. apply orphan_deletions_elem.
    destruct Hevs as [k ->]. apply elem_of_app. by left.
Qed.

(** X7: a reconciliation pass never raises and writes none of the
    orchestrator's tables. It asks every active handler for its groups
    once, in the order of the handlers, and besides that only asks for
    deletions, never of a group whose id a native group reference of the
    protocol records. *)
Theorem reconcile_pass_frame {W : Type} (s : Orchestrator.t W) :
  ∃ s' evs,
    Orchestrator._async_reconcile s = (Ok tt, s')
    ∧ extends s s' evs
    ∧ Orchestrator._managed_resources s' = Orchestrator._managed_resources s
    ∧ Forall (reconcile_event (Orchestrator._mappings s)) evs
    ∧ queried_protocols evs = (Orchestrator._handlers s).*1.
Proof.
  unfold Orchestrator._async_reconcile, SE.bind at 1. unfold SE.gets at 1.
  apply reconcile_loop.
Qed.

(** ** Dispatch, task by task *)

Section DispatchRuns.
Context {W : Type}.
Variable hass : HomeAssistant.t.
Implicit Types s : Orchestrator.t W.

(** The standard service call: the call is made, and raises what the
  platform raises. *)
Lemma call_service_run domain service data s :
Orchestrator.call_service hass domain service data s
= (match HomeAssistant.services_async_call hass domain service data with
   | None => Ok tt
   | Some err => Raised err
   end,
   Orchestrator.mk (Orchestrator._handlers s) (Orchestrator._mappings s)
     (Orchestrator._managed_resources s) (Orchestrator._scene_id_counter s)
     (Orchestrator.world s)
     (Orchestrator.trace s
      ++ [Orchestrator.CallService (ServiceCall.mk domain service data)])
     (Orchestrator.clock s) (Orchestrator.store s)).
Proof.
unfold Orchestrator.call_service, Orchestrator.emit, SE.bind, SE.modify.
by destruct (HomeAssistant.services_async_call hass domain service data).
Qed.

Lemma captured_call_run {A} (ev : Orchestrator.event) (op : SE.t W A) s :
∃ s', SE.captured (Orchestrator.call ev op) s = (Ok tt, s')
      ∧ extends s s' [ev]
      ∧ Orchestrator._managed_resources s' = Orchestrator._managed_resources s.
Proof.
unfold SE.captured. rewrite call_eq. eexists. split; [reflexivity|].
by unfold extends.
Qed.

Lemma dispatch_ungrouped_run mapping domain service data s :
∃ s',
  Orchestrator.dispatch_ungrouped hass mapping domain service data s = (Ok tt, s')
  ∧ extends s s' (fallback_calls mapping domain service data)
  ∧ Orchestrator._managed_resources s' = Orchestrator._managed_resources s
  ∧ Orchestrator.world s' = Orchestrator.world s.
Proof.
unfold Orchestrator.dispatch_ungrouped, fallback_calls.
generalize (GroupMapping.ungrouped_entities mapping). intros l. revert s.
induction l as [|e l IH]; intros s.
- exists s. split_and!; [done|apply extends_refl|done|done].
- cbn [SE.for_each fmap list_fmap]. unfold SE.bind at 1.
  unfold SE.captured at 1. rewrite call_service_run. cbn [snd].
  match goal with |- context [SE.for_each l _ ?s1] =>
    destruct (IH s1) as (s' & Hrun & Hext & Hres & Hw) end.
  exists s'. split; [exact Hrun|]. split_and!; [|done|done].
  change (?x :: ?l) with ([x] ++ l).
  eapply extends_trans; [|exact Hext]. by unfold extends.
Qed.

Lemma dispatch_group_loop domain service data items : ∀ s,
∃ s',
  SE.for_each items
    (λ '(protocol, group_ref),
       handler <- Orchestrator.get_handler protocol ;;
       match handler with
       | None => SE.ret tt
       | Some handler =>
           let multicast :=
             Orchestrator.call
               (Orchestrator.SendMulticast protocol
                  (NativeGroupRef.member_native_ids group_ref)
                  domain service data)
               (ProtocolHandler.async_send_multicast handler
                  (NativeGroupRef.member_native_ids group_ref)
                  domain service data) in
           match NativeGroupRef.group_id group_ref with
           | Some group =>
               if group_id_truthy (Some group) then
                 SE.captured
                   (Orchestrator.call
                      (Orchestrator.SendGroupCommand protocol group
                         domain service data)
                      (ProtocolHandler.async_send_group_command handler
                         group domain service data))
               else SE.captured multicast
           | None => SE.captured multicast
           end
       end)%se s = (Ok tt, s')
  ∧ extends s s'
      (omap (group_command (Orchestrator._handlers s) domain service data) items)
  ∧ Orchestrator._managed_resources s' = Orchestrator._managed_resources s.
Proof.
induction items as [|[protocol group_ref] items IH]; intros s.
- exists s. split_and!; [done|apply extends_refl|done].
- cbn [SE.for_each omap list_omap]. unfold SE.bind at 1.
  unfold SE.bind at 1. unfold Orchestrator.get_handler at 1, SE.gets at 1.
  unfold group_command at 1. cbn [fst snd].
  destruct (dict_get protocol (Orchestrator._handlers s)) as [handler|];
    cbn [mbind option_bind].
  + assert (Hstep : ∃ s1,
              match NativeGroupRef.group_id group_ref with
              | Some group =>
                  if group_id_truthy (Some group) then
                    SE.captured
                      (Orchestrator.call
                         (Orchestrator.SendGroupCommand protocol group
                            domain service data)
                         (ProtocolHandler.async_send_group_command handler
                            group domain service data))
                  else
                    SE.captured
                      (Orchestrator.call
                         (Orchestrator.SendMulticast protocol
                            (NativeGroupRef.member_native_ids group_ref)
                            domain service data)
                         (ProtocolHandler.async_send_multicast handler
                            (NativeGroupRef.member_native_ids group_ref)
                            domain service data))
              | None =>
                  SE.captured
                    (Orchestrator.call
                       (Orchestrator.SendMulticast protocol
                          (NativeGroupRef.member_native_ids group_ref)
                          domain service data)
                       (ProtocolHandler.async_send_multicast handler
                          (NativeGroupRef.member_native_ids group_ref)
                          domain service data))
              end s = (Ok tt, s1)
              ∧ extends s s1
                  [if group_id_truthy (NativeGroupRef.group_id group_ref) then
                     match NativeGroupRef.group_id group_ref with
                     | Some group =>
                         Orchestrator.SendGroupCommand protocol group
                           domain service data
                     | None =>
                         Orchestrator.SendMulticast protocol
                           (NativeGroupRef.member_native_ids group_ref)
                           domain service data
                     end
                   else
                     Orchestrator.SendMulticast protocol
                       (NativeGroupRef.member_native_ids group_ref)
                       domain service data]
              ∧ Orchestrator._managed_resources s1
                = Orchestrator._managed_resources s).
    { destruct (NativeGroupRef.group_id group_ref) as [group|];
        [destruct (group_id_truthy (Some group))|]; apply captured_call_run. }
    destruct Hstep as (s1 & Hstep & Hext1 & Hres1).
    match goal with |- context [SE.for_each items ?b] =>
      destruct (IH s1) as (s' & Hrun & Hext & Hres) end.
    exists s'. split.
    * match goal with |- (let '(_, _) := ?t in _) = _ =>
        replace t with (Ok tt, s1) by (symmetry; exact Hstep) end.
      exact Hrun.
    * assert (Hh : Orchestrator._handlers s1 = Orchestrator._handlers s)
        by apply Hext1.
      rewrite Hh in Hext. split; [|congruence].
      change (?x :: ?l) with ([x] ++ l). by eapply extends_trans.
  + unfold SE.ret at 1. apply IH.
Qed.

Lemma dispatch_scene_loop items : ∀ s,
∃ s',
  SE.for_each items
    (λ '(protocol, scene_ref),
       handler <- Orchestrator.get_handler protocol ;;
       match handler with
       | Some handler =>
           SE.captured
             (Orchestrator.call
                (Orchestrator.RecallScene protocol
                   (GidStr (NativeSceneRef.group_name scene_ref))
                   (NativeSceneRef.scene_id scene_ref))
                (ProtocolHandler.async_recall_scene handler
                   (GidStr (NativeSceneRef.group_name scene_ref))
                   (NativeSceneRef.scene_id scene_ref)))
       | None => SE.ret tt
       end)%se s = (Ok tt, s')
  ∧ extends s s' (omap (scene_recall (Orchestrator._handlers s)) items)
  ∧ Orchestrator._managed_resources s' = Orchestrator._managed_resources s.
Proof.
induction items as [|[protocol scene_ref] items IH]; intros s.
- exists s. split_and!; [done|apply extends_refl|done].
- cbn [SE.for_each omap list_omap]. unfold SE.bind at 1.
  unfold SE.bind at 1. unfold Orchestrator.get_handler at 1, SE.gets at 1.
  unfold scene_recall at 1. cbn [fst snd].
  destruct (dict_get protocol (Orchestrator._handlers s)) as [handler|];
    cbn [mbind option_bind].
  + match goal with |- context [SE.captured (Orchestrator.call ?ev ?op) s] =>
      destruct (captured_call_run ev op s) as (s1 & Hstep & Hext1 & Hres1) end.
    rewrite Hstep.
    destruct (IH s1) as (s' & Hrun & Hext & Hres).
    exists s'. split; [exact Hrun|].
    assert (Hh : Orchestrator._handlers s1 = Orchestrator._handlers s)
      by apply Hext1.
    rewrite Hh in Hext. split; [|congruence].
    change (?x :: ?l) with ([x] ++ l). by eapply extends_trans.
  + unfold SE.ret at 1. apply IH.
Qed.

Lemma dispatch_group_run mapping domain service data s :
∃ s',
  Orchestrator._dispatch_group hass mapping domain service data s = (Ok tt, s')
  ∧ extends s s'
      (omap (group_command (Orchestrator._handlers s) domain service data)
         (map_to_list (GroupMapping.native_groups mapping))
       ++ fallback_calls mapping domain service data)
  ∧ Orchestrator._managed_resources s' = Orchestrator._managed_resources s.
Proof.
unfold Orchestrator._dispatch_group. unfold SE.bind at 1.
destruct (dispatch_group_loop domain service data
            (map_to_list (GroupMapping.native_groups mapping)) s)
  as (s1 & Hrun1 & Hext1 & Hres1).
match goal with |- context [SE.for_each ?l ?b s] =>
  replace (SE.for_each l b s) with (Ok tt, s1) by (symmetry; exact Hrun1) end.
destruct (dispatch_ungrouped_run mapping domain service data s1)
  as (s' & Hrun & Hext & Hres & _).
exists s'. split; [exact Hrun|]. split; [by eapply extends_trans|congruence].
Qed.

Lemma dispatch_scene_run mapping domain service data s :
∃ s',
  Orchestrator._dispatch_scene hass mapping domain service data s = (Ok tt, s')
  ∧ extends s s'
      (omap (scene_recall (Orchestrator._handlers s))
         (map_to_list (GroupMapping.native_scenes mapping))
       ++ fallback_calls mapping domain service data)
  ∧ Orchestrator._managed_resources s' = Orchestrator._managed_resources s.
Proof.
unfold Orchestrator._dispatch_scene. unfold SE.bind at 1.
destruct (dispatch_scene_loop
            (map_to_list (GroupMapping.native_scenes mapping)) s)
  as (s1 & Hrun1 & Hext1 & Hres1).
match goal with |- context [SE.for_each ?l ?b s] =>
  replace (SE.for_each l b s) with (Ok tt, s1) by (symmetry; exact Hrun1) end.
destruct (dispatch_ungrouped_run mapping domain service data s1)
  as (s' & Hrun & Hext & Hres & _).
exists s'. split; [exact Hrun|]. split; [by eapply extends_trans|congruence].
Qed.

Lemma group_command_dispatch_event handlers domain service data items :
Forall is_dispatch_event
  (omap (group_command (W := W) handlers domain service data) items).
Proof.
apply Forall_forall. intros ev Hev.
apply list_elem_of_omap in Hev as ([p r] & _ & Hev).
unfold group_command in Hev. cbn in Hev.
destruct (dict_get p handlers); [|done]. cbn in Hev. simplify_eq.
destruct (NativeGroupRef.group_id r) as [g|]; [|done].
by destruct (group_id_truthy (Some g)).
Qed.

Lemma scene_recall_dispatch_event handlers items :
Forall is_dispatch_event (omap (scene_recall (W := W) handlers) items).
Proof.
apply Forall_forall. intros ev Hev.
apply list_elem_of_omap in Hev as ([p r] & _ & Hev).
unfold scene_recall in Hev. cbn in Hev.
destruct (dict_get p handlers); [|done]. cbn in Hev. by simplify_eq.
Qed.

Lemma fallback_calls_dispatch_event mapping domain service data :
Forall is_dispatch_event (fallback_calls mapping domain service data).
Proof. unfold fallback_calls. apply Forall_fmap. by apply Forall_true. Qed.

Lemma run_tasks_frame domain service data tasks : ∀ s,
∃ s' evs,
  SE.for_each tasks (Orchestrator.run_task hass domain service data) s = (Ok tt, s')
  ∧ extends s s' evs
  ∧ Orchestrator._managed_resources s' = Orchestrator._managed_resources s
  ∧ Forall is_dispatch_event evs.
Proof.
induction tasks as [|task tasks IH]; intros s.
- exists s, []. split_and!; [done|apply extends_refl|done|constructor].
- cbn [SE.for_each]. unfold SE.bind at 1.
  assert (Hstep : ∃ s1 evs1,
            Orchestrator.run_task hass domain service data task s = (Ok tt, s1)
            ∧ extends s s1 evs1
            ∧ Orchestrator._managed_resources s1
              = Orchestrator._managed_resources s
            ∧ Forall is_dispatch_event evs1).
  { destruct task as [mapping|mapping]; cbn [Orchestrator.run_task];
      unfold SE.captured.
    - destruct (dispatch_scene_run mapping domain service data s)
        as (s1 & -> & Hext & Hres). eexists _, _.
      split_and!; [done..|]. apply Forall_app. split.
      + apply scene_recall_dispatch_event.
      + apply fallback_calls_dispatch_event.
    - destruct (dispatch_group_run mapping domain service data s)
        as (s1 & -> & Hext & Hres). eexists _, _.
      split_and!; [done..|]. apply Forall_app. split.
      + apply group_command_dispatch_event.
      + apply fallback_calls_dispatch_event. }
  destruct Hstep as (s1 & evs1 & -> & Hext1 & Hres1 & Hall1).
  destruct (IH s1) as (s' & evs & Hrun & Hext & Hres & Hall).
  exists s', (evs1 ++ evs).
  split_and!; [done|by eapply extends_trans|congruence|by apply Forall_app].
Qed.
End DispatchRuns.

(** X8: [_dispatch_group] never raises, whatever the handlers and the
    service calls answer, and writes none of the orchestrator's tables. It
    asks exactly one command per native group reference whose protocol has
    a handler (the group command when the reference carries a group id,
    the multicast to its members otherwise), in no stated order, nothing
    for a reference whose protocol has no handler, and then one service
    call per ungrouped entity. *)
Theorem dispatch_group_commands {W : Type} (hass : HomeAssistant.t)
    (mapping : GroupMapping.t) (domain service : string)
    (data : list (string * pyval)) (s : Orchestrator.t W) :
  ∃ s' commands,
    Orchestrator._dispatch_group hass mapping domain service data s = (Ok tt, s')
    ∧ extends s s' (commands ++ fallback_calls mapping domain service data)
    ∧ commands
      ≡ₚ omap (group_command (Orchestrator._handlers s) domain service data)
           (map_to_list (GroupMapping.native_groups mapping))
    ∧ Orchestrator._managed_resources s' = Orchestrator._managed_resources s.
Proof.
  destruct (dispatch_group_run hass mapping domain service data s)
    as (s' & Hrun & Hext & Hres).
  by eexists s', _.
Qed.

(** X9: [_dispatch_scene] never raises and writes none of the
    orchestrator's tables. Whatever the domain, the service and the data
    of the call, it asks one scene recall per native scene reference whose
    protocol has a handler, in no stated order, and then one service call
    per ungrouped entity; it sends no group command and no multicast. *)
Theorem dispatch_scene_recalls {W : Type} (hass : HomeAssistant.t)
    (mapping : GroupMapping.t) (domain service : string)
    (data : list (string * pyval)) (s : Orchestrator.t W) :
  ∃ s' recalls,
    Orchestrator._dispatch_scene hass mapping domain service data s = (Ok tt, s')
    ∧ extends s s' (recalls ++ fallback_calls mapping domain service data)
    ∧ recalls
      ≡ₚ omap (scene_recall (Orchestrator._handlers s))
           (map_to_list (GroupMapping.native_scenes mapping))
    ∧ Forall (λ ev, ∃ protocol group scene_id,
                ev = Orchestrator.RecallScene protocol group scene_id) recalls
    ∧ Orchestrator._managed_resources s' = Orchestrator._managed_resources s.
Proof.
  destruct (dispatch_scene_run hass mapping domain service data s)
    as (s' & Hrun & Hext & Hres).
  eexists s', _. split_and!; [done..| |done].
  apply Forall_forall. intros ev Hev.
  apply list_elem_of_omap in Hev as ([p r] & _ & Hev).
  unfold scene_recall in Hev. cbn in Hev.
  destruct (dict_get p (Orchestrator._handlers s)); [|done].
  cbn in Hev. simplify_eq. by eexists _, _, _.
Qed.

(** X10: [async_dispatch] writes none of the orchestrator's tables,
    whether it returns or raises, and asks only for group commands,
    multicasts, scene recalls and service calls: it never creates or
    deletes a group and never stores or removes a scene. *)
Theorem dispatch_frame {W : Type} (hass : HomeAssistant.t)
    (str_of_other : pyval → string) (domain service : string)
    (data : list (string * pyval)) (s : Orchestrator.t W) :
  ∃ r s' evs,
    Orchestrator.async_dispatch hass str_of_other domain service data s = (r, s')
    ∧ extends s s' evs
    ∧ Orchestrator._managed_resources s' = Orchestrator._managed_resources s
    ∧ Forall is_dispatch_event evs.
Proof.
  unfold Orchestrator.async_dispatch.
  unfold SE.bind at 1. unfold SE.gets at 1.
  destruct (Orchestrator.dispatch_plan (Orchestrator._mappings s) data
              (Orchestrator.dispatch_targets str_of_other) (false, []))
    as [[handled tasks] raised].
  unfold SE.bind.
  destruct (run_tasks_frame hass domain service data tasks s)
    as (s' & evs & -> & Hext & Hres & Hall).
  destruct raised; eexists _, s', evs; by split_and!.
Qed.

(** X11: the dispatch service. With no config entry loaded it raises and
    does nothing. Otherwise, on a call whose targets are each absent, one
    id or a list of ids, it runs the orchestrator of the first entry: when
    some target has a mapping it returns what [async_dispatch] did and adds
    nothing to it; when none has, it makes the standard service call, once
    and with the targets written over the data, asks nothing else, and
    returns or raises as that call does. *)
Theorem handle_dispatch_falls_back {W : Type} (hass : HomeAssistant.t)
    (str_of_other : pyval → string) (domain service : string)
    (target data : list (string * pyval))
    (orchestrator : Orchestrator.t W) (others : list (Orchestrator.t W))
    (Hshaped : targets_shaped (Services.service_data target data)) :
  let service_data := Services.service_data target data in
  let mapped := some_target_mapped (Orchestrator._mappings orchestrator) service_data in
  Services.handle_dispatch hass str_of_other domain service target data
    (@nil (Orchestrator.t W)) = (Raised "not_loaded", [])
  ∧ ∃ r orchestrator',
      Services.handle_dispatch hass str_of_other domain service target data
        (orchestrator :: others) = (r, orchestrator' :: others)
      ∧ (mapped →
         r = Ok tt
         ∧ Orchestrator.async_dispatch hass str_of_other domain service
             service_data orchestrator = (Ok true, orchestrator'))
      ∧ (¬ mapped →
         r = match HomeAssistant.services_async_call hass domain service
                     service_data with
             | None => Ok tt
             | Some err => Raised err
             end
         ∧ extends orchestrator orchestrator'
             [Orchestrator.CallService (ServiceCall.mk domain service service_data)]
         ∧ Orchestrator.world orchestrator' = Orchestrator.world orchestrator
         ∧ Orchestrator._managed_resources orchestrator'
           = Orchestrator._managed_resources orchestrator).
Proof.
  intros service_data mapped. split; [reflexivity|].
  destruct (dispatch_shaped_run hass str_of_other domain service service_data
              orchestrator Hshaped) as (handled & s1 & Hdisp & Hiff & Hsame).
  unfold Services.handle_dispatch. cbn [Services._get_orchestrator tail].
  fold service_data. unfold SE.bind at 1. rewrite Hdisp.
  destruct handled.
  - unfold SE.ret. exists (Ok tt), s1. split; [done|]. split; [done|].
    intros Hn. exfalso. apply Hn. by apply Hiff.
  - rewrite (Hsame eq_refl). rewrite call_service_run.
    eexists _, _. split; [reflexivity|]. split.
    + intros Hm. by apply Hiff in Hm.
    + intros _. split; [done|]. by unfold extends.
Qed.

Lemma handle_dispatch_falls_back_witness :
  targets_shaped
    (Services.service_data [("entity_id", PStr "light.porch")]
       [("brightness", PInt 10)])
  ∧ ∃ orchestrator',
      Services.handle_dispatch Scenario.hass (λ _, "") "light" "turn_on"
        [("entity_id", PStr "light.porch")] [("brightness", PInt 10)]
        [Scenario.with_lights] = (Ok tt, [orchestrator'])
      ∧ Orchestrator.trace orchestrator'
        = Orchestrator.trace Scenario.with_lights
          ++ [Orchestrator.CallService
                (ServiceCall.mk "light" "turn_on"
                   [("brightness", PInt 10); ("entity_id", PStr "light.porch")])].
Proof.
  assert (Hshaped : targets_shaped
            (Services.service_data [("entity_id", PStr "light.porch")]
               [("brightness", PInt 10)])).
  { unfold targets_shaped. repeat (apply List.Forall_cons; [exact I|]).
    apply List.Forall_nil. }
  split; [exact Hshaped|].
  destruct (handle_dispatch_falls_back Scenario.hass (λ _, "") "light" "turn_on"
              [("entity_id", PStr "light.porch")] [("brightness", PInt 10)]
              Scenario.with_lights [] Hshaped)
    as (_ & r & s' & Hrun & _ & Hfb).
  assert (Hunmapped :
    ¬ some_target_mapped (Orchestrator._mappings Scenario.with_lights)
        (Services.service_data [("entity_id", PStr "light.porch")]
           [("brightness", PInt 10)])).
  { intros (key & Hin & Hs).
    apply list_elem_of_singleton in Hin. subst key.
    vm_compute in Hs. destruct Hs as [m Hm]. discriminate Hm. }
  destruct (Hfb Hunmapped) as (Hr & Hext & _).
  exists s'. split.
  - exact (eq_ind r (λ r, _ = (r, [s'])) Hrun _ Hr).
  - exact (proj2 (proj2 (proj2 (proj2 (proj2 Hext))))).
Defined.

(** ** Classification *)

(** X12: what [classify_entity] returns is consistent with its
    protocol. It keeps the entity id. A Z-Wave JS classification carries
    the node id as native id (none when the unique id does not hold one); a
    ZHA classification the IEEE address; a Zigbee2MQTT classification always
    has a non-empty address as native id; an unknown one has no native id.
    An entity without a registry entry is unknown and has no capability. *)
Theorem classification_is_consistent (hass : HomeAssistant.t) (entity_id : string) :
  let info := Classifier.classify_entity hass entity_id in
  ProtocolInfo.entity_id info = entity_id
  ∧ ((ProtocolInfo.protocol info = PROTOCOL_ZWAVE_JS
      ∧ ProtocolInfo.native_id info = NodeId <$> ProtocolInfo.node_id info
      ∧ ProtocolInfo.ieee_address info = None)
     ∨ (ProtocolInfo.protocol info = PROTOCOL_ZHA
        ∧ ProtocolInfo.native_id info = Address <$> ProtocolInfo.ieee_address info
        ∧ ProtocolInfo.node_id info = None)
     ∨ (ProtocolInfo.protocol info = PROTOCOL_ZIGBEE2MQTT
        ∧ (∃ address, address ≠ ""
                      ∧ ProtocolInfo.native_id info = Some (Address address)
                      ∧ ProtocolInfo.ieee_address info = Some address)
        ∧ ProtocolInfo.node_id info = None)
     ∨ (ProtocolInfo.protocol info = PROTOCOL_UNKNOWN
        ∧ ProtocolInfo.native_id info = None
        ∧ ProtocolInfo.node_id info = None
        ∧ ProtocolInfo.ieee_address info = None))
  ∧ (HomeAssistant.ent_reg_get hass entity_id = None →
     ProtocolInfo.protocol info = PROTOCOL_UNKNOWN
     ∧ ProtocolInfo.capability info = None)
  ∧ (is_Some (HomeAssistant.ent_reg_get hass entity_id) →
     ProtocolInfo.capability info = Classifier._detect_capability hass entity_id).
Proof.
  cbn zeta. unfold Classifier.classify_entity.
  destruct (HomeAssistant.ent_reg_get hass entity_id) as [entry|].
  2:{ cbn. split_and!; [done| |done|]; [by repeat right|]. by intros []. }
  case_bool_decide.
  { cbn. split_and!; [done|by left|done|done]. }
  case_bool_decide.
  { cbn. split_and!; [done|by right; left|done|done]. }
  destruct (bool_decide (RegistryEntry.platform entry = "mqtt")
            && opt_str_truthy (RegistryEntry.device_id entry)).
  2:{ cbn. split_and!; [done| |done|done]. by repeat right. }
  destruct (HomeAssistant.dev_reg_get hass _) as [device|].
  2:{ cbn. split_and!; [done| |done|done]. by repeat right. }
  destruct (Classifier._extract_z2m_identifier device) as [address|] eqn:Hid.
  2:{ cbn. split_and!; [done| |done|done]. by repeat right. }
  cbn [opt_str_truthy]. case_bool_decide as Hne; cbn [negb].
  { cbn. split_and!; [done| |done|done]. by repeat right. }
  cbn. split_and!; [done| |done|done]. right. right. left.
  split; [done|]. split; [|done]. by exists address.
Qed.

(** X13: the capability [_detect_capability] gives depends on the
    domain of the entity id: none exactly for a domain outside
    [ZWAVE_GROUPABLE_DOMAINS]; [binary] for a switch; [dimmer] or [color]
    for a light, [dimmer] when the light has no state or lists no colour
    mode; [dimmer] or [binary] for a cover, [dimmer] exactly when its state
    has the position bit (4) among its supported features. *)
Theorem capability_follows_domain (hass : HomeAssistant.t) (entity_id : string) :
  let domain := default "" (head (split "." entity_id)) in
  let capability := Classifier._detect_capability hass entity_id in
  (capability = None ↔ domain ∉ ZWAVE_GROUPABLE_DOMAINS)
  ∧ (∀ c, capability = Some c →
          c ∈ [ZWAVE_CAP_BINARY; ZWAVE_CAP_DIMMER; ZWAVE_CAP_COLOR])
  ∧ (domain = "switch" → capability = Some ZWAVE_CAP_BINARY)
  ∧ (domain = "light" →
     (capability = Some ZWAVE_CAP_DIMMER ∨ capability = Some ZWAVE_CAP_COLOR)
     ∧ (default [] (HomeAssistant.states_get hass entity_id
                    ≫= State.attr_supported_color_modes) = [] →
        capability = Some ZWAVE_CAP_DIMMER))
  ∧ (domain = "cover" →
     capability
     = Some (if bool_decide
                  (Z.land (default 0%Z (HomeAssistant.states_get hass entity_id
                                        ≫= State.attr_supported_features)) 4
                   ≠ 0%Z)
             then ZWAVE_CAP_DIMMER else ZWAVE_CAP_BINARY)).
Proof.
  cbn zeta. unfold Classifier._detect_capability.
  set (domain := default "" (head (split "." entity_id))).
  unfold ZWAVE_GROUPABLE_DOMAINS, ZWAVE_CAP_BINARY, ZWAVE_CAP_DIMMER, ZWAVE_CAP_COLOR.
  destruct (decide (domain ∈ ["light"; "switch"; "cover"])) as [Hin|Hout].
  2:{ rewrite bool_decide_eq_false_2 by done. cbn [negb].
      split_and!; [done|done|..]; intros Hd; exfalso; apply Hout; rewrite Hd;
        by repeat first [apply list_elem_of_here | apply list_elem_of_further]. }
  rewrite bool_decide_eq_true_2 by done. cbn [negb].
  assert (Hcases : domain = "light" ∨ domain = "switch" ∨ domain = "cover").
  { repeat (apply elem_of_cons in Hin as [Hin|Hin]; [by auto|]).
    by apply elem_of_nil in Hin. }
  clear Hin. clearbody domain.
  destruct Hcases as [Hd | [Hd | Hd]]; subst domain.
  - rewrite (bool_decide_eq_false_2 ("light" = "switch")) by done.
    rewrite (bool_decide_eq_true_2 ("light" = "light")) by done.
    destruct (HomeAssistant.states_get hass entity_id) as [state|];
      cbn [mbind option_bind from_option id]; [|(split_and!;
      [split; [done|intros Hn; exfalso; apply Hn; by repeat first [apply list_elem_of_here | apply list_elem_of_further]]
      |intros c [= <-]; by repeat first [apply list_elem_of_here | apply list_elem_of_further]
      |try done
      |try done; intros _; (split; [by (left + right)|try done])
      |try done])].
    destruct (State.attr_supported_color_modes state) as [[|m ms]|];
      cbn [from_option id bool_decide decide_rel negb]; [(split_and!;
      [split; [done|intros Hn; exfalso; apply Hn; by repeat first [apply list_elem_of_here | apply list_elem_of_further]]
      |intros c [= <-]; by repeat first [apply list_elem_of_here | apply list_elem_of_further]
      |try done
      |try done; intros _; (split; [by (left + right)|try done])
      |try done])| |(split_and!;
      [split; [done|intros Hn; exfalso; apply Hn; by repeat first [apply list_elem_of_here | apply list_elem_of_further]]
      |intros c [= <-]; by repeat first [apply list_elem_of_here | apply list_elem_of_further]
      |try done
      |try done; intros _; (split; [by (left + right)|try done])
      |try done])].
    rewrite (bool_decide_eq_false_2 (m :: ms = [])) by done. cbn [negb].
    destruct (Classifier.intersects (m :: ms) (HomeAssistant.COLOR_MODES_COLOR hass));
      [|destruct (Classifier.intersects (m :: ms)
                    (HomeAssistant.COLOR_MODES_BRIGHTNESS hass))];
      (split_and!;
      [split; [done|intros Hn; exfalso; apply Hn; by repeat first [apply list_elem_of_here | apply list_elem_of_further]]
      |intros c [= <-]; by repeat first [apply list_elem_of_here | apply list_elem_of_further]
      |try done
      |try done; intros _; (split; [by (left + right)|try done])
      |try done]).
  - rewrite (bool_decide_eq_true_2 ("switch" = "switch")) by done.
    (split_and!;
      [split; [done|intros Hn; exfalso; apply Hn; by repeat first [apply list_elem_of_here | apply list_elem_of_further]]
      |intros c [= <-]; by repeat first [apply list_elem_of_here | apply list_elem_of_further]
      |try done
      |try done; intros _; (split; [by (left + right)|try done])
      |try done]).
  - rewrite (bool_decide_eq_false_2 ("cover" = "switch")) by done.
    rewrite (bool_decide_eq_false_2 ("cover" = "light")) by done.
    rewrite (bool_decide_eq_true_2 ("cover" = "cover")) by done.
    destruct (HomeAssistant.states_get hass entity_id) as [state|];
      cbn [mbind option_bind from_option id].
    + destruct (Z.eqb_spec
                  (Z.land (default 0%Z (State.attr_supported_features state)) 4) 0)
        as [Hz|Hnz]; cbn [negb].
      * rewrite bool_decide_eq_false_2 by (intros H; by apply H).
        (split_and!;
      [split; [done|intros Hn; exfalso; apply Hn; by repeat first [apply list_elem_of_here | apply list_elem_of_further]]
      |intros c [= <-]; by repeat first [apply list_elem_of_here | apply list_elem_of_further]
      |try done
      |try done; intros _; (split; [by (left + right)|try done])
      |try done]).
      * rewrite bool_decide_eq_true_2 by done.
        (split_and!;
      [split; [done|intros Hn; exfalso; apply Hn; by repeat first [apply list_elem_of_here | apply list_elem_of_further]]
      |intros c [= <-]; by repeat first [apply list_elem_of_here | apply list_elem_of_further]
      |try done
      |try done; intros _; (split; [by (left + right)|try done])
      |try done]).
    + change (Z.land 0 4) with 0%Z.
      rewrite bool_decide_eq_false_2 by (intros H; by apply H).
      (split_and!;
      [split; [done|intros Hn; exfalso; apply Hn; by repeat first [apply list_elem_of_here | apply list_elem_of_further]]
      |intros c [= <-]; by repeat first [apply list_elem_of_here | apply list_elem_of_further]
      |try done
      |try done; intros _; (split; [by (left + right)|try done])
      |try done]).
Qed.

(** X14: [classify_entities] sorts the entities by protocol without
    losing or repeating any: the protocols of the result are distinct, and
    the list under a protocol is exactly the classifications of the
    entities on that protocol, in the order given and never empty; so every
    entity is in the list of its protocol and in no other. *)
Theorem classification_partitions (hass : HomeAssistant.t) (entity_ids : list string) :
  let by_protocol := Classifier.classify_entities hass entity_ids in
  NoDup by_protocol.*1
  ∧ (∀ protocol entities,
       (protocol, entities) ∈ by_protocol
       ↔ entities = members_on hass protocol entity_ids ∧ entities ≠ [])
  ∧ (∀ entity_id protocol entities,
       entity_id ∈ entity_ids →
       (protocol, entities) ∈ by_protocol →
       (Classifier.classify_entity hass entity_id ∈ entities
        ↔ ProtocolInfo.protocol (Classifier.classify_entity hass entity_id)
          = protocol)).
Proof.
  cbn zeta. split; [apply classify_entities_NoDup|].
  rewrite classify_entities_group_by.
  split.
  - intros protocol entities. apply group_by_elem.
  - intros entity_id protocol entities Hin Hbucket.
    apply group_by_elem in Hbucket as [-> _]. rewrite bucket_elem.
    split; [by intros [_ ?]|]. intros Hp. split; [|done].
    apply list_elem_of_fmap. by exists entity_id.
Qed.

(** ** Capability groups *)

Section Capabilities.
Implicit Types (es : list ProtocolInfo.t).

Lemma split_by_capability_acc es : ∀ b d c u,
foldl (λ '(members_by_capability, ungrouped) entity,
         match ProtocolInfo.capability entity with
         | None => (members_by_capability,
                    ungrouped ++ [ProtocolInfo.entity_id entity])
         | Some capability =>
             if dict_contains capability members_by_capability
                && native_id_truthy (ProtocolInfo.native_id entity)
             then (dict_append capability (ProtocolInfo.native_id entity)
                     members_by_capability, ungrouped)
             else (members_by_capability, ungrouped)
         end)
      ([(ZWAVE_CAP_BINARY, b); (ZWAVE_CAP_DIMMER, d); (ZWAVE_CAP_COLOR, c)], u) es
= ([(ZWAVE_CAP_BINARY, b ++ capability_members ZWAVE_CAP_BINARY es);
    (ZWAVE_CAP_DIMMER, d ++ capability_members ZWAVE_CAP_DIMMER es);
    (ZWAVE_CAP_COLOR, c ++ capability_members ZWAVE_CAP_COLOR es)],
   u ++ without_capability es).
Proof.
unfold capability_members, without_capability,
  ZWAVE_CAP_BINARY, ZWAVE_CAP_DIMMER, ZWAVE_CAP_COLOR.
induction es as [|e es IH]; intros b d c u.
- cbn. by rewrite !app_nil_r.
- cbn [foldl List.filter].
  destruct (ProtocolInfo.capability e) as [cap|] eqn:Hcap.
  2:{ rewrite IH. cbn [fmap list_fmap].
      rewrite !(bool_decide_eq_false_2 (None = Some _)) by done.
      rewrite (bool_decide_eq_true_2 (None = None)) by done.
      cbn [andb fmap list_fmap]. by rewrite <- app_assoc. }
  rewrite (bool_decide_eq_false_2 (Some cap = None)) by done.
  destruct (native_id_truthy (ProtocolInfo.native_id e)) eqn:Hid.
  2:{ rewrite andb_false_r, IH. by rewrite !andb_false_r. }
  rewrite !andb_true_r.
  destruct (decide (cap = "binary")) as [->|Hb].
  { change (dict_contains "binary" _) with true. cbv iota.
    change (dict_append "binary" ?x [("binary", b); ("dimmer", d); ("color", c)])
      with [("binary", b ++ [x]); ("dimmer", d); ("color", c)].
    rewrite IH.
    rewrite (bool_decide_eq_true_2 (Some "binary" = Some "binary")) by done.
    rewrite (bool_decide_eq_false_2 (Some "binary" = Some "dimmer")) by done.
    rewrite (bool_decide_eq_false_2 (Some "binary" = Some "color")) by done.
    cbn [fmap list_fmap]. by rewrite <- app_assoc. }
  destruct (decide (cap = "dimmer")) as [->|Hd].
  { change (dict_contains "dimmer" _) with true. cbv iota.
    change (dict_append "dimmer" ?x [("binary", b); ("dimmer", d); ("color", c)])
      with [("binary", b); ("dimmer", d ++ [x]); ("color", c)].
    rewrite IH.
    rewrite (bool_decide_eq_true_2 (Some "dimmer" = Some "dimmer")) by done.
    rewrite (bool_decide_eq_false_2 (Some "dimmer" = Some "binary")) by done.
    rewrite (bool_decide_eq_false_2 (Some "dimmer" = Some "color")) by done.
    cbn [fmap list_fmap]. by rewrite <- app_assoc. }
  destruct (decide (cap = "color")) as [->|Hc].
  { change (dict_contains "color" _) with true. cbv iota.
    change (dict_append "color" ?x [("binary", b); ("dimmer", d); ("color", c)])
      with [("binary", b); ("dimmer", d); ("color", c ++ [x])].
    rewrite IH.
    rewrite (bool_decide_eq_true_2 (Some "color" = Some "color")) by done.
    rewrite (bool_decide_eq_false_2 (Some "color" = Some "binary")) by done.
    rewrite (bool_decide_eq_false_2 (Some "color" = Some "dimmer")) by done.
    cbn [fmap list_fmap]. by rewrite <- app_assoc. }
  assert (Hno : dict_contains cap [("binary", b); ("dimmer", d); ("color", c)]
                = false).
  { unfold dict_contains. apply bool_decide_eq_false_2.
    rewrite !dict_get_cons, dict_get_nil.
    repeat (case_decide; [congruence|]). by intros []. }
  rewrite Hno. cbv iota. rewrite IH.
  by rewrite !bool_decide_eq_false_2 by congruence.
Qed.
End Capabilities.

(** X15: the loop of [_create_zwave_capability_groups] files each
    entity once at most: under [binary], [dimmer] or [color] go, in order,
    the native ids of the entities with that capability and a truthy native
    id; the entities without a capability are the ungrouped ones; an entity
    with a capability and no or a zero node id is in none of the four
    lists. *)
Theorem capability_groups_by_filter (entities : list ProtocolInfo.t) :
  Orchestrator.split_by_capability entities
  = ([(ZWAVE_CAP_BINARY, capability_members ZWAVE_CAP_BINARY entities);
      (ZWAVE_CAP_DIMMER, capability_members ZWAVE_CAP_DIMMER entities);
      (ZWAVE_CAP_COLOR, capability_members ZWAVE_CAP_COLOR entities)],
     without_capability entities).
Proof.
  unfold Orchestrator.split_by_capability. by rewrite split_by_capability_acc.
Qed.

(** ** Identifiers written and read back *)

Section Strings.

Lemma pretty_N_char_digit (n : N) :
(n < 10)%N →
is_digit (pretty_N_char n) = true
∧ Z.of_nat (nat_of_ascii (pretty_N_char n) - 48) = Z.of_N n.
Proof.
intros Hn.
assert (n = 0 ∨ n = 1 ∨ n = 2 ∨ n = 3 ∨ n = 4 ∨ n = 5 ∨ n = 6 ∨ n = 7
        ∨ n = 8 ∨ n = 9)%N as Hcases by lia.
repeat (destruct Hcases as [->|Hcases]; [by vm_compute|]). subst. by vm_compute.
Qed.

Lemma digits_value_pretty_go (x : N) : ∀ s acc,
acc = 0%Z →
digits_value acc (pretty_N_go x s) = digits_value (Z.of_N x) s.
Proof.
induction (N.lt_wf_0 x) as [x _ IH]. intros s acc ->.
destruct (decide (x = 0)%N) as [->|Hx]; [done|].
rewrite pretty_N_go_step by lia.
rewrite (IH (x `div` 10)%N) by (try apply N.div_lt; lia || done).
cbn [digits_value].
destruct (pretty_N_char_digit (x `mod` 10)%N) as [-> ->];
  [by apply N.mod_lt|].
f_equal. rewrite (N.div_mod x 10) at 3 by done. lia.
Qed.

Lemma digits_value_nil acc : digits_value acc "" = Some acc.
Proof. done. Qed.

Lemma int_of_str_digits (s : string) (z : Z) :
digits_value 0 s = Some z → z ≠ 0%Z → int_of_str s = Some z.
Proof.
intros Hs Hz. destruct s as [|c s]; [cbn in Hs; congruence|].
unfold int_of_str.
destruct (decide (c = "-"%char)) as [->|Hm]; [by cbn in Hs|].
destruct (decide (c = "+"%char)) as [->|Hp]; [by cbn in Hs|].
destruct c as [[] [] [] [] [] [] [] []]; try done.
Qed.

Lemma int_of_str_of_int (z : Z) : int_of_str (str_of_int z) = Some z.
Proof.
unfold str_of_int, pretty, pretty_Z.
destruct z as [|p|p]; [done| |].
- unfold pretty, pretty_positive, pretty, pretty_N.
  rewrite decide_False by done. apply int_of_str_digits; [|done].
  by rewrite digits_value_pretty_go.
- unfold pretty, pretty_positive, pretty, pretty_N.
  rewrite decide_False by done.
  assert (Hd : digits_value 0 (pretty_N_go (N.pos p) "") = Some (Z.pos p))
    by by rewrite digits_value_pretty_go.
  destruct (pretty_N_go (N.pos p) "") as [|c s]; [by cbn in Hd|].
  change (Z.opp <$> digits_value 0 (String c s) = Some (Z.neg p)).
  by rewrite Hd.
Qed.

(** [c in s] for a character. *)
Lemma contains_char_cons (c a : ascii) (s : string) :
contains (String c "") (String a s)
= (if Ascii.eqb a c then true else contains (String c "") s).
Proof.
cbn. destruct (Ascii.eqb_spec a c) as [->|Hne].
- destruct (ascii_dec c c); [|done]. by destruct s.
- destruct (ascii_dec c a) as [->|]; [done|]. done.
Qed.

Lemma split_without (c : ascii) (s : string) :
contains (String c "") s = false → split c s = [s].
Proof.
induction s as [|a s IH]; [done|]. rewrite contains_char_cons. cbn [split].
destruct (Ascii.eqb a c); [done|]. intros H. by rewrite IH.
Qed.

Lemma split_at_first (c : ascii) (a b : string) :
contains (String c "") a = false →
split c (a +:+ String c b) = a :: split c b.
Proof.
induction a as [|x a IH].
- intros _. change (split c (String c b) = "" :: split c b).
  cbn [split]. by rewrite Ascii.eqb_refl.
- rewrite contains_char_cons.
  change (String x a +:+ String c b) with (String x (a +:+ String c b)).
  cbn [split]. destruct (Ascii.eqb x c); [done|].
  intros H. by rewrite IH.
Qed.

Lemma contains_char_pretty_go (c : ascii) (x : N) : ∀ s,
is_digit c = false →
contains (String c "") s = false →
contains (String c "") (pretty_N_go x s) = false.
Proof.
induction (N.lt_wf_0 x) as [x _ IH]. intros s Hc Hs.
destruct (decide (x = 0)%N) as [->|Hx]; [done|].
rewrite pretty_N_go_step by lia.
apply IH; [apply N.div_lt; lia|done|].
rewrite contains_char_cons.
destruct (Ascii.eqb_spec (pretty_N_char (x `mod` 10)) c) as [<-|]; [|done].
destruct (pretty_N_char_digit (x `mod` 10)%N) as [Hd _];
  [by apply N.mod_lt|]. congruence.
Qed.

Lemma contains_char_str_of_int (c : ascii) (z : Z) :
is_digit c = false → (c = "-"%char → (0 ≤ z)%Z) →
contains (String c "") (str_of_int z) = false.
Proof.
intros Hc Hneg. unfold str_of_int, pretty, pretty_Z.
destruct z as [|p|p].
- rewrite contains_char_cons.
  destruct (Ascii.eqb_spec "0"%char c) as [<-|]; [done|done].
- unfold pretty, pretty_positive, pretty, pretty_N.
  rewrite decide_False by done. by apply contains_char_pretty_go.
- unfold pretty, pretty_positive, pretty, pretty_N.
  rewrite decide_False by done.
  change ("-" +:+ pretty_N_go (N.pos p) "")
    with (String "-" (pretty_N_go (N.pos p) "")).
  rewrite contains_char_cons.
  destruct (Ascii.eqb_spec "-"%char c) as [<-|]; [specialize (Hneg eq_refl); lia|].
  by apply contains_char_pretty_go.
Qed.

Lemma append_inv_head (a b c : string) : a +:+ b = a +:+ c → b = c.
Proof. induction a as [|x a IH]; cbn; [done|]. intros [= H]. by apply IH. Qed.
End Strings.

Section ReadBack.
Context {W : Type}.
Implicit Types s : Orchestrator.t W.

Lemma cleanup_event_group (handlers : list (string * ProtocolHandler.t W))
  protocol group_name :
contains ":" protocol = false → contains ":" group_name = false →
cleanup_event handlers (protocol +:+ ":group:" +:+ group_name)
= (_ ← dict_get protocol handlers;
   Some (Orchestrator.DeleteGroup protocol (GidStr group_name))).
Proof.
intros Hp Hg. unfold cleanup_event.
change (protocol +:+ ":group:" +:+ group_name)
  with (protocol +:+ String ":" ("group" +:+ String ":" group_name)).
rewrite split_at_first by done.
rewrite (split_at_first ":" "group") by done.
rewrite split_without by done. cbn [lookup list_lookup mbind option_bind].
by destruct (dict_get protocol handlers).
Qed.

Lemma cleanup_event_scene (handlers : list (string * ProtocolHandler.t W))
  protocol group_name scene_id :
contains ":" protocol = false → contains ":" group_name = false →
cleanup_event handlers
  (protocol +:+ ":scene:" +:+ group_name +:+ ":" +:+ str_of_int scene_id)
= (_ ← dict_get protocol handlers;
   Some (Orchestrator.RemoveScene protocol (GidStr group_name) scene_id)).
Proof.
intros Hp Hg. unfold cleanup_event.
change (protocol +:+ ":scene:" +:+ group_name +:+ ":" +:+ str_of_int scene_id)
  with (protocol +:+ String ":" ("scene" +:+ String ":"
          (group_name +:+ String ":" (str_of_int scene_id)))).
rewrite split_at_first by done.
rewrite (split_at_first ":" "scene") by done.
rewrite split_at_first by done.
rewrite split_without by (by apply contains_char_str_of_int).
cbn [lookup list_lookup mbind option_bind].
destruct (dict_get protocol handlers); [|done]. cbn [mbind option_bind].
rewrite (bool_decide_eq_false_2 ("scene" = "group")) by done.
rewrite (bool_decide_eq_true_2 ("scene" = "scene")) by done.
by rewrite int_of_str_of_int.
Qed.
End ReadBack.

(** X16: cleanup reads back what provisioning recorded. When neither
    the protocol nor the group name contains a colon and the protocol has
    a handler, the reference [protocol:group:name] alone makes
    [_cleanup_resources] ask for the deletion of that group, and the two
    references of a native scene, [protocol:group:name] and
    [protocol:scene:name:id], make it ask for the deletion of the group and
    the removal of scene [id] from it, each once, and nothing else. *)
Theorem cleanup_reads_back_references {W : Type} (key protocol group_name : string)
    (scene_id : Z) (handler : ProtocolHandler.t W) (s : Orchestrator.t W)
    (Hprotocol : contains ":" protocol = false)
    (Hname : contains ":" group_name = false)
    (Hhandler : dict_get protocol (Orchestrator._handlers s) = Some handler) :
  let group_ref := protocol +:+ ":group:" +:+ group_name in
  let scene_ref :=
    protocol +:+ ":scene:" +:+ group_name +:+ ":" +:+ str_of_int scene_id in
  (Orchestrator._managed_resources s !! key = Some {[group_ref]} →
   ∃ s', Orchestrator._cleanup_resources key s = (Ok tt, s')
         ∧ extends s s' [Orchestrator.DeleteGroup protocol (GidStr group_name)])
  ∧ (Orchestrator._managed_resources s !! key = Some {[group_ref; scene_ref]} →
     ∃ s' evs,
       Orchestrator._cleanup_resources key s = (Ok tt, s')
       ∧ extends s s' evs
       ∧ evs ≡ₚ [Orchestrator.DeleteGroup protocol (GidStr group_name);
                 Orchestrator.RemoveScene protocol (GidStr group_name) scene_id]).
Proof.
  intros group_ref scene_ref.
  assert (Hg : cleanup_event (Orchestrator._handlers s) group_ref
               = Some (Orchestrator.DeleteGroup protocol (GidStr group_name))).
  { subst group_ref. rewrite cleanup_event_group by done. by rewrite Hhandler. }
  assert (Hs : cleanup_event (Orchestrator._handlers s) scene_ref
               = Some (Orchestrator.RemoveScene protocol (GidStr group_name)
                         scene_id)).
  { subst scene_ref. rewrite cleanup_event_scene by done. by rewrite Hhandler. }
  assert (Hwg : well_formed_ref group_ref).
  { unfold well_formed_ref, group_ref.
    change (protocol +:+ ":group:" +:+ group_name)
      with (protocol +:+ String ":" ("group:" +:+ group_name)).
    rewrite split_at_first by done.
    destruct (split_cons ":" ("group:" +:+ group_name)) as (h & t & ->).
    cbn. lia. }
  assert (Hws : well_formed_ref scene_ref).
  { unfold well_formed_ref, scene_ref.
    change (protocol +:+ ":scene:" +:+ group_name +:+ ":" +:+ str_of_int scene_id)
      with (protocol +:+ String ":"
              ("scene:" +:+ group_name +:+ ":" +:+ str_of_int scene_id)).
    rewrite split_at_first by done.
    destruct (split_cons ":" ("scene:" +:+ group_name +:+ ":"
                              +:+ str_of_int scene_id)) as (h & t & ->).
    cbn. lia. }
  split.
  - intros Hres.
    destruct (cleanup_loop_ok (elements ({[group_ref]} : gset string))
                (Orchestrator.set_managed_resources
                   (delete key (Orchestrator._managed_resources s)) s))
      as (s' & Hrun & _ & Hext).
    { rewrite elements_singleton. by constructor. }
    exists s'. split.
    + unfold Orchestrator._cleanup_resources, SE.bind, SE.gets, SE.modify.
      rewrite Hres. exact Hrun.
    + rewrite elements_singleton in Hext. cbn in Hext. rewrite Hg in Hext.
      destruct Hext as (?&?&?&?&?&?). by unfold extends.
  - intros Hres.
    assert (Hne : group_ref ≠ scene_ref).
    { unfold group_ref, scene_ref. intros Heq.
      apply append_inv_head in Heq. discriminate Heq. }
    assert (Hperm : elements ({[group_ref; scene_ref]} : gset string)
                    ≡ₚ [group_ref; scene_ref]).
    { rewrite elements_union_singleton by (by apply not_elem_of_singleton).
      by rewrite elements_singleton. }
    destruct (cleanup_loop_ok (elements ({[group_ref; scene_ref]} : gset string))
                (Orchestrator.set_managed_resources
                   (delete key (Orchestrator._managed_resources s)) s))
      as (s' & Hrun & _ & Hext).
    { rewrite Hperm. by repeat constructor. }
    exists s', (omap (cleanup_event (Orchestrator._handlers s))
                  (elements ({[group_ref; scene_ref]} : gset string))).
    split; [|split].
    + unfold Orchestrator._cleanup_resources, SE.bind, SE.gets, SE.modify.
      rewrite Hres. exact Hrun.
    + destruct Hext as (?&?&?&?&?&?). by unfold extends.
    + rewrite Hperm. cbn. by rewrite Hg, Hs.
Qed.

Lemma cleanup_reads_back_references_witness :
  ∃ s' evs,
    Orchestrator._cleanup_resources "scene.movie" Scenario.with_movie = (Ok tt, s')
    ∧ extends Scenario.with_movie s' evs
    ∧ evs ≡ₚ [Orchestrator.DeleteGroup "zwave_js" (GidStr "ha_scene_movie_zwave_js");
              Orchestrator.RemoveScene "zwave_js"
                (GidStr "ha_scene_movie_zwave_js") 100].
Proof.
  refine (proj2 (cleanup_reads_back_references "scene.movie" "zwave_js"
                   "ha_scene_movie_zwave_js" 100 Scenario.zwave_handler
                   Scenario.with_movie eq_refl eq_refl eq_refl) _).
  apply (bool_decide_unpack _). by vm_compute.
Defined.

(** X17: the classifier reads a node id back from a Z-Wave unique
    id: when the unique id is a first field without a dash, a dash, the
    decimal writing of a non-negative node id, a dash and anything,
    [_extract_zwave_node_id] returns that node id. *)
Theorem zwave_node_id_is_read_back (entry : RegistryEntry.t)
    (first rest : string) (node_id : Z)
    (Hunique : RegistryEntry.unique_id entry
               = Some (first +:+ "-" +:+ str_of_int node_id +:+ "-" +:+ rest))
    (Hfirst : contains "-" first = false)
    (Hnode : (0 ≤ node_id)%Z) :
  Classifier._extract_zwave_node_id entry = Some node_id.
Proof.
  unfold Classifier._extract_zwave_node_id. rewrite Hunique.
  cbn [opt_str_truthy from_option id].
  rewrite bool_decide_eq_false_2 by (by destruct first).
  cbn [negb].
  change (first +:+ "-" +:+ str_of_int node_id +:+ "-" +:+ rest)
    with (first +:+ String "-" (str_of_int node_id +:+ String "-" rest)).
  rewrite split_at_first by done.
  rewrite split_at_first by (by apply contains_char_str_of_int).
  destruct (split_cons "-" rest) as (h & t & ->).
  cbn [length Nat.leb lookup list_lookup mbind option_bind].
  apply int_of_str_of_int.
Qed.

Lemma zwave_node_id_is_read_back_witness :
  Classifier._extract_zwave_node_id
    (Scenario.entry "light.kitchen" "zwave_js" "3245146787-5-0-38" "d5")
  = Some 5%Z.
Proof.
  apply (zwave_node_id_is_read_back _ "3245146787" "0-38" 5);
    [reflexivity|reflexivity|lia].
Defined.

(** ** The Z-Wave adapter: capability groups *)

Section DictPop.
Context {K V : Type} `{EqDecision K}.

Lemma dict_get_pop (k k' : K) (d : list (K * V)) :
dict_get k (dict_pop k' d) = if decide (k' = k) then None else dict_get k d.
Proof.
unfold dict_pop. induction d as [|[k0 v0] d IH]; cbn [List.filter].
- by case_decide.
- cbn [fst]. case_bool_decide as Hk0; cbn [negb].
  + subst k0. rewrite IH, dict_get_cons. by case_decide.
  + rewrite !dict_get_cons, IH.
    destruct (decide (k0 = k)), (decide (k' = k)); congruence.
Qed.
End DictPop.

Section CapabilityGroups.
Implicit Types st : ZWaveJS.state.

Lemma sub_group_key_inj (base cap cap' : string) :
base +:+ "." +:+ cap = base +:+ "." +:+ cap' → cap = cap'.
Proof. intros H. apply append_inv_head in H. by injection H. Qed.

Lemma create_loop (base : string)
  (members : list (string * list (option native_id))) : ∀ st c0,
dict_get base (ZWaveJS._group_capabilities st) = Some c0 →
∃ st' c',
  SE.for_each members (λ '(capability, node_ids),
    if negb (bool_decide (node_ids = [])) then
      SE.bind
        (SE.modify (λ st, ZWaveJS.set_groups
           (dict_set (base +:+ "." +:+ capability) node_ids (ZWaveJS._groups st)) st))
        (λ _, SE.modify (λ st,
           let caps := default [] (dict_get base (ZWaveJS._group_capabilities st)) in
           let caps' := if bool_decide (capability ∈ caps)
                        then caps else caps ++ [capability] in
           ZWaveJS.set_group_capabilities
             (dict_set base caps' (ZWaveJS._group_capabilities st)) st))
    else SE.ret tt) st = (Ok tt, st')
  ∧ ZWaveJS.calls st' = ZWaveJS.calls st
  ∧ dict_get base (ZWaveJS._group_capabilities st') = Some c'
  ∧ (∀ k, k ≠ base →
       dict_get k (ZWaveJS._group_capabilities st')
       = dict_get k (ZWaveJS._group_capabilities st))
  ∧ (∀ cap, cap ∈ c' ↔
       cap ∈ c0 ∨ ∃ nodes, (cap, nodes) ∈ members ∧ nodes ≠ [])
  ∧ (∀ k, (∀ cap nodes, (cap, nodes) ∈ members → nodes ≠ [] →
           k ≠ base +:+ "." +:+ cap) →
       dict_get k (ZWaveJS._groups st') = dict_get k (ZWaveJS._groups st))
  ∧ (NoDup members.*1 → ∀ cap nodes, (cap, nodes) ∈ members → nodes ≠ [] →
       dict_get (base +:+ "." +:+ cap) (ZWaveJS._groups st') = Some nodes).
Proof.
induction members as [|[cap nodes] members IH]; intros st c0 Hc0.
- exists st, c0. split_and!; try done.
  + intros cap. split; [by left|]. intros [?|(? & Hin & _)]; [done|].
    by apply elem_of_nil in Hin.
  + intros _ cap nodes Hin. by apply elem_of_nil in Hin.
- cbn [SE.for_each]. unfold SE.bind at 1.
  destruct (decide (nodes = [])) as [->|Hnodes].
  + rewrite bool_decide_eq_true_2 by done. cbn [negb]. unfold SE.ret at 1.
    destruct (IH st c0 Hc0) as (st' & c' & Hrun & Hcalls & Hc' & Hcaps & Hmem
                                & Hframe & Hget).
    exists st', c'. split_and!; try done.
    * intros c. rewrite Hmem. split.
      -- intros [?|(n & Hin & Hn)]; [by left|]. right. exists n.
         split; [by right|done].
      -- intros [?|(n & Hin & Hn)]; [by left|]. right. exists n.
         split; [|done]. apply elem_of_cons in Hin as [[= _ ->]|Hin]; done.
    * intros k Hk. apply Hframe. intros c n Hin. apply Hk. by right.
    * intros Hnd c n Hin Hn. cbn in Hnd. apply NoDup_cons in Hnd as [_ Hnd].
      apply elem_of_cons in Hin as [[= _ ->]|Hin]; [done|]. by apply Hget.
  + rewrite bool_decide_eq_false_2 by done. cbn [negb].
    unfold SE.bind at 1, SE.modify at 1 2.
    set (st1 := ZWaveJS.set_group_capabilities _ _).
    assert (Hc1 : ∃ c1, dict_get base (ZWaveJS._group_capabilities st1) = Some c1
                        ∧ ∀ c, c ∈ c1 ↔ c ∈ c0 ∨ c = cap).
    { subst st1. cbn [ZWaveJS._group_capabilities ZWaveJS.set_group_capabilities ZWaveJS._groups ZWaveJS.set_groups ZWaveJS.calls]. rewrite Hc0. cbn [default from_option id].
      eexists. rewrite dict_get_set, decide_True by done. split; [done|].
      intros c. case_bool_decide as Hin.
      - split; [by left|]. by intros [?| ->].
      - rewrite elem_of_app, list_elem_of_singleton. done. }
    destruct Hc1 as (c1 & Hc1 & Hc1mem).
    destruct (IH st1 c1 Hc1) as (st' & c' & Hrun & Hcalls & Hc' & Hcaps & Hmem
                                 & Hframe & Hget).
    exists st', c'. split_and!; try done.
    * intros k Hk. rewrite Hcaps by done. subst st1. cbn [ZWaveJS._group_capabilities ZWaveJS.set_group_capabilities ZWaveJS._groups ZWaveJS.set_groups ZWaveJS.calls].
      rewrite dict_get_set. by rewrite decide_False.
    * intros c. rewrite Hmem, Hc1mem. split.
      -- intros [[?| ->]|(n & Hin & Hn)]; [by left| |].
         ++ right. exists nodes. split; [left|done].
         ++ right. exists n. split; [by right|done].
      -- intros [?|(n & Hin & Hn)]; [by left; left|].
         apply elem_of_cons in Hin as [[= -> ->]|Hin]; [by left; right|].
         right. by exists n.
    * intros k Hk. rewrite Hframe.
      -- subst st1. cbn [ZWaveJS._group_capabilities ZWaveJS.set_group_capabilities ZWaveJS._groups ZWaveJS.set_groups ZWaveJS.calls]. rewrite dict_get_set. rewrite decide_False; [done|].
         intros Heq. apply (Hk cap nodes); [left|done|done].
      -- intros c n Hin. apply Hk. by right.
    * intros Hnd c n Hin Hn. cbn in Hnd. apply NoDup_cons in Hnd as [Hcap Hnd].
      apply elem_of_cons in Hin as [[= -> ->]|Hin]; [|by apply Hget].
      rewrite Hframe.
      -- subst st1. cbn [ZWaveJS._group_capabilities ZWaveJS.set_group_capabilities ZWaveJS._groups ZWaveJS.set_groups ZWaveJS.calls]. rewrite dict_get_set. by rewrite decide_True.
      -- intros cx nx Hinx _ Heq. apply sub_group_key_inj in Heq. subst cx.
         apply Hcap. apply list_elem_of_fmap. by exists (cap, nx).
Qed.

Lemma create_run (base : string)
  (members : list (string * list (option native_id))) st :
∃ st' c',
  ZWaveJS.async_create_capability_groups base members st = (Ok (GidStr base), st')
  ∧ ZWaveJS.calls st' = ZWaveJS.calls st
  ∧ dict_get base (ZWaveJS._group_capabilities st') = Some c'
  ∧ (∀ k, k ≠ base →
       dict_get k (ZWaveJS._group_capabilities st')
       = dict_get k (ZWaveJS._group_capabilities st))
  ∧ (∀ cap, cap ∈ c' ↔ ∃ nodes, (cap, nodes) ∈ members ∧ nodes ≠ [])
  ∧ (∀ k, (∀ cap nodes, (cap, nodes) ∈ members → nodes ≠ [] →
           k ≠ base +:+ "." +:+ cap) →
       dict_get k (ZWaveJS._groups st') = dict_get k (ZWaveJS._groups st))
  ∧ (NoDup members.*1 → ∀ cap nodes, (cap, nodes) ∈ members → nodes ≠ [] →
       dict_get (base +:+ "." +:+ cap) (ZWaveJS._groups st') = Some nodes).
Proof.
set (st0 := ZWaveJS.set_group_capabilities
              (dict_set base [] (ZWaveJS._group_capabilities st)) st).
destruct (create_loop base members st0 [])
  as (st' & c' & Hrun & Hcalls & Hc' & Hcaps & Hmem & Hframe & Hget).
{ subst st0. cbn [ZWaveJS._group_capabilities ZWaveJS.set_group_capabilities ZWaveJS._groups ZWaveJS.set_groups ZWaveJS.calls]. rewrite dict_get_set. by rewrite decide_True. }
exists st', c'. split_and!; try done.
- unfold ZWaveJS.async_create_capability_groups.
  unfold SE.bind at 1, SE.modify at 1. fold st0.
  unfold SE.bind at 1.
  match goal with
  | |- context [SE.for_each members ?b st0] =>
      replace (SE.for_each members b st0) with (Ok tt, st')
        by (symmetry; exact Hrun)
  end.
  done.
- intros k Hk. rewrite Hcaps by done. subst st0. cbn [ZWaveJS._group_capabilities ZWaveJS.set_group_capabilities ZWaveJS._groups ZWaveJS.set_groups ZWaveJS.calls].
  rewrite dict_get_set. by rewrite decide_False.
- intros c. rewrite Hmem. split; [|by right].
  intros [Hin|?]; [|done]. by apply elem_of_nil in Hin.
Qed.

Lemma delete_loop (base : string) (caps : list string) : ∀ st,
∃ st',
  SE.for_each caps (λ cap,
    SE.modify (λ st,
      ZWaveJS.set_groups
        (dict_pop (base +:+ "." +:+ cap) (ZWaveJS._groups st)) st)) st
  = (Ok tt, st')
  ∧ ZWaveJS.calls st' = ZWaveJS.calls st
  ∧ ZWaveJS._group_capabilities st' = ZWaveJS._group_capabilities st
  ∧ (∀ k, dict_get k (ZWaveJS._groups st) = None →
          dict_get k (ZWaveJS._groups st') = None)
  ∧ (∀ cap, cap ∈ caps →
       dict_get (base +:+ "." +:+ cap) (ZWaveJS._groups st') = None)
  ∧ (∀ k, (∀ cap, cap ∈ caps → k ≠ base +:+ "." +:+ cap) →
       dict_get k (ZWaveJS._groups st') = dict_get k (ZWaveJS._groups st)).
Proof.
induction caps as [|cap caps IH]; intros st.
- exists st. split_and!; try done. intros cap Hin. by apply elem_of_nil in Hin.
- cbn [SE.for_each]. unfold SE.bind at 1, SE.modify at 1.
  set (st1 := ZWaveJS.set_groups _ st).
  destruct (IH st1) as (st' & Hrun & Hcalls & Hcaps & Hnone & Hgone & Hframe).
  exists st'. split_and!; try done.
  + intros k Hk. apply Hnone. subst st1. cbn [ZWaveJS._group_capabilities ZWaveJS.set_group_capabilities ZWaveJS._groups ZWaveJS.set_groups ZWaveJS.calls]. rewrite dict_get_pop.
    by case_decide.
  + intros c Hin. apply elem_of_cons in Hin as [->|Hin]; [|by apply Hgone].
    apply Hnone. subst st1. cbn [ZWaveJS._group_capabilities ZWaveJS.set_group_capabilities ZWaveJS._groups ZWaveJS.set_groups ZWaveJS.calls]. rewrite dict_get_pop. by rewrite decide_True.
  + intros k Hk. rewrite Hframe.
    * subst st1. cbn [ZWaveJS._group_capabilities ZWaveJS.set_group_capabilities ZWaveJS._groups ZWaveJS.set_groups ZWaveJS.calls]. rewrite dict_get_pop. rewrite decide_False; [done|].
      intros Heq. apply (Hk cap); [left|done].
    * intros c Hin. apply Hk. by right.
Qed.

Lemma delete_run (base : string) (caps : list string) st :
dict_get base (ZWaveJS._group_capabilities st) = Some caps →
∃ st',
  ZWaveJS.async_delete_group (GidStr base) st = (Ok tt, st')
  ∧ ZWaveJS.calls st' = ZWaveJS.calls st
  ∧ (∀ k, dict_get k (ZWaveJS._group_capabilities st')
          = if decide (base = k) then None
            else dict_get k (ZWaveJS._group_capabilities st))
  ∧ dict_get base (ZWaveJS._groups st') = None
  ∧ (∀ cap, cap ∈ caps →
       dict_get (base +:+ "." +:+ cap) (ZWaveJS._groups st') = None)
  ∧ (∀ k, k ≠ base → (∀ cap, cap ∈ caps → k ≠ base +:+ "." +:+ cap) →
       dict_get k (ZWaveJS._groups st') = dict_get k (ZWaveJS._groups st)).
Proof.
intros Hcaps.
set (st0 := ZWaveJS.set_groups (dict_pop base (ZWaveJS._groups st)) st).
destruct (delete_loop base caps st0)
  as (st1 & Hrun & Hcalls & Hcaps1 & Hnone & Hgone & Hframe).
exists (ZWaveJS.set_group_capabilities
          (dict_pop base (ZWaveJS._group_capabilities st1)) st1).
split_and!.
- unfold ZWaveJS.async_delete_group. cbn [str_of_group_id].
  unfold SE.bind at 1, SE.modify at 1. fold st0.
  unfold SE.bind at 1, SE.gets at 1.
  change (ZWaveJS._group_capabilities st0) with (ZWaveJS._group_capabilities st).
  rewrite Hcaps. unfold SE.bind at 1.
  match goal with
  | |- context [SE.for_each caps ?b st0] =>
      replace (SE.for_each caps b st0) with (Ok tt, st1)
        by (symmetry; exact Hrun)
  end.
  done.
- cbn [ZWaveJS._group_capabilities ZWaveJS.set_group_capabilities ZWaveJS._groups ZWaveJS.set_groups ZWaveJS.calls]. by rewrite Hcalls.
- intros k. cbn [ZWaveJS._group_capabilities ZWaveJS.set_group_capabilities ZWaveJS._groups ZWaveJS.set_groups ZWaveJS.calls]. rewrite dict_get_pop, Hcaps1. done.
- cbn [ZWaveJS._group_capabilities ZWaveJS.set_group_capabilities ZWaveJS._groups ZWaveJS.set_groups ZWaveJS.calls]. apply Hnone. subst st0. cbn [ZWaveJS._group_capabilities ZWaveJS.set_group_capabilities ZWaveJS._groups ZWaveJS.set_groups ZWaveJS.calls]. rewrite dict_get_pop. by rewrite decide_True.
- intros cap Hin. cbn [ZWaveJS._group_capabilities ZWaveJS.set_group_capabilities ZWaveJS._groups ZWaveJS.set_groups ZWaveJS.calls]. by apply Hgone.
- intros k Hk Hsub. cbn [ZWaveJS._group_capabilities ZWaveJS.set_group_capabilities ZWaveJS._groups ZWaveJS.set_groups ZWaveJS.calls]. rewrite Hframe by done. subst st0. cbn [ZWaveJS._group_capabilities ZWaveJS.set_group_capabilities ZWaveJS._groups ZWaveJS.set_groups ZWaveJS.calls].
  rewrite dict_get_pop. by rewrite decide_False.
Qed.
End CapabilityGroups.

(** X18: the capability sub-groups are read back. After
    [async_create_capability_groups] on members keyed by distinct
    capabilities, the base name has capability groups, its recorded
    capabilities are exactly those with a non-empty node list, and
    [get_capability_group_nodes] returns for each of them the node list it
    was given; no service call is made. *)
Theorem capability_groups_are_read_back (base_name : string)
    (members_by_capability : list (string * list (option native_id)))
    (st : ZWaveJS.state)
    (Hkeys : NoDup members_by_capability.*1) :
  ∃ st' capabilities,
    ZWaveJS.async_create_capability_groups base_name members_by_capability st
    = (Ok (GidStr base_name), st')
    ∧ ZWaveJS.calls st' = ZWaveJS.calls st
    ∧ ZWaveJS.has_capability_groups base_name st' = true
    ∧ dict_get base_name (ZWaveJS._group_capabilities st') = Some capabilities
    ∧ (∀ capability,
         capability ∈ capabilities
         ↔ ∃ node_ids, (capability, node_ids) ∈ members_by_capability
                       ∧ node_ids ≠ [])
    ∧ (∀ capability node_ids,
         (capability, node_ids) ∈ members_by_capability → node_ids ≠ [] →
         ZWaveJS.get_capability_group_nodes base_name capability st' = node_ids).
Proof.
  destruct (create_run base_name members_by_capability st)
    as (st' & c' & Hrun & Hcalls & Hc' & _ & Hmem & _ & Hget).
  exists st', c'. split_and!; try done.
  - unfold ZWaveJS.has_capability_groups. apply dict_contains_Some.
    by rewrite Hc'.
  - intros cap nodes Hin Hn. unfold ZWaveJS.get_capability_group_nodes.
    by rewrite (Hget Hkeys cap nodes Hin Hn).
Qed.

Lemma capability_groups_are_read_back_witness :
  ∃ st' capabilities,
    ZWaveJS.async_create_capability_groups "ha_group_lights_zwave_js"
      [("binary", [Some (NodeId 5)]); ("dimmer", []);
       ("color", [Some (NodeId 7); Some (NodeId 8)])] ZWaveJS.init
    = (Ok (GidStr "ha_group_lights_zwave_js"), st')
    ∧ ZWaveJS.calls st' = ZWaveJS.calls ZWaveJS.init
    ∧ ZWaveJS.has_capability_groups "ha_group_lights_zwave_js" st' = true
    ∧ dict_get "ha_group_lights_zwave_js" (ZWaveJS._group_capabilities st')
      = Some capabilities
    ∧ (∀ capability,
         capability ∈ capabilities
         ↔ ∃ node_ids,
             (capability, node_ids)
             ∈ [("binary", [Some (NodeId 5)]); ("dimmer", []);
                ("color", [Some (NodeId 7); Some (NodeId 8)])]
             ∧ node_ids ≠ [])
    ∧ (∀ capability node_ids,
         (capability, node_ids)
         ∈ [("binary", [Some (NodeId 5)]); ("dimmer", []);
            ("color", [Some (NodeId 7); Some (NodeId 8)])] →
         node_ids ≠ [] →
         ZWaveJS.get_capability_group_nodes "ha_group_lights_zwave_js"
           capability st' = node_ids).
Proof.
  apply capability_groups_are_read_back.
  apply (bool_decide_unpack _). vm_compute. reflexivity.
Defined.

(** X19: creating capability groups and deleting the base group
    leaves nothing behind. After [async_create_capability_groups] followed
    by [async_delete_group] on the same base name, the base name has no
    capability groups, neither the base name nor any sub-group created for
    a non-empty node list is a group, every other group and every other
    capability entry is as it was, and no service call was made. *)
Theorem capability_groups_create_then_delete (base_name : string)
    (members_by_capability : list (string * list (option native_id)))
    (st : ZWaveJS.state) :
  ∃ st1 st2,
    ZWaveJS.async_create_capability_groups base_name members_by_capability st
    = (Ok (GidStr base_name), st1)
    ∧ ZWaveJS.async_delete_group (GidStr base_name) st1 = (Ok tt, st2)
    ∧ ZWaveJS.calls st2 = ZWaveJS.calls st
    ∧ ZWaveJS.has_capability_groups base_name st2 = false
    ∧ dict_get base_name (ZWaveJS._groups st2) = None
    ∧ (∀ capability node_ids,
         (capability, node_ids) ∈ members_by_capability → node_ids ≠ [] →
         dict_get (base_name +:+ "." +:+ capability) (ZWaveJS._groups st2) = None)
    ∧ (∀ k, k ≠ base_name →
         dict_get k (ZWaveJS._group_capabilities st2)
         = dict_get k (ZWaveJS._group_capabilities st))
    ∧ (∀ k, k ≠ base_name →
         (∀ capability node_ids,
            (capability, node_ids) ∈ members_by_capability → node_ids ≠ [] →
            k ≠ base_name +:+ "." +:+ capability) →
         dict_get k (ZWaveJS._groups st2) = dict_get k (ZWaveJS._groups st)).
Proof.
  destruct (create_run base_name members_by_capability st)
    as (st1 & c' & Hrun & Hcalls & Hc' & Hcaps & Hmem & Hframe & _).
  destruct (delete_run base_name c' st1 Hc')
    as (st2 & Hrun2 & Hcalls2 & Hcaps2 & Hbase & Hgone & Hframe2).
  exists st1, st2. split_and!; try done.
  - congruence.
  - unfold ZWaveJS.has_capability_groups.
    destruct (dict_contains base_name (ZWaveJS._group_capabilities st2)) eqn:Hc;
      [|done].
    apply dict_contains_Some in Hc. rewrite Hcaps2, decide_True in Hc by done.
    by destruct Hc.
  - intros cap nodes Hin Hn. apply Hgone. apply Hmem. by exists nodes.
  - intros k Hk. rewrite Hcaps2, decide_False by done. by apply Hcaps.
  - intros k Hk Hsub. rewrite Hframe2; [by apply Hframe|done|].
    intros cap Hcap. apply Hmem in Hcap as (nodes & Hin & Hn).
    by apply (Hsub cap nodes).
Qed.

(** ** The Z-Wave adapter: commands *)

Section ZWaveCommands.
Variable e : ZWaveJS.env.
Implicit Types st : ZWaveJS.state.

Lemma zwave_sent_refl st : zwave_sent st st [].
Proof. unfold zwave_sent. by rewrite app_nil_r. Qed.

Lemma zwave_sent_trans st st1 st2 n1 n2 :
zwave_sent st st1 n1 → zwave_sent st1 st2 n2 → zwave_sent st st2 (n1 ++ n2).
Proof.
intros (Hg1 & Hc1 & Hs1) (Hg2 & Hc2 & Hs2). unfold zwave_sent.
rewrite Hg2, Hc2, Hs2, Hs1, app_assoc. done.
Qed.

Lemma multicast_on_weaken (l l' : list Z) c :
l ⊆ l' → multicast_on l c → multicast_on l' c.
Proof.
intros Hsub (Hd & Hs & cc & Hin & Hcc). split_and!; [done..|].
exists cc. split; [by apply Hsub|done].
Qed.

Lemma multicast_set_value_on device_ids cc prop value :
multicast_on [cc] (ZWaveJS.multicast_set_value device_ids cc prop value).
Proof.
split_and!; [done..|]. exists cc. split; [apply list_elem_of_here|done].
Qed.

Lemma swallowed_call_run c st :
∃ st',
  SE.try_except (ZWaveJS.async_call e c) (λ _, SE.ret tt) st = (Ok tt, st')
  ∧ zwave_sent st st' [c].
Proof.
unfold SE.try_except, ZWaveJS.async_call, SE.ret.
destruct (ZWaveJS.service_error e c); eexists; (split; [reflexivity|done]).
Qed.

Lemma send_binary_run nodes (b : bool) st :
∃ st',
  ZWaveJS._send_binary_command e nodes b st = (Ok tt, st')
  ∧ zwave_sent st st'
      (if bool_decide (ZWaveJS.device_ids_of e nodes = []) then []
       else [ZWaveJS.multicast_set_value (ZWaveJS.device_ids_of e nodes)
               CC_BINARY_SWITCH "targetValue" (PBool b)]).
Proof.
unfold ZWaveJS._send_binary_command.
case_bool_decide as Hn.
- subst nodes. exists st. split; [done|].
  rewrite bool_decide_eq_true_2 by done. apply zwave_sent_refl.
- case_bool_decide as Hd.
  + exists st. split; [done|]. apply zwave_sent_refl.
  + apply swallowed_call_run.
Qed.

Lemma send_binary_bound nodes (b : bool) st :
∃ r st' new,
  ZWaveJS._send_binary_command e nodes b st = (r, st')
  ∧ zwave_sent st st' new ∧ length new ≤ 1
  ∧ Forall (multicast_on [CC_BINARY_SWITCH; CC_MULTILEVEL_SWITCH]) new.
Proof.
destruct (send_binary_run nodes b st) as (st' & Hrun & Hsent).
eexists _, _, _. split; [exact Hrun|]. split; [exact Hsent|].
case_bool_decide; [by split; [cbn; lia|constructor]|].
split; [cbn; lia|]. constructor; [|constructor].
eapply multicast_on_weaken; [|apply multicast_set_value_on].
intros x Hx. apply list_elem_of_singleton in Hx as ->. apply list_elem_of_here.
Qed.

Lemma send_multilevel_bound nodes brightness st :
∃ r st' new,
  ZWaveJS._send_multilevel_command e nodes brightness st = (r, st')
  ∧ zwave_sent st st' new ∧ length new ≤ 1
  ∧ Forall (multicast_on [CC_BINARY_SWITCH; CC_MULTILEVEL_SWITCH]) new.
Proof.
unfold ZWaveJS._send_multilevel_command.
case_bool_decide as Hn.
{ eexists _, st, []. split; [done|]. split; [apply zwave_sent_refl|].
  split; [cbn; lia|constructor]. }
case_bool_decide as Hd.
{ eexists _, st, []. split; [done|]. split; [apply zwave_sent_refl|].
  split; [cbn; lia|constructor]. }
unfold SE.bind, SE.lift_result.
destruct (brightness_to_level brightness) as [level|err].
- destruct (swallowed_call_run
              (ZWaveJS.multicast_set_value (ZWaveJS.device_ids_of e nodes)
                 CC_MULTILEVEL_SWITCH "targetValue" (PInt level)) st)
    as (st' & Hrun & Hsent).
  eexists _, _, _. split; [exact Hrun|]. split; [exact Hsent|].
  split; [cbn; lia|]. constructor; [|constructor].
  eapply multicast_on_weaken; [|apply multicast_set_value_on].
  intros x Hx. apply list_elem_of_singleton in Hx as ->.
  apply list_elem_of_further, list_elem_of_here.
- eexists _, st, []. split; [done|]. split; [apply zwave_sent_refl|].
  split; [cbn; lia|constructor].
Qed.

Lemma captured_bound {A} (m : SE.t ZWaveJS.state A) (n : nat)
  (P : ServiceCall.t → Prop) st :
(∃ r st' new, m st = (r, st') ∧ zwave_sent st st' new
              ∧ length new ≤ n ∧ Forall P new) →
∃ st' new, SE.captured m st = (Ok tt, st') ∧ zwave_sent st st' new
           ∧ length new ≤ n ∧ Forall P new.
Proof.
intros (r & st' & new & Hrun & H). exists st', new. split; [|done].
unfold SE.captured. by rewrite Hrun.
Qed.

Lemma seq_bound (m1 m2 : SE.t ZWaveJS.state unit) (n1 n2 : nat)
  (P : ServiceCall.t → Prop) st :
(∃ st1 new, m1 st = (Ok tt, st1) ∧ zwave_sent st st1 new
            ∧ length new ≤ n1 ∧ Forall P new) →
(∀ st1, ∃ st2 new, m2 st1 = (Ok tt, st2) ∧ zwave_sent st1 st2 new
                   ∧ length new ≤ n2 ∧ Forall P new) →
∃ st2 new, SE.bind m1 (λ _, m2) st = (Ok tt, st2) ∧ zwave_sent st st2 new
           ∧ length new ≤ n1 + n2 ∧ Forall P new.
Proof.
intros (st1 & new1 & Hrun1 & Hsent1 & Hlen1 & HP1) H2.
destruct (H2 st1) as (st2 & new2 & Hrun2 & Hsent2 & Hlen2 & HP2).
exists st2, (new1 ++ new2). split_and!.
- unfold SE.bind. by rewrite Hrun1.
- by eapply zwave_sent_trans.
- rewrite length_app. lia.
- by apply Forall_app.
Qed.

Lemma send_color_bound nodes data st :
∃ r st' new,
  ZWaveJS._send_color_command e nodes data st = (r, st')
  ∧ zwave_sent st st' new ∧ length new ≤ 2
  ∧ Forall (multicast_on [CC_BINARY_SWITCH; CC_MULTILEVEL_SWITCH;
                          CC_COLOR_SWITCH]) new.
Proof.
assert (Hw : ∀ c, multicast_on [CC_BINARY_SWITCH; CC_MULTILEVEL_SWITCH] c →
                  multicast_on [CC_BINARY_SWITCH; CC_MULTILEVEL_SWITCH;
                                CC_COLOR_SWITCH] c).
{ intros c. apply multicast_on_weaken. intros x Hx.
  apply elem_of_cons in Hx as [->|Hx]; [apply list_elem_of_here|].
  apply list_elem_of_singleton in Hx as ->.
  apply list_elem_of_further, list_elem_of_here. }
unfold ZWaveJS._send_color_command.
case_bool_decide as Hn.
{ eexists _, st, []. split; [done|]. split; [apply zwave_sent_refl|].
  split; [cbn; lia|constructor]. }
case_bool_decide as Hd.
{ eexists _, st, []. split; [done|]. split; [apply zwave_sent_refl|].
  split; [cbn; lia|constructor]. }
unfold SE.bind at 1, SE.lift_result.
destruct (ZWaveJS._build_color_value e data) as [color_value|err].
2:{ eexists _, st, []. split; [done|]. split; [apply zwave_sent_refl|].
    split; [cbn; lia|constructor]. }
destruct (truthy color_value) eqn:Htruthy; cbn [negb].
- enough (∃ st2 new,
            SE.bind
              (SE.captured
                 (ZWaveJS._send_color_switch_multicast e
                    (ZWaveJS.device_ids_of e nodes) color_value))
              (λ _, match dict_get "brightness" data with
                    | Some brightness =>
                        SE.captured
                          (ZWaveJS._send_multilevel_command e nodes brightness)
                    | None => SE.ret tt
                    end) st = (Ok tt, st2)
            ∧ zwave_sent st st2 new ∧ length new ≤ 1 + 1
            ∧ Forall (multicast_on [CC_BINARY_SWITCH; CC_MULTILEVEL_SWITCH;
                                    CC_COLOR_SWITCH]) new)
    as (st2 & new & Hrun & H) by (by eexists _, st2, new).
  apply seq_bound.
  + apply captured_bound. unfold ZWaveJS._send_color_switch_multicast.
    destruct (swallowed_call_run
                (ZWaveJS.multicast_set_value (ZWaveJS.device_ids_of e nodes)
                   CC_COLOR_SWITCH "targetColor" color_value) st)
      as (st' & Hrun & Hsent).
    eexists _, _, _. split; [exact Hrun|]. split; [exact Hsent|].
    split; [cbn; lia|]. constructor; [|constructor].
    eapply multicast_on_weaken; [|apply multicast_set_value_on].
    intros x Hx. apply list_elem_of_singleton in Hx as ->.
    by repeat first [apply list_elem_of_here | apply list_elem_of_further].
  + intros st1. destruct (dict_get "brightness" data) as [brightness|].
    * apply captured_bound.
      destruct (send_multilevel_bound nodes brightness st1)
        as (r & st' & new & Hrun & Hsent & Hlen & HP).
      exists r, st', new. split_and!; [done..|].
      eapply Forall_impl; [exact HP|exact Hw].
    * exists st1, []. split; [done|]. split; [apply zwave_sent_refl|].
      split; [cbn; lia|constructor].
- enough (∃ st2 new,
            SE.bind (SE.ret tt)
              (λ _, match dict_get "brightness" data with
                    | Some brightness =>
                        SE.captured
                          (ZWaveJS._send_multilevel_command e nodes brightness)
                    | None =>
                        SE.captured (ZWaveJS._send_binary_command e nodes true)
                    end) st = (Ok tt, st2)
            ∧ zwave_sent st st2 new ∧ length new ≤ 0 + 1
            ∧ Forall (multicast_on [CC_BINARY_SWITCH; CC_MULTILEVEL_SWITCH;
                                    CC_COLOR_SWITCH]) new)
    as (st2 & new & Hrun & Hsent & Hlen & HP)
    by (eexists _, st2, new; split_and!; [exact Hrun|done|lia|done]).
  apply seq_bound.
  + exists st, []. split; [done|]. split; [apply zwave_sent_refl|].
    split; [cbn; lia|constructor].
  + intros st1. destruct (dict_get "brightness" data) as [brightness|].
    * apply captured_bound.
      destruct (send_multilevel_bound nodes brightness st1)
        as (r & st' & new & Hrun & Hsent & Hlen & HP).
      exists r, st', new. split_and!; [done..|].
      eapply Forall_impl; [exact HP|exact Hw].
    * apply captured_bound.
      destruct (send_binary_bound nodes true st1)
        as (r & st' & new & Hrun & Hsent & Hlen & HP).
      exists r, st', new. split_and!; [done..|].
      eapply Forall_impl; [exact HP|exact Hw].
Qed.

(** One stage of [_send_capability_aware_command]: the command for the
  sub-group of one capability. *)
Lemma stage_bound (base cap : string) (caps : list string)
  (body : list (option native_id) → SE.t ZWaveJS.state unit) (n : nat)
  (P : ServiceCall.t → Prop) st :
(∀ nodes st, ∃ st' new, body nodes st = (Ok tt, st') ∧ zwave_sent st st' new
                        ∧ length new ≤ n ∧ Forall P new) →
∃ st' new,
  (if bool_decide (cap ∈ caps) then
     SE.bind (SE.gets (ZWaveJS.get_capability_group_nodes base cap))
       (λ nodes, if negb (bool_decide (nodes = []))
                 then body nodes else SE.ret tt)
   else SE.ret tt) st = (Ok tt, st')
  ∧ zwave_sent st st' new ∧ length new ≤ n ∧ Forall P new.
Proof.
intros Hbody. case_bool_decide.
- unfold SE.bind, SE.gets. case_bool_decide; cbn [negb].
  + exists st, []. split; [done|]. split; [apply zwave_sent_refl|].
    split; [cbn; lia|constructor].
  + apply Hbody.
- exists st, []. split; [done|]. split; [apply zwave_sent_refl|].
  split; [cbn; lia|constructor].
Qed.

Lemma capability_command_bound (base domain service : string)
  (data : list (string * pyval)) st :
∃ st' new,
  ZWaveJS._send_capability_aware_command e base domain service data st
  = (Ok tt, st')
  ∧ zwave_sent st st' new ∧ length new ≤ 4
  ∧ Forall (multicast_on
              (if existsb (λ k, dict_contains k data) color_keys
                  && bool_decide (service = "turn_on")
               then [CC_BINARY_SWITCH; CC_MULTILEVEL_SWITCH; CC_COLOR_SWITCH]
               else [CC_BINARY_SWITCH; CC_MULTILEVEL_SWITCH])) new.
Proof.
unfold ZWaveJS._send_capability_aware_command.
unfold SE.bind at 1, SE.gets at 1.
change (existsb (λ k, dict_contains k data)
          ["rgb_color"; "rgbw_color"; "hs_color"; "xy_color"; "color_temp"])
  with (existsb (λ k, dict_contains k data) color_keys).
set (caps := default [] (dict_get base (ZWaveJS._group_capabilities st))).
set (hc := existsb (λ k, dict_contains k data) color_keys).
set (hb := dict_contains "brightness" data).
set (on := bool_decide (service = "turn_on")).
set (P := multicast_on (if hc && on
                        then [CC_BINARY_SWITCH; CC_MULTILEVEL_SWITCH;
                              CC_COLOR_SWITCH]
                        else [CC_BINARY_SWITCH; CC_MULTILEVEL_SWITCH])).
assert (Hw : ∀ c, multicast_on [CC_BINARY_SWITCH; CC_MULTILEVEL_SWITCH] c → P c).
{ intros c. subst P. destruct (hc && on); [|done].
  apply multicast_on_weaken. intros x Hx.
  apply elem_of_cons in Hx as [->|Hx]; [apply list_elem_of_here|].
  apply list_elem_of_singleton in Hx as ->.
  apply list_elem_of_further, list_elem_of_here. }
assert (Hbin : ∀ b nodes st0, ∃ r st' new,
          ZWaveJS._send_binary_command e nodes b st0 = (r, st')
          ∧ zwave_sent st0 st' new ∧ length new ≤ 1 ∧ Forall P new).
{ intros b nodes st0.
  destruct (send_binary_bound nodes b st0) as (r & st' & new & Hr & Hs & Hl & HP).
  exists r, st', new. split_and!; [done..|]. by eapply Forall_impl. }
assert (Hmul : ∀ b nodes st0, ∃ r st' new,
          ZWaveJS._send_multilevel_command e nodes b st0 = (r, st')
          ∧ zwave_sent st0 st' new ∧ length new ≤ 1 ∧ Forall P new).
{ intros b nodes st0.
  destruct (send_multilevel_bound nodes b st0)
    as (r & st' & new & Hr & Hs & Hl & HP).
  exists r, st', new. split_and!; [done..|]. by eapply Forall_impl. }
apply (seq_bound _ _ 2 2 P).
- apply (stage_bound base ZWAVE_CAP_COLOR caps
           (λ nodes,
              if hc && on
              then SE.captured (ZWaveJS._send_color_command e nodes data)
              else if hb && on
              then SE.captured
                     (ZWaveJS._send_multilevel_command e nodes
                        (default PNone (dict_get "brightness" data)))
              else SE.captured (ZWaveJS._send_binary_command e nodes on)) 2 P).
  intros nodes st0. subst P. destruct (hc && on).
  + apply captured_bound, send_color_bound.
  + destruct (hb && on); apply captured_bound.
    * destruct (Hmul (default PNone (dict_get "brightness" data)) nodes st0)
        as (r & st' & new & Hr & Hs & Hl & HP).
      exists r, st', new. split_and!; [done|done|lia|done].
    * destruct (Hbin on nodes st0) as (r & st' & new & Hr & Hs & Hl & HP).
      exists r, st', new. split_and!; [done|done|lia|done].
- intros st1. apply (seq_bound _ _ 1 1 P).
  + apply (stage_bound base ZWAVE_CAP_DIMMER caps
             (λ nodes,
                if hb && on
                then SE.captured
                       (ZWaveJS._send_multilevel_command e nodes
                          (default PNone (dict_get "brightness" data)))
                else SE.captured (ZWaveJS._send_binary_command e nodes on))
             1 P).
    intros nodes st0.
    destruct (hb && on); apply captured_bound; [apply Hmul|apply Hbin].
  + intros st2.
    apply (stage_bound base ZWAVE_CAP_BINARY caps
             (λ nodes, SE.captured (ZWaveJS._send_binary_command e nodes on))
             1 P).
    intros nodes st0. apply captured_bound, Hbin.
Qed.

Lemma seq_exact (m1 m2 : SE.t ZWaveJS.state unit) (n1 n2 : list ServiceCall.t) st :
(∃ st1, m1 st = (Ok tt, st1) ∧ zwave_sent st st1 n1) →
(∀ st1, zwave_sent st st1 n1 →
        ∃ st2, m2 st1 = (Ok tt, st2) ∧ zwave_sent st1 st2 n2) →
∃ st2, SE.bind m1 (λ _, m2) st = (Ok tt, st2) ∧ zwave_sent st st2 (n1 ++ n2).
Proof.
intros (st1 & Hrun1 & Hsent1) H2.
destruct (H2 st1 Hsent1) as (st2 & Hrun2 & Hsent2).
exists st2. split; [unfold SE.bind; by rewrite Hrun1|].
by eapply zwave_sent_trans.
Qed.

(** The Binary Switch multicast for the sub-group of [cap], if any. *)
Lemma stage_binary (base cap : string) (on : bool) st0 st (new : list ServiceCall.t) :
zwave_sent st0 st new →
∃ st',
  (if bool_decide
        (cap ∈ default [] (dict_get base (ZWaveJS._group_capabilities st0)))
   then
     SE.bind (SE.gets (ZWaveJS.get_capability_group_nodes base cap))
       (λ nodes, if negb (bool_decide (nodes = []))
                 then SE.captured (ZWaveJS._send_binary_command e nodes on)
                 else SE.ret tt)
   else SE.ret tt) st = (Ok tt, st')
  ∧ zwave_sent st st'
      (if bool_decide
            (cap ∈ default [] (dict_get base (ZWaveJS._group_capabilities st0)))
       then
         if bool_decide
              (ZWaveJS.device_ids_of e
                 (ZWaveJS.get_capability_group_nodes base cap st0) = [])
         then []
         else [ZWaveJS.multicast_set_value
                 (ZWaveJS.device_ids_of e
                    (ZWaveJS.get_capability_group_nodes base cap st0))
                 CC_BINARY_SWITCH "targetValue" (PBool on)]
       else []).
Proof.
intros (Hg & _ & _). case_bool_decide.
- unfold SE.bind, SE.gets.
  assert (Hnodes : ZWaveJS.get_capability_group_nodes base cap st
                   = ZWaveJS.get_capability_group_nodes base cap st0)
    by (unfold ZWaveJS.get_capability_group_nodes; by rewrite Hg).
  rewrite Hnodes.
  case_bool_decide as Hn; cbn [negb].
  + rewrite Hn. rewrite bool_decide_eq_true_2 by done.
    exists st. split; [done|apply zwave_sent_refl].
  + destruct (send_binary_run
                (ZWaveJS.get_capability_group_nodes base cap st0) on st)
      as (st' & Hrun & Hsent).
    exists st'. split; [|done]. unfold SE.captured. by rewrite Hrun.
- exists st. split; [done|apply zwave_sent_refl].
Qed.

Lemma plain_command_run (base domain service : string)
  (data : list (string * pyval)) st :
existsb (λ k, dict_contains k data) color_keys
&& bool_decide (service = "turn_on") = false →
dict_contains "brightness" data && bool_decide (service = "turn_on") = false →
∃ st',
  ZWaveJS._send_capability_aware_command e base domain service data st
  = (Ok tt, st')
  ∧ zwave_sent st st'
      (binary_multicasts e st base (bool_decide (service = "turn_on"))).
Proof.
intros Hc Hb.
unfold ZWaveJS._send_capability_aware_command.
unfold SE.bind at 1, SE.gets at 1.
change (existsb (λ k, dict_contains k data)
          ["rgb_color"; "rgbw_color"; "hs_color"; "xy_color"; "color_temp"])
  with (existsb (λ k, dict_contains k data) color_keys).
rewrite Hc, Hb.
set (on := bool_decide (service = "turn_on")).
unfold binary_multicasts. cbn [omap list_omap].
match goal with
| |- ∃ st', _ = _ ∧ zwave_sent _ _ ?l =>
    replace l with
      ((if bool_decide
             (ZWAVE_CAP_COLOR
              ∈ default [] (dict_get base (ZWaveJS._group_capabilities st)))
        then
          if bool_decide
               (ZWaveJS.device_ids_of e
                  (ZWaveJS.get_capability_group_nodes base ZWAVE_CAP_COLOR st)
                = [])
          then []
          else [ZWaveJS.multicast_set_value
                  (ZWaveJS.device_ids_of e
                     (ZWaveJS.get_capability_group_nodes base ZWAVE_CAP_COLOR st))
                  CC_BINARY_SWITCH "targetValue" (PBool on)]
        else [])
       ++ (if bool_decide
                (ZWAVE_CAP_DIMMER
                 ∈ default [] (dict_get base (ZWaveJS._group_capabilities st)))
           then
             if bool_decide
                  (ZWaveJS.device_ids_of e
                     (ZWaveJS.get_capability_group_nodes base ZWAVE_CAP_DIMMER st)
                   = [])
             then []
             else [ZWaveJS.multicast_set_value
                     (ZWaveJS.device_ids_of e
                        (ZWaveJS.get_capability_group_nodes base
                           ZWAVE_CAP_DIMMER st))
                     CC_BINARY_SWITCH "targetValue" (PBool on)]
           else [])
       ++ (if bool_decide
                (ZWAVE_CAP_BINARY
                 ∈ default [] (dict_get base (ZWaveJS._group_capabilities st)))
           then
             if bool_decide
                  (ZWaveJS.device_ids_of e
                     (ZWaveJS.get_capability_group_nodes base ZWAVE_CAP_BINARY st)
                   = [])
             then []
             else [ZWaveJS.multicast_set_value
                     (ZWaveJS.device_ids_of e
                        (ZWaveJS.get_capability_group_nodes base
                           ZWAVE_CAP_BINARY st))
                     CC_BINARY_SWITCH "targetValue" (PBool on)]
           else []))
end.
2:{ repeat case_bool_decide; reflexivity. }
apply seq_exact.
- apply (stage_binary base ZWAVE_CAP_COLOR on st st []), zwave_sent_refl.
- intros st1 Hs1. apply seq_exact.
  + eapply (stage_binary base ZWAVE_CAP_DIMMER on st st1). exact Hs1.
  + intros st2 Hs2.
    eapply (stage_binary base ZWAVE_CAP_BINARY on st st2).
    eapply zwave_sent_trans; [exact Hs1|exact Hs2].
Qed.

Lemma zwave_store_scene_run (group : group_id) (scene_id : Z)
  (device_states : list (option native_id * list (string * pyval))) : ∀ st,
∃ st',
  ZWaveJS.async_store_scene e group scene_id device_states st = (Ok tt, st')
  ∧ zwave_sent st st' (scene_store_calls e scene_id device_states).
Proof.
unfold ZWaveJS.async_store_scene, scene_store_calls.
induction device_states as [|[node_id state] device_states IH]; intros st.
- exists st. split; [done|apply zwave_sent_refl].
- cbn [SE.for_each omap list_omap].
  destruct (ZWaveJS._get_device_id_from_node_id e node_id) as [device_id|];
    cbn [mbind option_bind].
  + destruct (swallowed_call_run
                (ZWaveJS.cc_api_call device_id CC_SCENE_ACTUATOR_CONFIGURATION
                   [PInt scene_id; default (PInt 99) (dict_get "level" state);
                    default (PStr "default") (dict_get "duration" state)]) st)
      as (st1 & Hrun1 & Hsent1).
    destruct (IH st1) as (st' & Hrun & Hsent).
    exists st'. split.
    * unfold SE.bind at 1. rewrite Hrun1. exact Hrun.
    * change (?x :: ?l) with ([x] ++ l). by eapply zwave_sent_trans.
  + destruct (IH st) as (st' & Hrun & Hsent).
    exists st'. split; [|done]. unfold SE.bind at 1, SE.ret at 1. exact Hrun.
Qed.
End ZWaveCommands.

(** X20: a command to a capability group never raises.
    [_send_capability_aware_command] returns whatever the service calls
    and the conversions do, leaves the handler's group tables as they
    were, and issues at most four calls, each a
    [zwave_js.multicast_set_value] on the Binary, Multilevel or Color
    Switch command class. A Color Switch call is issued only for a
    [turn_on] whose data holds one of the keys [rgb_color], [rgbw_color],
    [hs_color], [xy_color], [color_temp]. *)
Theorem capability_command_never_raises (e : ZWaveJS.env)
    (base_name domain service : string) (service_data : list (string * pyval))
    (st : ZWaveJS.state) :
  ∃ st' new,
    ZWaveJS._send_capability_aware_command e base_name domain service
      service_data st = (Ok tt, st')
    ∧ zwave_sent st st' new
    ∧ length new ≤ 4
    ∧ Forall (multicast_on [CC_BINARY_SWITCH; CC_MULTILEVEL_SWITCH;
                            CC_COLOR_SWITCH]) new
    ∧ (Exists (multicast_on [CC_COLOR_SWITCH]) new →
       service = "turn_on"
       ∧ ∃ k, k ∈ color_keys ∧ is_Some (dict_get k service_data)).
Proof.
  destruct (capability_command_bound e base_name domain service service_data st)
    as (st' & new & Hrun & Hsent & Hlen & HP).
  exists st', new. split_and!; [done..| |].
  - eapply Forall_impl; [exact HP|]. intros c.
    destruct (existsb _ _ && _); [done|].
    apply multicast_on_weaken. intros x Hx.
    apply elem_of_cons in Hx as [->|Hx]; [apply list_elem_of_here|].
    apply list_elem_of_singleton in Hx as ->.
    apply list_elem_of_further, list_elem_of_here.
  - intros Hex.
    destruct (existsb (λ k, dict_contains k service_data) color_keys
              && bool_decide (service = "turn_on")) eqn:Hflags.
    + apply andb_true_iff in Hflags as [Hc Hon].
      split; [by apply bool_decide_eq_true in Hon|].
      apply existsb_exists in Hc as (k & Hin & Hk).
      exists k. split; [by apply list_elem_of_In|].
      by apply dict_contains_Some.
    + exfalso. apply Exists_exists in Hex as (c & Hin & Hcol).
      rewrite Forall_forall in HP. specialize (HP c Hin).
      destruct HP as (_ & _ & cc & Hcc & Hget).
      destruct Hcol as (_ & _ & cc' & Hcc' & Hget').
      rewrite Hget in Hget'. injection Hget' as <-.
      apply list_elem_of_singleton in Hcc'. subst cc.
      apply elem_of_cons in Hcc as [Hcc|Hcc]; [discriminate Hcc|].
      apply list_elem_of_singleton in Hcc. discriminate Hcc.
Qed.

(** X21: a plain command switches every capability sub-group.
    When the service is not [turn_on], or the data holds neither a
    brightness nor a colour key, [_send_capability_aware_command] sends
    one Binary Switch multicast to each capability sub-group that has a
    device (colour, dimmer, binary, in that order) and nothing else; the
    value is on for [turn_on] and off for every other service, whatever
    the domain. *)
Theorem plain_command_is_binary_everywhere (e : ZWaveJS.env)
    (base_name domain service : string) (service_data : list (string * pyval))
    (st : ZWaveJS.state)
    (Hplain : service ≠ "turn_on"
              ∨ (dict_get "brightness" service_data = None
                 ∧ ∀ k, k ∈ color_keys → dict_get k service_data = None)) :
  ∃ st',
    ZWaveJS._send_capability_aware_command e base_name domain service
      service_data st = (Ok tt, st')
    ∧ zwave_sent st st'
        (binary_multicasts e st base_name (bool_decide (service = "turn_on"))).
Proof.
  apply plain_command_run.
  - destruct Hplain as [Hs|[_ Hk]].
    + rewrite (bool_decide_eq_false_2 _ Hs). apply andb_false_r.
    + apply andb_false_intro1.
      destruct (existsb (λ k, dict_contains k service_data) color_keys) eqn:Hex;
        [|done].
      apply existsb_exists in Hex as (k & Hin & Hc).
      apply dict_contains_Some in Hc. apply list_elem_of_In in Hin.
      rewrite (Hk k Hin) in Hc. by destruct Hc.
  - destruct Hplain as [Hs|[Hb _]].
    + rewrite (bool_decide_eq_false_2 _ Hs). apply andb_false_r.
    + apply andb_false_intro1. unfold dict_contains. rewrite Hb.
      apply bool_decide_eq_false_2. by intros [? ?].
Qed.

Lemma plain_command_is_binary_everywhere_witness :
  ∃ st',
    ZWaveJS._send_capability_aware_command Scenario.zwave_env
      "ha_group_lights_zwave_js" "light" "toggle" [("brightness", PInt 128)]
      (ZWaveJS.mk_state
         [("ha_group_lights_zwave_js.dimmer", [Some (NodeId 5); Some (NodeId 6)])]
         [("ha_group_lights_zwave_js", ["dimmer"])] [])
    = (Ok tt, st')
    ∧ zwave_sent
        (ZWaveJS.mk_state
           [("ha_group_lights_zwave_js.dimmer",
             [Some (NodeId 5); Some (NodeId 6)])]
           [("ha_group_lights_zwave_js", ["dimmer"])] [])
        st'
        (binary_multicasts Scenario.zwave_env
           (ZWaveJS.mk_state
              [("ha_group_lights_zwave_js.dimmer",
                [Some (NodeId 5); Some (NodeId 6)])]
              [("ha_group_lights_zwave_js", ["dimmer"])] [])
           "ha_group_lights_zwave_js" (bool_decide ("toggle" = "turn_on"))).
Proof.
  apply plain_command_is_binary_everywhere. left. discriminate.
Defined.

(** X22: the Z-Wave adapter never lets a scene store fail. With
    the Z-Wave adapter as handler, the retry loop of
    [_provision_native_scene] calls [async_store_scene] exactly once and
    never sleeps, whatever the service calls answer: the adapter issues one
    Scene Actuator Configuration call per device state whose node has a
    device and swallows every failure. *)
Theorem zwave_scene_stored_once {W : Type} (get : W → ZWaveJS.state)
    (set : ZWaveJS.state → W → W) (e : ZWaveJS.env)
    (protocol group_name : string) (native_scene_id : Z)
    (device_states : list (option native_id * list (string * pyval)))
    (s : Orchestrator.t W) :
  ∃ s' st',
    Orchestrator.store_scene_attempts
      (ProtocolHandler.zoom get set (ZWaveJS.handler e))
      protocol group_name native_scene_id device_states 3 (Orchestrator.range 3) s
    = (Ok tt, s')
    ∧ extends s s'
        [Orchestrator.StoreScene protocol (GidStr group_name) native_scene_id
           device_states]
    ∧ Orchestrator._managed_resources s' = Orchestrator._managed_resources s
    ∧ Orchestrator.world s' = set st' (Orchestrator.world s)
    ∧ zwave_sent (get (Orchestrator.world s)) st'
        (scene_store_calls e native_scene_id device_states).
Proof.
  destruct (zwave_store_scene_run e (GidStr group_name) native_scene_id
              device_states (get (Orchestrator.world s)))
    as (st' & Hrun & Hsent).
  eexists _, st'. split_and!; [|..|exact Hsent].
  - unfold Orchestrator.range. cbn [seq fmap list_fmap Orchestrator.store_scene_attempts].
    unfold SE.try_except, Orchestrator.call, SE.bind, Orchestrator.emit,
      SE.modify, SE.zoom.
    cbn [ProtocolHandler.async_store_scene ProtocolHandler.zoom ZWaveJS.handler
         Orchestrator.world].
    unfold SE.zoom. rewrite Hrun. reflexivity.
  - done.
  - done.
  - done.
Qed.

(** ** The Zigbee2MQTT adapter *)

Section Z2MFacts.
Variable e : Zigbee2MQTT.env.
Implicit Types st : Zigbee2MQTT.state.

Lemma publish_each_run {A} (topic : A → string) (payload : A → pyval)
  (l : list A) : ∀ st,
SE.for_each l (λ x, Zigbee2MQTT._async_publish e (topic x) (payload x)) st
= (match first_rejection e
           ((λ x, Zigbee2MQTT.Publish (topic x) (payload x)) <$> l) with
   | None => Ok tt
   | Some err => Raised err
   end,
   Zigbee2MQTT.mk_state (Zigbee2MQTT._groups st)
     (Zigbee2MQTT.effects st
      ++ until_rejected e
           ((λ x, Zigbee2MQTT.Publish (topic x) (payload x)) <$> l))).
Proof.
induction l as [|x l IH]; intros st.
- cbn. rewrite app_nil_r. by destruct st.
- cbn [SE.for_each fmap list_fmap first_rejection until_rejected accepted].
  unfold SE.bind at 1, Zigbee2MQTT._async_publish at 1.
  destruct (Zigbee2MQTT.publish_error e (topic x) (payload x)) as [err|] eqn:Hp.
  + rewrite bool_decide_eq_false_2 by done. done.
  + rewrite bool_decide_eq_true_2 by done. rewrite IH.
    cbn [Zigbee2MQTT._groups Zigbee2MQTT.effects]. by rewrite <- app_assoc.
Qed.

Lemma gather_states_run
  (device_states : list (option native_id * list (string * pyval))) : ∀ st,
SE.gather ((λ '(device_ieee, state),
              Zigbee2MQTT._async_publish e
                (Zigbee2MQTT._base_topic +:+ "/"
                 +:+ Zigbee2MQTT.str_of_native_id device_ieee +:+ "/set")
                (PDict state)) <$> device_states) st
= (match first_rejection e (device_state_publishes device_states) with
   | None => Ok tt
   | Some err => Raised err
   end,
   Zigbee2MQTT.mk_state (Zigbee2MQTT._groups st)
     (Zigbee2MQTT.effects st ++ device_state_publishes device_states)).
Proof.
unfold device_state_publishes, Zigbee2MQTT._base_topic.
induction device_states as [|[device_ieee state] l IH]; intros st.
- cbn. rewrite app_nil_r. by destruct st.
- cbn [SE.gather fmap list_fmap first_rejection].
  unfold Zigbee2MQTT._async_publish at 1.
  destruct (Zigbee2MQTT.publish_error e _ (PDict state)) as [err|] eqn:Hp.
  + rewrite IH. cbn [snd Zigbee2MQTT._groups Zigbee2MQTT.effects].
    by rewrite <- app_assoc.
  + rewrite IH. cbn [Zigbee2MQTT._groups Zigbee2MQTT.effects].
    by rewrite <- app_assoc.
Qed.

Lemma dict_get_copy_key (k k' : string) (data payload : list (string * pyval)) :
dict_get k' (Zigbee2MQTT.copy_key k data payload)
= if decide (k = k')
  then match dict_get k data with
       | Some v => Some v
       | None => dict_get k' payload
       end
  else dict_get k' payload.
Proof.
unfold Zigbee2MQTT.copy_key. destruct (dict_get k data) as [v|].
- rewrite dict_get_set. by case_decide.
- by case_decide.
Qed.
End Z2MFacts.

(** X23: a Zigbee2MQTT group is cached only once it was asked for
    in full. [async_create_group] publishes the group request, sleeps
    0.2 s and publishes one request per member, in order, stopping at the
    first message the broker refuses. When none is refused it returns the
    group name and records the members under it; otherwise it raises the
    broker's error and the group table is as it was. *)
Theorem z2m_group_cached_when_requested (e : Zigbee2MQTT.env) (name : string)
    (member_native_ids : list (option native_id)) (st : Zigbee2MQTT.state) :
  let requests := group_add_requests name member_native_ids in
  ∃ r st',
    Zigbee2MQTT.async_create_group e name member_native_ids st = (r, st')
    ∧ Zigbee2MQTT.effects st'
      = Zigbee2MQTT.effects st ++ until_rejected e requests
    ∧ match first_rejection e requests with
      | None =>
          r = Ok (GidStr name)
          ∧ Zigbee2MQTT._groups st'
            = dict_set name member_native_ids (Zigbee2MQTT._groups st)
      | Some err =>
          r = Raised err ∧ Zigbee2MQTT._groups st' = Zigbee2MQTT._groups st
      end.
Proof.
  intros requests. subst requests.
  unfold Zigbee2MQTT.async_create_group, group_add_requests.
  cbn [first_rejection until_rejected accepted].
  unfold SE.bind at 1, Zigbee2MQTT._async_publish at 1.
  unfold Zigbee2MQTT._base_topic.
  destruct (Zigbee2MQTT.publish_error e
              (Z2M_BASE_TOPIC +:+ "/bridge/request/group/add")
              (PDict [("friendly_name", PStr name)])) as [err|] eqn:Hadd.
  - rewrite bool_decide_eq_false_2 by done. eexists _, _.
    split; [reflexivity|]. done.
  - rewrite bool_decide_eq_true_2 by done.
    unfold SE.bind at 1, Zigbee2MQTT.sleep at 1, SE.modify at 1.
    unfold SE.bind at 1.
    rewrite (publish_each_run e
               (λ _, Z2M_BASE_TOPIC +:+ "/bridge/request/group/members/add")
               (λ ieee, PDict [("group", PStr name);
                               ("device", GroupMapping.native_id_to_py ieee)])).
    cbn [Zigbee2MQTT._groups Zigbee2MQTT.effects].
    destruct (first_rejection e _) as [err|].
    + eexists _, _. split; [reflexivity|].
      cbn [Zigbee2MQTT._groups Zigbee2MQTT.effects].
      split; [|done]. by rewrite <- !app_assoc.
    + eexists _, _. split; [reflexivity|].
      cbn [Zigbee2MQTT._groups Zigbee2MQTT.effects].
      split; [|done]. by rewrite <- !app_assoc.
Qed.

(** X24: a Zigbee2MQTT scene is stored only over target states
    that were all published. [async_store_scene] publishes the target
    state of every device, also after one of them was refused; only when
    none was refused does it sleep and publish [scene_store] to the group,
    and it returns exactly when that last message is accepted too. The
    group table is never touched. *)
Theorem z2m_scene_stored_after_states (e : Zigbee2MQTT.env) (group : group_id)
    (scene_id : Z)
    (device_states : list (option native_id * list (string * pyval)))
    (st : Zigbee2MQTT.state) :
  let states := device_state_publishes device_states in
  let topic := Z2M_BASE_TOPIC +:+ "/" +:+ str_of_group_id (Some group) +:+ "/set" in
  let payload := PDict [("scene_store", PInt scene_id)] in
  ∃ r st',
    Zigbee2MQTT.async_store_scene e group scene_id device_states st = (r, st')
    ∧ Zigbee2MQTT._groups st' = Zigbee2MQTT._groups st
    ∧ match first_rejection e states with
      | Some err =>
          r = Raised err
          ∧ Zigbee2MQTT.effects st' = Zigbee2MQTT.effects st ++ states
      | None =>
          Zigbee2MQTT.effects st'
          = Zigbee2MQTT.effects st ++ states
            ++ [Zigbee2MQTT.Sleep DEFAULT_SCENE_STORE_DELAY;
                Zigbee2MQTT.Publish topic payload]
          ∧ r = match Zigbee2MQTT.publish_error e topic payload with
                | None => Ok tt
                | Some err => Raised err
                end
      end.
Proof.
  intros states topic payload. subst states topic payload.
  unfold Zigbee2MQTT.async_store_scene.
  unfold SE.bind at 1. rewrite gather_states_run.
  unfold Zigbee2MQTT._base_topic.
  destruct (first_rejection e _) as [err|].
  - eexists _, _. split; [reflexivity|]. done.
  - unfold SE.bind at 1, Zigbee2MQTT.sleep at 1, SE.modify at 1.
    unfold Zigbee2MQTT._async_publish.
    cbn [Zigbee2MQTT._groups Zigbee2MQTT.effects].
    eexists _, _. split; [reflexivity|].
    cbn [Zigbee2MQTT._groups Zigbee2MQTT.effects].
    split; [done|]. split; [|done]. by rewrite <- !app_assoc.
Qed.

(** X25: what [convert_service_data] keeps of a [light.turn_on]. When
    each colour of the data is absent or has the right number of
    components, the payload has [state] ON, the brightness, colour
    temperature and transition of the data, and no key besides these and
    [color]; its [color] is the hue and saturation if the data has
    [hs_color], else the x and y if it has [xy_color], else the r, g and b
    of [rgb_color], else absent. *)
Theorem z2m_light_payload (data : list (string * pyval))
    (Hrgb : dict_get "rgb_color" data = None
            ∨ ∃ r g b, dict_get "rgb_color" data = Some (PList [r; g; b]))
    (Hxy : dict_get "xy_color" data = None
           ∨ ∃ x y, dict_get "xy_color" data = Some (PList [x; y]))
    (Hhs : dict_get "hs_color" data = None
           ∨ ∃ h s, dict_get "hs_color" data = Some (PList [h; s])) :
  ∃ payload,
    Zigbee2MQTT.convert_service_data "light" "turn_on" data = Ok payload
    ∧ dict_get "state" payload = Some (PStr "ON")
    ∧ dict_get "brightness" payload = dict_get "brightness" data
    ∧ dict_get "color_temp" payload = dict_get "color_temp" data
    ∧ dict_get "transition" payload = dict_get "transition" data
    ∧ dict_get "color" payload
      = match dict_get "hs_color" data, dict_get "xy_color" data,
              dict_get "rgb_color" data with
        | Some (PList [h; s]), _, _ =>
            Some (PDict [("hue", h); ("saturation", s)])
        | _, Some (PList [x; y]), _ => Some (PDict [("x", x); ("y", y)])
        | _, _, Some (PList [r; g; b]) =>
            Some (PDict [("r", r); ("g", g); ("b", b)])
        | _, _, _ => None
        end
    ∧ (∀ k, k ∉ ["state"; "brightness"; "color_temp"; "color"; "transition"] →
            dict_get k payload = None).
Proof.
  unfold Zigbee2MQTT.convert_service_data.
  rewrite (bool_decide_eq_true_2 ("light" = "light")) by done.
  rewrite (bool_decide_eq_true_2 ("turn_on" = "turn_on")) by done.
  destruct Hrgb as [Hrgb|(r & g & b & Hrgb)],
           Hxy as [Hxy|(x & y & Hxy)],
           Hhs as [Hhs|(h & s & Hhs)];
    rewrite Hrgb, Hxy, Hhs; cbn [Zigbee2MQTT.unpack2 Zigbee2MQTT.unpack3];
    (eexists; split; [reflexivity|]);
    (split_and!;
     [ rewrite ?dict_get_copy_key, ?dict_get_set, ?dict_get_copy_key; done
     | rewrite ?dict_get_copy_key, ?dict_get_set, ?dict_get_copy_key;
       cbn; by destruct (dict_get "brightness" data)
     | rewrite ?dict_get_copy_key, ?dict_get_set, ?dict_get_copy_key;
       cbn; by destruct (dict_get "color_temp" data)
     | rewrite ?dict_get_copy_key, ?dict_get_set, ?dict_get_copy_key;
       cbn; by destruct (dict_get "transition" data)
     | rewrite ?dict_get_copy_key, ?dict_get_set, ?dict_get_copy_key; done
     | intros k Hk;
       rewrite ?dict_get_copy_key, ?dict_get_set, ?dict_get_copy_key;
       repeat (case_decide; [subst k; exfalso; apply Hk;
                             by repeat first [apply list_elem_of_here
                                             | apply list_elem_of_further]|]);
       rewrite dict_get_cons; case_decide; [|done];
       subst k; exfalso; apply Hk; apply list_elem_of_here ]).
Qed.

Lemma z2m_light_payload_witness :
  ∃ payload,
    Zigbee2MQTT.convert_service_data "light" "turn_on"
      [("brightness", PInt 128); ("rgb_color", PList [PInt 255; PInt 0; PInt 0]);
       ("hs_color", PList [PInt 120; PInt 50]); ("entity_id", PStr "light.desk")]
    = Ok payload
    ∧ dict_get "state" payload = Some (PStr "ON")
    ∧ dict_get "brightness" payload = Some (PInt 128)
    ∧ dict_get "color_temp" payload = None
    ∧ dict_get "transition" payload = None
    ∧ dict_get "color" payload
      = Some (PDict [("hue", PInt 120); ("saturation", PInt 50)])
    ∧ (∀ k, k ∉ ["state"; "brightness"; "color_temp"; "color"; "transition"] →
            dict_get k payload = None).
Proof.
  apply (z2m_light_payload
           [("brightness", PInt 128);
            ("rgb_color", PList [PInt 255; PInt 0; PInt 0]);
            ("hs_color", PList [PInt 120; PInt 50]);
            ("entity_id", PStr "light.desk")]).
  - right. by eexists _, _, _.
  - by left.
  - right. by eexists _, _.
Defined.

(** ** Colour temperature on the white channels *)

Lemma white_levels_channels (service_data : list (string * pyval)) (warm cold : Z) :
  white_levels service_data = Some (warm, cold) →
  ZWaveJS._color_temp_to_white_channels service_data
  = Ok [("warmWhite", PInt warm); ("coldWhite", PInt cold)].
Proof.
  unfold white_levels, ZWaveJS._color_temp_to_white_channels.
  intros H. repeat case_match; simplify_eq/=; try done.
  all: match goal with
       | Hc : dict_get "coldWhite" _ = Some _,
         Hw : dict_get "warmWhite" _ = Some _ |- _ =>
           vm_compute in Hc; vm_compute in Hw;
           injection Hc as <-; injection Hw as <-; reflexivity
       end.
Qed.

Lemma clamp_kelvin_int (k : Z) :
  ZWaveJS.clamp_kelvin (NumInt k) = NumInt (Z.max 2700 (Z.min 6500 k)).
Proof.
  unfold ZWaveJS.clamp_kelvin, ZWaveJS.lt_const, ZWaveJS.gt_const.
  destruct (k <? 6500)%Z eqn:H1.
  - destruct (2700 <? k)%Z eqn:H2; f_equal; lia.
  - cbn. f_equal. lia.
Qed.

Lemma white_levels_kelvin (service_data : list (string * pyval)) (k : Z) :
  dict_get "color_temp_kelvin" service_data = Some (PInt k) →
  white_levels service_data
  = white_levels [("color_temp_kelvin", PInt (Z.max 2700 (Z.min 6500 k)))].
Proof.
  intros H. unfold white_levels, ZWaveJS._color_temp_to_white_channels.
  rewrite H.
  change (dict_get "color_temp_kelvin"
            [("color_temp_kelvin", PInt (Z.max 2700 (Z.min 6500 k)))])
    with (Some (PInt (Z.max 2700 (Z.min 6500 k)))).
  cbn [ZWaveJS.number_of PInt].
  rewrite !clamp_kelvin_int.
  replace (Z.max 2700 (Z.min 6500 (Z.max 2700 (Z.min 6500 k))))
    with (Z.max 2700 (Z.min 6500 k)) by lia.
  done.
Qed.

Lemma white_levels_mireds (service_data : list (string * pyval)) (m : Z) :
  dict_get "color_temp_kelvin" service_data = None →
  dict_get "color_temp" service_data = Some (PInt m) →
  white_levels service_data = white_levels [("color_temp", PInt m)].
Proof.
  intros Hk Hm. unfold white_levels, ZWaveJS._color_temp_to_white_channels.
  rewrite Hk, Hm.
  change (dict_get "color_temp_kelvin" [("color_temp", PInt m)])
    with (@None pyval).
  change (dict_get "color_temp" [("color_temp", PInt m)]) with (Some (PInt m)).
  done.
Qed.

Lemma kelvin_levels_table :
  forallb (λ n,
    match white_levels [("color_temp_kelvin", PInt (2700 + Z.of_nat n))],
          white_levels [("color_temp_kelvin", PInt (2700 + Z.of_nat (S n)))] with
    | Some (warm, cold), Some (warm', cold') =>
        (0 <=? warm)%Z && (warm <=? 255)%Z && (0 <=? cold)%Z && (cold <=? 255)%Z
        && (254 <=? warm + cold)%Z && (warm + cold <=? 255)%Z
        && (warm' <=? warm)%Z && (cold <=? cold')%Z
    | _, _ => false
    end) (seq 0 3800) = true.
Proof. vm_compute. reflexivity. Qed.

Lemma kelvin_levels_ends :
  white_levels [("color_temp_kelvin", PInt 2700)] = Some (255, 0)%Z
  ∧ white_levels [("color_temp_kelvin", PInt 6500)] = Some (0, 255)%Z.
Proof. split; vm_compute; reflexivity. Qed.

Lemma kelvin_levels_step (n : nat) :
  n < 3800 →
  ∃ warm cold warm' cold',
    white_levels [("color_temp_kelvin", PInt (2700 + Z.of_nat n))]
    = Some (warm, cold)
    ∧ white_levels [("color_temp_kelvin", PInt (2700 + Z.of_nat (S n)))]
      = Some (warm', cold')
    ∧ (0 ≤ warm ≤ 255)%Z ∧ (0 ≤ cold ≤ 255)%Z ∧ (254 ≤ warm + cold ≤ 255)%Z
    ∧ (warm' ≤ warm)%Z ∧ (cold ≤ cold')%Z.
Proof.
  intros Hn. pose proof kelvin_levels_table as Ht.
  rewrite forallb_forall in Ht.
  specialize (Ht n). rewrite in_seq in Ht.
  assert (Hin : 0 ≤ n < 0 + 3800) by lia. specialize (Ht Hin).
  destruct (white_levels [("color_temp_kelvin", PInt (2700 + Z.of_nat n))])
    as [[warm cold]|]; [|done].
  destruct (white_levels [("color_temp_kelvin", PInt (2700 + Z.of_nat (S n)))])
    as [[warm' cold']|]; [|done].
  exists warm, cold, warm', cold'.
  repeat (apply andb_true_iff in Ht as [Ht ?]).
  split; [done|]. split; [done|]. repeat split; lia.
Qed.

Lemma kelvin_levels_in_range (k : Z) :
  (2700 ≤ k ≤ 6500)%Z →
  ∃ warm cold,
    white_levels [("color_temp_kelvin", PInt k)] = Some (warm, cold)
    ∧ (0 ≤ warm ≤ 255)%Z ∧ (0 ≤ cold ≤ 255)%Z ∧ (254 ≤ warm + cold ≤ 255)%Z.
Proof.
  intros Hk. destruct (decide (k = 6500%Z)) as [->|Hne].
  - exists 0%Z, 255%Z. split; [apply kelvin_levels_ends|lia].
  - destruct (kelvin_levels_step (Z.to_nat (k - 2700)))
      as (warm & cold & _ & _ & Hl & _ & Hw & Hc & Hs & _); [lia|].
    replace (2700 + Z.of_nat (Z.to_nat (k - 2700)))%Z with k in Hl by lia.
    by exists warm, cold.
Qed.

Lemma kelvin_levels_monotone (d : nat) : ∀ k warm cold warm' cold',
  (2700 ≤ k)%Z → (k + Z.of_nat d ≤ 6500)%Z →
  white_levels [("color_temp_kelvin", PInt k)] = Some (warm, cold) →
  white_levels [("color_temp_kelvin", PInt (k + Z.of_nat d))]
  = Some (warm', cold') →
  (warm' ≤ warm)%Z ∧ (cold ≤ cold')%Z.
Proof.
  induction d as [|d IH]; intros k warm cold warm' cold' Hlo Hhi Hl Hl'.
  - replace (k + Z.of_nat 0)%Z with k in Hl' by lia.
    rewrite Hl in Hl'. injection Hl' as <- <-. lia.
  - destruct (kelvin_levels_step (Z.to_nat (k - 2700)))
      as (w0 & c0 & w1 & c1 & H0 & H1 & _ & _ & _ & Hw & Hc); [lia|].
    replace (2700 + Z.of_nat (Z.to_nat (k - 2700)))%Z with k in H0 by lia.
    replace (2700 + Z.of_nat (S (Z.to_nat (k - 2700))))%Z with (k + 1)%Z
      in H1 by lia.
    rewrite Hl in H0. injection H0 as <- <-.
    destruct (IH (k + 1)%Z w1 c1 warm' cold') as [Hw' Hc']; [lia|lia|done| |lia].
    by replace (k + 1 + Z.of_nat d)%Z with (k + Z.of_nat (S d))%Z by lia.
Qed.

(** X26: the white channels of a colour temperature in kelvin. For
    every integer [color_temp_kelvin], [_color_temp_to_white_channels]
    returns a warm and a cold white level, both in [[0, 255]], whose sum is
    254 or 255; 2700 K or less is all warm, 6500 K or more all cold, and a
    higher temperature never gives more warm or less cold. *)
Theorem white_channels_of_kelvin (service_data : list (string * pyval)) (kelvin : Z)
    (Hkelvin : dict_get "color_temp_kelvin" service_data = Some (PInt kelvin)) :
  ∃ warm cold,
    ZWaveJS._color_temp_to_white_channels service_data
    = Ok [("warmWhite", PInt warm); ("coldWhite", PInt cold)]
    ∧ (0 ≤ warm ≤ 255)%Z ∧ (0 ≤ cold ≤ 255)%Z
    ∧ (254 ≤ warm + cold ≤ 255)%Z
    ∧ ((kelvin ≤ 2700)%Z → warm = 255%Z ∧ cold = 0%Z)
    ∧ ((6500 ≤ kelvin)%Z → warm = 0%Z ∧ cold = 255%Z)
    ∧ (∀ service_data' kelvin' warm' cold',
         dict_get "color_temp_kelvin" service_data' = Some (PInt kelvin') →
         (kelvin ≤ kelvin')%Z →
         ZWaveJS._color_temp_to_white_channels service_data'
         = Ok [("warmWhite", PInt warm'); ("coldWhite", PInt cold')] →
         (warm' ≤ warm)%Z ∧ (cold ≤ cold')%Z).
Proof.
  pose proof (white_levels_kelvin service_data kelvin Hkelvin) as Hl.
  destruct (kelvin_levels_in_range (Z.max 2700 (Z.min 6500 kelvin)))
    as (warm & cold & Hwc & Hw & Hc & Hs); [lia|].
  rewrite <- Hl in Hwc.
  exists warm, cold. split; [by apply white_levels_channels|].
  split; [done|]. split; [done|]. split; [done|]. split; [|split].
  - intros Hk. rewrite Hl in Hwc.
    replace (Z.max 2700 (Z.min 6500 kelvin)) with 2700%Z in Hwc by lia.
    destruct kelvin_levels_ends as [He _]. rewrite He in Hwc. by injection Hwc.
  - intros Hk. rewrite Hl in Hwc.
    replace (Z.max 2700 (Z.min 6500 kelvin)) with 6500%Z in Hwc by lia.
    destruct kelvin_levels_ends as [_ He]. rewrite He in Hwc. by injection Hwc.
  - intros data' k' warm' cold' Hk' Hle Hres.
    assert (Hl' : white_levels data' = Some (warm', cold')).
    { unfold white_levels. rewrite Hres. done. }
    rewrite (white_levels_kelvin data' k' Hk') in Hl'. rewrite Hl in Hwc.
    eapply (kelvin_levels_monotone
              (Z.to_nat (Z.max 2700 (Z.min 6500 k')
                         - Z.max 2700 (Z.min 6500 kelvin)))
              (Z.max 2700 (Z.min 6500 kelvin))); [lia|lia|exact Hwc|].
    replace (Z.max 2700 (Z.min 6500 kelvin)
             + Z.of_nat (Z.to_nat (Z.max 2700 (Z.min 6500 k')
                                   - Z.max 2700 (Z.min 6500 kelvin))))%Z
      with (Z.max 2700 (Z.min 6500 k')) by lia.
    exact Hl'.
Qed.

Lemma white_channels_of_kelvin_witness :
  ∃ warm cold,
    ZWaveJS._color_temp_to_white_channels
      [("brightness", PInt 200); ("color_temp_kelvin", PInt 4000)]
    = Ok [("warmWhite", PInt warm); ("coldWhite", PInt cold)]
    ∧ (0 ≤ warm ≤ 255)%Z ∧ (0 ≤ cold ≤ 255)%Z
    ∧ (254 ≤ warm + cold ≤ 255)%Z
    ∧ ((4000 ≤ 2700)%Z → warm = 255%Z ∧ cold = 0%Z)
    ∧ ((6500 ≤ 4000)%Z → warm = 0%Z ∧ cold = 255%Z)
    ∧ (∀ service_data' kelvin' warm' cold',
         dict_get "color_temp_kelvin" service_data' = Some (PInt kelvin') →
         (4000 ≤ kelvin')%Z →
         ZWaveJS._color_temp_to_white_channels service_data'
         = Ok [("warmWhite", PInt warm'); ("coldWhite", PInt cold')] →
         (warm' ≤ warm)%Z ∧ (cold ≤ cold')%Z).
Proof.
  apply (white_channels_of_kelvin
           [("brightness", PInt 200); ("color_temp_kelvin", PInt 4000)] 4000).
  reflexivity.
Defined.

Lemma mired_levels_table :
  forallb (λ n,
    match white_levels [("color_temp", PInt (Z.of_nat n))] with
    | Some (warm, cold) =>
        (0 <=? warm)%Z && (warm <=? 255)%Z && (0 <=? cold)%Z && (cold <=? 255)%Z
        && (254 <=? warm + cold)%Z && (warm + cold <=? 255)%Z
        && (if (n <=? 153)%nat then (warm =? 0)%Z && (cold =? 255)%Z else true)
        && (if (371 <=? n)%nat then (warm =? 255)%Z && (cold =? 0)%Z else true)
    | None => false
    end) (seq 1 1000) = true.
Proof. vm_compute. reflexivity. Qed.

(** X27: the white channels of a colour temperature in mireds.
    Without [color_temp_kelvin], an integer [color_temp] from 1 to 1000
    mireds gives a warm and a cold white level in [[0, 255]] whose sum is
    254 or 255; 153 mireds or less is all cold and 371 mireds or more all
    warm. A [color_temp] of zero or less is taken for 4000 K. *)
Theorem white_channels_of_mireds (service_data : list (string * pyval)) (mireds : Z)
    (Hkelvin : dict_get "color_temp_kelvin" service_data = None)
    (Hmireds : dict_get "color_temp" service_data = Some (PInt mireds)) :
  ((mireds ≤ 0)%Z →
   ZWaveJS._color_temp_to_white_channels service_data
   = ZWaveJS._color_temp_to_white_channels [("color_temp_kelvin", PInt 4000)])
  ∧ ((1 ≤ mireds ≤ 1000)%Z →
     ∃ warm cold,
       ZWaveJS._color_temp_to_white_channels service_data
       = Ok [("warmWhite", PInt warm); ("coldWhite", PInt cold)]
       ∧ (0 ≤ warm ≤ 255)%Z ∧ (0 ≤ cold ≤ 255)%Z
       ∧ (254 ≤ warm + cold ≤ 255)%Z
       ∧ ((mireds ≤ 153)%Z → warm = 0%Z ∧ cold = 255%Z)
       ∧ ((371 ≤ mireds)%Z → warm = 255%Z ∧ cold = 0%Z)).
Proof.
  split.
  - intros Hm. unfold ZWaveJS._color_temp_to_white_channels at 1.
    rewrite Hkelvin, Hmireds. cbn [ZWaveJS.number_of PInt ZWaveJS.gt_const].
    replace (0 <? mireds)%Z with false by (symmetry; apply Z.ltb_ge; lia).
    reflexivity.
  - intros Hm. pose proof mired_levels_table as Ht.
    rewrite forallb_forall in Ht. specialize (Ht (Z.to_nat mireds)).
    rewrite in_seq in Ht.
    assert (Hin : 1 ≤ Z.to_nat mireds < 1 + 1000) by lia. specialize (Ht Hin).
    rewrite Z2Nat.id in Ht by lia.
    rewrite <- (white_levels_mireds service_data mireds Hkelvin Hmireds) in Ht.
    destruct (white_levels service_data) as [[warm cold]|] eqn:Hl; [|done].
    exists warm, cold. split; [by apply white_levels_channels|].
    repeat (apply andb_true_iff in Ht as [Ht ?]).
    split; [lia|]. split; [lia|]. split; [lia|]. split.
    + intros Hlow. destruct (Z.to_nat mireds <=? 153)%nat eqn:Hcmp.
      * match goal with
        | H : (_ =? 0)%Z && (_ =? 255)%Z = true |- _ =>
            apply andb_true_iff in H as [?%Z.eqb_eq ?%Z.eqb_eq]
        end. done.
      * apply Nat.leb_gt in Hcmp. lia.
    + intros Hhigh. destruct (371 <=? Z.to_nat mireds)%nat eqn:Hcmp.
      * match goal with
        | H : (_ =? 255)%Z && (_ =? 0)%Z = true |- _ =>
            apply andb_true_iff in H as [?%Z.eqb_eq ?%Z.eqb_eq]
        end. done.
      * apply Nat.leb_gt in Hcmp. lia.
Qed.

Lemma white_channels_of_mireds_witness :
  ((250 ≤ 0)%Z →
   ZWaveJS._color_temp_to_white_channels [("color_temp", PInt 250)]
   = ZWaveJS._color_temp_to_white_channels [("color_temp_kelvin", PInt 4000)])
  ∧ ((1 ≤ 250 ≤ 1000)%Z →
     ∃ warm cold,
       ZWaveJS._color_temp_to_white_channels [("color_temp", PInt 250)]
       = Ok [("warmWhite", PInt warm); ("coldWhite", PInt cold)]
       ∧ (0 ≤ warm ≤ 255)%Z ∧ (0 ≤ cold ≤ 255)%Z
       ∧ (254 ≤ warm + cold ≤ 255)%Z
       ∧ ((250 ≤ 153)%Z → warm = 0%Z ∧ cold = 255%Z)
       ∧ ((371 ≤ 250)%Z → warm = 255%Z ∧ cold = 0%Z)).
Proof.
  apply (white_channels_of_mireds [("color_temp", PInt 250)] 250);
    reflexivity.
Defined.

(** ** The names of the native groups *)

Lemma contains_char_nil (c : ascii) : contains (String c "") "" = false.
Proof. done. Qed.

Lemma contains_char_app (c : ascii) (a b : string) :
  contains (String c "") (a +:+ b)
  = contains (String c "") a || contains (String c "") b.
Proof.
  induction a as [|x a IH].
  - change ("" +:+ b) with b. by rewrite contains_char_nil.
  - change (String x a +:+ b) with (String x (a +:+ b)).
    rewrite !contains_char_cons, IH. by destruct (Ascii.eqb x c).
Qed.

Lemma contains_char_replace (c a b : ascii) (s : string) :
  c ≠ a → c ≠ b →
  contains (String c "") (replace a b s) = contains (String c "") s.
Proof.
  intros Ha Hb. induction s as [|x s IH]; [done|].
  cbn [replace]. rewrite !contains_char_cons, IH.
  destruct (Ascii.eqb_spec x a) as [->|Hx].
  - destruct (Ascii.eqb_spec b c) as [->|_]; [done|].
    by destruct (Ascii.eqb_spec a c) as [->|_].
  - done.
Qed.

(** X28: the name of a native group. A name
    [_generate_group_name] builds starts with [ha_], the prefix by which
    reconciliation recognises the integration's groups, and contains a
    colon, the separator of the resource references, only if the entity
    id or the protocol does; with two different protocols the names of one
    entity differ. *)
Theorem generated_group_names (ha_entity_id protocol : string) :
  let name := Orchestrator._generate_group_name ha_entity_id protocol in
  startswith name "ha_" = true
  ∧ contains ":" name = contains ":" ha_entity_id || contains ":" protocol
  ∧ (∀ protocol',
       Orchestrator._generate_group_name ha_entity_id protocol' = name →
       protocol' = protocol).
Proof.
  intros name. subst name. unfold Orchestrator._generate_group_name.
  split.
  { unfold startswith.
    generalize (replace "." "_" ha_entity_id +:+ "_" +:+ protocol).
    intros rest. by destruct rest. }
  split.
  - rewrite !contains_char_app.
    rewrite (contains_char_replace ":" "." "_") by done.
    change (contains ":" "ha_") with false.
    change (contains ":" "_") with false.
    done.
  - intros protocol' Heq.
    change ("ha_" +:+ replace "." "_" ha_entity_id +:+ "_" +:+ protocol')
      with ("ha_" +:+ (replace "." "_" ha_entity_id +:+ ("_" +:+ protocol')))
      in Heq.
    change ("ha_" +:+ replace "." "_" ha_entity_id +:+ "_" +:+ protocol)
      with ("ha_" +:+ (replace "." "_" ha_entity_id +:+ ("_" +:+ protocol)))
      in Heq.
    apply append_inv_head, append_inv_head in Heq. by injection Heq.
Qed.

(** ** The Z-Wave adapter: group membership *)

Lemma filter_all {A} (f : A → bool) (l : list A) :
  (∀ x, f x = true) → List.filter f l = l.
Proof.
  intros Hf. induction l as [|x l IH]; [done|].
  cbn [List.filter]. by rewrite Hf, IH.
Qed.

(** X29: updating the members of a Z-Wave group. 
    [async_update_group_members] never raises and makes no service call;
    afterwards the group exists, also when it did not before, and its
    members are the old ones followed by the added ones, without those to
    remove, so that a member both added and removed is absent; no other
    group changes. *)
Theorem group_members_updated (group : group_id)
    (add_members remove_members : option (list (option native_id)))
    (st : ZWaveJS.state) :
  let group_key := str_of_group_id (Some group) in
  ∃ st',
    ZWaveJS.async_update_group_members group add_members remove_members st
    = (Ok tt, st')
    ∧ ZWaveJS.calls st' = ZWaveJS.calls st
    ∧ ZWaveJS._group_capabilities st' = ZWaveJS._group_capabilities st
    ∧ ZWaveJS.async_group_exists group st' = (Ok true, st')
    ∧ dict_get group_key (ZWaveJS._groups st')
      = Some (List.filter
                (λ n, negb (bool_decide (n ∈ default [] remove_members)))
                (default [] (dict_get group_key (ZWaveJS._groups st))
                 ++ default [] add_members))
    ∧ (∀ k, k ≠ group_key →
         dict_get k (ZWaveJS._groups st') = dict_get k (ZWaveJS._groups st)).
Proof.
  intros group_key. subst group_key.
  unfold ZWaveJS.async_update_group_members.
  set (key := str_of_group_id (Some group)).
  set (add := default [] add_members).
  set (remove := default [] remove_members).
  unfold SE.bind at 1, SE.modify at 1.
  set (st0 := if dict_contains key (ZWaveJS._groups st) then st
              else ZWaveJS.set_groups (dict_set key [] (ZWaveJS._groups st)) st).
  assert (H0 : ZWaveJS.calls st0 = ZWaveJS.calls st
               ∧ ZWaveJS._group_capabilities st0 = ZWaveJS._group_capabilities st
               ∧ dict_get key (ZWaveJS._groups st0)
                 = Some (default [] (dict_get key (ZWaveJS._groups st)))
               ∧ ∀ k, k ≠ key → dict_get k (ZWaveJS._groups st0)
                                = dict_get k (ZWaveJS._groups st)).
  { subst st0. destruct (dict_contains key (ZWaveJS._groups st)) eqn:Hc.
    - apply dict_contains_Some in Hc as [v Hv]. rewrite Hv. done.
    - cbn [ZWaveJS.calls ZWaveJS._group_capabilities ZWaveJS._groups
           ZWaveJS.set_groups].
      split_and!; [done|done| |].
      + rewrite dict_get_set, decide_True by done.
        destruct (dict_get key (ZWaveJS._groups st)) as [v|] eqn:Hv; [|done].
        assert (dict_contains key (ZWaveJS._groups st) = true) as Ht
          by (apply dict_contains_Some; by rewrite Hv).
        congruence.
      + intros k Hk. rewrite dict_get_set. by rewrite decide_False. }
  destruct H0 as (Hcalls0 & Hcaps0 & Hget0 & Hframe0).
  unfold SE.bind at 1.
  set (st1 := if negb (bool_decide (add = []))
              then ZWaveJS.set_groups
                     (dict_set key
                        (default [] (dict_get key (ZWaveJS._groups st0)) ++ add)
                        (ZWaveJS._groups st0)) st0
              else st0).
  assert (Hrun1 : (if negb (bool_decide (add = []))
                   then SE.modify (λ st,
                          ZWaveJS.set_groups
                            (dict_set key
                               (default [] (dict_get key (ZWaveJS._groups st))
                                ++ add)
                               (ZWaveJS._groups st)) st)
                   else SE.ret tt) st0 = (Ok tt, st1)).
  { subst st1. by destruct (negb (bool_decide (add = []))). }
  rewrite Hrun1.
  assert (H1 : ZWaveJS.calls st1 = ZWaveJS.calls st
               ∧ ZWaveJS._group_capabilities st1 = ZWaveJS._group_capabilities st
               ∧ dict_get key (ZWaveJS._groups st1)
                 = Some (default [] (dict_get key (ZWaveJS._groups st)) ++ add)
               ∧ ∀ k, k ≠ key → dict_get k (ZWaveJS._groups st1)
                                = dict_get k (ZWaveJS._groups st)).
  { subst st1. destruct (decide (add = [])) as [Ha|Ha].
    - rewrite (bool_decide_eq_true_2 _ Ha). cbn [negb].
      rewrite Ha, app_nil_r. done.
    - rewrite (bool_decide_eq_false_2 _ Ha). cbn [negb].
      cbn [ZWaveJS.calls ZWaveJS._group_capabilities ZWaveJS._groups
           ZWaveJS.set_groups].
      split_and!; [done|done| |].
      + rewrite dict_get_set, decide_True by done. by rewrite Hget0.
      + intros k Hk. rewrite dict_get_set, decide_False by done.
        by apply Hframe0. }
  destruct H1 as (Hcalls1 & Hcaps1 & Hget1 & Hframe1).
  set (st2 := if negb (bool_decide (remove = []))
              then ZWaveJS.set_groups
                     (dict_set key
                        (List.filter (λ n, negb (bool_decide (n ∈ remove)))
                           (default [] (dict_get key (ZWaveJS._groups st1))))
                        (ZWaveJS._groups st1)) st1
              else st1).
  exists st2.
  assert (H2 : ZWaveJS.calls st2 = ZWaveJS.calls st
               ∧ ZWaveJS._group_capabilities st2 = ZWaveJS._group_capabilities st
               ∧ dict_get key (ZWaveJS._groups st2)
                 = Some (List.filter (λ n, negb (bool_decide (n ∈ remove)))
                           (default [] (dict_get key (ZWaveJS._groups st)) ++ add))
               ∧ ∀ k, k ≠ key → dict_get k (ZWaveJS._groups st2)
                                = dict_get k (ZWaveJS._groups st)).
  { subst st2. destruct (decide (remove = [])) as [Hr|Hr].
    - rewrite (bool_decide_eq_true_2 _ Hr). cbn [negb].
      rewrite Hr. rewrite filter_all; [done|].
      intros n. apply negb_true_iff, bool_decide_eq_false_2, not_elem_of_nil.
    - rewrite (bool_decide_eq_false_2 _ Hr). cbn [negb].
      cbn [ZWaveJS.calls ZWaveJS._group_capabilities ZWaveJS._groups
           ZWaveJS.set_groups].
      split_and!; [done|done| |].
      + rewrite dict_get_set, decide_True by done. by rewrite Hget1.
      + intros k Hk. rewrite dict_get_set, decide_False by done.
        by apply Hframe1. }
  destruct H2 as (Hcalls2 & Hcaps2 & Hget2 & Hframe2).
  split_and!; try done.
  - subst st2. by destruct (negb (bool_decide (remove = []))).
  - unfold ZWaveJS.async_group_exists, SE.gets. f_equal. f_equal.
    apply dict_contains_Some. fold key. by rewrite Hget2.
Qed.

(** ** Manual synchronisation *)

Lemma startswith_scene_not_group (s : string) :
  startswith s "scene." = true → startswith s "group." = false.
Proof.
  unfold startswith. destruct s as [|c r]; [done|].
  cbn [String.prefix]. destruct (ascii_dec "s" c) as [<-|]; [|done].
  intros _. by destruct (ascii_dec "g" "s").
Qed.

Lemma startswith_prefixed (p s : string) : startswith (p +:+ s) p = true.
Proof.
  unfold startswith. induction p as [|c p IH].
  - change ("" +:+ s) with s. by destruct s.
  - change (String c p +:+ s) with (String c (p +:+ s)). cbn [String.prefix].
    by destruct (ascii_dec c c).
Qed.

(** X30: a manual sync is the re-provisioning of an update.
    [async_sync_entity] on [area.<id>], [floor.<id>] or [label.<id>]
    releases the resources recorded under exactly the key the area, floor
    or label provisioning writes, and provisions that area, floor or label
    again; on a group or scene id it does what the update of that group or
    scene does; on any other id it only releases the resources recorded
    under the id and provisions nothing. *)
Theorem sync_entity_reprovisions {W : Type} (hass : HomeAssistant.t)
    (time_time : nat → float) :
  (∀ area_id,
     Orchestrator.async_sync_entity (W:=W) hass time_time ("area." +:+ area_id)
     = Orchestrator._reprovision_mapping ("area." +:+ area_id)
         (Orchestrator._provision_area hass time_time area_id))
  ∧ (∀ floor_id,
       Orchestrator.async_sync_entity (W:=W) hass time_time ("floor." +:+ floor_id)
       = Orchestrator._reprovision_mapping ("floor." +:+ floor_id)
           (Orchestrator._provision_floor hass time_time floor_id))
  ∧ (∀ label_id,
       Orchestrator.async_sync_entity (W:=W) hass time_time ("label." +:+ label_id)
       = Orchestrator._reprovision_mapping ("label." +:+ label_id)
           (Orchestrator._provision_label hass time_time label_id))
  ∧ (∀ group_id,
       startswith group_id "group." = true →
       Orchestrator.async_sync_entity (W:=W) hass time_time group_id
       = Orchestrator._on_group_updated hass time_time group_id)
  ∧ (∀ scene_id,
       startswith scene_id "scene." = true →
       Orchestrator.async_sync_entity (W:=W) hass time_time scene_id
       = Orchestrator._on_scene_updated hass time_time scene_id)
  ∧ (∀ entity_id,
       (∀ prefix, prefix ∈ ["group."; "scene."; "area."; "floor."; "label."] →
                  startswith entity_id prefix = false) →
       Orchestrator.async_sync_entity (W:=W) hass time_time entity_id
       = SE.bind (Orchestrator._cleanup_resources entity_id) (λ _, SE.ret tt)).
Proof.
  split_and!.
  - intros area_id. unfold Orchestrator.async_sync_entity.
    change (startswith ("area." +:+ area_id) "group.") with false.
    change (startswith ("area." +:+ area_id) "scene.") with false.
    rewrite (startswith_prefixed "area." area_id). reflexivity.
  - intros floor_id. unfold Orchestrator.async_sync_entity.
    change (startswith ("floor." +:+ floor_id) "group.") with false.
    change (startswith ("floor." +:+ floor_id) "scene.") with false.
    change (startswith ("floor." +:+ floor_id) "area.") with false.
    rewrite (startswith_prefixed "floor." floor_id). reflexivity.
  - intros label_id. unfold Orchestrator.async_sync_entity.
    change (startswith ("label." +:+ label_id) "group.") with false.
    change (startswith ("label." +:+ label_id) "scene.") with false.
    change (startswith ("label." +:+ label_id) "area.") with false.
    change (startswith ("label." +:+ label_id) "floor.") with false.
    rewrite (startswith_prefixed "label." label_id). reflexivity.
  - intros group_id Hg. unfold Orchestrator.async_sync_entity.
    by rewrite Hg.
  - intros scene_id Hs. unfold Orchestrator.async_sync_entity.
    by rewrite (startswith_scene_not_group _ Hs), Hs.
  - intros entity_id Hnone. unfold Orchestrator.async_sync_entity.
    rewrite !Hnone
      by (by repeat first [apply list_elem_of_here | apply list_elem_of_further]).
    reflexivity.
Qed.

